(** * Quartz TUI: configuration editor model

    A shallow embedding of the in-memory model behind the Settings and
    Layout panels of the Quartz terminal UI (`SettingsPanel.tsx`,
    `LayoutPanel.tsx`, `SetupWizard.tsx`, `lib/config.ts`), together with
    the properties of it that the design document states.

    Conventions of the embedding.
    - A configuration document is a tree of JSON values, as produced by
      `YAML.parse` / `JSON.parse`: null, booleans, numbers, strings, arrays
      and objects.  `undefined` is never a member of a document; it only
      arises as the result of a lookup that finds nothing, which is
      rendered here as [None] or [Undefined].
    - Numbers are integers ([Z]) that a double holds exactly.
    - An object is the list of its own enumerable properties in
      enumeration order: the keys that are array indices first, in
      ascending order, then the other keys in the order in which they
      were added.  A JavaScript object holds every key once; this is the
      predicate [wf].  A property read follows the prototype chain: a
      key that is not an own key finds the member of `Object.prototype`
      (or of `Array.prototype`) of that name, if there is one; what a
      read can return is a [ref].
    - Strings are sequences of code units below 256.
    - A call that throws is rendered by the [outcome] it returns. *)

From Stdlib Require Import ZArith Ascii String Sorted.
From stdpp Require Import base list strings gmap.

Open Scope string_scope.
Open Scope list_scope.
Open Scope Z_scope.

(** ** JavaScript values *)

Module Js.

#[local] Unset Elimination Schemes.
Inductive value : Type :=
| VNull
| VBool (b : bool)
| VNum (n : Z)
| VStr (s : string)
| VArr (items : list value)
| VObj (props : list (string * value)).
#[local] Set Elimination Schemes.

Abbreviation object := (list (string * value)).

(** The result of `typeof`. *)
Inductive jstype : Type :=
| TUndefined | TObject | TBoolean | TNumber | TString | TFunction.

Definition typeof (v : value) : jstype :=
  match v with
  | VNull => TObject
  | VBool _ => TBoolean
  | VNum _ => TNumber
  | VStr _ => TString
  | VArr _ => TObject
  | VObj _ => TObject
  end.

(** `typeof x` where [x] may be `undefined`. *)
Definition typeofU (v : option value) : jstype :=
  match v with
  | Some v => typeof v
  | None => TUndefined
  end.

Definition jstype_eqb (s t : jstype) : bool :=
  match s, t with
  | TUndefined, TUndefined | TObject, TObject | TBoolean, TBoolean
  | TNumber, TNumber | TString, TString | TFunction, TFunction => true
  | _, _ => false
  end.

Definition isNull (v : value) : bool :=
  match v with VNull => true | _ => false end.

Definition isArray (v : value) : bool :=
  match v with VArr _ => true | _ => false end.

(** `value !== null && typeof value === "object" && !Array.isArray(value)` *)
Definition isPlainObject (v : value) : bool :=
  match v with VObj _ => true | _ => false end.

(** `obj[key]` for an own property. *)
Fixpoint getProp (key : string) (o : object) : option value :=
  match o with
  | [] => None
  | (k, v) :: rest => if String.eqb k key then Some v else getProp key rest
  end.

(** Array indices: the canonical decimal numerals of the integers from
    0 to 2^32 - 2 ("0", "1", ..., without leading zeros). *)
Definition isDecimalDigit (c : ascii) : bool :=
  let n := nat_of_ascii c in ((48 <=? n) && (n <=? 57))%nat.

Definition decimalValue (ds : list ascii) : Z :=
  fold_left (fun acc c => 10 * acc + (Z.of_nat (nat_of_ascii c) - 48)) ds 0.

Definition arrayIndex (key : string) : option nat :=
  let l := list_ascii_of_string key in
  match l with
  | [] => None
  | c :: rest =>
      let canonical :=
        negb (Ascii.eqb c "0") || match rest with [] => true | _ => false end in
      if forallb isDecimalDigit l && canonical
         && (decimalValue l <? 2 ^ 32 - 1)
      then Some (Z.to_nat (decimalValue l))
      else None
  end.

(** `obj[key]`, and own properties defined and deleted, for a record
    whose values are of any one type. *)
Definition getKey {A} (key : string) (l : list (string * A)) : option A :=
  snd <$> find (fun kv => String.eqb kv.1 key) l.

Definition hasKey {A} (key : string) (l : list (string * A)) : bool :=
  existsb (fun kv => String.eqb kv.1 key) l.

Fixpoint replaceKey {A} (key : string) (v : A) (l : list (string * A))
  : list (string * A) :=
  match l with
  | [] => []
  | (k, w) :: rest =>
      if String.eqb k key then (k, v) :: rest
      else (k, w) :: replaceKey key v rest
  end.

(** The place of a new array index [n] among the keys: after the
    smaller indices, before the larger ones and before every key that
    is not an index. *)
Fixpoint insertIndex {A} (n : nat) (key : string) (v : A)
    (l : list (string * A)) : list (string * A) :=
  match l with
  | [] => [(key, v)]
  | (k, w) :: rest =>
      match arrayIndex k with
      | Some m =>
          if (m <? n)%nat then (k, w) :: insertIndex n key v rest
          else (key, v) :: l
      | None => (key, v) :: l
      end
  end.

(** The own property [key] defined as [v]: an existing property keeps
    its place in the enumeration order; a new one goes last, unless it
    is an array index, which goes among the indices. *)
Definition setKey {A} (key : string) (v : A) (l : list (string * A))
  : list (string * A) :=
  if hasKey key l then replaceKey key v l
  else
    match arrayIndex key with
    | Some n => insertIndex n key v l
    | None => l ++ [(key, v)]
    end.

(** `delete obj[key]` *)
Definition deleteKey {A} (key : string) (l : list (string * A))
  : list (string * A) :=
  filter (fun kv => negb (String.eqb kv.1 key)) l.

(** `{ ...obj, [key]: v }`, and `obj[key] = v` where [key] is an own key
    or names no accessor of the prototype. *)
Definition setProp (key : string) (v : value) (o : object) : object :=
  setKey key v o.

(** `Object.keys(obj)` *)
Definition keys (o : object) : list string := map fst o.

(** Every object of the tree holds each of its keys once. *)
Fixpoint wf (v : value) : Prop :=
  match v with
  | VArr items => (fix all (l : list value) : Prop :=
                     match l with
                     | [] => True
                     | x :: r => wf x /\ all r
                     end) items
  | VObj props => NoDup (keys props) /\
                  (fix all (l : object) : Prop :=
                     match l with
                     | [] => True
                     | (_, x) :: r => wf x /\ all r
                     end) props
  | _ => True
  end.

(** `a === b` for two values that live in different documents: primitives
    compare by value, while an array or an object is identical only to
    itself. *)
Definition strictEq (a b : value) : bool :=
  match a, b with
  | VNull, VNull => true
  | VBool x, VBool y => Bool.eqb x y
  | VNum x, VNum y => Z.eqb x y
  | VStr x, VStr y => String.eqb x y
  | _, _ => false
  end.


(** `arr[i]` for a number [i]. *)
Definition at_ {A} (l : list A) (i : Z) : option A :=
  if i <? 0 then None else l !! Z.to_nat i.

(** How a call can end. *)
Inductive outcome (A : Type) : Type :=
| Done (a : A)   (* returns normally *)
| TypeError      (* a property of `null` or `undefined` is touched, or a
                    value that is not a function is called *)
| OffModel.      (* the call throws another error, or what it leaves
                    behind is not a document of the value model: an
                    array with a named property or with holes, an object
                    whose prototype was replaced or a prototype that was
                    written to, a function stored as a value, a number
                    that is not an integer held exactly, a value of
                    another type where the record of the model has a
                    string or a number *)
Arguments Done {A} a.
Arguments TypeError {A}.
Arguments OffModel {A}.

Definition bind {A B} (m : outcome A) (f : A -> outcome B) : outcome B :=
  match m with
  | Done a => f a
  | TypeError => TypeError
  | OffModel => OffModel
  end.

(** ** Property reads

    The names of the members of `Object.prototype`, and of
    `Array.prototype` (ECMAScript 2023). *)
Definition objectPrototypeNames : list string :=
  [ "constructor"; "__defineGetter__"; "__defineSetter__"; "hasOwnProperty";
    "__lookupGetter__"; "__lookupSetter__"; "isPrototypeOf";
    "propertyIsEnumerable"; "toString"; "valueOf"; "__proto__";
    "toLocaleString" ].

Definition arrayPrototypeNames : list string :=
  [ "constructor"; "at"; "concat"; "copyWithin"; "fill"; "find"; "findIndex";
    "findLast"; "findLastIndex"; "lastIndexOf"; "pop"; "push"; "reverse";
    "shift"; "unshift"; "slice"; "sort"; "splice"; "includes"; "indexOf";
    "join"; "keys"; "entries"; "values"; "forEach"; "filter"; "flat";
    "flatMap"; "map"; "every"; "some"; "reduce"; "reduceRight";
    "toLocaleString"; "toString"; "toReversed"; "toSorted"; "toSpliced";
    "with" ].

(** What a property read can return: a value of the document,
    `undefined`, a function that a prototype holds, or one of the two
    prototypes themselves (which is what `__proto__` reads). *)
Inductive ref : Type :=
| Val (v : value)
| Undefined
| Builtin
| ObjectPrototype
| ArrayPrototype.

Definition typeofR (r : ref) : jstype :=
  match r with
  | Val v => typeof v
  | Undefined => TUndefined
  | Builtin => TFunction
  | ObjectPrototype | ArrayPrototype => TObject
  end.

Definition isNullR (r : ref) : bool :=
  match r with Val v => isNull v | _ => false end.

(** `Array.isArray(r)`: `Array.prototype` is an array. *)
Definition isArrayR (r : ref) : bool :=
  match r with
  | Val v => isArray v
  | ArrayPrototype => true
  | _ => false
  end.

(** `a === r` for a value [a] of a document. *)
Definition strictEqR (a : value) (r : ref) : bool :=
  match r with
  | Val b => strictEq a b
  | _ => false
  end.

(** A key looked up in `Object.prototype`, on behalf of an object whose
    prototype is [proto]: `__proto__` is an accessor that returns the
    prototype, the other members are functions. *)
Definition fromObjectPrototype (key : string) (proto : ref) : ref :=
  if String.eqb key "__proto__" then proto
  else if existsb (String.eqb key) objectPrototypeNames then Builtin
  else Undefined.

(** `obj[key]` for a plain object. *)
Definition readProp (key : string) (o : object) : ref :=
  match getProp key o with
  | Some v => Val v
  | None => fromObjectPrototype key ObjectPrototype
  end.

(** `arr[key]` for an array whose prototype is [proto]
    (`Array.prototype` for an array of a document). *)
Definition readItem (key : string) (items : list value) (proto : ref) : ref :=
  match arrayIndex key with
  | Some i =>
      match items !! i with
      | Some v => Val v
      | None => Undefined
      end
  | None =>
      if String.eqb key "length" then Val (VNum (Z.of_nat (length items)))
      else if existsb (String.eqb key) arrayPrototypeNames then Builtin
      else fromObjectPrototype key proto
  end.

(** `current[key]` for [current] of type "object" and not null. *)
Definition read (key : string) (current : ref) : ref :=
  match current with
  | Val (VObj o) => readProp key o
  | Val (VArr items) => readItem key items ArrayPrototype
  | ObjectPrototype => fromObjectPrototype key (Val VNull)
  | ArrayPrototype => readItem key [] ObjectPrototype
  | _ => Undefined
  end.

(** `key in current` for [current] of type "object" and not null. *)
Definition hasProperty (key : string) (current : ref) : bool :=
  match read key current with
  | Undefined =>
      (* an own key never reads `undefined` in a document; an index
         beyond the array and a name no prototype holds are absent *)
      false
  | _ => true
  end.

End Js.

Export Js.

(** ** Strings and the built-ins the panels call on them *)

Module Str.

Definition explode (s : string) : list ascii := list_ascii_of_string s.
Definition implode (l : list ascii) : string := string_of_list_ascii l.

(** `parts.join(sep)` *)
Fixpoint join (sep : string) (parts : list string) : string :=
  match parts with
  | [] => ""
  | [p] => p
  | p :: rest => p +:+ sep +:+ join sep rest
  end.

(** White space and line terminators, as `trim` and `parseInt` skip them:
    TAB, LF, VT, FF, CR, SP and NBSP. *)
Definition isWhiteSpace (c : ascii) : bool :=
  let n := nat_of_ascii c in
  ((9 <=? n) && (n <=? 13) || (n =? 32) || (n =? 160))%nat.

(** Line terminators, which `.` does not match: LF and CR. *)
Definition isLineTerminator (c : ascii) : bool :=
  let n := nat_of_ascii c in ((n =? 10) || (n =? 13))%nat.

Fixpoint dropWhile {A} (p : A -> bool) (l : list A) : list A :=
  match l with
  | [] => []
  | x :: r => if p x then dropWhile p r else l
  end.

Fixpoint takeWhile {A} (p : A -> bool) (l : list A) : list A :=
  match l with
  | [] => []
  | x :: r => if p x then x :: takeWhile p r else []
  end.

Definition trimStart (l : list ascii) : list ascii := dropWhile isWhiteSpace l.
Definition trimEnd (l : list ascii) : list ascii :=
  rev (dropWhile isWhiteSpace (rev l)).

(** `s.trim()` *)
Definition trim (s : string) : string :=
  implode (trimEnd (trimStart (explode s))).

Definition isDigit (c : ascii) : bool :=
  let n := nat_of_ascii c in ((48 <=? n) && (n <=? 57))%nat.

Definition digitValue (c : ascii) : Z := Z.of_nat (nat_of_ascii c) - 48.

(** The mathematical value of a run of decimal digits. *)
Definition digitsValue (ds : list ascii) : Z :=
  fold_left (fun acc c => 10 * acc + digitValue c) ds 0.

(** What `parseInt` returns: `NaN`, an integer that a double holds
    exactly, or the double nearest to a longer run of digits. *)
Inductive parsed : Type :=
| NaN
| Int (n : Z)
| Rounded.

(** `parseInt(s, 10)`: skip leading white space, read an optional sign,
    then the longest run of decimal digits.  Every integer up to 2^53 in
    magnitude is a double; beyond, the result is rounded. *)
Definition parseInt (s : string) : parsed :=
  let body := trimStart (explode s) in
  let '(sign, rest) :=
    match body with
    | "-"%char :: r => (-1, r)
    | "+"%char :: r => (1, r)
    | _ => (1, body)
    end in
  match takeWhile isDigit rest with
  | [] => NaN
  | ds =>
      if digitsValue ds <=? 2 ^ 53 then Int (sign * digitsValue ds)
      else Rounded
  end.

(** `String(n)` for an integer. *)
Definition digitChar (d : Z) : ascii := ascii_of_nat (Z.to_nat (48 + d)).

Fixpoint natDigits (fuel : nat) (n : Z) (acc : list ascii) : list ascii :=
  match fuel with
  | O => acc
  | S fuel' =>
      let acc' := digitChar (n mod 10) :: acc in
      if n <? 10 then acc' else natDigits fuel' (n / 10) acc'
  end.

Definition stringOfZ (n : Z) : string :=
  if n <? 0 then implode ("-"%char :: natDigits (Z.to_nat (- n)) (- n) [])
  else implode (natDigits (S (Z.to_nat n)) n []).

End Str.

(** ** Regular expressions

    The two colour patterns of the Settings panel are written with the
    operators below and run by derivatives.  `test` on a pattern
    anchored with `^` and `$` asks for a match of the whole string. *)

Module Regex.

Inductive regex : Type :=
| Void
| Eps
| Class (p : ascii -> bool)
| Cat (r s : regex)
| Alt (r s : regex)
| Star (r : regex).

Fixpoint nullable (r : regex) : bool :=
  match r with
  | Void => false
  | Eps => true
  | Class _ => false
  | Cat r s => nullable r && nullable s
  | Alt r s => nullable r || nullable s
  | Star _ => true
  end.

Fixpoint deriv (c : ascii) (r : regex) : regex :=
  match r with
  | Void => Void
  | Eps => Void
  | Class p => if p c then Eps else Void
  | Cat r s =>
      if nullable r then Alt (Cat (deriv c r) s) (deriv c s)
      else Cat (deriv c r) s
  | Alt r s => Alt (deriv c r) (deriv c s)
  | Star r => Cat (deriv c r) (Star r)
  end.

Fixpoint matches (r : regex) (l : list ascii) : bool :=
  match l with
  | [] => nullable r
  | c :: rest => matches (deriv c r) rest
  end.

(** `/^r$/.test(s)` *)
Definition test (r : regex) (s : string) : bool := matches r (Str.explode s).

(** What it means for a string to belong to a pattern. *)
Inductive Matches : regex -> list ascii -> Prop :=
| MEps : Matches Eps []
| MClass p c : p c = true -> Matches (Class p) [c]
| MCat r s u v : Matches r u -> Matches s v -> Matches (Cat r s) (u ++ v)
| MAltL r s u : Matches r u -> Matches (Alt r s) u
| MAltR r s u : Matches s u -> Matches (Alt r s) u
| MStarNil r : Matches (Star r) []
| MStarCons r u v : Matches r u -> Matches (Star r) v -> Matches (Star r) (u ++ v).

(** Derived operators. *)
Definition Lit (c : ascii) : regex := Class (Ascii.eqb c).

(** `c` under the `i` flag: both cases of an ASCII letter. *)
Definition lower (c : ascii) : ascii :=
  let n := nat_of_ascii c in
  if ((65 <=? n) && (n <=? 90))%nat then ascii_of_nat (n + 32) else c.

Definition LitI (c : ascii) : regex := Class (fun x => Ascii.eqb (lower x) (lower c)).

Fixpoint WordI (w : list ascii) : regex :=
  match w with
  | [] => Eps
  | c :: rest => Cat (LitI c) (WordI rest)
  end.

Definition Opt (r : regex) : regex := Alt r Eps.
Definition Plus (r : regex) : regex := Cat r (Star r).

Fixpoint Repeat (n : nat) (r : regex) : regex :=
  match n with
  | O => Eps
  | S n' => Cat r (Repeat n' r)
  end.

(** `.` *)
Definition Dot : regex := Class (fun c => negb (Str.isLineTerminator c)).

(** `[0-9a-fA-F]` *)
Definition isHexDigit (c : ascii) : bool :=
  let n := nat_of_ascii c in
  ((48 <=? n) && (n <=? 57) || (97 <=? n) && (n <=? 102) || (65 <=? n) && (n <=? 70))%nat.

Definition Hex : regex := Class isHexDigit.

End Regex.

(** ** The configuration files (`lib/config.ts`) *)

Module Config.

(** The four files the module looks at, relative to the project root. *)
Inductive path : Type :=
| CONFIG_YAML_PATH                  (* quartz.config.yaml *)
| LEGACY_PLUGINS_JSON_PATH          (* quartz.plugins.json *)
| DEFAULT_CONFIG_YAML_PATH          (* quartz.config.default.yaml *)
| LEGACY_DEFAULT_PLUGINS_JSON_PATH. (* quartz.plugins.default.json *)

(** A file is absent ([None]), present but not readable as a document
    ([Some None]: the parser throws or yields nothing), or holds a
    document.  Serialisation is outside the model: a written file holds
    the data that was handed to the serialiser. *)
Abbreviation file := (option (option object)).

Record fs : Type := {
  configYaml : file;
  legacyPluginsJson : file;
  defaultConfigYaml : file;
  legacyDefaultPluginsJson : file;
}.

Definition fileAt (d : fs) (p : path) : file :=
  match p with
  | CONFIG_YAML_PATH => configYaml d
  | LEGACY_PLUGINS_JSON_PATH => legacyPluginsJson d
  | DEFAULT_CONFIG_YAML_PATH => defaultConfigYaml d
  | LEGACY_DEFAULT_PLUGINS_JSON_PATH => legacyDefaultPluginsJson d
  end.

(** `fs.existsSync(p)` *)
Definition existsSync (d : fs) (p : path) : bool :=
  match fileAt d p with Some _ => true | None => false end.

Definition resolveConfigPath (d : fs) : path :=
  if existsSync d CONFIG_YAML_PATH then CONFIG_YAML_PATH
  else if existsSync d LEGACY_PLUGINS_JSON_PATH then LEGACY_PLUGINS_JSON_PATH
  else CONFIG_YAML_PATH.

Definition resolveDefaultConfigPath (d : fs) : path :=
  if existsSync d DEFAULT_CONFIG_YAML_PATH then DEFAULT_CONFIG_YAML_PATH
  else if existsSync d LEGACY_DEFAULT_PLUGINS_JSON_PATH
       then LEGACY_DEFAULT_PLUGINS_JSON_PATH
  else DEFAULT_CONFIG_YAML_PATH.

Definition readFileAsData (d : fs) (p : path) : option object :=
  match fileAt d p with
  | None => None
  | Some None => None
  | Some (Some data) => Some data
  end.

Definition writeDataToFile (d : fs) (p : path) (data : object) : fs :=
  match p with
  | CONFIG_YAML_PATH =>
      {| configYaml := Some (Some data);
         legacyPluginsJson := legacyPluginsJson d;
         defaultConfigYaml := defaultConfigYaml d;
         legacyDefaultPluginsJson := legacyDefaultPluginsJson d |}
  | LEGACY_PLUGINS_JSON_PATH =>
      {| configYaml := configYaml d;
         legacyPluginsJson := Some (Some data);
         defaultConfigYaml := defaultConfigYaml d;
         legacyDefaultPluginsJson := legacyDefaultPluginsJson d |}
  | DEFAULT_CONFIG_YAML_PATH =>
      {| configYaml := configYaml d;
         legacyPluginsJson := legacyPluginsJson d;
         defaultConfigYaml := Some (Some data);
         legacyDefaultPluginsJson := legacyDefaultPluginsJson d |}
  | LEGACY_DEFAULT_PLUGINS_JSON_PATH =>
      {| configYaml := configYaml d;
         legacyPluginsJson := legacyPluginsJson d;
         defaultConfigYaml := defaultConfigYaml d;
         legacyDefaultPluginsJson := Some (Some data) |}
  end.

Definition readPluginsJson (d : fs) : option object :=
  readFileAsData d (resolveConfigPath d).

(** `const { $schema, ...rest } = data`: the own properties of [data]
    other than `$schema`, in their order. *)
Definition withoutSchema (data : object) : object :=
  filter (fun kv => negb (String.eqb kv.1 "$schema")) data.

(** The data `writePluginsJson` hands to the serialiser. *)
Definition writePluginsJson (d : fs) (data : object) : fs :=
  let rest := withoutSchema data in
  writeDataToFile d CONFIG_YAML_PATH rest.

Definition readDefaultPluginsJson (d : fs) : option object :=
  readFileAsData d (resolveDefaultConfigPath d).

(** `(pluginsJson?.configuration as Record<string, unknown>) ?? null`.
    The cast is taken at its word: a `configuration` that is not an
    object is outside the declared type and read as absent. *)
Definition configurationOf (doc : option object) : option object :=
  match doc with
  | Some json =>
      match getProp "configuration" json with
      | Some (VObj c) => Some c
      | _ => None
      end
  | None => None
  end.

Definition getGlobalConfig (d : fs) : option object :=
  configurationOf (readPluginsJson d).

(** `{ ...a, ...updates }` for a single-key [updates]. *)
Definition spreadSet (a : option value) (key : string) (v : value) : object :=
  match a with
  | Some (VObj c) => setProp key v c
  | _ => [(key, v)]
  end.

(** `updateGlobalConfig({ [key]: value })` *)
Definition updateGlobalConfig (d : fs) (key : string) (v : value) : fs * bool :=
  match readPluginsJson d with
  | None => (d, false)
  | Some json =>
      let json' :=
        setProp "configuration"
          (VObj (spreadSet (getProp "configuration" json) key v)) json in
      (writePluginsJson d json', true)
  end.

Definition configExists (d : fs) : bool :=
  existsSync d CONFIG_YAML_PATH || existsSync d LEGACY_PLUGINS_JSON_PATH.

Definition colorsLight : object :=
  [ ("light", VStr "#faf8f8"); ("lightgray", VStr "#e5e5e5");
    ("gray", VStr "#b8b8b8"); ("darkgray", VStr "#4e4e4e");
    ("dark", VStr "#2b2b2b"); ("secondary", VStr "#284b63");
    ("tertiary", VStr "#84a59d");
    ("highlight", VStr "rgba(143, 159, 169, 0.15)");
    ("textHighlight", VStr "#fff23688") ].

Definition colorsDark : object :=
  [ ("light", VStr "#161618"); ("lightgray", VStr "#393639");
    ("gray", VStr "#646464"); ("darkgray", VStr "#d4d4d4");
    ("dark", VStr "#ebebec"); ("secondary", VStr "#7b97aa");
    ("tertiary", VStr "#84a59d");
    ("highlight", VStr "rgba(143, 159, 169, 0.15)");
    ("textHighlight", VStr "#fff23688") ].

(** The baseline global settings, written out in `createConfigFromDefault`
    and again in the setup wizard. *)
Definition baselineConfiguration : object :=
  [ ("pageTitle", VStr "Quartz");
    ("enableSPA", VBool true);
    ("enablePopovers", VBool true);
    ("analytics", VObj [("provider", VStr "plausible")]);
    ("locale", VStr "en-US");
    ("baseUrl", VStr "quartz.jzhao.xyz");
    ("ignorePatterns", VArr [VStr "private"; VStr "templates"; VStr ".obsidian"]);
    ("defaultDateType", VStr "created");
    ("theme", VObj
       [ ("cdnCaching", VBool true);
         ("typography", VObj
            [ ("header", VStr "Schibsted Grotesk");
              ("body", VStr "Source Sans Pro");
              ("code", VStr "IBM Plex Mono") ]);
         ("colors", VObj
            [ ("lightMode", VObj colorsLight);
              ("darkMode", VObj colorsDark) ]) ]) ].

Definition minimal : object :=
  [ ("configuration", VObj baselineConfiguration);
    ("plugins", VArr []);
    ("layout", VObj [("groups", VObj []); ("byPageType", VObj [])]) ].

(** Returns the files after the call and the document it returned. *)
Definition createConfigFromDefault (d : fs) : fs * object :=
  match readDefaultPluginsJson d with
  | None => (writePluginsJson d minimal, minimal)
  | Some defaultData =>
      let rest := withoutSchema defaultData in
      (writePluginsJson d rest, rest)
  end.

End Config.

(** ** The first-run wizard (`components/SetupWizard.tsx`) *)

Module SetupWizard.
Import Config.

Inductive Choice : Type := ChoiceDefault | ChoiceEmpty.

Record choiceItem : Type := {
  key : Choice;
  label : string;
  description : string;
}.

Definition choices (d : fs) : list choiceItem :=
  let hasDefault :=
    match readDefaultPluginsJson d with Some _ => true | None => false end in
  (if hasDefault
   then [ {| key := ChoiceDefault;
             label := "Use default configuration";
             description :=
               "Copy quartz.config.default.yaml as your starting config" |} ]
   else [])
  ++ [ {| key := ChoiceEmpty;
          label := "Start with empty configuration";
          description := "Create a minimal config with no plugins" |} ].

(** The options handed to the `select` widget. *)
Definition selectOptions (d : fs) : list (string * string * Choice) :=
  map (fun c => (label c, description c, key c)) (choices d).

(** The document the "empty" branch passes to `writePluginsJson`. *)
Definition emptyDocument : object :=
  ("$schema", VStr "./quartz/plugins/quartz-plugins.schema.json") :: minimal.

(** `onSelect`: the files afterwards, and whether `onComplete` ran. *)
Definition onSelect (d : fs) (option : option Choice) : fs * bool :=
  match option with
  | None => (d, false)
  | Some ChoiceDefault => ((createConfigFromDefault d).1, true)
  | Some ChoiceEmpty => (writePluginsJson d emptyDocument, true)
  end.

End SetupWizard.

(** ** What the panels share with the application shell (`App.tsx`) *)

Module App.

Inductive NoticeType : Type := Success | Error | Info.

Record Notice : Type := {
  message : string;
  noticeType : NoticeType;
}.

End App.

(** ** The Settings panel: helpers (`panels/SettingsPanel.tsx`) *)

Module Settings.
Import Config.

Inductive View : Type :=
| ViewList | EditString | EditBoolean | EditEnum | EditArray | EditColor.

Record FlatEntry : Type := {
  keyPath : list string;
  displayKey : string;
  entryValue : value;
  depth : nat;
  isObject : bool;
}.

Inductive FieldType : Type :=
| FBoolean | FString | FEnum | FArray | FNumber | FObject | FColor.

Record FieldSchema : Type := {
  type : FieldType;
  enumValues : option (list string);
}.

(** `s.startsWith(p)` *)
Fixpoint startsWith (p s : list ascii) : bool :=
  match p, s with
  | [], _ => true
  | c :: p', d :: s' => Ascii.eqb c d && startsWith p' s'
  | _ :: _, [] => false
  end.

Definition getFieldSchema (keyPath : list string) : FieldSchema :=
  let path := Str.join "." keyPath in
  if existsb (String.eqb path) ["enableSPA"; "enablePopovers"; "theme.cdnCaching"]
  then {| type := FBoolean; enumValues := None |}
  else if String.eqb path "theme.fontOrigin"
  then {| type := FEnum; enumValues := Some ["googleFonts"; "local"] |}
  else if String.eqb path "defaultDateType"
  then {| type := FEnum; enumValues := Some ["created"; "modified"; "published"] |}
  else if String.eqb path "ignorePatterns"
  then {| type := FArray; enumValues := None |}
  else if startsWith (Str.explode "theme.colors.lightMode.") (Str.explode path)
          || startsWith (Str.explode "theme.colors.darkMode.") (Str.explode path)
  then {| type := FColor; enumValues := None |}
  else {| type := FString; enumValues := None |}.

Import Regex.

(** `/^#([0-9a-fA-F]{3}|[0-9a-fA-F]{6}|[0-9a-fA-F]{8})$/` *)
Definition HEX_COLOR_REGEX : regex :=
  Cat (Lit "#") (Alt (Repeat 3 Hex) (Alt (Repeat 6 Hex) (Repeat 8 Hex))).

(** `/^(rgba?|hsla?|hwb|lab|lch|color)\(.+\)$/i` *)
Definition CSS_COLOR_FUNCTION_REGEX : regex :=
  Cat (Alt (Cat (WordI (Str.explode "rgb")) (Opt (LitI "a")))
      (Alt (Cat (WordI (Str.explode "hsl")) (Opt (LitI "a")))
      (Alt (WordI (Str.explode "hwb"))
      (Alt (WordI (Str.explode "lab"))
      (Alt (WordI (Str.explode "lch"))
           (WordI (Str.explode "color")))))))
      (Cat (Lit "(") (Cat (Plus Dot) (Lit ")"))).

Definition isValidColorValue (value : string) : bool :=
  let trimmed := Str.trim value in
  if String.eqb trimmed "" then false
  else if test HEX_COLOR_REGEX trimmed then true
  else test CSS_COLOR_FUNCTION_REGEX trimmed.

(** The entries below an object, depth first, in enumeration order. *)
Fixpoint flattenValue (v : value) (prefix : list string) (depth : nat)
  : list FlatEntry :=
  match v with
  | VObj obj =>
      (fix entries (l : object) : list FlatEntry :=
         match l with
         | [] => []
         | (key, value) :: rest =>
             let keyPath := prefix ++ [key] in
             (if isPlainObject value
              then {| keyPath := keyPath; displayKey := key;
                      entryValue := value; depth := depth; isObject := true |}
                   :: flattenValue value keyPath (S depth)
              else [ {| keyPath := keyPath; displayKey := key;
                        entryValue := value; depth := depth;
                        isObject := false |} ])
             ++ entries rest
         end) obj
  | _ => []
  end.

Definition flattenConfig (obj : object) : list FlatEntry :=
  flattenValue (VObj obj) [] 0.

(** `current[key] = v` for [current] of type "object".  On an object
    the assignment replaces an own property or defines a new one, except
    that `__proto__`, where it is not an own key, is the accessor of
    `Object.prototype`: its setter ignores a primitive and makes an
    object or null the prototype of [current].  On an array the
    assignment replaces an element or appends one; an index further out
    leaves holes, `length` resizes the array or throws a RangeError,
    `__proto__` is the same accessor as on an object, and any other key
    becomes a property that the array carries beside its elements. *)
Definition store (key : string) (v : value) (current : value) : outcome value :=
  match current with
  | VObj o =>
      if String.eqb key "__proto__" && negb (hasKey key o)
      then if jstype_eqb (typeof v) TObject then OffModel else Done current
      else Done (VObj (setProp key v o))
  | VArr items =>
      match arrayIndex key with
      | Some i =>
          if (i <? length items)%nat then Done (VArr (<[i := v]> items))
          else if (i =? length items)%nat then Done (VArr (items ++ [v]))
          else OffModel
      | None =>
          if String.eqb key "__proto__"
             && negb (jstype_eqb (typeof v) TObject)
          then Done current
          else OffModel
      end
  | VNull => TypeError
  | _ => OffModel
  end.

(** The node the loop of `setNestedValue` steps into at [key]: a fresh
    `{}` when `!(key in current) || typeof current[key] !== "object"`,
    the existing member otherwise.  The member that `__proto__` reads
    where it is not an own key is the prototype, which is no node of the
    document. *)
Definition stepInto (key : string) (current : value) : outcome value :=
  let member := read key (Val current) in
  if negb (hasProperty key (Val current))
     || negb (jstype_eqb (typeofR member) TObject)
  then Done (VObj [])
  else
    match member with
    | Val child => Done child
    | _ => OffModel
    end.

(** `setNestedValue(obj, keyPath, value)`, returning the tree that the
    in-place update leaves behind: the node stepped into is updated and
    is the member of [current] at [key] afterwards.  With an empty path
    the loop does not run and the final store uses the key
    `keyPath[-1]`, which is "undefined". *)
Fixpoint setNestedValue (current : value) (keyPath : list string) (v : value)
  : outcome value :=
  match keyPath with
  | [] => store "undefined" v current
  | [last] => store last v current
  | key :: rest =>
      match current with
      | VObj _ | VArr _ =>
          bind (stepInto key current) (fun node =>
          bind (setNestedValue node rest v) (fun child =>
          store key child current))
      | VNull => TypeError
      | _ => OffModel
      end
  end.

(** The loop of `getDefaultSettingValue`. *)
Fixpoint walk (current : ref) (keyPath : list string) : ref :=
  match keyPath with
  | [] => current
  | key :: rest =>
      if isNullR current || negb (jstype_eqb (typeofR current) TObject)
      then Undefined
      else walk (read key current) rest
  end.

Definition getDefaultSettingValue (defaultConfig : option object)
    (keyPath : list string) : ref :=
  match defaultConfig with
  | None => Undefined
  | Some cfg => walk (Val (VObj cfg)) keyPath
  end.

(** `b.length`, `b[i]` and `Object.keys(b)` for the second argument of
    `deepEqual` where the first is an array, or an object. *)
Definition lengthR (b : ref) : nat :=
  match b with
  | Val (VArr ys) => length ys
  | _ => O
  end.

Definition atR (b : ref) (i : nat) : ref :=
  match b with
  | Val (VArr ys) =>
      match ys !! i with
      | Some y => Val y
      | None => Undefined
      end
  | _ => Undefined
  end.

Definition keysR (b : ref) : list string :=
  match b with
  | Val (VObj pb) => keys pb
  | _ => []
  end.

(** `deepEqual(a, b)`.  The first argument is a document value at every
    call (an entry's value, an element of an array, the value under a
    key of `a`); the second is the result of a property read. *)
Fixpoint deepEqual (a : value) (b : ref) {struct a} : bool :=
  if strictEqR a b then true
  else if isNull a || isNullR b then false
  else if negb (jstype_eqb (typeof a) (typeofR b)) then false
  else if negb (jstype_eqb (typeof a) TObject) then false
  else if negb (Bool.eqb (isArray a) (isArrayR b)) then false
  else
    match a with
    | VArr xs =>
        if negb (length xs =? lengthR b)%nat then false
        else
          (fix every (l : list value) (i : nat) : bool :=
             match l with
             | [] => true
             | val :: rest => deepEqual val (atR b i) && every rest (S i)
             end) xs O
    | VObj pa =>
        let keysA := keys pa in
        let keysB := keysR b in
        if negb (length keysA =? length keysB)%nat then false
        else
          (fix every (l : object) : bool :=
             match l with
             | [] => true
             | (key, val) :: rest =>
                 deepEqual val (read key b) && every rest
             end) pa
    | _ => false
    end.

(** Deep structural equality, as the design document words it: equal
    primitives; arrays of equal length, equal element by element; objects
    with equal key sets and equal values under every key. *)
Inductive DeepEq : value -> value -> Prop :=
| DeepEq_null : DeepEq VNull VNull
| DeepEq_bool b : DeepEq (VBool b) (VBool b)
| DeepEq_num n : DeepEq (VNum n) (VNum n)
| DeepEq_str s : DeepEq (VStr s) (VStr s)
| DeepEq_arr xs ys :
    length xs = length ys ->
    (forall i x y, xs !! i = Some x -> ys !! i = Some y -> DeepEq x y) ->
    DeepEq (VArr xs) (VArr ys)
| DeepEq_obj pa pb :
    (forall k, k ∈ keys pa <-> k ∈ keys pb) ->
    (forall k x y, getProp k pa = Some x -> getProp k pb = Some y -> DeepEq x y) ->
    DeepEq (VObj pa) (VObj pb).

End Settings.

(** ** The Settings panel: state and handlers

    One value of [state] is what one render of `SettingsPanel` sees: the
    React state of the component and of `useSettings`, the files behind
    them, and the calls made so far to `notify` and `onFocusChange`.
    The cursors of the boolean and enum sub-editors are left out; their
    commits reach the document through [applyValue] like every other. *)

Module SettingsPanel.
Import Config Settings App.

Record state : Type := {
  files : fs;
  defaultConfig : option object;
  config : option object;
  view : View;
  editingEntry : option FlatEntry;
  highlightedIndex : Z;
  colorError : option string;
  collapsed : gset string;
  arrayItems : list string;
  highlightedArrayIndex : Z;
  addingArrayItem : bool;
  editingArrayItemIndex : option Z;
  notices : list Notice;
  focused : bool;
}.

Definition setView (v : View) (s : state) : state :=
  {| files := files s; defaultConfig := defaultConfig s; config := config s;
     view := v; editingEntry := editingEntry s;
     highlightedIndex := highlightedIndex s; colorError := colorError s;
     collapsed := collapsed s;
     arrayItems := arrayItems s;
     highlightedArrayIndex := highlightedArrayIndex s;
     addingArrayItem := addingArrayItem s;
     editingArrayItemIndex := editingArrayItemIndex s; notices := notices s; focused := focused s |}.

Definition setEditingEntry (e : option FlatEntry) (s : state) : state :=
  {| files := files s; defaultConfig := defaultConfig s; config := config s;
     view := view s; editingEntry := e;
     highlightedIndex := highlightedIndex s; colorError := colorError s;
     collapsed := collapsed s;
     arrayItems := arrayItems s;
     highlightedArrayIndex := highlightedArrayIndex s;
     addingArrayItem := addingArrayItem s;
     editingArrayItemIndex := editingArrayItemIndex s; notices := notices s; focused := focused s |}.

Definition setHighlightedIndex (i : Z) (s : state) : state :=
  {| files := files s; defaultConfig := defaultConfig s; config := config s;
     view := view s; editingEntry := editingEntry s;
     highlightedIndex := i; colorError := colorError s;
     collapsed := collapsed s;
     arrayItems := arrayItems s;
     highlightedArrayIndex := highlightedArrayIndex s;
     addingArrayItem := addingArrayItem s;
     editingArrayItemIndex := editingArrayItemIndex s; notices := notices s; focused := focused s |}.

Definition setColorError (e : option string) (s : state) : state :=
  {| files := files s; defaultConfig := defaultConfig s; config := config s;
     view := view s; editingEntry := editingEntry s;
     highlightedIndex := highlightedIndex s; colorError := e;
     collapsed := collapsed s;
     arrayItems := arrayItems s;
     highlightedArrayIndex := highlightedArrayIndex s;
     addingArrayItem := addingArrayItem s;
     editingArrayItemIndex := editingArrayItemIndex s; notices := notices s; focused := focused s |}.

Definition setCollapsed (c : gset string) (s : state) : state :=
  {| files := files s; defaultConfig := defaultConfig s; config := config s;
     view := view s; editingEntry := editingEntry s;
     highlightedIndex := highlightedIndex s; colorError := colorError s;
     collapsed := c;
     arrayItems := arrayItems s;
     highlightedArrayIndex := highlightedArrayIndex s;
     addingArrayItem := addingArrayItem s;
     editingArrayItemIndex := editingArrayItemIndex s; notices := notices s; focused := focused s |}.

Definition setArrayItems (items : list string) (s : state) : state :=
  {| files := files s; defaultConfig := defaultConfig s; config := config s;
     view := view s; editingEntry := editingEntry s;
     highlightedIndex := highlightedIndex s; colorError := colorError s;
     collapsed := collapsed s;
     arrayItems := items;
     highlightedArrayIndex := highlightedArrayIndex s;
     addingArrayItem := addingArrayItem s;
     editingArrayItemIndex := editingArrayItemIndex s;
     notices := notices s; focused := focused s |}.

Definition setHighlightedArrayIndex (i : Z) (s : state) : state :=
  {| files := files s; defaultConfig := defaultConfig s; config := config s;
     view := view s; editingEntry := editingEntry s;
     highlightedIndex := highlightedIndex s; colorError := colorError s;
     collapsed := collapsed s;
     arrayItems := arrayItems s;
     highlightedArrayIndex := i;
     addingArrayItem := addingArrayItem s;
     editingArrayItemIndex := editingArrayItemIndex s;
     notices := notices s; focused := focused s |}.

Definition setAddingArrayItem (b : bool) (s : state) : state :=
  {| files := files s; defaultConfig := defaultConfig s; config := config s;
     view := view s; editingEntry := editingEntry s;
     highlightedIndex := highlightedIndex s; colorError := colorError s;
     collapsed := collapsed s;
     arrayItems := arrayItems s;
     highlightedArrayIndex := highlightedArrayIndex s;
     addingArrayItem := b;
     editingArrayItemIndex := editingArrayItemIndex s;
     notices := notices s; focused := focused s |}.

Definition setEditingArrayItemIndex (i : option Z) (s : state) : state :=
  {| files := files s; defaultConfig := defaultConfig s; config := config s;
     view := view s; editingEntry := editingEntry s;
     highlightedIndex := highlightedIndex s; colorError := colorError s;
     collapsed := collapsed s;
     arrayItems := arrayItems s;
     highlightedArrayIndex := highlightedArrayIndex s;
     addingArrayItem := addingArrayItem s;
     editingArrayItemIndex := i;
     notices := notices s; focused := focused s |}.

Definition onFocusChange (f : bool) (s : state) : state :=
  {| files := files s; defaultConfig := defaultConfig s; config := config s;
     view := view s; editingEntry := editingEntry s;
     highlightedIndex := highlightedIndex s; colorError := colorError s;
     collapsed := collapsed s;
     arrayItems := arrayItems s;
     highlightedArrayIndex := highlightedArrayIndex s;
     addingArrayItem := addingArrayItem s;
     editingArrayItemIndex := editingArrayItemIndex s; notices := notices s; focused := f |}.

Definition notify (msg : string) (t : NoticeType) (s : state) : state :=
  {| files := files s; defaultConfig := defaultConfig s; config := config s;
     view := view s; editingEntry := editingEntry s;
     highlightedIndex := highlightedIndex s; colorError := colorError s;
     collapsed := collapsed s;
     arrayItems := arrayItems s;
     highlightedArrayIndex := highlightedArrayIndex s;
     addingArrayItem := addingArrayItem s;
     editingArrayItemIndex := editingArrayItemIndex s;
     notices := notices s ++ [ {| message := msg; noticeType := t |} ];
     focused := focused s |}.

(** `updateField(key, value)` of `useSettings`: write, then re-read. *)
Definition updateField (key : string) (v : value) (s : state) : state :=
  let d := (updateGlobalConfig (files s) key v).1 in
  {| files := d; defaultConfig := defaultConfig s; config := getGlobalConfig d;
     view := view s; editingEntry := editingEntry s;
     highlightedIndex := highlightedIndex s; colorError := colorError s;
     collapsed := collapsed s;
     arrayItems := arrayItems s;
     highlightedArrayIndex := highlightedArrayIndex s;
     addingArrayItem := addingArrayItem s;
     editingArrayItemIndex := editingArrayItemIndex s; notices := notices s; focused := focused s |}.

(** The panel as first rendered over the files [d]. *)
Definition mount (d : fs) : state :=
  {| files := d;
     defaultConfig := configurationOf (readDefaultPluginsJson d);
     config := getGlobalConfig d;
     view := ViewList; editingEntry := None; highlightedIndex := 0;
     colorError := None; collapsed := ∅;
     arrayItems := []; highlightedArrayIndex := 0;
     addingArrayItem := false; editingArrayItemIndex := None; notices := []; focused := false |}.

Definition allEntries (s : state) : list FlatEntry :=
  match config s with
  | None => []
  | Some c => flattenConfig c
  end.

(** `for (let i = keyPath.length - 1; i > 0; i--)
       if (collapsed.has(keyPath.slice(0, i).join("."))) return false` *)
Definition underCollapsed (c : gset string) (keyPath : list string) : bool :=
  existsb (fun i => bool_decide (Str.join "." (take i keyPath) ∈ c))
          (rev (seq 1 (length keyPath - 1))).

Definition visibleEntries (s : state) : list FlatEntry :=
  filter (fun entry => negb (underCollapsed (collapsed s) (keyPath entry)))
         (allEntries s).

(** The effect that follows every render:
    `if (highlightedIndex >= visibleEntries.length)
       setHighlightedIndex(Math.max(0, visibleEntries.length - 1))` *)
Definition clampEffect (s : state) : state :=
  let len := Z.of_nat (length (visibleEntries s)) in
  if highlightedIndex s >=? len
  then setHighlightedIndex (Z.max 0 (len - 1)) s
  else s.

Definition exitEdit (s : state) : state :=
  onFocusChange false
    (setColorError None
       (setEditingArrayItemIndex None
          (setAddingArrayItem false
             (setEditingEntry None (setView ViewList s))))).

Definition applyValue (keyPath : list string) (v : value)
    (exitAfterSave : bool) (s : state) : outcome state :=
  match config s with
  | None => Done s
  | Some config =>
      bind
        (match keyPath with
         | [key] => Done (updateField key v s)
         | _ =>
             bind (setNestedValue (VObj config) keyPath v)
               (fun fullConfig =>
                  let key := hd "undefined" keyPath in
                  match read key (Val fullConfig) with
                  | Val top => Done (updateField key top s)
                  | _ => OffModel
                  end)
         end)
        (fun s1 =>
           let s2 := notify ("Set " +:+ Str.join "." keyPath) Success s1 in
           Done (if exitAfterSave then exitEdit s2 else s2))
  end.

(** `String(v)` *)
Fixpoint jsString (v : value) : string :=
  match v with
  | VNull => "null"
  | VBool b => if b then "true" else "false"
  | VNum n => Str.stringOfZ n
  | VStr t => t
  | VArr l =>
      Str.join ","
        (map (fun x => match x with VNull => "" | _ => jsString x end) l)
  | VObj _ => "[object Object]"
  end.

Definition enterEdit (entry : FlatEntry) (s : state) : state :=
  let schema := getFieldSchema (keyPath entry) in
  let s1 :=
    setEditingArrayItemIndex None
      (setAddingArrayItem false (setEditingEntry (Some entry) s)) in
  let s2 :=
    match type schema with
    | FBoolean => setView EditBoolean s1
    | FEnum => setView EditEnum s1
    | FArray =>
        let items :=
          match entryValue entry with
          | VArr l => map jsString l
          | _ => []
          end in
        setView EditArray (setHighlightedArrayIndex 0 (setArrayItems items s1))
    | FColor => setView EditColor (setColorError None s1)
    | _ => setView EditString s1
    end in
  onFocusChange true s2.

Definition toggle (path : string) (c : gset string) : gset string :=
  if bool_decide (path ∈ c) then c ∖ {[ path ]} else c ∪ {[ path ]}.

(** Shift+D on the highlighted entry.  A default that is no value of a
    document (a function or a prototype, found under an inherited name)
    is written like any other. *)
Definition restoreDefault (s : state) : outcome state :=
  match at_ (visibleEntries s) (highlightedIndex s) with
  | None => Done s
  | Some entry =>
      let path := Str.join "." (keyPath entry) in
      match getDefaultSettingValue (defaultConfig s) (keyPath entry) with
      | Undefined => Done (notify ("No default available for " +:+ path) Error s)
      | defaultValue =>
          if deepEqual (entryValue entry) defaultValue
          then Done (notify (path +:+ " is already default") Info s)
          else
            match defaultValue with
            | Val dv =>
                bind (applyValue (keyPath entry) dv true s)
                  (fun s1 =>
                     Done (notify ("Restored " +:+ path +:+ " to default")
                                  Success s1))
            | _ => OffModel
            end
      end
  end.

(** The keyboard handler of the list view. *)
Definition onKeyList (name : string) (shift : bool) (s : state) : outcome state :=
  let count := Z.of_nat (length (visibleEntries s)) in
  if count =? 0 then Done s
  else if String.eqb name "up" then
    let prev := highlightedIndex s in
    Done (setHighlightedIndex (if 0 <? prev then prev - 1 else count - 1) s)
  else if String.eqb name "down" then
    let prev := highlightedIndex s in
    Done (setHighlightedIndex (if prev <? count - 1 then prev + 1 else 0) s)
  else if String.eqb name "return" then
    match at_ (visibleEntries s) (highlightedIndex s) with
    | None => Done s
    | Some entry =>
        if isObject entry
        then Done (setCollapsed (toggle (Str.join "." (keyPath entry)) (collapsed s)) s)
        else Done (enterEdit entry s)
    end
  else if String.eqb name "d" && shift then restoreDefault s
  else Done s.

(** `arrayItems.filter((_, i) => i !== index)` *)
Definition withoutIndex (index : Z) (items : list string) : list string :=
  (filter (fun p => negb (Z.of_nat p.1 =? index)) (imap pair items)).*2.

(** `[items[i], items[j]] = [items[j], items[i]]` on a copy of [items].
    With [i] or [j] outside the array the assignment would leave holes
    in it. *)
Definition swapItems (i j : Z) (items : list string) : outcome (list string) :=
  match at_ items i, at_ items j with
  | Some a, Some b => Done (<[Z.to_nat j := a]> (<[Z.to_nat i := b]> items))
  | _, _ => OffModel
  end.

(** `items[index] = item` on a copy of [items]: inside the array the
    item is replaced, at its end it is appended, and further out the
    assignment would leave holes. *)
Definition assignItem (index : Z) (item : string) (items : list string)
  : outcome (list string) :=
  if (0 <=? index) && (index <? Z.of_nat (length items))
  then Done (<[Z.to_nat index := item]> items)
  else if index =? Z.of_nat (length items) then Done (items ++ [item])
  else OffModel.

Definition itemsValue (items : list string) : value := VArr (map VStr items).

(** The keyboard handler of the array editor. *)
Definition onKeyArray (name : string) (shift : bool) (s : state) : outcome state :=
  match editingEntry s with
  | None => Done s
  | Some entry =>
      if addingArrayItem s || bool_decide (is_Some (editingArrayItemIndex s))
      then
        if String.eqb name "escape"
        then Done (setEditingArrayItemIndex None (setAddingArrayItem false s))
        else Done s
      else if String.eqb name "escape" then Done (exitEdit s)
      else
        let count := Z.of_nat (length (arrayItems s)) in
        let idx := highlightedArrayIndex s in
        if String.eqb name "up" && (0 <? count) && negb shift then
          Done (setHighlightedArrayIndex
                  (if 0 <? idx then idx - 1 else count - 1) s)
        else if String.eqb name "down" && (0 <? count) && negb shift then
          Done (setHighlightedArrayIndex
                  (if idx <? count - 1 then idx + 1 else 0) s)
        else if String.eqb name "n" then Done (setAddingArrayItem true s)
        else if String.eqb name "return" && (0 <? count) then
          Done (setEditingArrayItemIndex (Some idx) s)
        else if String.eqb name "x" && (0 <? count) then
          let nextItems := withoutIndex idx (arrayItems s) in
          applyValue (keyPath entry) (itemsValue nextItems) false
            (setHighlightedArrayIndex
               (Z.max 0 (Z.min idx (Z.of_nat (length nextItems) - 1)))
               (setArrayItems nextItems s))
        else if String.eqb name "up" && shift && (0 <? idx) then
          bind (swapItems (idx - 1) idx (arrayItems s)) (fun nextItems =>
            applyValue (keyPath entry) (itemsValue nextItems) false
              (setHighlightedArrayIndex (idx - 1) (setArrayItems nextItems s)))
        else if String.eqb name "down" && shift && (idx <? count - 1) then
          bind (swapItems idx (idx + 1) (arrayItems s)) (fun nextItems =>
            applyValue (keyPath entry) (itemsValue nextItems) false
              (setHighlightedArrayIndex (idx + 1) (setArrayItems nextItems s)))
        else Done s
  end.

(** `onSubmit` of the input of the array editor. *)
Definition submitArrayItem (text : string) (s : state) : outcome state :=
  match editingEntry s with
  | None => Done s
  | Some entry =>
      let trimmed := Str.trim text in
      if String.eqb trimmed "" then
        Done (setEditingArrayItemIndex None (setAddingArrayItem false s))
      else
        match editingArrayItemIndex s with
        | Some index =>
            bind (assignItem index trimmed (arrayItems s)) (fun nextItems =>
              bind (applyValue (keyPath entry) (itemsValue nextItems) false
                      (setArrayItems nextItems s))
                (fun s1 => Done (setEditingArrayItemIndex None s1)))
        | None =>
            let nextItems := arrayItems s ++ [trimmed] in
            bind (applyValue (keyPath entry) (itemsValue nextItems) false
                    (setHighlightedArrayIndex
                       (Z.max 0 (Z.of_nat (length nextItems) - 1))
                       (setArrayItems nextItems s)))
              (fun s1 => Done (setAddingArrayItem false s1))
        end
  end.

(** The effect on `editingEntry`, of which the array cursor is the part
    kept here: `if (!editingEntry) return; ...
    else if (schema.type === "array") setHighlightedArrayIndex(0)`.  It
    runs when `editingEntry` is not the object that the previous render
    saw ([prev] is [None] at mount); an entry is opened from the list
    only, where `editingEntry` is null, so the key paths tell. *)
Definition editingEffectRuns (prev : option state) (s : state) : bool :=
  match prev with
  | None => true
  | Some p =>
      negb (bool_decide (keyPath <$> editingEntry p = keyPath <$> editingEntry s))
  end.

Definition editingEffect (prev : option state) (s : state) : state :=
  match editingEntry s with
  | None => s
  | Some entry =>
      if editingEffectRuns prev s then
        match type (getFieldSchema (keyPath entry)) with
        | FArray => setHighlightedArrayIndex 0 s
        | _ => s
        end
      else s
  end.

(** The effects of one render. *)
Definition effects (prev : option state) (s : state) : state :=
  clampEffect (editingEffect prev s).

Section Events.

(** `JSON.parse`, with [None] for a thrown `SyntaxError`. *)
Variable JSON_parse : string -> option value.

Definition parseJsonOrString (text : string) : value :=
  match JSON_parse text with
  | Some v => v
  | None => VStr text
  end.

(** `onSubmit` of the input of the free-form editor. *)
Definition submitString (text : string) (s : state) : outcome state :=
  match editingEntry s with
  | None => Done s
  | Some entry =>
      let parsed := parseJsonOrString text in
      applyValue (keyPath entry) parsed true s
  end.

(** `onSubmit` of the input of the colour editor. *)
Definition submitColor (text : string) (s : state) : outcome state :=
  match editingEntry s with
  | None => Done s
  | Some entry =>
      let trimmed := Str.trim text in
      if negb (isValidColorValue trimmed)
      then Done (setColorError
                   (Some "Invalid color. Use #RGB, #RRGGBB, #RRGGBBAA, or a CSS color function like rgba(...)") s)
      else applyValue (keyPath entry) (VStr trimmed) true (setColorError None s)
  end.

Inductive event : Type :=
| Key (name : string) (shift : bool)
| SubmitString (text : string)
| SubmitColor (text : string)
| SubmitArrayItem (text : string)
| Commit (v : value).
    (* Enter in the boolean or enum editor, with the highlighted choice:
       `applyValue(editingEntry.keyPath, v)` *)

Definition handle (e : event) (s : state) : outcome state :=
  match e, view s with
  | Key name shift, ViewList => onKeyList name shift s
  | Key name shift, EditArray => onKeyArray name shift s
  | Key name _, (EditBoolean | EditEnum) =>
      match editingEntry s with
      | None => Done s
      | Some _ => if String.eqb name "escape" then Done (exitEdit s) else Done s
      end
  | Key name _, (EditString | EditColor) =>
      if String.eqb name "escape" then Done (exitEdit s) else Done s
  | SubmitString text, EditString => submitString text s
  | SubmitColor text, EditColor => submitColor text s
  | SubmitArrayItem text, EditArray => submitArrayItem text s
  | Commit v, (EditBoolean | EditEnum) =>
      match editingEntry s with
      | None => Done s
      | Some entry => applyValue (keyPath entry) v true s
      end
  | _, _ => Done s
  end.

(** One event: the handler, then the effects of the render that
    follows. *)
Definition step (e : event) (s : state) : outcome state :=
  bind (handle e s) (fun s' => Done (effects (Some s) s')).

(** A sequence of events, each on the state the one before it left. *)
Fixpoint run (es : list event) (s : state) : outcome state :=
  match es with
  | [] => Done s
  | e :: rest => bind (step e s) (run rest)
  end.

Inductive reachable (d : fs) : state -> Prop :=
| reach_mount : reachable d (effects None (mount d))
| reach_step s e s' :
    reachable d s -> step e s = Done s' -> reachable d s'.

End Events.

End SettingsPanel.

(** ** The Layout panel: zones (`panels/LayoutPanel.tsx`) *)

Module Layout.

Inductive Zone : Type :=
| Header | Left | BeforeBody | AfterBody | Right | Footer.

#[global] Instance Zone_eq_dec : EqDecision Zone.
Proof. solve_decision. Defined.

Definition ZONES : list Zone :=
  [Header; Left; BeforeBody; AfterBody; Right; Footer].

Definition zoneName (z : Zone) : string :=
  match z with
  | Header => "header"
  | Left => "left"
  | BeforeBody => "beforeBody"
  | AfterBody => "afterBody"
  | Right => "right"
  | Footer => "footer"
  end.

Definition Zone_eqb (a b : Zone) : bool :=
  match a, b with
  | Header, Header | Left, Left | BeforeBody, BeforeBody
  | AfterBody, AfterBody | Right, Right | Footer, Footer => true
  | _, _ => false
  end.

(** The own key of the `zones` record that a string names, if any. *)
Definition zoneOfName (s : string) : option Zone :=
  find (fun z => String.eqb (zoneName z) s) ZONES.

(** `position in zones`: true of the six own keys and of every inherited
    name. *)
Definition inZones (position : string) : bool :=
  match zoneOfName position with
  | Some _ => true
  | None => existsb (String.eqb position) objectPrototypeNames
  end.

Module PluginLayout.
Record t : Type := {
  position : string;
  priority : Z;
  display : option string;
  condition : option string;
  group : option string;
  groupOptions : option object;
}.
End PluginLayout.

(** The fields of `EnrichedPlugin` that the panel reads. *)
Module EnrichedPlugin.
Record t : Type := {
  index : Z;
  name : string;
  displayName : string;
  enabled : bool;
  layout : option PluginLayout.t;
  manifest : option object;
}.
End EnrichedPlugin.

Module ZoneComponent.
Record t : Type := {
  pluginIndex : Z;
  name : string;
  displayName : string;
  position : string;
  priority : Z;
  display : string;
  condition : option string;
  group : option string;
  groupOptions : option object;
}.

(** `{ ...comp, position: zone }` *)
Definition withPosition (zone : string) (comp : t) : t :=
  {| pluginIndex := pluginIndex comp; name := name comp;
     displayName := displayName comp; position := zone;
     priority := priority comp; display := display comp;
     condition := condition comp; group := group comp;
     groupOptions := groupOptions comp |}.
End ZoneComponent.

(** `Record<Zone, ZoneComponent[]>` *)
Abbreviation zoneMap := (Zone -> list ZoneComponent.t).

Definition emptyZones : zoneMap := fun _ => [].

(** `zones[z] = comps` *)
Definition setZone (z : Zone) (comps : list ZoneComponent.t) (zones : zoneMap)
  : zoneMap :=
  fun z' => if Zone_eqb z z' then comps else zones z'.

(** `zones[z].push(comp)` *)
Definition pushZone (z : Zone) (comp : ZoneComponent.t) (zones : zoneMap)
  : zoneMap :=
  setZone z (zones z ++ [comp]) zones.

(** `comps.sort((a, b) => a.priority - b.priority)`: the sort is stable,
    so equal priorities keep their order. *)
Fixpoint insertByPriority (c : ZoneComponent.t) (l : list ZoneComponent.t)
  : list ZoneComponent.t :=
  match l with
  | [] => [c]
  | d :: rest =>
      if ZoneComponent.priority c <? ZoneComponent.priority d
      then c :: l
      else d :: insertByPriority c rest
  end.

Definition sortByPriority (l : list ZoneComponent.t) : list ZoneComponent.t :=
  fold_left (fun sorted c => insertByPriority c sorted) l [].

Definition componentOf (plugin : EnrichedPlugin.t) (l : PluginLayout.t)
  : ZoneComponent.t :=
  {| ZoneComponent.pluginIndex := EnrichedPlugin.index plugin;
     ZoneComponent.name := EnrichedPlugin.name plugin;
     ZoneComponent.displayName := EnrichedPlugin.displayName plugin;
     ZoneComponent.position := PluginLayout.position l;
     ZoneComponent.priority := PluginLayout.priority l;
     ZoneComponent.display := default "all" (PluginLayout.display l);
     ZoneComponent.condition := PluginLayout.condition l;
     ZoneComponent.group := PluginLayout.group l;
     ZoneComponent.groupOptions := PluginLayout.groupOptions l |}.

(** The first loop of `getZoneComponents`.  When `position` is an
    inherited name, `zones[position]` is not an array and the call of
    its `push` throws. *)
Fixpoint collectZones (plugins : list EnrichedPlugin.t) (zones : zoneMap)
  : outcome zoneMap :=
  match plugins with
  | [] => Done zones
  | plugin :: rest =>
      match EnrichedPlugin.layout plugin with
      | None => collectZones rest zones
      | Some l =>
          if negb (EnrichedPlugin.enabled plugin) then collectZones rest zones
          else
            let position := PluginLayout.position l in
            if negb (inZones position) then collectZones rest zones
            else
              match zoneOfName position with
              | Some z => collectZones rest (pushZone z (componentOf plugin l) zones)
              | None => TypeError
              end
      end
  end.

Definition getZoneComponents (plugins : list EnrichedPlugin.t) : outcome zoneMap :=
  bind (collectZones plugins emptyZones)
       (fun zones => Done (fun zone => sortByPriority (zones zone))).

Record PageTypeOverride : Type := {
  exclude : option (list string);
  positions : option object;
}.

Record LayoutConfig : Type := {
  groups : option object;
  byPageType : option (list (string * PageTypeOverride));
}.

(** `byPageType?.[pageType]` *)
Definition overrideFor (cfg : LayoutConfig) (pageType : string)
  : option PageTypeOverride :=
  match byPageType cfg with
  | None => None
  | Some l => snd <$> find (fun kv => String.eqb kv.1 pageType) l
  end.

Definition hasName (pluginName : string) (c : ZoneComponent.t) : bool :=
  String.eqb (ZoneComponent.name c) pluginName.

(** `!override.exclude?.includes(comp.name)` *)
Definition notExcluded (o : PageTypeOverride) (comp : ZoneComponent.t) : bool :=
  match exclude o with
  | None => true
  | Some names => negb (existsb (String.eqb (ZoneComponent.name comp)) names)
  end.

(** The body of the inner loop over `ZONES`:
    `const comp = base[srcZone].find((c) => c.name === pluginName);
     if (comp && !filtered[zone].find((c) => c.name === pluginName))
       filtered[zone].push({ ...comp, position: zone })` *)
Definition pullStep (base : zoneMap) (zone : Zone) (pluginName : string)
    (acc : list ZoneComponent.t) (srcZone : Zone) : list ZoneComponent.t :=
  match find (hasName pluginName) (base srcZone) with
  | Some comp =>
      if negb (existsb (hasName pluginName) acc)
      then acc ++ [ZoneComponent.withPosition (zoneName zone) comp]
      else acc
  | None => acc
  end.

(** The inner loop, which pulls a relocated component in. *)
Definition pullInto (base : zoneMap) (zone : Zone) (pluginName : string)
    (acc : list ZoneComponent.t) : list ZoneComponent.t :=
  fold_left (pullStep base zone pluginName) ZONES acc.

(** The body of the loop over `Object.entries(override.positions)`. *)
Definition applyPosition (base : zoneMap) (zone : Zone)
    (acc : list ZoneComponent.t) (entry : string * value)
  : list ZoneComponent.t :=
  let '(pluginName, newPosition) := entry in
  match newPosition with
  | VStr p =>
      let acc1 :=
        if String.eqb p (zoneName zone) then pullInto base zone pluginName acc
        else acc in
      if negb (String.eqb p (zoneName zone))
      then filter (fun c => negb (hasName pluginName c)) acc1
      else acc1
  | _ => acc
  end.

(** `filtered[zone]` at the end of the loop body for [zone]. *)
Definition overrideZone (base : zoneMap) (o : PageTypeOverride) (zone : Zone)
  : list ZoneComponent.t :=
  let kept := filter (notExcluded o) (base zone) in
  let moved :=
    match positions o with
    | Some ps => fold_left (applyPosition base zone) ps kept
    | None => kept
    end in
  sortByPriority moved.

(** The `zoneComponents` memo of the panel. *)
Definition zoneComponents (plugins : list EnrichedPlugin.t)
    (layoutConfig : LayoutConfig) (activePageType : string) : outcome zoneMap :=
  bind (getZoneComponents plugins)
    (fun base =>
       if String.eqb activePageType "default" then Done base
       else
         match overrideFor layoutConfig activePageType with
         | None => Done base
         | Some o => Done (overrideZone base o)
         end).

(** The `pageTypes` memo. *)
Definition pageTypes (layoutConfig : LayoutConfig) : list string :=
  match byPageType layoutConfig with
  | None => ["default"]
  | Some l =>
      fold_left
        (fun types key =>
           if existsb (String.eqb key) types then types else types ++ [key])
        (map fst l) ["default"]
  end.

End Layout.
(** ** The Layout panel: state and handlers

    One value of [state] is what one render of `LayoutPanel` sees.  The
    plugin list is the one `usePlugins` holds: the entries of the
    configuration document in their order, each with the name and
    display name that `getEnrichedPlugins` derives for it, and with
    `index` its place in the document. *)

Module LayoutPanel.
Import Layout App.

Inductive View : Type :=
| Zones | MoveZone | EditPriority | EditDisplay | EditCondition
| ConfirmRemoveLayout | Groups | PageTypes.

Record state : Type := {
  plugins : list EnrichedPlugin.t;
  layout : option LayoutConfig;
  focusColumn : Z;
  focusCenterRow : Z;
  drillMode : bool;
  selectedComponent : Z;
  view : View;
  listKey : Z;
  activePageType : string;
  notices : list Notice;
  focused : bool;
}.

Definition setPlugins (p : list EnrichedPlugin.t) (s : state) : state :=
  {| plugins := p; layout := layout s; focusColumn := focusColumn s;
     focusCenterRow := focusCenterRow s; drillMode := drillMode s;
     selectedComponent := selectedComponent s; view := view s;
     listKey := listKey s; activePageType := activePageType s;
     notices := notices s; focused := focused s |}.

Definition setLayout (l : option LayoutConfig) (s : state) : state :=
  {| plugins := plugins s; layout := l; focusColumn := focusColumn s;
     focusCenterRow := focusCenterRow s; drillMode := drillMode s;
     selectedComponent := selectedComponent s; view := view s;
     listKey := listKey s; activePageType := activePageType s;
     notices := notices s; focused := focused s |}.

Definition setFocusColumn (c : Z) (s : state) : state :=
  {| plugins := plugins s; layout := layout s; focusColumn := c;
     focusCenterRow := focusCenterRow s; drillMode := drillMode s;
     selectedComponent := selectedComponent s; view := view s;
     listKey := listKey s; activePageType := activePageType s;
     notices := notices s; focused := focused s |}.

Definition setFocusCenterRow (r : Z) (s : state) : state :=
  {| plugins := plugins s; layout := layout s; focusColumn := focusColumn s;
     focusCenterRow := r; drillMode := drillMode s;
     selectedComponent := selectedComponent s; view := view s;
     listKey := listKey s; activePageType := activePageType s;
     notices := notices s; focused := focused s |}.

Definition setDrillMode (d : bool) (s : state) : state :=
  {| plugins := plugins s; layout := layout s; focusColumn := focusColumn s;
     focusCenterRow := focusCenterRow s; drillMode := d;
     selectedComponent := selectedComponent s; view := view s;
     listKey := listKey s; activePageType := activePageType s;
     notices := notices s; focused := focused s |}.

Definition setSelectedComponent (i : Z) (s : state) : state :=
  {| plugins := plugins s; layout := layout s; focusColumn := focusColumn s;
     focusCenterRow := focusCenterRow s; drillMode := drillMode s;
     selectedComponent := i; view := view s;
     listKey := listKey s; activePageType := activePageType s;
     notices := notices s; focused := focused s |}.

Definition setView (v : View) (s : state) : state :=
  {| plugins := plugins s; layout := layout s; focusColumn := focusColumn s;
     focusCenterRow := focusCenterRow s; drillMode := drillMode s;
     selectedComponent := selectedComponent s; view := v;
     listKey := listKey s; activePageType := activePageType s;
     notices := notices s; focused := focused s |}.

Definition setListKey (k : Z) (s : state) : state :=
  {| plugins := plugins s; layout := layout s; focusColumn := focusColumn s;
     focusCenterRow := focusCenterRow s; drillMode := drillMode s;
     selectedComponent := selectedComponent s; view := view s;
     listKey := k; activePageType := activePageType s;
     notices := notices s; focused := focused s |}.

Definition setActivePageType (p : string) (s : state) : state :=
  {| plugins := plugins s; layout := layout s; focusColumn := focusColumn s;
     focusCenterRow := focusCenterRow s; drillMode := drillMode s;
     selectedComponent := selectedComponent s; view := view s;
     listKey := listKey s; activePageType := p;
     notices := notices s; focused := focused s |}.

Definition onFocusChange (f : bool) (s : state) : state :=
  {| plugins := plugins s; layout := layout s; focusColumn := focusColumn s;
     focusCenterRow := focusCenterRow s; drillMode := drillMode s;
     selectedComponent := selectedComponent s; view := view s;
     listKey := listKey s; activePageType := activePageType s;
     notices := notices s; focused := f |}.

Definition notify (msg : string) (t : NoticeType) (s : state) : state :=
  {| plugins := plugins s; layout := layout s; focusColumn := focusColumn s;
     focusCenterRow := focusCenterRow s; drillMode := drillMode s;
     selectedComponent := selectedComponent s; view := view s;
     listKey := listKey s; activePageType := activePageType s;
     notices := notices s ++ [ {| message := msg; noticeType := t |} ];
     focused := focused s |}.


(** `(layout ?? {}) as LayoutConfig` *)
Definition layoutConfig (s : state) : LayoutConfig :=
  default {| groups := None; byPageType := None |} (layout s).

(** `getActiveZone()`; [None] is `undefined`. *)
Definition getActiveZone (s : state) : option Zone :=
  if focusColumn s =? 0 then Some Left
  else if focusColumn s =? 2 then Some Right
  else at_ [Header; BeforeBody; AfterBody; Footer] (focusCenterRow s).

(** `zoneComponents[currentZone]`, as the render reads it.  The render
    throws when the grid cannot be built, or when there is no active
    zone to look up. *)
Definition currentComponents (s : state) : outcome (list ZoneComponent.t) :=
  bind (zoneComponents (plugins s) (layoutConfig s) (activePageType s))
    (fun zones =>
       match getActiveZone s with
       | Some zone => Done (zones zone)
       | None => TypeError
       end).

(** ** The plugin entries behind `usePlugins` *)

Definition withIndex (i : Z) (p : EnrichedPlugin.t) : EnrichedPlugin.t :=
  {| EnrichedPlugin.index := i; EnrichedPlugin.name := EnrichedPlugin.name p;
     EnrichedPlugin.displayName := EnrichedPlugin.displayName p;
     EnrichedPlugin.enabled := EnrichedPlugin.enabled p;
     EnrichedPlugin.layout := EnrichedPlugin.layout p;
     EnrichedPlugin.manifest := EnrichedPlugin.manifest p |}.

Definition withLayout (l : option PluginLayout.t) (p : EnrichedPlugin.t)
  : EnrichedPlugin.t :=
  {| EnrichedPlugin.index := EnrichedPlugin.index p;
     EnrichedPlugin.name := EnrichedPlugin.name p;
     EnrichedPlugin.displayName := EnrichedPlugin.displayName p;
     EnrichedPlugin.enabled := EnrichedPlugin.enabled p;
     EnrichedPlugin.layout := l;
     EnrichedPlugin.manifest := EnrichedPlugin.manifest p |}.

(** `getEnrichedPlugins()`: every entry with its place as `index`. *)
Definition getEnrichedPlugins (entries : list EnrichedPlugin.t)
  : list EnrichedPlugin.t :=
  imap (fun i p => withIndex (Z.of_nat i) p) entries.

(** `updatePluginEntry(index, { layout })` *)
Definition updatePluginEntry (index : Z) (l : option PluginLayout.t)
    (entries : list EnrichedPlugin.t) : list EnrichedPlugin.t :=
  if index <? 0 then entries
  else alter (withLayout l) (Z.to_nat index) entries.

(** `updateLayout(index, layout)` of `usePlugins`: write, then re-read.
    The callback looks the plugin up in the list of the render it was
    created in, [closure]; the document it writes to is the current
    one. *)
Definition updateLayoutFrom (closure : list EnrichedPlugin.t) (index : Z)
    (l : option PluginLayout.t) (s : state) : state :=
  match at_ closure index with
  | None => s
  | Some plugin =>
      setPlugins
        (getEnrichedPlugins
           (updatePluginEntry (EnrichedPlugin.index plugin) l (plugins s))) s
  end.

Definition updateLayout (index : Z) (l : option PluginLayout.t) (s : state)
  : state :=
  updateLayoutFrom (plugins s) index l s.

(** The panel as first rendered over the plugin entries [entries] and
    the layout section [l] of the configuration document. *)
Definition mount (entries : list EnrichedPlugin.t) (l : option LayoutConfig)
  : state :=
  {| plugins := getEnrichedPlugins entries; layout := l;
     focusColumn := 1; focusCenterRow := 0;
     drillMode := false; selectedComponent := 0; view := Zones; listKey := 0;
     activePageType := "default"; notices := []; focused := false |}.

(** `plugins.findIndex((p) => p.index === pluginIndex)` *)
Fixpoint findIndexFrom (i : Z) (pluginIndex : Z) (l : list EnrichedPlugin.t) : Z :=
  match l with
  | [] => -1
  | p :: rest =>
      if EnrichedPlugin.index p =? pluginIndex then i
      else findIndexFrom (i + 1) pluginIndex rest
  end.

Definition findPluginArrayIndex (s : state) (pluginIndex : Z) : Z :=
  findIndexFrom 0 pluginIndex (plugins s).

Definition withPriority (n : Z) (l : PluginLayout.t) : PluginLayout.t :=
  {| PluginLayout.position := PluginLayout.position l;
     PluginLayout.priority := n;
     PluginLayout.display := PluginLayout.display l;
     PluginLayout.condition := PluginLayout.condition l;
     PluginLayout.group := PluginLayout.group l;
     PluginLayout.groupOptions := PluginLayout.groupOptions l |}.

Definition withPosition (p : string) (l : PluginLayout.t) : PluginLayout.t :=
  {| PluginLayout.position := p;
     PluginLayout.priority := PluginLayout.priority l;
     PluginLayout.display := PluginLayout.display l;
     PluginLayout.condition := PluginLayout.condition l;
     PluginLayout.group := PluginLayout.group l;
     PluginLayout.groupOptions := PluginLayout.groupOptions l |}.

Definition withDisplay (d : string) (l : PluginLayout.t) : PluginLayout.t :=
  {| PluginLayout.position := PluginLayout.position l;
     PluginLayout.priority := PluginLayout.priority l;
     PluginLayout.display := Some d;
     PluginLayout.condition := PluginLayout.condition l;
     PluginLayout.group := PluginLayout.group l;
     PluginLayout.groupOptions := PluginLayout.groupOptions l |}.

Definition withCondition (c : option string) (l : PluginLayout.t) : PluginLayout.t :=
  {| PluginLayout.position := PluginLayout.position l;
     PluginLayout.priority := PluginLayout.priority l;
     PluginLayout.display := PluginLayout.display l;
     PluginLayout.condition := c;
     PluginLayout.group := PluginLayout.group l;
     PluginLayout.groupOptions := PluginLayout.groupOptions l |}.

(** The pattern shared by the sub-editors:
    `const arrIdx = findPluginArrayIndex(selectedComp.pluginIndex);
     if (arrIdx >= 0) { const plugin = plugins[arrIdx];
                        if (plugin.layout) { ... } }` *)
Definition withPluginLayout (comp : ZoneComponent.t) (s : state)
    (k : Z -> PluginLayout.t -> state) : state :=
  let arrIdx := findPluginArrayIndex s (ZoneComponent.pluginIndex comp) in
  if 0 <=? arrIdx then
    match at_ (plugins s) arrIdx with
    | Some plugin =>
        match EnrichedPlugin.layout plugin with
        | Some l => k arrIdx l
        | None => s
        end
    | None => s
    end
  else s.

Definition enterView (next : View) (s : state) : state :=
  onFocusChange true (setView next s).

Definition exitView (s : state) : state :=
  onFocusChange false
    (setListKey (listKey s + 1) (setDrillMode false (setView Zones s))).

(** ** The sub-editors *)

(** `onSubmit` of the priority input:
    `const num = parseInt(value, 10);
     if (!isNaN(num)) { ... updateLayout(...); notify(...) }
     exitView();`
    A number that `parseInt` had to round is stored like any other. *)
Definition submitPriority (text : string) (comp : ZoneComponent.t) (s : state)
  : outcome state :=
  match Str.parseInt text with
  | Str.Int n =>
      Done (exitView
              (withPluginLayout comp s (fun arrIdx l =>
                 notify ("Priority set to " +:+ Str.stringOfZ n) Success
                   (updateLayout arrIdx (Some (withPriority n l)) s))))
  | Str.NaN => Done (exitView s)
  | Str.Rounded =>
      let arrIdx := findPluginArrayIndex s (ZoneComponent.pluginIndex comp) in
      if 0 <=? arrIdx then
        match at_ (plugins s) arrIdx ≫= EnrichedPlugin.layout with
        | Some _ => OffModel
        | None => Done (exitView s)
        end
      else Done (exitView s)
  end.

(** `onSelect` of the move-zone list. *)
Definition moveZoneSelect (newZone : Zone) (comp : ZoneComponent.t) (s : state)
  : state :=
  exitView
    (withPluginLayout comp s (fun arrIdx l =>
       setSelectedComponent 0
         (notify ("Moved " +:+ ZoneComponent.displayName comp +:+ " to "
                  +:+ zoneName newZone) Success
            (updateLayout arrIdx (Some (withPosition (zoneName newZone) l)) s)))).

(** `onSelect` of the display-mode list. *)
Definition displaySelect (mode : string) (comp : ZoneComponent.t) (s : state)
  : state :=
  exitView
    (withPluginLayout comp s (fun arrIdx l =>
       notify ("Display set to " +:+ mode) Success
         (updateLayout arrIdx (Some (withDisplay mode l)) s))).

(** `onSubmit` of the condition input. *)
Definition submitCondition (text : string) (comp : ZoneComponent.t) (s : state)
  : state :=
  let trimmed := Str.trim text in
  exitView
    (withPluginLayout comp s (fun arrIdx l =>
       if String.eqb trimmed ""
       then notify "Condition removed" Success
              (updateLayout arrIdx (Some (withCondition None l)) s)
       else notify ("Condition set to " +:+ trimmed) Success
              (updateLayout arrIdx (Some (withCondition (Some trimmed) l)) s))).

(** `onConfirm` of the removal prompt. *)
Definition confirmRemove (comp : ZoneComponent.t) (s : state) : state :=
  let arrIdx := findPluginArrayIndex s (ZoneComponent.pluginIndex comp) in
  exitView
    (if 0 <=? arrIdx
     then notify ("Removed " +:+ ZoneComponent.displayName comp +:+ " from layout")
            Success
            (setSelectedComponent (Z.max 0 (selectedComponent s - 1))
               (updateLayout arrIdx None s))
     else s).

(** `saveLayout(newLayout)` of `useLayout`: write, then re-read. *)
Definition saveLayout (newLayout : LayoutConfig) (s : state) : state :=
  setLayout (Some newLayout) s.

(** ** The keyboard handler of the zone grid *)

(** `arr.indexOf(x)` *)
Fixpoint indexOfFrom (i : Z) (x : string) (l : list string) : Z :=
  match l with
  | [] => -1
  | y :: rest => if String.eqb y x then i else indexOfFrom (i + 1) x rest
  end.

Definition cyclePageType (delta : Z) (s : state) : state :=
  let types := pageTypes (layoutConfig s) in
  let n := Z.of_nat (length types) in
  let idx := indexOfFrom 0 (activePageType s) types in
  match at_ types ((idx + delta) mod n) with
  | Some next => setActivePageType next s
  | None => s
  end.

(** `if (v)` *)
Definition truthy (v : value) : bool :=
  match v with
  | VNull => false
  | VBool b => b
  | VNum n => negb (n =? 0)
  | VStr t => negb (String.eqb t "")
  | VArr _ | VObj _ => true
  end.

(** `x`, where `if (x)` holds of it. *)
Definition whenTruthy (x : option value) : option value :=
  match x with
  | Some v => if truthy v then Some v else None
  | None => None
  end.

(** `Object.values(v)[0]` for a truthy [v]; [None] is `undefined`.  The
    values of a string are its characters; a number and `true` have
    none. *)
Definition firstValue (v : value) : option value :=
  match v with
  | VObj props => snd <$> head props
  | VArr items => head items
  | VStr (String c _) => Some (VStr (String c EmptyString))
  | _ => None
  end.

(** `(x as string) || fallback` and `(x as number) || fallback`: the
    casts change nothing, so a truthy [x] of another type is kept as it
    is, where the layout entry then holds no string, and no number. *)
Definition stringOr (fallback : string) (x : ref) : outcome string :=
  match x with
  | Undefined => Done fallback
  | Val (VStr p) => Done (if String.eqb p "" then fallback else p)
  | Val v => if truthy v then OffModel else Done fallback
  | _ => OffModel
  end.

Definition numberOr (fallback : Z) (x : ref) : outcome Z :=
  match x with
  | Undefined => Done fallback
  | Val (VNum n) => Done (if n =? 0 then fallback else n)
  | Val v => if truthy v then OffModel else Done fallback
  | _ => OffModel
  end.

(** `compEntry.key` for a truthy [compEntry]: a property of an object or
    of an array; a string, a number and `true` have wrapper prototypes,
    which hold neither of the two keys read here. *)
Definition readEntry (key : string) (compEntry : value) : ref :=
  match compEntry with
  | VObj _ | VArr _ => read key (Val compEntry)
  | _ => Undefined
  end.

(** Shift+D on the selected component. *)
Definition restoreDefaults (comp : ZoneComponent.t) (s : state) : outcome state :=
  let arrIdx := findPluginArrayIndex s (ZoneComponent.pluginIndex comp) in
  if 0 <=? arrIdx then
    match at_ (plugins s) arrIdx with
    | None => TypeError
    | Some plugin =>
        match whenTruthy (EnrichedPlugin.manifest plugin
                            ≫= getProp "components") with
        | Some components =>
            match whenTruthy (firstValue components) with
            | Some compEntry =>
                bind (stringOr "left" (readEntry "defaultPosition" compEntry))
                  (fun defaultPosition =>
                bind (numberOr 50 (readEntry "defaultPriority" compEntry))
                  (fun defaultPriority =>
                Done
                  (notify ("Restored " +:+ ZoneComponent.displayName comp
                           +:+ " to defaults") Success
                     (updateLayout arrIdx
                        (Some {| PluginLayout.position := defaultPosition;
                                 PluginLayout.priority := defaultPriority;
                                 PluginLayout.display := Some "all";
                                 PluginLayout.condition := None;
                                 PluginLayout.group := None;
                                 PluginLayout.groupOptions := None |}) s))))
            | None =>
                Done (notify "No component defaults found in manifest" Error s)
            end
        | None =>
            Done
              (notify ("Reset " +:+ ZoneComponent.displayName comp
                       +:+ " display settings") Success
                 (updateLayout arrIdx
                    (Some {| PluginLayout.position := ZoneComponent.position comp;
                             PluginLayout.priority := 50;
                             PluginLayout.display := Some "all";
                             PluginLayout.condition := None;
                             PluginLayout.group := None;
                             PluginLayout.groupOptions := None |}) s))
        end
    end
  else Done s.

(** Shift+Up (`delta = -1`) and Shift+Down (`delta = 1`): the selected
    component and its neighbour trade priorities. *)
Definition swapWith (delta : Z) (comp other : ZoneComponent.t) (s : state)
  : state :=
  let arrIdx := findPluginArrayIndex s (ZoneComponent.pluginIndex comp) in
  let otherArrIdx := findPluginArrayIndex s (ZoneComponent.pluginIndex other) in
  if (0 <=? arrIdx) && (0 <=? otherArrIdx) then
    match at_ (plugins s) arrIdx ≫= EnrichedPlugin.layout,
          at_ (plugins s) otherArrIdx ≫= EnrichedPlugin.layout with
    | Some myLayout, Some otherLayout =>
        let s1 :=
          updateLayout arrIdx
            (Some (withPriority (ZoneComponent.priority other) myLayout)) s in
        let s2 :=
          updateLayoutFrom (plugins s) otherArrIdx
            (Some (withPriority (ZoneComponent.priority comp) otherLayout)) s1 in
        notify (if delta <? 0 then "Moved up" else "Moved down") Success
          (setSelectedComponent (selectedComponent s + delta) s2)
    | _, _ => s
    end
  else s.

Definition onKeyZones (name : string) (shift : bool)
    (currentComponents : list ZoneComponent.t) (s : state) : outcome state :=
  let selectedComp := at_ currentComponents (selectedComponent s) in
  if negb (drillMode s) then
    Done
      (if String.eqb name "left" then
         setFocusColumn (Z.max 0 (focusColumn s - 1)) s
       else if String.eqb name "right" then
         setFocusColumn (Z.min 2 (focusColumn s + 1)) s
       else if String.eqb name "up" && (focusColumn s =? 1) then
         setFocusCenterRow (Z.max 0 (focusCenterRow s - 1)) s
       else if String.eqb name "down" && (focusColumn s =? 1) then
         setFocusCenterRow (Z.min 3 (focusCenterRow s + 1)) s
       else if String.eqb name "return" then setDrillMode true s
       else if String.eqb name "g" then enterView Groups s
       else if String.eqb name "t" then enterView PageTypes s
       else if String.eqb name "["
               && (1 <? Z.of_nat (length (pageTypes (layoutConfig s)))) then
         cyclePageType (Z.of_nat (length (pageTypes (layoutConfig s))) - 1) s
       else if String.eqb name "]"
               && (1 <? Z.of_nat (length (pageTypes (layoutConfig s)))) then
         cyclePageType 1 s
       else s)
  else if String.eqb name "escape" then
    Done (setSelectedComponent 0 (setDrillMode false s))
  else
    match selectedComp with
    | None => Done s
    | Some comp =>
        if String.eqb name "m" then Done (enterView MoveZone s)
        else if String.eqb name "p" then Done (enterView EditPriority s)
        else if String.eqb name "v" then Done (enterView EditDisplay s)
        else if String.eqb name "c" then Done (enterView EditCondition s)
        else if String.eqb name "x" then Done (enterView ConfirmRemoveLayout s)
        else if String.eqb name "d" && shift then restoreDefaults comp s
        else if String.eqb name "up" && shift && (0 <? selectedComponent s) then
          match at_ currentComponents (selectedComponent s - 1) with
          | Some above => Done (swapWith (-1) comp above s)
          | None => Done s
          end
        else if String.eqb name "down" && shift
                && (selectedComponent s <? Z.of_nat (length currentComponents) - 1)
        then
          match at_ currentComponents (selectedComponent s + 1) with
          | Some below => Done (swapWith 1 comp below s)
          | None => Done s
          end
        else Done s
    end.

(** ** Events, effects and steps *)

Inductive event : Type :=
| Key (name : string) (shift : bool)
| SelectChange (index : Z)        (* `onChange` of the drilled-in list *)
| MoveZoneSelect (zone : Zone)
| SubmitPriority (text : string)
| DisplaySelect (mode : string)
| SubmitCondition (text : string)
| ConfirmYes
| GroupsSave (newLayout : LayoutConfig)
| PageTypesSave (newLayout : LayoutConfig)
| Cancel.                         (* `onCancel` of a sub-view *)

(** The handler that an event reaches in the render of [s], whose
    `currentComponents` is [comps]. *)
Definition handle (e : event) (comps : list ZoneComponent.t) (s : state)
  : outcome state :=
  let selectedComp := at_ comps (selectedComponent s) in
  match e, view s, selectedComp with
  | Key name shift, Zones, _ => onKeyZones name shift comps s
  | Key name _, (EditPriority | EditCondition), _ =>
      Done (if String.eqb name "escape" then exitView s else s)
  | SelectChange index, Zones, _ =>
      Done (if drillMode s then setSelectedComponent index s else s)
  | SelectChange index,
    (MoveZone | EditPriority | EditDisplay | EditCondition | ConfirmRemoveLayout),
    None =>
      Done (if drillMode s then setSelectedComponent index s else s)
  | MoveZoneSelect zone, MoveZone, Some comp => Done (moveZoneSelect zone comp s)
  | SubmitPriority text, EditPriority, Some comp => submitPriority text comp s
  | DisplaySelect mode, EditDisplay, Some comp => Done (displaySelect mode comp s)
  | SubmitCondition text, EditCondition, Some comp =>
      Done (submitCondition text comp s)
  | ConfirmYes, ConfirmRemoveLayout, Some comp => Done (confirmRemove comp s)
  | GroupsSave newLayout, Groups, _ =>
      Done (exitView (notify "Groups updated" Success (saveLayout newLayout s)))
  | PageTypesSave newLayout, PageTypes, _ => Done (saveLayout newLayout s)
  | Cancel, (MoveZone | EditDisplay | ConfirmRemoveLayout), Some _ =>
      Done (exitView s)
  | Cancel, (Groups | PageTypes), _ => Done (exitView s)
  | _, _, _ => Done s
  end.

(** The list widget reports the place of one of the options it shows. *)
Definition eventOk (e : event) (comps : list ZoneComponent.t) : Prop :=
  match e with
  | SelectChange index => 0 <= index < Z.of_nat (length comps)
  | _ => True
  end.

(** The first effect:
    `if (selectedComponent > Math.max(0, currentComponents.length - 1))
       setSelectedComponent(Math.max(0, currentComponents.length - 1))` *)
Definition clampEffect (comps : list ZoneComponent.t) (s : state) : state :=
  let len := Z.of_nat (length comps) in
  if Z.max 0 (len - 1) <? selectedComponent s
  then setSelectedComponent (Z.max 0 (len - 1)) s
  else s.

(** The second effect, which runs when `drillMode` or `currentZone` is
    not what the previous render saw ([prev] is [None] at mount):
    `if (!drillMode && currentZone) setSelectedComponent(0)` *)
Definition resetEffectRuns (prev : option state) (s : state) : bool :=
  match prev with
  | None => true
  | Some p =>
      negb (Bool.eqb (drillMode p) (drillMode s))
      || negb (bool_decide (getActiveZone p = getActiveZone s))
  end.

Definition resetEffectFires (prev : option state) (s : state) : bool :=
  resetEffectRuns prev s && negb (drillMode s)
  && bool_decide (is_Some (getActiveZone s)).

(** The effects of one render: both read the state of that render, and
    of two `setSelectedComponent` calls the later one stands. *)
Definition effects (prev : option state) (comps : list ZoneComponent.t)
    (s : state) : state :=
  if resetEffectFires prev s then setSelectedComponent 0 s
  else clampEffect comps s.

(** Renders and effects until nothing changes: after the first round
    only the cursor has moved, so the second round runs the first effect
    alone, and a third has nothing left to do. *)
Definition settle (prev : option state) (comps : list ZoneComponent.t)
    (s : state) : state :=
  clampEffect comps (effects prev comps s).

(** One event: the handler in the current render, then the renders and
    effects that follow. *)
Definition step (e : event) (s : state) : outcome state :=
  bind (currentComponents s) (fun comps =>
    bind (handle e comps s) (fun s' =>
      bind (currentComponents s') (fun comps' =>
        Done (settle (Some s) comps' s')))).

Inductive reachable : state -> Prop :=
| reach_mount p l comps :
    currentComponents (mount p l) = Done comps ->
    reachable (settle None comps (mount p l))
| reach_step s e comps s' :
    reachable s ->
    currentComponents s = Done comps ->
    eventOk e comps ->
    step e s = Done s' ->
    reachable s'.

End LayoutPanel.
(** ** Auxiliary definitions for the properties *)

Module Spec.
Import Settings Regex Layout.

(** The loop over the elements of an array. *)
Definition everyItem (b : ref) : list value -> nat -> bool :=
  fix every (l : list value) (i : nat) : bool :=
    match l with
    | [] => true
    | val :: rest => deepEqual val (atR b i) && every rest (S i)
    end.

(** The loop over the keys of `a`. *)
Definition everyKey (b : ref) : object -> bool :=
  fix every (l : object) : bool :=
    match l with
    | [] => true
    | (key, val) :: rest => deepEqual val (read key b) && every rest
    end.

(** No object within the value has `__proto__` among its own keys. *)
Fixpoint plainKeys (v : value) : Prop :=
  match v with
  | VArr items => (fix all (l : list value) : Prop :=
                     match l with
                     | [] => True
                     | x :: r => plainKeys x /\ all r
                     end) items
  | VObj props => (fix all (l : object) : Prop :=
                     match l with
                     | [] => True
                     | (k, x) :: r => k <> "__proto__" /\ plainKeys x /\ all r
                     end) props
  | _ => True
  end.

(** The function names the colour pattern lists. *)
Definition acceptedColorFunctions : list string :=
  ["rgb"; "rgba"; "hsl"; "hsla"; "hwb"; "lab"; "lch"; "color"].

(** The colour functions of CSS (Color Module Level 4). *)
Definition cssColorFunctions : list string :=
  ["rgb"; "rgba"; "hsl"; "hsla"; "hwb"; "lab"; "lch"; "oklab"; "oklch"; "color"].

Definition toLowerCase (s : string) : string :=
  Str.implode (map lower (Str.explode s)).

(** `#` followed by three, six or eight hexadecimal digits. *)
Definition IsHexColor (t : string) : Prop :=
  exists digits : string,
    t = "#" +:+ digits /\
    (String.length digits = 3 \/ String.length digits = 6
     \/ String.length digits = 8)%nat /\
    Forall (fun c => isHexDigit c = true) (Str.explode digits).

(** A function name out of [names], in any case, followed by a
    parenthesised argument: at least one character, none of them a line
    terminator. *)
Definition IsColorFunctionCall (names : list string) (t : string) : Prop :=
  exists name args : string,
    t = name +:+ "(" +:+ args +:+ ")" /\
    toLowerCase name ∈ names /\
    args <> "" /\
    Forall (fun c => Str.isLineTerminator c = false) (Str.explode args).

(** A key under which a node takes a value as one of its members: on
    an object every key but `__proto__`, which the object must hold
    already; on an array the index of an element, or the first free
    index. *)
Definition Storable (key : string) (node : value) : Prop :=
  match node with
  | VObj props => key = "__proto__" -> hasKey key props = true
  | VArr items => exists i, arrayIndex key = Some i /\ (i <= length items)%nat
  | _ => False
  end.

(** Every segment of the path is a key under which the node it is
    looked up in takes a value, and no node already present at an
    intermediate segment is `null`.  (A missing segment, a boolean, a
    number or a string may be in the way.) *)
Fixpoint PathClear (node : value) (keyPath : list string) : Prop :=
  match keyPath with
  | [] => True
  | key :: rest =>
      Storable key node /\
      match rest with
      | [] => True
      | _ :: _ =>
          match read key (Val node) with
          | Val VNull => False
          | Val (VObj child) => PathClear (VObj child) rest
          | Val (VArr items) => PathClear (VArr items) rest
          | _ => PathClear (VObj []) rest
          end
      end
  end.

(** The object that a fresh chain of nodes holds: `{ k1: { k2: ... V } }`. *)
Fixpoint nest (keyPath : list string) (v : value) : value :=
  match keyPath with
  | [] => v
  | key :: rest => VObj [(key, nest rest v)]
  end.

(** A node after one of its members was written under [key]: an object
    with the same keys in the same places and the same values under
    every other key; an array with the same elements at every other
    index. *)
Definition Kept (key : string) (before after : value) : Prop :=
  match before, after with
  | VObj o, VObj o' =>
      forall k, k <> key -> getProp k o' = getProp k o
  | VArr xs, VArr xs' =>
      forall i, arrayIndex key <> Some i -> xs' !! i = xs !! i
  | _, _ => False
  end.

(** The value a document holds at a key path: own keys of objects and
    elements of arrays, nothing else. *)
Fixpoint lookupPath (v : value) (keyPath : list string) : option value :=
  match keyPath with
  | [] => Some v
  | key :: rest =>
      match v with
      | VObj props => getProp key props ≫= fun child => lookupPath child rest
      | VArr items =>
          arrayIndex key ≫= fun i =>
          items !! i ≫= fun child => lookupPath child rest
      | _ => None
      end
  end.

(** The names under which an object or an array finds something that it
    does not hold itself: the members of the two prototypes, and the
    length of an array. *)
Definition inheritedName (key : string) : bool :=
  existsb (String.eqb key) objectPrototypeNames
  || existsb (String.eqb key) arrayPrototypeNames
  || String.eqb key "length".

(** Objects and arrays: the values that have members. *)
Definition isNode (v : value) : bool :=
  match v with
  | VObj _ | VArr _ => true
  | _ => false
  end.

(** What is found at a place of the document after a write that passes
    through it by [key], with [rest] of the path still to go: where an
    object or an array was, it is kept ([Kept]); where anything else
    was, or nothing, a fresh chain of objects that ends in [V]. *)
Definition Settled (key : string) (rest : list string) (V : value)
    (before after : ref) : Prop :=
  match before with
  | Val (VObj props) =>
      exists node', after = Val node' /\ Kept key (VObj props) node'
  | Val (VArr items) =>
      exists node', after = Val node' /\ Kept key (VArr items) node'
  | _ => after = Val (nest (key :: rest) V)
  end.

(** [Q] is a proper, non-empty prefix of [P]: it names an intermediate
    segment. *)
Definition Intermediate (Q P : list string) : Prop :=
  Q <> [] /\ exists rest, rest <> [] /\ P = Q ++ rest.

(** Where a component of the grid comes from. *)
Definition Contributes (plugins : list EnrichedPlugin.t) (z : Zone)
    (c : ZoneComponent.t) : Prop :=
  exists plugin l,
    plugin ∈ plugins /\
    EnrichedPlugin.enabled plugin = true /\
    EnrichedPlugin.layout plugin = Some l /\
    PluginLayout.position l = zoneName z /\
    c = componentOf plugin l.

(** [c] is a copy, relabelled with [zone], of a component that the
    default grid shows for the plugin name [x]. *)
Definition Pulled (base : zoneMap) (zone : Zone) (x : string)
    (c : ZoneComponent.t) : Prop :=
  exists srcZone comp,
    comp ∈ base srcZone /\
    ZoneComponent.name comp = x /\
    c = ZoneComponent.withPosition (zoneName zone) comp.

End Spec.

(** ** Sample documents *)

Module Sample.
Import Config.

Definition sampleTheme : value :=
  VObj [ ("cdnCaching", VBool true);
         ("fonts", VArr [VStr "Inter"; VNull; VNum 2]) ].

Definition sampleThemeReordered : value :=
  VObj [ ("fonts", VArr [VStr "Inter"; VNull; VNum 2]);
         ("cdnCaching", VBool true) ].

(** A project directory whose configuration file is there and cannot be
    parsed. *)
Definition unreadableProject : fs :=
  {| configYaml := Some None; legacyPluginsJson := None;
     defaultConfigYaml := None; legacyDefaultPluginsJson := None |}.

(** Two objects of one key each. *)
Definition protoOnly : value := VObj [("__proto__", VObj [])].
Definition otherKeyOnly : value := VObj [("x", VNum 1)].

(** A project directory with none of the four files. *)
Definition emptyProject : fs :=
  {| configYaml := None; legacyPluginsJson := None;
     defaultConfigYaml := None; legacyDefaultPluginsJson := None |}.

Import Layout.

Definition searchLayout : PluginLayout.t :=
  {| PluginLayout.position := "header"; PluginLayout.priority := 10;
     PluginLayout.display := None; PluginLayout.condition := None;
     PluginLayout.group := None; PluginLayout.groupOptions := None |}.

Definition searchPlugin : EnrichedPlugin.t :=
  {| EnrichedPlugin.index := 0; EnrichedPlugin.name := "search";
     EnrichedPlugin.displayName := "Search"; EnrichedPlugin.enabled := true;
     EnrichedPlugin.layout := Some searchLayout;
     EnrichedPlugin.manifest := None |}.

Definition backlinksLayout : PluginLayout.t :=
  {| PluginLayout.position := "right"; PluginLayout.priority := 30;
     PluginLayout.display := Some "desktop-only"; PluginLayout.condition := None;
     PluginLayout.group := None; PluginLayout.groupOptions := None |}.

Definition backlinksPlugin : EnrichedPlugin.t :=
  {| EnrichedPlugin.index := 1; EnrichedPlugin.name := "backlinks";
     EnrichedPlugin.displayName := "Backlinks"; EnrichedPlugin.enabled := true;
     EnrichedPlugin.layout := Some backlinksLayout;
     EnrichedPlugin.manifest := None |}.

Definition samplePlugins : list EnrichedPlugin.t :=
  [searchPlugin; backlinksPlugin].

(** The default grid of [samplePlugins]. *)
Definition sampleGrid : zoneMap :=
  fun zone =>
    sortByPriority
      (pushZone Right (componentOf backlinksPlugin backlinksLayout)
         (pushZone Header (componentOf searchPlugin searchLayout) emptyZones)
         zone).

Definition listOverride : PageTypeOverride :=
  {| exclude := None; positions := Some [("search", VStr "footer")] |}.

Definition sampleLayoutConfig : LayoutConfig :=
  {| groups := None; byPageType := Some [("list", listOverride)] |}.

(** An enabled plugin whose layout position is the name of an inherited
    property. *)
Definition constructorPlugin : EnrichedPlugin.t :=
  {| EnrichedPlugin.index := 0; EnrichedPlugin.name := "explorer";
     EnrichedPlugin.displayName := "Explorer"; EnrichedPlugin.enabled := true;
     EnrichedPlugin.layout :=
       Some {| PluginLayout.position := "constructor";
               PluginLayout.priority := 50;
               PluginLayout.display := None; PluginLayout.condition := None;
               PluginLayout.group := None; PluginLayout.groupOptions := None |};
     EnrichedPlugin.manifest := None |}.

(** The Layout panel with the priority editor open on the search
    component of the header. *)
Definition priorityEditing : LayoutPanel.state :=
  {| LayoutPanel.plugins := LayoutPanel.getEnrichedPlugins samplePlugins;
     LayoutPanel.layout := None;
     LayoutPanel.focusColumn := 1; LayoutPanel.focusCenterRow := 0;
     LayoutPanel.drillMode := true; LayoutPanel.selectedComponent := 0;
     LayoutPanel.view := LayoutPanel.EditPriority; LayoutPanel.listKey := 0;
     LayoutPanel.activePageType := "default";
     LayoutPanel.notices := []; LayoutPanel.focused := true |}.

Definition headerPlugin (name displayName : string) (priority : Z)
  : EnrichedPlugin.t :=
  {| EnrichedPlugin.index := 0; EnrichedPlugin.name := name;
     EnrichedPlugin.displayName := displayName; EnrichedPlugin.enabled := true;
     EnrichedPlugin.layout :=
       Some {| PluginLayout.position := "header";
               PluginLayout.priority := priority;
               PluginLayout.display := None; PluginLayout.condition := None;
               PluginLayout.group := None; PluginLayout.groupOptions := None |};
     EnrichedPlugin.manifest := None |}.

(** Three components in the header. *)
Definition headerPlugins : list EnrichedPlugin.t :=
  [ headerPlugin "search" "Search" 10;
    headerPlugin "darkmode" "Darkmode" 20;
    headerPlugin "breadcrumbs" "Breadcrumbs" 30 ].


(** A project whose configuration holds a numeric setting. *)
Definition numericProject : fs :=
  {| configYaml :=
       Some (Some [ ("configuration", VObj [("maxItems", VNum 5)]);
                    ("plugins", VArr []) ]);
     legacyPluginsJson := None;
     defaultConfigYaml := None; legacyDefaultPluginsJson := None |}.

Definition maxItemsEntry : Settings.FlatEntry :=
  {| Settings.keyPath := ["maxItems"]; Settings.displayKey := "maxItems";
     Settings.entryValue := VNum 5; Settings.depth := 0%nat;
     Settings.isObject := false |}.

(** The Settings panel with the free-form editor open on that setting. *)
Definition maxItemsEditing : SettingsPanel.state :=
  SettingsPanel.enterEdit maxItemsEntry (SettingsPanel.mount numericProject).

(** A project whose configuration holds a numeric setting inside an
    object, and the free-form editor open on it. *)
Definition nestedNumericProject : fs :=
  {| configYaml :=
       Some (Some [ ("configuration",
                     VObj [ ("pageTitle", VStr "Notes");
                            ("feed", VObj [("maxItems", VNum 5)]) ]);
                    ("plugins", VArr []) ]);
     legacyPluginsJson := None;
     defaultConfigYaml := None; legacyDefaultPluginsJson := None |}.

Definition feedMaxItemsEntry : Settings.FlatEntry :=
  {| Settings.keyPath := ["feed"; "maxItems"];
     Settings.displayKey := "maxItems";
     Settings.entryValue := VNum 5; Settings.depth := 1%nat;
     Settings.isObject := false |}.

Definition feedMaxItemsEditing : SettingsPanel.state :=
  SettingsPanel.enterEdit feedMaxItemsEntry
    (SettingsPanel.mount nestedNumericProject).

(** A project whose configuration is the shipped default. *)
Definition defaultProject : fs :=
  {| configYaml := Some (Some minimal); legacyPluginsJson := None;
     defaultConfigYaml := Some (Some minimal);
     legacyDefaultPluginsJson := None |}.

(** A project with a setting named `constructor`, for which the
    shipped default has nothing. *)
Definition constructorProject : fs :=
  {| configYaml :=
       Some (Some [ ("configuration", VObj [("constructor", VStr "mine")]);
                    ("plugins", VArr []) ]);
     legacyPluginsJson := None;
     defaultConfigYaml :=
       Some (Some [ ("configuration", VObj [("pageTitle", VStr "Quartz")]);
                    ("plugins", VArr []) ]);
     legacyDefaultPluginsJson := None |}.

Definition constructorEntry : Settings.FlatEntry :=
  {| Settings.keyPath := ["constructor"]; Settings.displayKey := "constructor";
     Settings.entryValue := VStr "mine"; Settings.depth := 0%nat;
     Settings.isObject := false |}.

End Sample.


(** ** The plugin list and the layout section (`lib/config.ts`) *)

Module ConfigOps.
Import Config.

(** What `!v` negates. *)
Definition truthy (v : value) : bool :=
  match v with
  | VNull => false
  | VBool b => b
  | VNum n => negb (n =? 0)
  | VStr t => negb (String.eqb t "")
  | VArr _ | VObj _ => true
  end.

(** `json?.plugins as Array<Record<string, unknown>> | undefined`, as
    the functions below look at it: an array, or a value that `!` takes
    for absent.  Any other value does not fit the cast, and what the
    functions do with it is not modelled. *)
Definition pluginsOf (json : object) : outcome (option (list value)) :=
  match getProp "plugins" json with
  | None => Done None
  | Some (VArr l) => Done (Some l)
  | Some v => if truthy v then OffModel else Done None
  end.

(** `Object.assign(target, updates)` *)
Definition assign (target updates : object) : object :=
  fold_left (fun acc kv => setProp kv.1 kv.2 acc) updates target.

(** `updatePluginEntry(index, updates)`: the files afterwards and the
    boolean returned.  An entry that is truthy and not an object does
    not fit the cast. *)
Definition updatePluginEntry (d : fs) (index : Z) (updates : object)
  : outcome (fs * bool) :=
  match readPluginsJson d with
  | None => Done (d, false)
  | Some json =>
      bind (pluginsOf json) (fun plugins =>
        match plugins ≫= (fun l => at_ l index) with
        | None => Done (d, false)
        | Some entry =>
            if negb (truthy entry) then Done (d, false)
            else
              match entry, plugins with
              | VObj o, Some l =>
                  let l' := <[Z.to_nat index := VObj (assign o updates)]> l in
                  Done (writePluginsJson d (setProp "plugins" (VArr l') json),
                        true)
              | _, _ => OffModel
              end
        end)
  end.

(** `arr.splice(start, ...)`: where the splice begins in an array of
    [len] items. *)
Definition spliceStart (start len : Z) : Z :=
  if start <? 0 then Z.max (len + start) 0 else Z.min start len.

(** `const [moved] = plugins.splice(fromIndex, 1);
     plugins.splice(toIndex, 0, moved)`.
    When the first splice begins at the end of the array nothing is
    taken out, and the second would insert `undefined`. *)
Definition moveItem (fromIndex toIndex : Z) (l : list value)
  : outcome (list value) :=
  let len := Z.of_nat (length l) in
  let i := Z.to_nat (spliceStart fromIndex len) in
  match l !! i with
  | None => OffModel
  | Some moved =>
      let rest := delete i l in
      let j := Z.to_nat (spliceStart toIndex (Z.of_nat (length rest))) in
      Done (take j rest ++ moved :: drop j rest)
  end.

Definition reorderPlugin (d : fs) (fromIndex toIndex : Z)
  : outcome (fs * bool) :=
  match readPluginsJson d with
  | None => Done (d, false)
  | Some json =>
      bind (pluginsOf json) (fun plugins =>
        match plugins with
        | None => Done (d, false)
        | Some l =>
            bind (moveItem fromIndex toIndex l) (fun l' =>
              Done (writePluginsJson d (setProp "plugins" (VArr l') json),
                    true))
        end)
  end.

Definition removePluginEntry (d : fs) (index : Z) : outcome (fs * bool) :=
  match readPluginsJson d with
  | None => Done (d, false)
  | Some json =>
      bind (pluginsOf json) (fun plugins =>
        match plugins, plugins ≫= (fun l => at_ l index) with
        | Some l, Some entry =>
            if negb (truthy entry) then Done (d, false)
            else
              let l' := delete (Z.to_nat index) l in
              Done (writePluginsJson d (setProp "plugins" (VArr l') json),
                    true)
        | _, _ => Done (d, false)
        end)
  end.

(** `if (!json.plugins) json.plugins = []; json.plugins.push(entry)`:
    a truthy value that is not an array has no `push`. *)
Definition addPluginEntry (d : fs) (entry : object) : outcome (fs * bool) :=
  match readPluginsJson d with
  | None => Done (d, false)
  | Some json =>
      let current :=
        match getProp "plugins" json with
        | Some v => if truthy v then v else VArr []
        | None => VArr []
        end in
      match current with
      | VArr l =>
          Done (writePluginsJson d
                  (setProp "plugins" (VArr (l ++ [VObj entry])) json),
                true)
      | _ => TypeError
      end
  end.

(** `(pluginsJson?.layout as Record<string, unknown>) ?? null`, with
    [None] for `null`. *)
Definition getLayoutConfig (d : fs) : option value :=
  match readPluginsJson d ≫= getProp "layout" with
  | Some VNull => None
  | other => other
  end.

Definition updateLayoutConfig (d : fs) (layout : object) : fs * bool :=
  match readPluginsJson d with
  | None => (d, false)
  | Some json => (writePluginsJson d (setProp "layout" (VObj layout) json), true)
  end.

End ConfigOps.

(** ** The application shell (`App.tsx`) *)

Module AppShell.
Import Config App.

Inductive Tab : Type := Plugins | Layout | Settings.

Definition TABS : list Tab := [Plugins; Layout; Settings].

Definition Tab_eqb (a b : Tab) : bool :=
  match a, b with
  | Plugins, Plugins | Layout, Layout | Settings, Settings => true
  | _, _ => false
  end.

(** `TABS.indexOf(tab)` *)
Fixpoint indexOfTab (i : Z) (tab : Tab) (l : list Tab) : Z :=
  match l with
  | [] => -1
  | t :: rest => if Tab_eqb t tab then i else indexOfTab (i + 1) tab rest
  end.

(** The state of `App`, the timers that `notify` has started and that
    have not fired yet, and whether the process has exited. *)
Record state : Type := {
  hasConfig : bool;
  activeTab : Tab;
  notification : option Notice;
  panelFocused : bool;
  timers : nat;
  exited : bool;
}.

Definition mount (d : fs) : state :=
  {| hasConfig := configExists d; activeTab := Plugins; notification := None;
     panelFocused := false; timers := 0; exited := false |}.

(** What `App` renders: the setup wizard while `hasConfig` is false, the
    tabs with the panel of the active tab otherwise. *)
Inductive Screen : Type :=
| WizardScreen
| PanelScreen (tab : Tab).

Definition screen (s : state) : Screen :=
  if hasConfig s then PanelScreen (activeTab s) else WizardScreen.

(** `setNotification({ message, type });
     setTimeout(() => setNotification(null), 3000)` *)
Definition notify (msg : string) (t : NoticeType) (s : state) : state :=
  {| hasConfig := hasConfig s; activeTab := activeTab s;
     notification := Some {| message := msg; noticeType := t |};
     panelFocused := panelFocused s; timers := S (timers s);
     exited := exited s |}.

Definition setActiveTab (tab : Tab) (s : state) : state :=
  {| hasConfig := hasConfig s; activeTab := tab;
     notification := notification s; panelFocused := panelFocused s;
     timers := timers s; exited := exited s |}.

Definition setPanelFocused (f : bool) (s : state) : state :=
  {| hasConfig := hasConfig s; activeTab := activeTab s;
     notification := notification s; panelFocused := f;
     timers := timers s; exited := exited s |}.

(** The first keyboard handler: `q` leaves the program. *)
Definition onKeyQuit (name : string) (s : state) : state :=
  if panelFocused s || negb (hasConfig s) then s
  else if negb (String.eqb name "q") then s
  else {| hasConfig := hasConfig s; activeTab := activeTab s;
          notification := notification s; panelFocused := panelFocused s;
          timers := timers s; exited := true |}.

(** The second keyboard handler: Tab and Shift+Tab walk the tabs. *)
Definition onKeyTab (name : string) (shift : bool) (s : state) : state :=
  if negb (hasConfig s) || panelFocused s then s
  else if negb (String.eqb name "tab") then s
  else
    let currentIndex := indexOfTab 0 (activeTab s) TABS in
    let n := Z.of_nat (length TABS) in
    let next :=
      if shift then Z.rem (currentIndex - 1 + n) n
      else Z.rem (currentIndex + 1) n in
    match at_ TABS next with
    | Some tab => setActiveTab tab s
    | None => s
    end.

Inductive event : Type :=
| Key (name : string) (shift : bool)
| SetupComplete              (* `onComplete` of the setup wizard *)
| PanelNotify (msg : string) (t : NoticeType)
| PanelFocus (f : bool)      (* `onFocusChange` of a panel *)
| TimerFires.                (* one of the pending `setTimeout` callbacks *)

(** Both keyboard handlers see every key, in the state of the same
    render; after `process.exit` nothing runs. *)
Definition step (e : event) (s : state) : state :=
  if exited s then s
  else
    match e with
    | Key name shift =>
        let s1 := onKeyQuit name s in
        if exited s1 then s1 else onKeyTab name shift s
    | SetupComplete =>
        if hasConfig s then s
        else notify "Configuration created" Success
               {| hasConfig := true; activeTab := activeTab s;
                  notification := notification s;
                  panelFocused := panelFocused s; timers := timers s;
                  exited := exited s |}
    | PanelNotify msg t => if hasConfig s then notify msg t s else s
    | PanelFocus f => if hasConfig s then setPanelFocused f s else s
    | TimerFires =>
        match timers s with
        | O => s
        | S n =>
            {| hasConfig := hasConfig s; activeTab := activeTab s;
               notification := None; panelFocused := panelFocused s;
               timers := n; exited := exited s |}
        end
    end.

Inductive reachable (d : fs) : state -> Prop :=
| reach_mount : reachable d (mount d)
| reach_step s e : reachable d s -> reachable d (step e s).

End AppShell.
(** ** The sub-views that edit the layout section

    `GroupsView`, `PageTypesView`, `PageTypeExcludeView` and
    `PageTypePositionsView` of `panels/LayoutPanel.tsx`.  Each is a state
    machine of its own: the props are parameters of its step, and what
    it calls back (`onSave`, `onCancel`, `notify`) is the output of the
    step, which [LayoutViews] hands to the Layout panel. *)

Module LayoutKeys.
Import Layout.

(** `obj[key] = v`, where [v] is an object: `__proto__`, where it is not
    an own key, is the accessor of `Object.prototype`, whose setter
    gives [obj] another prototype and no new key; what is then written
    to the document, which holds own keys only, is [obj] as it was. *)
Definition assignKey {A} (key : string) (v : A) (l : list (string * A))
  : list (string * A) :=
  if String.eqb key "__proto__" && negb (hasKey key l) then l
  else setKey key v l.

(** `{ ...(layout ?? {}) }` with `groups`, or `byPageType`, replaced. *)
Definition withGroups (layout : option LayoutConfig) (g : object)
  : LayoutConfig :=
  {| groups := Some g; byPageType := layout ≫= byPageType |}.

Definition withByPageType (layout : option LayoutConfig)
    (b : list (string * PageTypeOverride)) : LayoutConfig :=
  {| groups := layout ≫= groups; byPageType := Some b |}.

(** The double quote of a message. *)
Definition quote : string := String (ascii_of_nat 34) EmptyString.

(** What a view calls back. *)
Inductive output : Type :=
| Save (newLayout : LayoutConfig)
| Notify (msg : string) (t : App.NoticeType)
| CancelView.

End LayoutKeys.

Module GroupsView.
Import Layout LayoutKeys.

Inductive GroupsMode : Type :=
| ModeList | ModeAdd | ModeConfirmDelete | ModeEdit.

Inductive EditField : Type := Direction | Gap.

Record state : Type := {
  selected : Z;
  mode : GroupsMode;
  editField : option EditField;
}.

Definition mount : state :=
  {| selected := 0; mode := ModeList; editField := None |}.

Definition setSelected (i : Z) (s : state) : state :=
  {| selected := i; mode := mode s; editField := editField s |}.

Definition setMode (m : GroupsMode) (s : state) : state :=
  {| selected := selected s; mode := m; editField := editField s |}.

Definition setEditField (f : option EditField) (s : state) : state :=
  {| selected := selected s; mode := mode s; editField := f |}.

(** `(layout as {...})?.groups ?? {}`, and its `Object.entries`. *)
Definition groupsOf (layout : option LayoutConfig) : object :=
  default [] (layout ≫= groups).

(** `groupEntries[selected] ?? null` *)
Definition selectedGroup (layout : option LayoutConfig) (s : state)
  : option (string * value) :=
  at_ (groupsOf layout) (selected s).

(** What the render returns. *)
Inductive Screen : Type :=
| AddScreen
| ConfirmScreen (groupName : string)
| EditScreen (groupName : string) (groupConfig : value) (field : EditField)
| ListScreen.

Definition screen (layout : option LayoutConfig) (s : state) : Screen :=
  match mode s, selectedGroup layout s, editField s with
  | ModeAdd, _, _ => AddScreen
  | ModeConfirmDelete, Some g, _ => ConfirmScreen g.1
  | ModeEdit, Some g, Some f => EditScreen g.1 g.2 f
  | _, _, _ => ListScreen
  end.

Inductive event : Type :=
| Key (name : string)
| SubmitName (value : string)     (* `onSubmit` of the name input *)
| SubmitField (value : string)    (* `onSubmit` of the field input *)
| SelectChange (index : Z)        (* `onChange` of the list *)
| SelectEnter.                    (* `onSelect` of the list *)

(** The three keyboard handlers of the view, each of which looks at the
    mode first. *)
Definition onKey (layout : option LayoutConfig) (name : string) (s : state)
  : state * option output :=
  match mode s with
  | ModeList =>
      if String.eqb name "escape" then (s, Some CancelView)
      else if String.eqb name "n" then (setMode ModeAdd s, None)
      else if String.eqb name "d" && bool_decide (is_Some (selectedGroup layout s))
      then (setMode ModeConfirmDelete s, None)
      else (s, None)
  | ModeEdit =>
      if String.eqb name "escape"
      then (setEditField None (setMode ModeList s), None)
      else (s, None)
  | ModeAdd =>
      if String.eqb name "escape" then (setMode ModeList s, None)
      else (s, None)
  | ModeConfirmDelete => (s, None)
  end.

(** The keyboard handler of `ConfirmPrompt`, with the callbacks the
    view gives it. *)
Definition onKeyConfirm (layout : option LayoutConfig) (groupName name : string)
    (s : state) : state * option output :=
  if String.eqb name "y"
  then (s, Some (Save (withGroups layout (deleteKey groupName (groupsOf layout)))))
  else if String.eqb name "n" || String.eqb name "escape"
  then (setMode ModeList s, None)
  else (s, None).

(** `onSubmit` of the name input. *)
Definition submitName (layout : option LayoutConfig) (value : string)
    (s : state) : outcome (state * option output) :=
  let name := Str.trim value in
  if String.eqb name "" then Done (setMode ModeList s, None)
  else
    Done (s, Some (Save (withGroups layout
                           (assignKey name
                              (VObj [ ("direction", VStr "row");
                                      ("gap", VStr "0.5rem") ])
                              (groupsOf layout))))).

(** `onSubmit` of the field input.  The layout built for the direction
    is dropped: that branch only moves on to the gap. *)
Definition submitField (layout : option LayoutConfig) (groupName : string)
    (field : EditField) (value : string) (s : state)
  : outcome (state * option output) :=
  match field with
  | Direction => Done (setEditField (Some Gap) s, None)
  | Gap =>
      match getProp groupName (groupsOf layout) with
      | Some (VObj cfg) =>
          Done (s, Some (Save (withGroups layout
                                 (setProp groupName
                                    (VObj (setProp "gap" (VStr value) cfg))
                                    (groupsOf layout)))))
      | _ => OffModel
      end
  end.

(** One event in the render of [s]: the next state and what the view
    calls back.  An event of a widget that the render does not show
    cannot arrive. *)
Definition step (layout : option LayoutConfig) (e : event) (s : state)
  : outcome (state * option output) :=
  match e, screen layout s with
  | Key name, ConfirmScreen groupName =>
      Done (onKeyConfirm layout groupName name s)
  | Key name, _ => Done (onKey layout name s)
  | SubmitName value, AddScreen => submitName layout value s
  | SubmitField value, EditScreen groupName _ field =>
      submitField layout groupName field value s
  | SelectChange index, ListScreen =>
      match groupsOf layout with
      | [] => Done (s, None)
      | _ => Done (setSelected (Z.max 0 index) s, None)
      end
  | SelectEnter, ListScreen =>
      match groupsOf layout, selectedGroup layout s with
      | _ :: _, Some _ =>
          Done (setEditField (Some Direction) (setMode ModeEdit s), None)
      | _, _ => Done (s, None)
      end
  | _, _ => Done (s, None)
  end.

End GroupsView.

Module PositionsView.
Import Layout LayoutKeys.

Inductive PositionEntry : Type :=
| PluginEntry (pluginName position : string)
| ClearEntry (zone : string) (count : nat).

Inductive PositionMode : Type := ModeList | ModeAddPlugin | ModeSelectPosition.

Record state : Type := {
  selected : Z;
  mode : PositionMode;
  activePlugin : option string;
}.

Definition mount : state :=
  {| selected := 0; mode := ModeList; activePlugin := None |}.

Definition setSelected (i : Z) (s : state) : state :=
  {| selected := i; mode := mode s; activePlugin := activePlugin s |}.

Definition setMode (m : PositionMode) (s : state) : state :=
  {| selected := selected s; mode := m; activePlugin := activePlugin s |}.

Definition setActivePlugin (p : option string) (s : state) : state :=
  {| selected := selected s; mode := mode s; activePlugin := p |}.

(** The `entries` memo: a string value is a plugin override, an array a
    cleared zone, and anything else is passed over. *)
Definition entries (positions : object) : list PositionEntry :=
  omap (fun kv =>
          match kv.2 with
          | VStr position => Some (PluginEntry kv.1 position)
          | VArr items => Some (ClearEntry kv.1 (length items))
          | _ => None
          end) positions.

Definition entryKey (e : PositionEntry) : string :=
  match e with
  | PluginEntry pluginName _ => pluginName
  | ClearEntry zone _ => zone
  end.

(** `existingOverrideNames` *)
Definition existingOverrideNames (positions : object) : list string :=
  omap (fun e => match e with
                 | PluginEntry pluginName _ => Some pluginName
                 | ClearEntry _ _ => None
                 end) (entries positions).

(** `availablePlugins` *)
Definition availablePlugins (positions : object)
    (plugins : list EnrichedPlugin.t) : list EnrichedPlugin.t :=
  filter (fun p => negb (existsb (String.eqb (EnrichedPlugin.name p))
                           (existingOverrideNames positions)))
    (filter (fun p => EnrichedPlugin.enabled p) plugins).

Inductive Screen : Type :=
| AddPluginScreen
| SelectPositionScreen (pluginName : string)
| ListScreen.

(** `mode === "select-position" && activePlugin` asks for a name that
    is not empty. *)
Definition screen (s : state) : Screen :=
  match mode s, activePlugin s with
  | ModeAddPlugin, _ => AddPluginScreen
  | ModeSelectPosition, Some p =>
      if String.eqb p "" then ListScreen else SelectPositionScreen p
  | _, _ => ListScreen
  end.

Inductive event : Type :=
| Key (name : string)
| SelectChange (index : Z)     (* `onChange` of the list of overrides *)
| SelectEnter                  (* `onSelect` of the list of overrides *)
| PluginSelect (index : Z)     (* `onSelect` of the list of plugins *)
| ZoneSelect (zone : Zone).    (* `onSelect` of the list of zones *)

(** What the view hands to `onUpdate`, or `onCancel`. *)
Inductive callback : Type :=
| Update (nextPositions : object)
| Back.

Definition onKey (positions : object) (name : string) (s : state)
  : state * option callback :=
  match mode s with
  | ModeList =>
      if String.eqb name "escape" then (s, Some Back)
      else if String.eqb name "n" then (setMode ModeAddPlugin s, None)
      else if String.eqb name "d" then
        match at_ (entries positions) (selected s) with
        | None => (s, None)
        | Some entry =>
            (setSelected (Z.max 0 (selected s - 1)) s,
             Some (Update (deleteKey (entryKey entry) positions)))
        end
      else (s, None)
  | ModeAddPlugin | ModeSelectPosition =>
      if String.eqb name "escape" then (setMode ModeList s, None)
      else (s, None)
  end.

(** `commitPosition(pluginName, position)`:
    `{ ...positions, [pluginName]: position }` *)
Definition commitPosition (positions : object) (pluginName : string)
    (zone : Zone) : object :=
  setProp pluginName (VStr (zoneName zone)) positions.

Definition step (positions : object) (plugins : list EnrichedPlugin.t)
    (e : event) (s : state) : outcome (state * option callback) :=
  match e, screen s with
  | Key name, _ => Done (onKey positions name s)
  | PluginSelect index, AddPluginScreen =>
      match at_ (availablePlugins positions plugins) index with
      | Some p =>
          if String.eqb (EnrichedPlugin.name p) "" then Done (s, None)
          else Done (setMode ModeSelectPosition
                       (setActivePlugin (Some (EnrichedPlugin.name p)) s),
                     None)
      | None => Done (s, None)
      end
  | ZoneSelect zone, SelectPositionScreen pluginName =>
      Done (setMode ModeList s,
            Some (Update (commitPosition positions pluginName zone)))
  | SelectChange index, ListScreen =>
      match entries positions with
      | [] => Done (s, None)
      | _ => Done (setSelected (Z.max 0 index) s, None)
      end
  | SelectEnter, ListScreen =>
      match entries positions, at_ (entries positions) (selected s) with
      | _ :: _, Some (PluginEntry pluginName _) =>
          Done (setMode ModeSelectPosition
                  (setActivePlugin (Some pluginName) s), None)
      | _, _ => Done (s, None)
      end
  | _, _ => Done (s, None)
  end.

End PositionsView.

Module PageTypesView.
Import Layout LayoutKeys.

Inductive PageTypesMode : Type :=
| ModeList | ModeAdd | ModeConfirmDelete | ModeDetail | ModeExclude
| ModePositions.

(** The state of the view, and that of the positions view while it is
    mounted. *)
Record state : Type := {
  selected : Z;
  mode : PageTypesMode;
  positionsState : PositionsView.state;
}.

Definition mount : state :=
  {| selected := 0; mode := ModeList; positionsState := PositionsView.mount |}.

Definition setSelected (i : Z) (s : state) : state :=
  {| selected := i; mode := mode s; positionsState := positionsState s |}.

Definition setMode (m : PageTypesMode) (s : state) : state :=
  {| selected := selected s; mode := m; positionsState := positionsState s |}.

Definition setPositionsState (p : PositionsView.state) (s : state) : state :=
  {| selected := selected s; mode := mode s; positionsState := p |}.

(** `layoutConfig.byPageType ?? {}`, and its `Object.entries`. *)
Definition byPageTypeOf (layout : option LayoutConfig)
  : list (string * PageTypeOverride) :=
  default [] (layout ≫= byPageType).

Definition selectedEntry (layout : option LayoutConfig) (s : state)
  : option (string * PageTypeOverride) :=
  at_ (byPageTypeOf layout) (selected s).

Definition emptyOverride : PageTypeOverride :=
  {| exclude := None; positions := None |}.

(** `(selectedEntry?.[1] ?? {}) as PageTypeOverride` *)
Definition selectedOverride (layout : option LayoutConfig) (s : state)
  : PageTypeOverride :=
  default emptyOverride (snd <$> selectedEntry layout s).

(** `updatePageType(pageType, updater)`: the layout handed to `onSave`.
    An empty `exclude` and an empty `positions` are deleted from the
    override. *)
Definition normalise (next : PageTypeOverride) : PageTypeOverride :=
  {| exclude := match exclude next with
                | Some [] => None
                | other => other
                end;
     positions := match positions next with
                  | Some [] => None
                  | other => other
                  end |}.

Definition updatePageType (layout : option LayoutConfig) (pageType : string)
    (updater : PageTypeOverride -> PageTypeOverride) : LayoutConfig :=
  let currentByPageType := byPageTypeOf layout in
  let current := default emptyOverride (getKey pageType currentByPageType) in
  let next := normalise (updater current) in
  withByPageType layout (setKey pageType next currentByPageType).

Inductive Screen : Type :=
| AddScreen
| ConfirmScreen (pageType : string)
| ExcludeScreen (pageType : string)
| PositionsScreen (pageType : string)
| DetailScreen (pageType : string)
| ListScreen.

(** Every sub-screen asks for `selectedPageType`, a key that is there
    and is not the empty string. *)
Definition screen (layout : option LayoutConfig) (s : state) : Screen :=
  let selectedPageType :=
    match selectedEntry layout s with
    | Some (k, _) => if String.eqb k "" then None else Some k
    | None => None
    end in
  match mode s, selectedPageType with
  | ModeAdd, _ => AddScreen
  | ModeConfirmDelete, Some k => ConfirmScreen k
  | ModeExclude, Some k => ExcludeScreen k
  | ModePositions, Some k => PositionsScreen k
  | ModeDetail, Some k => DetailScreen k
  | _, _ => ListScreen
  end.

Inductive DetailChoice : Type := ChooseExclude | ChoosePositions.

Inductive event : Type :=
| Key (name : string)
| SubmitName (value : string)        (* `onSubmit` of the name input *)
| SelectChange (index : Z)           (* `onChange` of the list *)
| SelectEnter                        (* `onSelect` of the list *)
| DetailSelect (choice : DetailChoice)
| ExcludeSelect (index : Z)          (* `onSelect` of the exclude list *)
| Positions (e : PositionsView.event).

(** The three keyboard handlers of the view. *)
Definition onKey (layout : option LayoutConfig) (name : string) (s : state)
  : state * option output :=
  match mode s with
  | ModeList =>
      if String.eqb name "escape" then (s, Some CancelView)
      else if String.eqb name "n" then (setMode ModeAdd s, None)
      else if String.eqb name "d" && bool_decide (is_Some (selectedEntry layout s))
      then (setMode ModeConfirmDelete s, None)
      else (s, None)
  | ModeDetail | ModeAdd =>
      if String.eqb name "escape" then (setMode ModeList s, None)
      else (s, None)
  | _ => (s, None)
  end.

(** The keyboard handler of `ConfirmPrompt`, with the callbacks the
    view gives it. *)
Definition onKeyConfirm (layout : option LayoutConfig) (pageType name : string)
    (s : state) : state * option output :=
  if String.eqb name "y"
  then (setMode ModeList (setSelected (Z.max 0 (selected s - 1)) s),
        Some (Save (withByPageType layout
                      (deleteKey pageType (byPageTypeOf layout)))))
  else if String.eqb name "n" || String.eqb name "escape"
  then (setMode ModeList s, None)
  else (s, None).

(** `byPageType[name]`, as the test for an existing page type reads it:
    an own key, or a member inherited from `Object.prototype`. *)
Definition pageTypeTaken (layout : option LayoutConfig) (name : string) : bool :=
  bool_decide (is_Some (getKey name (byPageTypeOf layout)))
  || existsb (String.eqb name) objectPrototypeNames.

(** `onSubmit` of the name input. *)
Definition submitName (layout : option LayoutConfig) (value : string)
    (s : state) : outcome (state * option output) :=
  let name := Str.trim value in
  if String.eqb name "" then Done (setMode ModeList s, None)
  else if pageTypeTaken layout name
  then Done (setMode ModeList s,
             Some (Notify ("Page type " +:+ quote +:+ name +:+ quote
                           +:+ " already exists") App.Error))
  else
    Done (setMode ModeList
            (setSelected (Z.of_nat (length (byPageTypeOf layout))) s),
          Some (Save (withByPageType layout
                        (setKey name emptyOverride (byPageTypeOf layout))))).

(** `onSelect` of `PageTypeExcludeView`, with the `onUpdate` the view
    gives it. *)
Definition excludeSelect (layout : option LayoutConfig)
    (plugins : list EnrichedPlugin.t) (pageType : string) (index : Z)
    (s : state) : state * option output :=
  let exclude_ := default [] (exclude (selectedOverride layout s)) in
  let enabledPlugins := filter (fun p => EnrichedPlugin.enabled p) plugins in
  match at_ enabledPlugins index with
  | None => (s, None)
  | Some p =>
      let name := EnrichedPlugin.name p in
      if String.eqb name "" then (s, None)
      else
        let isExcluded := existsb (String.eqb name) exclude_ in
        let nextExclude :=
          if isExcluded
          then filter (fun item => negb (String.eqb item name)) exclude_
          else exclude_ ++ [name] in
        (s, Some (Save (updatePageType layout pageType
                          (fun current =>
                             {| exclude := Some nextExclude;
                                positions := positions current |}))))
  end.

(** An event of `PageTypePositionsView`, with the `onUpdate` and the
    `onCancel` the view gives it. *)
Definition positionsStep (layout : option LayoutConfig)
    (plugins : list EnrichedPlugin.t) (pageType : string)
    (e : PositionsView.event) (s : state) : outcome (state * option output) :=
  let positions_ := default [] (positions (selectedOverride layout s)) in
  bind (PositionsView.step positions_ plugins e (positionsState s))
    (fun r =>
       let s' := setPositionsState r.1 s in
       match r.2 with
       | None => Done (s', None)
       | Some PositionsView.Back => Done (setMode ModeDetail s', None)
       | Some (PositionsView.Update nextPositions) =>
           Done (s', Some (Save (updatePageType layout pageType
                                   (fun current =>
                                      {| exclude := exclude current;
                                         positions := Some nextPositions |}))))
       end).

Definition step (layout : option LayoutConfig)
    (plugins : list EnrichedPlugin.t) (e : event) (s : state)
  : outcome (state * option output) :=
  match e, screen layout s with
  | Key name, ConfirmScreen pageType =>
      Done (onKeyConfirm layout pageType name s)
  | Key name, ExcludeScreen _ =>
      if String.eqb name "escape" then Done (setMode ModeDetail s, None)
      else Done (s, None)
  | Key name, PositionsScreen pageType =>
      positionsStep layout plugins pageType (PositionsView.Key name) s
  | Key name, _ => Done (onKey layout name s)
  | SubmitName value, AddScreen => submitName layout value s
  | SelectChange index, ListScreen =>
      match byPageTypeOf layout with
      | [] => Done (s, None)
      | _ => Done (setSelected (Z.max 0 index) s, None)
      end
  | SelectEnter, ListScreen =>
      match byPageTypeOf layout, selectedEntry layout s with
      | _ :: _, Some _ => Done (setMode ModeDetail s, None)
      | _, _ => Done (s, None)
      end
  | DetailSelect ChooseExclude, DetailScreen _ =>
      Done (setMode ModeExclude s, None)
  | DetailSelect ChoosePositions, DetailScreen _ =>
      Done (setPositionsState PositionsView.mount (setMode ModePositions s),
            None)
  | ExcludeSelect index, ExcludeScreen pageType =>
      Done (excludeSelect layout plugins pageType index s)
  | Positions pe, PositionsScreen pageType =>
      positionsStep layout plugins pageType pe s
  | _, _ => Done (s, None)
  end.

End PageTypesView.

(** How the Layout panel takes what its two views call back. *)
Module LayoutViews.
Import Layout LayoutKeys LayoutPanel.

(** `onSave` and `onCancel` as the panel passes them to `GroupsView`,
    in the render of [s], whose `currentComponents` is [comps]. *)
Definition deliverGroups (o : option output) (comps : list ZoneComponent.t)
    (s : state) : outcome state :=
  match o with
  | Some (Save newLayout) => handle (GroupsSave newLayout) comps s
  | Some CancelView => handle Cancel comps s
  | _ => Done s
  end.

(** The same for `PageTypesView`, which is also given `notify`. *)
Definition deliverPageTypes (o : option output) (comps : list ZoneComponent.t)
    (s : state) : outcome state :=
  match o with
  | Some (Save newLayout) => handle (PageTypesSave newLayout) comps s
  | Some (Notify msg t) => Done (notify msg t s)
  | Some CancelView => handle Cancel comps s
  | None => Done s
  end.

(** The panel with the groups view open: one event of the view. *)
Definition groupsStep (e : GroupsView.event) (comps : list ZoneComponent.t)
    (ps : state * GroupsView.state)
  : outcome (state * GroupsView.state) :=
  bind (GroupsView.step (layout ps.1) e ps.2)
    (fun r => bind (deliverGroups r.2 comps ps.1) (fun s' => Done (s', r.1))).

(** The panel with the page types view open: one event of the view. *)
Definition pageTypesStep (e : PageTypesView.event)
    (comps : list ZoneComponent.t) (ps : state * PageTypesView.state)
  : outcome (state * PageTypesView.state) :=
  bind (PageTypesView.step (layout ps.1) (plugins ps.1) e ps.2)
    (fun r => bind (deliverPageTypes r.2 comps ps.1) (fun s' => Done (s', r.1))).

End LayoutViews.
(** ** Plugin names (`extractPluginName` of `lib/config.ts`) *)

Module PluginSource.
Import Settings.

(** `s.replace(pat, rep)` for a string [pat]: the first occurrence. *)
Fixpoint replaceFirst (pat rep l : list ascii) : list ascii :=
  if startsWith pat l then rep ++ drop (length pat) l
  else
    match l with
    | [] => []
    | c :: rest => c :: replaceFirst pat rep rest
    end.

(** `s.split(sep)` for a separator of one character. *)
Fixpoint split (sep : ascii) (l : list ascii) : list (list ascii) :=
  match l with
  | [] => [[]]
  | c :: rest =>
      if Ascii.eqb c sep then [] :: split sep rest
      else
        match split sep rest with
        | first :: more => (c :: first) :: more
        | [] => [[c]]
        end
  end.

(** The regular expression `/\/([^/]+?)(?:\.git)?(?:#|$)/`, read from
    its end.  `(?:#|$)` at the start of [l]: *)
Definition hashOrEnd (l : list ascii) : bool :=
  match l with
  | [] => true
  | c :: _ => Ascii.eqb c "#"
  end.

(** `(?:\.git)?(?:#|$)` at the start of [l]: with `.git`, or failing
    that without. *)
Definition afterName (l : list ascii) : bool :=
  (startsWith (Str.explode ".git") l && hashOrEnd (drop 4 l)) || hashOrEnd l.

(** `([^/]+?)` and what follows it, at the start of [l]: the group is
    lazy, so it is the shortest run of one or more characters other
    than `/` after which the rest of the expression matches. *)
Fixpoint capture (l : list ascii) : option (list ascii) :=
  match l with
  | [] => None
  | c :: rest =>
      if Ascii.eqb c "/" then None
      else if afterName rest then Some [c]
      else cons c <$> capture rest
  end.

(** `url.match(...)?.[1]`: the group of the leftmost match. *)
Fixpoint matchName (l : list ascii) : option (list ascii) :=
  match l with
  | [] => None
  | c :: rest =>
      if Ascii.eqb c "/" then
        match capture rest with
        | Some name => Some name
        | None => matchName rest
        end
      else matchName rest
  end.

Definition extractPluginName (source : string) : string :=
  let src := Str.explode source in
  if startsWith (Str.explode "github:") src then
    let withoutPrefix := replaceFirst (Str.explode "github:") [] src in
    let repoPath := hd [] (split "#" withoutPrefix) in
    let parts := split "/" repoPath in
    Str.implode (List.last parts [])
  else if startsWith (Str.explode "git+") src
          || startsWith (Str.explode "https://") src then
    let url := replaceFirst (Str.explode "git+") [] src in
    match matchName url with
    | Some name => Str.implode name
    | None => source
    end
  else source.

End PluginSource.

(** ** Example projects *)

Module Examples.
Import Config.

Definition explorerEntry : object :=
  [ ("source", VStr "github:quartz-community/explorer");
    ("enabled", VBool true);
    ("options", VObj []);
    ("order", VNum 50);
    ("layout", VObj [("position", VStr "left"); ("priority", VNum 50)]) ].

Definition searchEntry : object :=
  [ ("source", VStr "github:quartz-community/search");
    ("enabled", VBool true);
    ("options", VObj []);
    ("order", VNum 20);
    ("layout", VObj [("position", VStr "header"); ("priority", VNum 10)]) ].

Definition graphEntry : object :=
  [ ("source", VStr "https://github.com/quartz-community/graph.git");
    ("enabled", VBool false);
    ("options", VObj [("depth", VNum 2)]);
    ("order", VNum 60) ].

Definition pluginEntries : list value :=
  [VObj explorerEntry; VObj searchEntry; VObj graphEntry].

Definition pluginDocument : object :=
  [ ("configuration", VObj baselineConfiguration);
    ("plugins", VArr pluginEntries);
    ("layout", VObj [("groups", VObj []); ("byPageType", VObj [])]) ].

(** A project with three plugin entries and no default document. *)
Definition pluginProject : fs :=
  {| configYaml := Some (Some pluginDocument); legacyPluginsJson := None;
     defaultConfigYaml := None; legacyDefaultPluginsJson := None |}.

(** A `JSON.parse` that knows two texts. *)
Definition sampleParse (text : string) : option value :=
  if String.eqb text "42" then Some (VNum 42)
  else if String.eqb text "true" then Some (VBool true)
  else None.

(** The state a run of events ends in. *)
Definition stateAfter (es : list SettingsPanel.event) (s : SettingsPanel.state)
  : SettingsPanel.state :=
  match SettingsPanel.run sampleParse es s with
  | Done s' => s'
  | _ => s
  end.

(** The Settings panel as first shown on a project whose configuration
    is the shipped default. *)
Definition fresh : SettingsPanel.state :=
  SettingsPanel.effects None (SettingsPanel.mount Sample.defaultProject).

Definition down : SettingsPanel.event := SettingsPanel.Key "down" false.
Definition enter : SettingsPanel.event := SettingsPanel.Key "return" false.

(** `enableSPA` switched off. *)
Definition spaOff : SettingsPanel.state :=
  stateAfter [down; enter; SettingsPanel.Commit (VBool false)] fresh.

Definition spaOffConfiguration : object :=
  setProp "enableSPA" (VBool false) baselineConfiguration.

Definition spaEntry : Settings.FlatEntry :=
  {| Settings.keyPath := ["enableSPA"]; Settings.displayKey := "enableSPA";
     Settings.entryValue := VBool false; Settings.depth := 0%nat;
     Settings.isObject := false |}.

Definition titleEntry : Settings.FlatEntry :=
  {| Settings.keyPath := ["pageTitle"]; Settings.displayKey := "pageTitle";
     Settings.entryValue := VStr "Quartz"; Settings.depth := 0%nat;
     Settings.isObject := false |}.

(** The free-form editor open on `pageTitle`. *)
Definition titleEditing : SettingsPanel.state := stateAfter [enter] fresh.

Definition lightEntry : Settings.FlatEntry :=
  {| Settings.keyPath := ["theme"; "colors"; "lightMode"; "light"];
     Settings.displayKey := "light";
     Settings.entryValue := VStr "#faf8f8"; Settings.depth := 3%nat;
     Settings.isObject := false |}.

(** The colour editor open on `theme.colors.lightMode.light`. *)
Definition lightEditing : SettingsPanel.state :=
  stateAfter (replicate 17 down ++ [enter]) fresh.

Definition ignoreEntry : Settings.FlatEntry :=
  {| Settings.keyPath := ["ignorePatterns"];
     Settings.displayKey := "ignorePatterns";
     Settings.entryValue :=
       VArr [VStr "private"; VStr "templates"; VStr ".obsidian"];
     Settings.depth := 0%nat; Settings.isObject := false |}.

(** The array editor open on `ignorePatterns`, and the same with the
    item input open for a new item. *)
Definition ignoreEditing : SettingsPanel.state :=
  stateAfter (replicate 7 down ++ [enter]) fresh.

Definition ignoreAdding : SettingsPanel.state :=
  stateAfter (replicate 7 down ++ [enter; SettingsPanel.Key "n" false]) fresh.

(** *** The Layout panel over three header components *)

Definition headerComponent (i : Z) (name displayName : string) (priority : Z)
  : Layout.ZoneComponent.t :=
  {| Layout.ZoneComponent.pluginIndex := i;
     Layout.ZoneComponent.name := name;
     Layout.ZoneComponent.displayName := displayName;
     Layout.ZoneComponent.position := "header";
     Layout.ZoneComponent.priority := priority;
     Layout.ZoneComponent.display := "all";
     Layout.ZoneComponent.condition := None;
     Layout.ZoneComponent.group := None;
     Layout.ZoneComponent.groupOptions := None |}.

Definition searchComponent : Layout.ZoneComponent.t :=
  headerComponent 0 "search" "Search" 10.
Definition darkmodeComponent : Layout.ZoneComponent.t :=
  headerComponent 1 "darkmode" "Darkmode" 20.
Definition breadcrumbsComponent : Layout.ZoneComponent.t :=
  headerComponent 2 "breadcrumbs" "Breadcrumbs" 30.

(** What the header shows over [Sample.headerPlugins]. *)
Definition headerComponents : list Layout.ZoneComponent.t :=
  [searchComponent; darkmodeComponent; breadcrumbsComponent].

(** The panel as mounted: on the zone grid, the header in focus. *)
Definition headerGrid : LayoutPanel.state :=
  LayoutPanel.mount Sample.headerPlugins None.

(** The header drilled into, the cursor on the last component. *)
Definition headerDrilled : LayoutPanel.state :=
  LayoutPanel.setSelectedComponent 2 (LayoutPanel.setDrillMode true headerGrid).

(** The same with a sub-view open on that component. *)
Definition headerEditing (v : LayoutPanel.View) : LayoutPanel.state :=
  {| LayoutPanel.plugins := LayoutPanel.getEnrichedPlugins Sample.headerPlugins;
     LayoutPanel.layout := None;
     LayoutPanel.focusColumn := 1; LayoutPanel.focusCenterRow := 0;
     LayoutPanel.drillMode := true; LayoutPanel.selectedComponent := 2;
     LayoutPanel.view := v; LayoutPanel.listKey := 0;
     LayoutPanel.activePageType := "default";
     LayoutPanel.notices := []; LayoutPanel.focused := true |}.

(** *** A plugin whose manifest gives component defaults *)

Definition explorerManifest : object :=
  [ ("displayName", VStr "Explorer");
    ("components",
     VObj [ ("Explorer",
             VObj [ ("defaultPosition", VStr "right");
                    ("defaultPriority", VNum 40) ]) ]) ].

Definition explorerPlugin : Layout.EnrichedPlugin.t :=
  {| Layout.EnrichedPlugin.index := 0;
     Layout.EnrichedPlugin.name := "explorer";
     Layout.EnrichedPlugin.displayName := "Explorer";
     Layout.EnrichedPlugin.enabled := true;
     Layout.EnrichedPlugin.layout :=
       Some {| Layout.PluginLayout.position := "left";
               Layout.PluginLayout.priority := 5;
               Layout.PluginLayout.display := Some "desktop-only";
               Layout.PluginLayout.condition := Some "not-index";
               Layout.PluginLayout.group := None;
               Layout.PluginLayout.groupOptions := None |};
     Layout.EnrichedPlugin.manifest := Some explorerManifest |}.

Definition explorerComponent : Layout.ZoneComponent.t :=
  {| Layout.ZoneComponent.pluginIndex := 0;
     Layout.ZoneComponent.name := "explorer";
     Layout.ZoneComponent.displayName := "Explorer";
     Layout.ZoneComponent.position := "left";
     Layout.ZoneComponent.priority := 5;
     Layout.ZoneComponent.display := "desktop-only";
     Layout.ZoneComponent.condition := Some "not-index";
     Layout.ZoneComponent.group := None;
     Layout.ZoneComponent.groupOptions := None |}.

(** The left column drilled into, the cursor on that plugin's
    component. *)
Definition explorerDrilled : LayoutPanel.state :=
  LayoutPanel.setDrillMode true
    (LayoutPanel.setFocusColumn 0 (LayoutPanel.mount [explorerPlugin] None)).

(** *** A layout section with a group and a page type override *)

Definition toolbarGroup : object :=
  [("direction", VStr "row"); ("gap", VStr "1rem")].

Definition blogOverride : Layout.PageTypeOverride :=
  {| Layout.exclude := Some ["search"];
     Layout.positions := Some [("darkmode", VStr "footer")] |}.

Definition blogLayout : Layout.LayoutConfig :=
  {| Layout.groups := Some [("toolbar", VObj toolbarGroup)];
     Layout.byPageType := Some [("blog", blogOverride)] |}.

(** The Layout panel over [Sample.headerPlugins] and [blogLayout], with
    the groups view open. *)
Definition groupsPanel : LayoutPanel.state :=
  {| LayoutPanel.plugins := LayoutPanel.getEnrichedPlugins Sample.headerPlugins;
     LayoutPanel.layout := Some blogLayout;
     LayoutPanel.focusColumn := 1; LayoutPanel.focusCenterRow := 0;
     LayoutPanel.drillMode := false; LayoutPanel.selectedComponent := 0;
     LayoutPanel.view := LayoutPanel.Groups; LayoutPanel.listKey := 0;
     LayoutPanel.activePageType := "default";
     LayoutPanel.notices := []; LayoutPanel.focused := true |}.

(** The Layout panel over the same, on the zone grid. *)
Definition blogGrid : LayoutPanel.state :=
  LayoutPanel.mount Sample.headerPlugins (Some blogLayout).

(** The page types view in one of its modes, the cursor on `blog`. *)
Definition pageTypesIn (m : PageTypesView.PageTypesMode) : PageTypesView.state :=
  {| PageTypesView.selected := 0; PageTypesView.mode := m;
     PageTypesView.positionsState := PositionsView.mount |}.

End Examples.

(** ** Statements about the panels *)

Module PanelSpec.
Import Settings.



(** A handler of the Settings list that writes nothing: the files and
    the configuration are as they were, the panel shows the list with
    the cursor where it was, and one notice was produced. *)
Definition NoWrite (s s' : SettingsPanel.state) (notice : App.Notice) : Prop :=
  SettingsPanel.files s' = SettingsPanel.files s /\
  SettingsPanel.config s' = SettingsPanel.config s /\
  SettingsPanel.view s' = ViewList /\
  SettingsPanel.highlightedIndex s' = SettingsPanel.highlightedIndex s /\
  SettingsPanel.notices s' = SettingsPanel.notices s ++ [notice].

(** The value that the default document holds at the key path of a
    field, if it holds one. *)
Definition defaultAt (s : SettingsPanel.state) (keyPath : list string)
  : option value :=
  SettingsPanel.defaultConfig s ≫= fun d => Spec.lookupPath (VObj d) keyPath.

(** Every plugin of the list carries its place in the list as its
    `index`. *)
Definition Indexed (plugins : list Layout.EnrichedPlugin.t) : Prop :=
  forall i p, plugins !! i = Some p -> Layout.EnrichedPlugin.index p = Z.of_nat i.

(** The Layout panel hangs together: the plugins are indexed by their
    place, the focus is on one of the three columns and one of the four
    rows of the centre column, and the panel holds the focus exactly
    while a sub-view is open. *)
Definition LayoutCoherent (s : LayoutPanel.state) : Prop :=
  Indexed (LayoutPanel.plugins s) /\
  0 <= LayoutPanel.focusColumn s <= 2 /\
  0 <= LayoutPanel.focusCenterRow s <= 3 /\
  (LayoutPanel.view s = LayoutPanel.Zones -> LayoutPanel.focused s = false) /\
  (LayoutPanel.view s <> LayoutPanel.Zones -> LayoutPanel.focused s = true).

(** The override of a page type has a plugin name in its exclude
    list. *)
Definition excludes (o : Layout.PageTypeOverride) (name : string) : bool :=
  existsb (String.eqb name) (default [] (Layout.exclude o)).

(** A character that does not occur in a string. *)
Definition lacks (c : ascii) (s : string) : Prop := c ∉ Str.explode s.

(** Nothing, or `#` and a git ref. *)
Definition isRefSuffix (ref : string) : Prop :=
  ref = "" \/ exists r, ref = "#" +:+ r.

End PanelSpec.
(* ================================================================= *)
(** * Properties *)

(** ** Facts about values *)

Module JsFacts.

Lemma wf_arr items : wf (VArr items) <-> Forall wf items.
Proof.
  induction items as [|x r IH]; simpl.
  - split; auto.
  - rewrite Forall_cons. simpl in IH. tauto.
Qed.

Lemma wf_obj props :
  wf (VObj props) <-> NoDup (keys props) /\ Forall (fun kv => wf kv.2) props.
Proof.
  simpl. apply and_iff_compat_l.
  induction props as [|[k x] r IH]; simpl.
  - split; auto.
  - rewrite Forall_cons. simpl. tauto.
Qed.

(** Structural induction through the nested lists. *)
Lemma value_ind (P : value -> Prop) :
  P VNull ->
  (forall b, P (VBool b)) ->
  (forall n, P (VNum n)) ->
  (forall s, P (VStr s)) ->
  (forall items, Forall P items -> P (VArr items)) ->
  (forall props, Forall (fun kv => P kv.2) props -> P (VObj props)) ->
  forall v, P v.
Proof.
  intros Hnull Hbool Hnum Hstr Harr Hobj.
  fix IH 1. intros [ | b | n | s | items | props ].
  - exact Hnull.
  - apply Hbool.
  - apply Hnum.
  - apply Hstr.
  - apply Harr. induction items as [|x r IHr]; constructor; [apply IH | exact IHr].
  - apply Hobj. induction props as [|[k x] r IHr]; constructor; [apply IH | exact IHr].
Qed.

Lemma getProp_Some_elem k v (o : object) : getProp k o = Some v -> (k, v) ∈ o.
Proof.
  induction o as [|[k' w] r IH]; simpl; [discriminate|].
  destruct (String.eqb_spec k' k) as [->|Hne].
  - intros [= ->]. left.
  - intros H. right. auto.
Qed.

Lemma getProp_None k (o : object) : getProp k o = None <-> k ∉ keys o.
Proof.
  induction o as [|[k' w] r IH]; simpl.
  - split; [intros _; apply not_elem_of_nil | done].
  - rewrite not_elem_of_cons. destruct (String.eqb_spec k' k) as [->|Hne].
    + split; [discriminate | intros [? _]; congruence].
    + rewrite IH. split; [intros ?; split; auto | tauto].
Qed.

Lemma getProp_is_Some k (o : object) : is_Some (getProp k o) <-> k ∈ keys o.
Proof.
  destruct (getProp k o) eqn:E.
  - split; [intros _|eauto]. destruct (decide (k ∈ keys o)) as [|Hn]; [done|].
    apply getProp_None in Hn. congruence.
  - apply getProp_None in E. split; [intros [? ?]; discriminate | done].
Qed.

Lemma getProp_elem k v (o : object) :
  NoDup (keys o) -> (k, v) ∈ o -> getProp k o = Some v.
Proof.
  induction o as [|[k' w] r IH]; simpl; intros Hnd Hin.
  - by apply elem_of_nil in Hin.
  - apply NoDup_cons in Hnd as [Hnotin Hnd].
    apply elem_of_cons in Hin as [[= <- <-]|Hin].
    + by rewrite String.eqb_refl.
    + destruct (String.eqb_spec k' k) as [->|Hne]; [|auto].
      exfalso. apply Hnotin. apply list_elem_of_fmap. by exists (k, v).
Qed.

(** *** Keyed records *)

Lemma getProp_getKey k (o : object) : getProp k o = getKey k o.
Proof.
  unfold getKey. induction o as [|[k' v] rest IH]; simpl; [done|].
  by destruct (String.eqb k' k).
Qed.

Lemma getKey_None {A} k (l : list (string * A)) :
  getKey k l = None <-> k ∉ l.*1.
Proof.
  unfold getKey. induction l as [|[k' w] rest IH]; simpl.
  - split; [intros _; apply not_elem_of_nil | done].
  - rewrite not_elem_of_cons.
    destruct (String.eqb_spec k' k) as [->|Hk]; simpl.
    + split; [done | intros [? _]; done].
    + rewrite IH. split; [by intros ?; split | by intros [_ ?]].
Qed.

Lemma hasKey_false {A} k (l : list (string * A)) :
  hasKey k l = false <-> getKey k l = None.
Proof.
  unfold hasKey, getKey. induction l as [|[k' w] rest IH]; simpl; [done|].
  destruct (String.eqb k' k); simpl; [split; discriminate | exact IH].
Qed.

Lemma hasKey_true {A} k (l : list (string * A)) :
  hasKey k l = true <-> k ∈ l.*1.
Proof.
  destruct (hasKey k l) eqn:E.
  - split; [intros _|done]. destruct (decide (k ∈ l.*1)) as [|Hn]; [done|].
    apply getKey_None, hasKey_false in Hn. congruence.
  - apply hasKey_false, getKey_None in E. split; [discriminate | done].
Qed.

Lemma getKey_cons {A} k k' (w : A) l :
  getKey k ((k', w) :: l) = if String.eqb k' k then Some w else getKey k l.
Proof. unfold getKey. simpl. by destruct (String.eqb k' k). Qed.

Lemma getKey_app_None {A} k (l1 l2 : list (string * A)) :
  getKey k l1 = None -> getKey k (l1 ++ l2) = getKey k l2.
Proof.
  induction l1 as [|[k' w] rest IH]; [done|].
  rewrite <- app_comm_cons, !getKey_cons.
  destruct (String.eqb k' k); [done | exact IH].
Qed.

Lemma getKey_app_Some {A} k (l1 l2 : list (string * A)) v :
  getKey k l1 = Some v -> getKey k (l1 ++ l2) = Some v.
Proof.
  induction l1 as [|[k' w] rest IH]; [done|].
  rewrite <- app_comm_cons, !getKey_cons.
  destruct (String.eqb k' k); [done | exact IH].
Qed.

Lemma getKey_replaceKey_eq {A} k (v : A) l :
  hasKey k l = true -> getKey k (replaceKey k v l) = Some v.
Proof.
  unfold hasKey. induction l as [|[k' w] rest IH]; simpl; [done|].
  destruct (String.eqb k' k) eqn:E; simpl; intros H; rewrite getKey_cons, E;
    [done | by apply IH].
Qed.

Lemma getKey_replaceKey_ne {A} k k' (v : A) l :
  k <> k' -> getKey k' (replaceKey k v l) = getKey k' l.
Proof.
  intros Hne. induction l as [|[k0 w] rest IH]; simpl; [done|].
  destruct (String.eqb_spec k0 k) as [->|Hk]; rewrite !getKey_cons.
  - by destruct (String.eqb_spec k k').
  - by rewrite IH.
Qed.

Lemma keys_replaceKey {A} k (v : A) l : (replaceKey k v l).*1 = l.*1.
Proof.
  induction l as [|[k' w] rest IH]; simpl; [done|].
  destruct (String.eqb_spec k' k) as [->|Hk]; simpl; [done | by f_equal].
Qed.

Lemma getKey_insertIndex_eq {A} n k (v : A) l :
  getKey k l = None -> getKey k (insertIndex n k v l) = Some v.
Proof.
  induction l as [|[k' w] rest IH]; simpl.
  - intros _. by rewrite getKey_cons, String.eqb_refl.
  - rewrite getKey_cons. destruct (String.eqb k' k) eqn:E; [done|]. intros H.
    destruct (arrayIndex k') as [m|]; [destruct (m <? n)%nat|];
      rewrite ?getKey_cons, ?E, ?String.eqb_refl; auto.
Qed.

Lemma getKey_insertIndex_ne {A} n k k' (v : A) l :
  k <> k' -> getKey k' (insertIndex n k v l) = getKey k' l.
Proof.
  intros Hne. apply String.eqb_neq in Hne.
  induction l as [|[k0 w] rest IH]; simpl.
  - by rewrite getKey_cons, Hne.
  - destruct (arrayIndex k0) as [m|]; [destruct (m <? n)%nat|];
      rewrite ?getKey_cons, ?Hne, ?IH; done.
Qed.

Lemma keys_insertIndex {A} n k (v : A) l :
  (insertIndex n k v l).*1 ≡ₚ k :: l.*1.
Proof.
  induction l as [|[k' w] rest IH]; simpl; [done|].
  destruct (arrayIndex k') as [m|]; [destruct (m <? n)%nat|]; simpl; try done.
  rewrite IH. apply perm_swap.
Qed.

Lemma getKey_setKey_eq {A} k (v : A) l : getKey k (setKey k v l) = Some v.
Proof.
  unfold setKey. destruct (hasKey k l) eqn:E.
  - by apply getKey_replaceKey_eq.
  - apply hasKey_false in E. destruct (arrayIndex k).
    + by apply getKey_insertIndex_eq.
    + rewrite (getKey_app_None _ _ _ E). by rewrite getKey_cons, String.eqb_refl.
Qed.

Lemma getKey_setKey_ne {A} k k' (v : A) l :
  k <> k' -> getKey k' (setKey k v l) = getKey k' l.
Proof.
  intros Hne. unfold setKey. destruct (hasKey k l) eqn:E.
  - by apply getKey_replaceKey_ne.
  - destruct (arrayIndex k).
    + by apply getKey_insertIndex_ne.
    + destruct (getKey k' l) as [w|] eqn:Hk.
      * by apply getKey_app_Some.
      * rewrite (getKey_app_None _ _ _ Hk), getKey_cons.
        by apply String.eqb_neq in Hne as ->.
Qed.

Lemma getKey_deleteKey_eq {A} k (l : list (string * A)) :
  getKey k (deleteKey k l) = None.
Proof.
  unfold getKey, deleteKey. induction l as [|[k' w] rest IH]; [done|].
  rewrite filter_cons. simpl.
  destruct (String.eqb_spec k' k) as [->|Hk]; simpl; [done|].
  by destruct (String.eqb_spec k' k).
Qed.

Lemma getKey_deleteKey_ne {A} k k' (l : list (string * A)) :
  k <> k' -> getKey k' (deleteKey k l) = getKey k' l.
Proof.
  intros Hne. unfold getKey, deleteKey.
  induction l as [|[k0 w] rest IH]; [done|].
  rewrite filter_cons. simpl.
  destruct (String.eqb_spec k0 k) as [->|Hk]; simpl.
  - by destruct (String.eqb_spec k k').
  - by destruct (String.eqb k0 k').
Qed.


Lemma keys_setKey_present {A} k (v : A) l :
  k ∈ l.*1 -> (setKey k v l).*1 = l.*1.
Proof.
  intros Hin. apply hasKey_true in Hin. unfold setKey. rewrite Hin.
  apply keys_replaceKey.
Qed.

Lemma keys_setKey_absent {A} k (v : A) l :
  k ∉ l.*1 -> (setKey k v l).*1 ≡ₚ k :: l.*1.
Proof.
  intros Hin. apply getKey_None, hasKey_false in Hin.
  unfold setKey. rewrite Hin. destruct (arrayIndex k).
  - apply keys_insertIndex.
  - rewrite fmap_app. simpl. by rewrite Permutation_app_comm.
Qed.

Lemma NoDup_setKey {A} k (v : A) l : NoDup l.*1 -> NoDup (setKey k v l).*1.
Proof.
  intros Hnd. destruct (decide (k ∈ l.*1)) as [Hin|Hin].
  - by rewrite keys_setKey_present.
  - rewrite (keys_setKey_absent _ _ _ Hin). by apply NoDup_cons.
Qed.

Lemma setProp_setKey k v (o : object) : setProp k v o = setKey k v o.
Proof. reflexivity. Qed.

Lemma getProp_setProp_eq k v (o : object) : getProp k (setProp k v o) = Some v.
Proof. rewrite getProp_getKey. apply getKey_setKey_eq. Qed.

Lemma getProp_setProp_ne k k' v (o : object) :
  k <> k' -> getProp k' (setProp k v o) = getProp k' o.
Proof. intros Hne. rewrite !getProp_getKey. by apply getKey_setKey_ne. Qed.

Lemma getKey_lookup {A} (l : list (string * A)) i k v :
  NoDup l.*1 -> l !! i = Some (k, v) -> getKey k l = Some v.
Proof.
  unfold getKey. revert i. induction l as [|[k' w] rest IH]; intros i Hnd Hi;
    [done|].
  apply NoDup_cons in Hnd as [Hk Hnd]. simpl. destruct i as [|i].
  - injection Hi as -> ->. by rewrite String.eqb_refl.
  - simpl in Hi. destruct (String.eqb_spec k' k) as [->|_].
    + exfalso. apply Hk. apply list_elem_of_fmap. exists (k, v).
      split; [done|]. by apply list_elem_of_lookup_2 in Hi.
    + by apply (IH i).
Qed.

Lemma at_lookup {A} (l : list A) i x :
  at_ l i = Some x -> l !! Z.to_nat i = Some x /\ 0 <= i.
Proof.
  unfold at_. destruct (Z.ltb_spec i 0); [done|]. by split; [|lia].
Qed.

Lemma bind_Done {A B} (m : outcome A) (f : A -> outcome B) b :
  bind m f = Done b -> exists a, m = Done a /\ f a = Done b.
Proof. destruct m as [a| |]; simpl; [eauto | done | done]. Qed.

Lemma at_Some_range {A} (l : list A) i x :
  at_ l i = Some x -> 0 <= i < Z.of_nat (length l).
Proof.
  unfold at_. destruct (Z.ltb_spec i 0) as [|Hi]; [done|].
  intros H. apply lookup_lt_Some in H. lia.
Qed.

End JsFacts.

Export JsFacts.

(** ** What the effects of the Settings panel leave alone *)

Module SettingsFrame.
Import Config Settings SettingsPanel.

Lemma clampEffect_frame s :
  files (clampEffect s) = files s /\
  config (clampEffect s) = config s /\
  view (clampEffect s) = view s /\
  editingEntry (clampEffect s) = editingEntry s /\
  collapsed (clampEffect s) = collapsed s /\
  notices (clampEffect s) = notices s /\
  arrayItems (clampEffect s) = arrayItems s /\
  highlightedArrayIndex (clampEffect s) = highlightedArrayIndex s.
Proof. unfold clampEffect. by destruct (_ >=? _). Qed.

Lemma editingEffect_frame prev s :
  files (editingEffect prev s) = files s /\
  config (editingEffect prev s) = config s /\
  view (editingEffect prev s) = view s /\
  editingEntry (editingEffect prev s) = editingEntry s /\
  collapsed (editingEffect prev s) = collapsed s /\
  notices (editingEffect prev s) = notices s /\
  arrayItems (editingEffect prev s) = arrayItems s /\
  highlightedIndex (editingEffect prev s) = highlightedIndex s.
Proof.
  unfold editingEffect. destruct (editingEntry s) as [entry|] eqn:He; [|done].
  destruct (editingEffectRuns prev s); [|done].
  by destruct (type (getFieldSchema (keyPath entry))).
Qed.

Lemma visibleEntries_ext s t :
  config s = config t -> collapsed s = collapsed t ->
  visibleEntries s = visibleEntries t.
Proof.
  intros Hc Hk. unfold visibleEntries, allEntries. by rewrite Hc, Hk.
Qed.

Lemma effects_frame prev s :
  files (effects prev s) = files s /\
  config (effects prev s) = config s /\
  view (effects prev s) = view s /\
  editingEntry (effects prev s) = editingEntry s /\
  collapsed (effects prev s) = collapsed s /\
  notices (effects prev s) = notices s /\
  arrayItems (effects prev s) = arrayItems s.
Proof.
  unfold effects.
  destruct (clampEffect_frame (editingEffect prev s))
    as (-> & -> & -> & -> & -> & -> & -> & _).
  destruct (editingEffect_frame prev s)
    as (-> & -> & -> & -> & -> & -> & -> & _).
  done.
Qed.

Lemma effects_closed prev s :
  editingEntry s = None -> effects prev s = clampEffect s.
Proof. intros He. unfold effects, editingEffect. by rewrite He. Qed.

Lemma effects_same_entry p s :
  editingEntry s = editingEntry p -> effects (Some p) s = clampEffect s.
Proof.
  intros He. unfold effects, editingEffect, editingEffectRuns. rewrite He.
  destruct (editingEntry p); [|done].
  by rewrite bool_decide_true.
Qed.

End SettingsFrame.

(** ** The default-diff comparison *)

Module DeepEqualFacts.
Import Settings Spec Sample.

Lemma deepEqual_arr xs ys :
  deepEqual (VArr xs) (Val (VArr ys)) =
  (length xs =? length ys)%nat && everyItem (Val (VArr ys)) xs O.
Proof. simpl. by destruct (length xs =? length ys)%nat. Qed.

Lemma deepEqual_obj pa pb :
  deepEqual (VObj pa) (Val (VObj pb)) =
  (length (keys pa) =? length (keys pb))%nat && everyKey (Val (VObj pb)) pa.
Proof. simpl. by destruct (length (keys pa) =? length (keys pb))%nat. Qed.

Lemma deepEqual_undefined a : deepEqual a Undefined = false.
Proof. by destruct a. Qed.

Lemma deepEqual_builtin a : deepEqual a Builtin = false.
Proof. by destruct a. Qed.

(** Against `Object.prototype`, which has no enumerable key, only an
    object without keys compares equal. *)
Lemma deepEqual_ObjectPrototype a :
  deepEqual a ObjectPrototype = true <-> a = VObj [].
Proof.
  destruct a as [ | | | | xs | [|[k x] pa] ]; simpl; try done.
Qed.

Lemma plainKeys_arr items : plainKeys (VArr items) <-> Forall plainKeys items.
Proof.
  induction items as [|x r IH]; simpl.
  - split; auto.
  - rewrite Forall_cons. simpl in IH. tauto.
Qed.

Lemma plainKeys_obj props :
  plainKeys (VObj props) <->
  Forall (fun kv => kv.1 <> "__proto__" /\ plainKeys kv.2) props.
Proof.
  induction props as [|[k x] r IH]; simpl.
  - split; auto.
  - rewrite Forall_cons. simpl in IH. simpl. tauto.
Qed.

(** A key that is not `__proto__` reads a value of the object, a
    function of the prototype, or nothing. *)
Lemma readProp_plain k (pb : object) :
  k <> "__proto__" ->
  readProp k pb = match getProp k pb with
                  | Some y => Val y
                  | None => if existsb (String.eqb k) objectPrototypeNames
                            then Builtin else Undefined
                  end.
Proof.
  intros Hk. unfold readProp, fromObjectPrototype.
  destruct (getProp k pb); [done|].
  by destruct (String.eqb_spec k "__proto__").
Qed.

Lemma everyItem_spec ys xs i :
  everyItem (Val (VArr ys)) xs i = true <->
  forall j x, xs !! j = Some x ->
              deepEqual x (atR (Val (VArr ys)) (i + j)%nat) = true.
Proof.
  revert i. induction xs as [|x xs IH]; intros i; simpl.
  - split; [intros _ j y Hj; by rewrite lookup_nil in Hj | done].
  - rewrite andb_true_iff, IH. split.
    + intros [Hx Hrest] [|j] y Hj; simpl in Hj.
      * injection Hj as <-. by rewrite Nat.add_0_r.
      * specialize (Hrest j y Hj). by rewrite Nat.add_succ_r.
    + intros H. split.
      * specialize (H O x eq_refl). by rewrite Nat.add_0_r in H.
      * intros j y Hj. specialize (H (S j) y Hj). by rewrite Nat.add_succ_r in H.
Qed.

Lemma everyKey_spec b pa :
  everyKey b pa = true <->
  forall k x, (k, x) ∈ pa -> deepEqual x (read k b) = true.
Proof.
  induction pa as [|[k x] pa IH]; simpl.
  - split; [intros _ k x Hin; by apply elem_of_nil in Hin | done].
  - rewrite andb_true_iff, IH. split.
    + intros [Hx Hrest] k' x' Hin. apply elem_of_cons in Hin as [[= -> ->]|Hin]; auto.
    + intros H. split; [apply H; left | intros k' x' Hin; apply H; by right].
Qed.

Lemma wf_lookup xs i x : wf (VArr xs) -> xs !! i = Some x -> wf x.
Proof.
  rewrite wf_arr, Forall_forall. intros H Hi. apply H.
  by apply list_elem_of_lookup_2 in Hi.
Qed.

Lemma wf_elem pa k x : wf (VObj pa) -> (k, x) ∈ pa -> wf x.
Proof.
  rewrite wf_obj, Forall_forall. intros [_ H] Hin. by apply (H (k, x)).
Qed.

Lemma keys_same_length (pa pb : object) :
  NoDup (keys pa) -> NoDup (keys pb) ->
  (forall k, k ∈ keys pa <-> k ∈ keys pb) ->
  length (keys pa) = length (keys pb).
Proof.
  intros Ha Hb Hiff. apply Permutation_length.
  apply NoDup_Permutation; auto.
Qed.

Lemma keys_incl_same (pa pb : object) :
  NoDup (keys pa) -> NoDup (keys pb) ->
  length (keys pa) = length (keys pb) ->
  (forall k, k ∈ keys pa -> k ∈ keys pb) ->
  forall k, k ∈ keys pa <-> k ∈ keys pb.
Proof.
  intros Ha Hb Hlen Hincl k.
  assert (Hsub : keys pa ⊆+ keys pb) by (by apply NoDup_submseteq).
  assert (Hperm : keys pa ≡ₚ keys pb).
  { apply submseteq_length_Permutation; [done | lia]. }
  by rewrite Hperm.
Qed.

(** Values that compare equal structurally compare equal. *)
Lemma deepEqual_complete a :
  forall b, wf a -> wf b -> DeepEq a b -> deepEqual a (Val b) = true.
Proof.
  induction a as [ | x | n | s | xs IH | pa IH ] using value_ind;
    intros b Ha Hb Heq.
  - by inversion Heq.
  - inversion Heq; subst. simpl. by rewrite Bool.eqb_reflx.
  - inversion Heq; subst. simpl. by rewrite Z.eqb_refl.
  - inversion Heq; subst. simpl. by rewrite String.eqb_refl.
  - inversion Heq as [ | | | | xs' ys Hlen Hall | ]; subst.
    rewrite deepEqual_arr, andb_true_iff, Nat.eqb_eq, everyItem_spec.
    rewrite Forall_forall in IH. split; [done|].
    intros j x Hx. simpl.
    destruct (ys !! j) as [y|] eqn:Hy.
    + apply IH; [by apply list_elem_of_lookup_2 in Hx | by apply (wf_lookup xs j)
                 | by apply (wf_lookup ys j) | by apply (Hall j)].
    + apply lookup_ge_None in Hy. apply lookup_lt_Some in Hx. lia.
  - inversion Heq as [ | | | | | pa' pb Hkeys Hall ]; subst.
    rewrite deepEqual_obj, andb_true_iff, Nat.eqb_eq, everyKey_spec.
    rewrite Forall_forall in IH.
    pose proof (proj1 (wf_obj pa) Ha) as [Hnda _].
    pose proof (proj1 (wf_obj pb) Hb) as [Hndb _].
    split; [by apply keys_same_length|].
    intros k x Hin.
    assert (Hk : k ∈ keys pb).
    { apply Hkeys. apply list_elem_of_fmap. by exists (k, x). }
    apply getProp_is_Some in Hk as [y Hy].
    cbn [read]. unfold readProp. rewrite Hy.
    apply (IH (k, x)); eauto using wf_elem.
    + eapply wf_elem; [exact Hb|]. by apply getProp_Some_elem.
    + eapply Hall; [|done]. by apply getProp_elem.
Qed.

(** Where no object of the first value holds the key `__proto__`, values
    that compare equal are equal structurally. *)
Lemma deepEqual_sound a :
  forall b, wf a -> wf b -> plainKeys a ->
            deepEqual a (Val b) = true -> DeepEq a b.
Proof.
  induction a as [ | x | n | s | xs IH | pa IH ] using value_ind;
    intros b Ha Hb Hplain.
  - destruct b; simpl; (discriminate || constructor).
  - destruct b as [ | y | | | | ]; simpl; try discriminate.
    destruct (Bool.eqb x y) eqn:E; [|discriminate].
    apply Bool.eqb_prop in E as ->. constructor.
  - destruct b as [ | | m | | | ]; simpl; try discriminate.
    destruct (Z.eqb_spec n m) as [->|Hne]; [constructor | discriminate].
  - destruct b as [ | | | t | | ]; simpl; try discriminate.
    destruct (String.eqb_spec s t) as [->|Hne]; [constructor | discriminate].
  - destruct b as [ | | | | ys | ]; try (simpl; discriminate).
    rewrite deepEqual_arr, andb_true_iff, Nat.eqb_eq, everyItem_spec.
    rewrite Forall_forall in IH.
    rewrite plainKeys_arr, Forall_forall in Hplain.
    intros [Hlen Hall]. constructor; [done|].
    intros i x y Hx Hy.
    assert (Hin : x ∈ xs) by (by apply list_elem_of_lookup_2 in Hx).
    apply IH; auto.
    + by apply (wf_lookup xs i).
    + by apply (wf_lookup ys i).
    + specialize (Hall i x Hx). simpl in Hall. by rewrite Hy in Hall.
  - destruct b as [ | | | | | pb ]; try (simpl; discriminate).
    rewrite deepEqual_obj, andb_true_iff, Nat.eqb_eq, everyKey_spec.
    rewrite Forall_forall in IH.
    rewrite plainKeys_obj, Forall_forall in Hplain.
    pose proof (proj1 (wf_obj pa) Ha) as [Hnda _].
    pose proof (proj1 (wf_obj pb) Hb) as [Hndb _].
    intros [Hlen Hall].
    assert (Hsome : forall k x, (k, x) ∈ pa ->
              exists y, getProp k pb = Some y /\ DeepEq x y).
    { intros k x Hin. specialize (Hall k x Hin).
      destruct (Hplain (k, x) Hin) as [Hk Hpx]. simpl in Hk, Hpx.
      cbn [read] in Hall. rewrite (readProp_plain k pb Hk) in Hall.
      destruct (getProp k pb) as [y|] eqn:Hy.
      - exists y. split; [done|]. apply (IH (k, x)); eauto using wf_elem.
        eapply wf_elem; [exact Hb|]. by apply getProp_Some_elem.
      - destruct (existsb (String.eqb k) objectPrototypeNames).
        + by rewrite deepEqual_builtin in Hall.
        + by rewrite deepEqual_undefined in Hall. }
    constructor.
    + apply keys_incl_same; auto. intros k Hk.
      apply list_elem_of_fmap in Hk as [[k' x] [-> Hin]]. simpl.
      destruct (Hsome k' x Hin) as [y [Hy _]].
      apply getProp_is_Some. eauto.
    + intros k x y Hx Hy. apply getProp_Some_elem in Hx.
      destruct (Hsome k x Hx) as [y' [Hy' Hd]]. congruence.
Qed.

Lemma DeepEq_refl a : DeepEq a a.
Proof.
  induction a as [ | x | n | s | xs IH | pa IH ] using value_ind; try constructor.
  - done.
  - rewrite Forall_forall in IH. intros i x y Hx Hy.
    assert (x = y) as <- by congruence.
    apply IH. by apply list_elem_of_lookup_2 in Hx.
  - done.
  - rewrite Forall_forall in IH. intros k x y Hx Hy.
    assert (x = y) as <- by congruence.
    apply (IH (k, x)). by apply getProp_Some_elem.
Qed.

Lemma deepEqual_refl a : wf a -> deepEqual a (Val a) = true.
Proof. intros Ha. apply deepEqual_complete; auto using DeepEq_refl. Qed.

(** C5, on the code: an object whose only key is `__proto__`, holding an
    empty object, compares equal to an object whose only key is another
    one.  The two have one key each, and under `__proto__` the second
    one reads `Object.prototype`, which has no enumerable key either.
    The key sets differ, so the two are not equal structurally. *)
Lemma deepEqual_reads_inherited_member :
  wf protoOnly /\ wf otherKeyOnly /\
  deepEqual protoOnly (Val otherKeyOnly) = true /\
  ~ DeepEq protoOnly otherKeyOnly.
Proof.
  split; [|split; [|split]].
  - apply wf_obj. split; [apply NoDup_singleton | repeat constructor].
  - apply wf_obj. split; [apply NoDup_singleton | repeat constructor].
  - reflexivity.
  - unfold protoOnly, otherKeyOnly. intros H.
    inversion H as [ | | | | | pa pb Hkeys _ ]; subst.
    specialize (Hkeys "x"). simpl in Hkeys.
    destruct Hkeys as [_ Hx].
    specialize (Hx ltac:(apply list_elem_of_here)).
    apply list_elem_of_singleton in Hx. discriminate.
Qed.

(** The comparison behind the "(default)" marker and the restore action
    is deep structural equality on values none of whose objects holds
    the key `__proto__`: there [deepEqual] answers `true` exactly when
    the two values are equal primitives, arrays of equal length whose
    elements are equal index by index, or objects with the same key set
    whose values are equal key by key.  Values that are equal in this
    sense compare equal whatever their keys, and against an `undefined`
    default the answer is `false` whatever the current value is. *)
Theorem deepEqual_deep_structural_equality (a b : value) :
  wf a -> wf b ->
  (DeepEq a b -> deepEqual a (Val b) = true) /\
  (plainKeys a -> deepEqual a (Val b) = true -> DeepEq a b) /\
  deepEqual a Undefined = false.
Proof.
  intros Ha Hb. split; [|split].
  - by apply deepEqual_complete.
  - intros Hplain. by apply deepEqual_sound.
  - apply deepEqual_undefined.
Qed.

Lemma wf_sampleTheme : wf sampleTheme.
Proof.
  apply wf_obj. split.
  - simpl. apply (bool_decide_unpack _). exact I.
  - repeat constructor.
Defined.

Lemma wf_sampleThemeReordered : wf sampleThemeReordered.
Proof.
  apply wf_obj. split.
  - simpl. apply (bool_decide_unpack _). exact I.
  - repeat constructor.
Defined.

Lemma deepEqual_deep_structural_equality_witness :
  wf sampleTheme /\ wf sampleThemeReordered /\
  ((DeepEq sampleTheme sampleThemeReordered ->
    deepEqual sampleTheme (Val sampleThemeReordered) = true) /\
   (plainKeys sampleTheme ->
    deepEqual sampleTheme (Val sampleThemeReordered) = true ->
    DeepEq sampleTheme sampleThemeReordered) /\
   deepEqual sampleTheme Undefined = false).
Proof.
  split; [exact wf_sampleTheme|].
  split; [exact wf_sampleThemeReordered|].
  apply (deepEqual_deep_structural_equality sampleTheme sampleThemeReordered).
  - exact wf_sampleTheme.
  - exact wf_sampleThemeReordered.
Defined.

End DeepEqualFacts.

(** ** Writing the configuration file *)

Module ConfigFacts.
Import Config.

Lemma getProp_filter_ne (p : string -> bool) k (data : object) :
  p k = true ->
  getProp k (filter (fun kv => p kv.1) data) = getProp k data.
Proof.
  intros Hk. induction data as [|[k' v] rest IH]; [done|].
  rewrite filter_cons. simpl.
  destruct (p k') eqn:Hp; simpl.
  - destruct (String.eqb k' k); [done | exact IH].
  - destruct (String.eqb_spec k' k) as [->|Hne]; [congruence | exact IH].
Qed.

Lemma getProp_filter_eq (p : string -> bool) k (data : object) :
  p k = false ->
  getProp k (filter (fun kv => p kv.1) data) = None.
Proof.
  intros Hk. apply getProp_None. intros Hin.
  apply list_elem_of_fmap in Hin as [[k' v] [-> Hin]].
  apply list_elem_of_filter in Hin as [Hp _]. simpl in Hp, Hk.
  by rewrite Hk in Hp.
Qed.

Lemma withoutSchema_schema data : getProp "$schema" (withoutSchema data) = None.
Proof.
  unfold withoutSchema.
  by apply (getProp_filter_eq (fun k => negb (String.eqb k "$schema"))).
Qed.

Lemma withoutSchema_other data k :
  k <> "$schema" -> getProp k (withoutSchema data) = getProp k data.
Proof.
  intros Hk. unfold withoutSchema.
  apply (getProp_filter_ne (fun k => negb (String.eqb k "$schema"))).
  by destruct (String.eqb_spec k "$schema").
Qed.

Lemma readPluginsJson_written d data :
  readPluginsJson (writePluginsJson d data) = Some (withoutSchema data).
Proof. reflexivity. Qed.

(** C10: what `writePluginsJson` hands to the serialiser, and so what the
    configuration file holds afterwards, is the data without its
    top-level `$schema` key: that key is gone, every other top-level key
    has the value it had, the keys keep their order, and no other file
    is touched. *)
Theorem writePluginsJson_strips_only_schema (d : fs) (data : object) :
  exists written,
    fileAt (writePluginsJson d data) CONFIG_YAML_PATH = Some (Some written) /\
    getProp "$schema" written = None /\
    (forall k, k <> "$schema" -> getProp k written = getProp k data) /\
    written = filter (fun kv => negb (String.eqb kv.1 "$schema")) data /\
    (forall p, p <> CONFIG_YAML_PATH ->
               fileAt (writePluginsJson d data) p = fileAt d p).
Proof.
  exists (withoutSchema data). split; [reflexivity|].
  split; [apply withoutSchema_schema|].
  split; [intros k Hk; by apply withoutSchema_other|].
  split; [reflexivity|].
  intros [] Hp; (congruence || reflexivity).
Qed.

End ConfigFacts.

(** ** The first-run wizard *)

Module SetupWizardFacts.
Import Config SetupWizard ConfigFacts Sample AppShell.

(** C8, as stated, fails: with no configuration document and no readable
    default document the wizard offers one choice, not two; and with a
    configuration file that is there and cannot be parsed, loading finds
    no document and the program shows its panels, not the wizard. *)
Lemma wizard_without_default_offers_one_choice :
  (configExists emptyProject = false /\
   map key (choices emptyProject) = [ChoiceEmpty] /\
   length (choices emptyProject) = 1%nat) /\
  (readPluginsJson unreadableProject = None /\
   screen (mount unreadableProject) = PanelScreen Plugins).
Proof. by vm_compute. Qed.

(** C8, amended: the program starts in the first-run state, the setup
    wizard, exactly when no configuration file exists, and then loading
    finds no document.  The wizard always offers "start with empty
    configuration" and offers "use default configuration" before it
    exactly when a default document can be read.  Choosing the default
    writes the default document without its `$schema` key; choosing
    empty writes the fixed baseline settings with an empty plugin list
    and empty layout groups and page-type overrides.  Either choice
    completes the wizard and leaves a configuration document in place. *)
Theorem wizard_choices (d : fs) :
  (screen (mount d) = WizardScreen <-> configExists d = false) /\
  (configExists d = false -> readPluginsJson d = None) /\
  map key (choices d) =
    match readDefaultPluginsJson d with
    | Some _ => [ChoiceDefault; ChoiceEmpty]
    | None => [ChoiceEmpty]
    end /\
  (forall defaultData,
      readDefaultPluginsJson d = Some defaultData ->
      readPluginsJson (onSelect d (Some ChoiceDefault)).1
        = Some (withoutSchema defaultData)) /\
  readPluginsJson (onSelect d (Some ChoiceEmpty)).1 = Some minimal /\
  getProp "configuration" minimal = Some (VObj baselineConfiguration) /\
  getProp "plugins" minimal = Some (VArr []) /\
  getProp "layout" minimal
    = Some (VObj [("groups", VObj []); ("byPageType", VObj [])]) /\
  (forall c, (onSelect d (Some c)).2 = true /\
             configExists (onSelect d (Some c)).1 = true) /\
  screen (step SetupComplete (mount d)) = PanelScreen Plugins.
Proof.
  split.
  { unfold screen, mount. simpl. by destruct (configExists d). }
  split.
  { unfold configExists, readPluginsJson, readFileAsData, resolveConfigPath,
      existsSync. simpl.
    destruct (configYaml d) eqn:Hyaml; [done|].
    destruct (legacyPluginsJson d) eqn:Hjson; [done|].
    simpl. by rewrite Hyaml. }
  split.
  { unfold choices. by destruct (readDefaultPluginsJson d). }
  split.
  { intros defaultData Hdef. unfold onSelect, createConfigFromDefault.
    rewrite Hdef. simpl. rewrite readPluginsJson_written.
    f_equal. unfold withoutSchema. by rewrite list_filter_filter_l. }
  split; [reflexivity|].
  split; [reflexivity|].
  split; [reflexivity|].
  split; [reflexivity|].
  split.
  - intros [|]; split; try reflexivity.
    unfold onSelect, createConfigFromDefault.
    by destruct (readDefaultPluginsJson d).
  - unfold step, screen, mount. simpl. by destruct (configExists d).
Qed.

End SetupWizardFacts.

(** ** Regular expressions: the matcher decides membership *)

Module RegexFacts.
Import Regex.

Lemma Matches_Eps l : Matches Eps l <-> l = [].
Proof. split; [by inversion 1 | intros ->; constructor]. Qed.

Lemma Matches_Void l : ~ Matches Void l.
Proof. inversion 1. Qed.

Lemma Matches_Class p l : Matches (Class p) l <-> exists c, l = [c] /\ p c = true.
Proof.
  split.
  - inversion 1; subst. eauto.
  - intros (c & -> & Hc). by constructor.
Qed.

Lemma Matches_Cat r s l :
  Matches (Cat r s) l <-> exists u v, l = u ++ v /\ Matches r u /\ Matches s v.
Proof.
  split.
  - inversion 1; subst. eauto.
  - intros (u & v & -> & Hu & Hv). by constructor.
Qed.

Lemma Matches_Alt r s l : Matches (Alt r s) l <-> Matches r l \/ Matches s l.
Proof.
  split.
  - inversion 1; subst; auto.
  - intros [H|H]; [by apply MAltL | by apply MAltR].
Qed.

Lemma nullable_spec r : nullable r = true <-> Matches r [].
Proof.
  induction r as [ | | p | r IHr s IHs | r IHr s IHs | r IHr ]; simpl.
  - split; [done | inversion 1].
  - split; [constructor | done].
  - split; [done | inversion 1].
  - rewrite andb_true_iff, IHr, IHs, Matches_Cat. split.
    + intros [Hr Hs]. by exists [], [].
    + intros (u & v & Heq & Hu & Hv). symmetry in Heq.
      apply app_eq_nil in Heq as [-> ->]. done.
  - by rewrite orb_true_iff, IHr, IHs, Matches_Alt.
  - split; [constructor | done].
Qed.

(** A match of [Star r] against a non-empty string starts with a
    non-empty match of [r]. *)
Lemma Matches_Star_cons r c l :
  Matches (Star r) (c :: l) ->
  exists u v, l = u ++ v /\ Matches r (c :: u) /\ Matches (Star r) v.
Proof.
  intros H. remember (Star r) as sr eqn:Hsr. remember (c :: l) as cl eqn:Hcl.
  induction H as [ | | | | | | r' u v Hu _ Hv IHv ]; try discriminate.
  injection Hsr as ->. destruct u as [|c' u'].
  - simpl in Hcl. by apply IHv.
  - simpl in Hcl. injection Hcl as -> <-. by exists u', v.
Qed.

Lemma deriv_spec c r : forall l, Matches (deriv c r) l <-> Matches r (c :: l).
Proof.
  induction r as [ | | p | r IHr s IHs | r IHr s IHs | r IHr ]; intros l; simpl.
  - split; inversion 1.
  - split; inversion 1.
  - rewrite Matches_Class. destruct (p c) eqn:Hp.
    + rewrite Matches_Eps. split.
      * intros ->. eauto.
      * intros (c' & [= -> ->] & _). done.
    + split; [inversion 1|]. intros (c' & [= -> ->] & Hc). congruence.
  - assert (Hcat : Matches (Cat (deriv c r) s) l <->
                   exists u v, l = u ++ v /\ Matches r (c :: u) /\ Matches s v).
    { rewrite Matches_Cat. by setoid_rewrite IHr. }
    rewrite (Matches_Cat r s). destruct (nullable r) eqn:Hn.
    + rewrite Matches_Alt, Hcat, IHs. split.
      * intros [(u & v & -> & Hu & Hv) | Hs].
        -- by exists (c :: u), v.
        -- exists [], (c :: l). split; [done|]. split; [|done].
           by apply nullable_spec.
      * intros (u & v & Heq & Hu & Hv). destruct u as [|c' u'].
        -- simpl in Heq. subst v. by right.
        -- simpl in Heq. injection Heq as <- ->. left. by exists u', v.
    + rewrite Hcat. split.
      * intros (u & v & -> & Hu & Hv). by exists (c :: u), v.
      * intros (u & v & Heq & Hu & Hv). destruct u as [|c' u'].
        -- apply nullable_spec in Hu. congruence.
        -- simpl in Heq. injection Heq as <- ->. by exists u', v.
  - by rewrite !Matches_Alt, IHr, IHs.
  - rewrite Matches_Cat. setoid_rewrite IHr. split.
    + intros (u & v & -> & Hu & Hv). by apply (MStarCons r (c :: u) v).
    + apply Matches_Star_cons.
Qed.

Lemma matches_spec r l : matches r l = true <-> Matches r l.
Proof.
  revert r. induction l as [|c l IH]; intros r; simpl.
  - apply nullable_spec.
  - by rewrite IH, deriv_spec.
Qed.

(** The languages of the derived operators. *)

Lemma Matches_Star_Class p l :
  Matches (Star (Class p)) l <-> Forall (fun c => p c = true) l.
Proof.
  split.
  - intros H. remember (Star (Class p)) as sr eqn:Hsr.
    induction H as [ | | | | | | r' u v Hu _ Hv IHv ]; try discriminate.
    + constructor.
    + injection Hsr as ->. apply Matches_Class in Hu as (c & -> & Hc).
      simpl. constructor; auto.
  - induction 1 as [|c l Hc _ IH]; [constructor|].
    apply (MStarCons _ [c] l); [by constructor | done].
Qed.

Lemma Matches_Plus_Class p l :
  Matches (Plus (Class p)) l <-> l <> [] /\ Forall (fun c => p c = true) l.
Proof.
  unfold Plus. rewrite Matches_Cat. split.
  - intros (u & v & -> & Hu & Hv). apply Matches_Class in Hu as (c & -> & Hc).
    apply Matches_Star_Class in Hv. split; [done | by constructor].
  - intros [Hne Hall]. destruct l as [|c l]; [done|].
    apply Forall_cons in Hall as [Hc Hall].
    exists [c], l. split; [done|]. split; [by constructor|].
    by apply Matches_Star_Class.
Qed.

Lemma Matches_Repeat_Class p n l :
  Matches (Repeat n (Class p)) l <->
  length l = n /\ Forall (fun c => p c = true) l.
Proof.
  revert l. induction n as [|n IH]; intros l; simpl.
  - rewrite Matches_Eps. split.
    + intros ->. by split.
    + intros [Hlen _]. by apply nil_length_inv.
  - rewrite Matches_Cat. split.
    + intros (u & v & -> & Hu & Hv). apply Matches_Class in Hu as (c & -> & Hc).
      apply IH in Hv as [Hlen Hall]. simpl. split; [by f_equal | by constructor].
    + intros [Hlen Hall]. destruct l as [|c l]; [done|].
      apply Forall_cons in Hall as [Hc Hall]. injection Hlen as Hlen.
      exists [c], l. split; [done|]. split; [by constructor|]. by apply IH.
Qed.

Lemma Matches_WordI w l : Matches (WordI w) l <-> map lower l = map lower w.
Proof.
  revert l. induction w as [|c w IH]; intros l; simpl.
  - rewrite Matches_Eps. split; [by intros -> | by destruct l].
  - rewrite Matches_Cat. split.
    + intros (u & v & -> & Hu & Hv). apply Matches_Class in Hu as (c' & -> & Hc).
      apply Ascii.eqb_eq in Hc. apply IH in Hv. simpl. by f_equal.
    + destruct l as [|c' l]; [done|]. simpl. intros [= Hc Hl].
      exists [c'], l. split; [done|]. split.
      * apply Matches_Class. exists c'. split; [done|]. by apply Ascii.eqb_eq.
      * by apply IH.
Qed.

Lemma Matches_Lit c l : Matches (Lit c) l <-> l = [c].
Proof.
  unfold Lit. rewrite Matches_Class. split.
  - intros (c' & -> & Hc). apply Ascii.eqb_eq in Hc. by subst.
  - intros ->. exists c. split; [done|]. apply Ascii.eqb_refl.
Qed.

End RegexFacts.

(** ** The colour validity rule *)

Module ColorFacts.
Import Regex RegexFacts Settings Spec.

Lemma explode_implode l : Str.explode (Str.implode l) = l.
Proof. apply list_ascii_of_string_of_list_ascii. Qed.

Lemma implode_explode s : Str.implode (Str.explode s) = s.
Proof. apply string_of_list_ascii_of_string. Qed.

Lemma explode_inj s t : Str.explode s = Str.explode t -> s = t.
Proof. intros H. by rewrite <- (implode_explode s), H, implode_explode. Qed.

Lemma explode_app s t : Str.explode (s +:+ t) = Str.explode s ++ Str.explode t.
Proof. induction s as [|c s IH]; simpl; [done | by f_equal]. Qed.

Lemma explode_length s : length (Str.explode s) = String.length s.
Proof. induction s as [|c s IH]; simpl; [done | by f_equal]. Qed.

Lemma explode_nil s : Str.explode s = [] <-> s = "".
Proof. destruct s; simpl; split; (done || discriminate). Qed.

Lemma hex_language l :
  Matches HEX_COLOR_REGEX l <->
  exists ds, l = "#"%char :: ds /\
             (length ds = 3 \/ length ds = 6 \/ length ds = 8)%nat /\
             Forall (fun c => isHexDigit c = true) ds.
Proof.
  unfold HEX_COLOR_REGEX, Hex. rewrite Matches_Cat. split.
  - intros (u & ds & -> & Hu & Hds). apply Matches_Lit in Hu as ->.
    exists ds. split; [done|].
    rewrite !Matches_Alt, !Matches_Repeat_Class in Hds.
    destruct Hds as [[? ?]|[[? ?]|[? ?]]]; auto.
  - intros (ds & -> & Hlen & Hall). exists ["#"%char], ds.
    split; [done|]. split; [by apply Matches_Lit|].
    rewrite !Matches_Alt, !Matches_Repeat_Class.
    destruct Hlen as [?|[?|?]]; auto.
Qed.

Lemma Matches_Word_Opt w c l :
  Matches (Cat (WordI w) (Opt (LitI c))) l <->
  map lower l = map lower w \/ map lower l = map lower (w ++ [c]).
Proof.
  unfold Opt, LitI. rewrite Matches_Cat. split.
  - intros (u & v & -> & Hu & Hv). apply Matches_WordI in Hu.
    apply Matches_Alt in Hv as [Hv|Hv].
    + apply Matches_Class in Hv as (c' & -> & Hc). apply Ascii.eqb_eq in Hc.
      right. rewrite !map_app. simpl. by rewrite Hu, Hc.
    + apply Matches_Eps in Hv as ->. left. by rewrite app_nil_r.
  - intros [H|H].
    + exists l, []. rewrite app_nil_r. split; [done|].
      split; [by apply Matches_WordI | apply MAltR; constructor].
    + assert (Hlen : length l = length (w ++ [c])).
      { by rewrite <- (length_map lower l), H, length_map. }
      rewrite length_app in Hlen. simpl in Hlen.
      destruct (rev l) as [|c' l'] eqn:Hrev.
      { apply (f_equal (@length ascii)) in Hrev. rewrite length_rev in Hrev.
        simpl in Hrev. lia. }
      assert (Hl : l = rev l' ++ [c']).
      { by rewrite <- (rev_involutive l), Hrev. }
      subst l. rewrite !map_app in H. simpl in H.
      apply app_inj_tail in H as [Hw Hc].
      exists (rev l'), [c']. split; [done|].
      split; [by apply Matches_WordI|].
      apply MAltL, Matches_Class. exists c'. split; [done|].
      by apply Ascii.eqb_eq.
Qed.

Lemma lower_word_eq (w : string) l :
  map lower (Str.explode w) = Str.explode w ->
  map lower l = map lower (Str.explode w) <-> Str.implode (map lower l) = w.
Proof.
  intros Hw. rewrite Hw. split.
  - intros ->. apply implode_explode.
  - intros <-. by rewrite explode_implode.
Qed.

Lemma css_names_language l :
  Matches (Alt (Cat (WordI (Str.explode "rgb")) (Opt (LitI "a")))
          (Alt (Cat (WordI (Str.explode "hsl")) (Opt (LitI "a")))
          (Alt (WordI (Str.explode "hwb"))
          (Alt (WordI (Str.explode "lab"))
          (Alt (WordI (Str.explode "lch"))
               (WordI (Str.explode "color"))))))) l <->
  Str.implode (map lower l) ∈ acceptedColorFunctions.
Proof.
  rewrite !Matches_Alt, !Matches_Word_Opt, !Matches_WordI.
  unfold acceptedColorFunctions. rewrite !elem_of_cons, elem_of_nil.
  rewrite <- (lower_word_eq "rgb"), <- (lower_word_eq "rgba"),
          <- (lower_word_eq "hsl"), <- (lower_word_eq "hsla"),
          <- (lower_word_eq "hwb"), <- (lower_word_eq "lab"),
          <- (lower_word_eq "lch"), <- (lower_word_eq "color") by reflexivity.
  change (Str.explode "rgb" ++ ["a"%char]) with (Str.explode "rgba").
  change (Str.explode "hsl" ++ ["a"%char]) with (Str.explode "hsla").
  tauto.
Qed.

Lemma css_language l :
  Matches CSS_COLOR_FUNCTION_REGEX l <->
  exists name args,
    l = name ++ "("%char :: args ++ [")"%char] /\
    Str.implode (map lower name) ∈ acceptedColorFunctions /\
    args <> [] /\
    Forall (fun c => Str.isLineTerminator c = false) args.
Proof.
  unfold CSS_COLOR_FUNCTION_REGEX, Dot.
  rewrite Matches_Cat. setoid_rewrite css_names_language.
  setoid_rewrite Matches_Cat. setoid_rewrite Matches_Cat.
  setoid_rewrite Matches_Lit. setoid_rewrite Matches_Plus_Class.
  split.
  - intros (name & rest & -> & Hname & open & rest' & -> & -> & args & close
            & -> & [Hne Hall] & ->).
    exists name, args. split; [done|]. split; [done|]. split; [done|].
    eapply Forall_impl; [exact Hall|]. intros c Hc. simpl in Hc.
    by apply negb_true_iff.
  - intros (name & args & -> & Hname & Hne & Hall).
    exists name, ("("%char :: args ++ [")"%char]). split; [done|]. split; [done|].
    exists ["("%char], (args ++ [")"%char]). split; [done|]. split; [done|].
    exists args, [")"%char]. split; [done|]. split; [|done]. split; [done|].
    eapply Forall_impl; [exact Hall|]. intros c Hc. simpl.
    by apply negb_true_iff.
Qed.

Lemma test_hex t : test HEX_COLOR_REGEX t = true <-> IsHexColor t.
Proof.
  unfold test. rewrite matches_spec, hex_language. unfold IsHexColor. split.
  - intros (ds & Ht & Hlen & Hall). exists (Str.implode ds).
    rewrite explode_implode, <- explode_length, explode_implode.
    split; [|done]. apply explode_inj. by rewrite Ht, explode_app, explode_implode.
  - intros (digits & -> & Hlen & Hall). exists (Str.explode digits).
    rewrite explode_length. by rewrite explode_app.
Qed.

Lemma test_css t :
  test CSS_COLOR_FUNCTION_REGEX t = true <->
  IsColorFunctionCall acceptedColorFunctions t.
Proof.
  unfold test. rewrite matches_spec, css_language.
  unfold IsColorFunctionCall, toLowerCase. split.
  - intros (name & args & Ht & Hname & Hne & Hall).
    exists (Str.implode name), (Str.implode args).
    rewrite !explode_implode. split; [|split; [done|split; [|done]]].
    + apply explode_inj. rewrite Ht, !explode_app, !explode_implode. done.
    + intros Hnil. apply Hne. by rewrite <- (explode_implode args), Hnil.
  - intros (name & args & -> & Hname & Hne & Hall).
    exists (Str.explode name), (Str.explode args).
    rewrite !explode_app. split; [done|]. split; [done|]. split; [|done].
    by rewrite explode_nil.
Qed.

Lemma not_IsHexColor_empty : ~ IsHexColor "".
Proof. intros (digits & Hd & _). discriminate. Qed.

Lemma not_IsColorFunctionCall_empty names : ~ IsColorFunctionCall names "".
Proof.
  intros (name & args & Ht & _). apply (f_equal Str.explode) in Ht.
  rewrite explode_app in Ht. simpl in Ht. symmetry in Ht.
  apply app_eq_nil in Ht as [_ Ht]. discriminate.
Qed.

(** C6, as stated, fails: `oklch(...)` is a call of a CSS colour
    function, and the panel rejects it. *)
Lemma oklch_call_is_rejected :
  IsColorFunctionCall cssColorFunctions "oklch(0.7 0.1 200)" /\
  isValidColorValue "oklch(0.7 0.1 200)" = false.
Proof.
  split; [|by vm_compute].
  exists "oklch", "0.7 0.1 200". split; [reflexivity|].
  split; [|split; [discriminate | by repeat constructor]].
  apply (bool_decide_unpack _). by vm_compute.
Qed.

(** C6, amended: a committed colour is accepted exactly when, with
    surrounding white space trimmed, it is `#` followed by three, six or
    eight hexadecimal digits, or it is one of the names `rgb`, `rgba`,
    `hsl`, `hsla`, `hwb`, `lab`, `lch`, `color` (in any case) followed by
    a parenthesised argument of at least one character and no line
    terminator.  The argument is not parsed any further. *)
Theorem isValidColorValue_spec (value : string) :
  isValidColorValue value = true <->
  IsHexColor (Str.trim value) \/
  IsColorFunctionCall acceptedColorFunctions (Str.trim value).
Proof.
  unfold isValidColorValue.
  destruct (String.eqb_spec (Str.trim value) "") as [->|Hne].
  - split; [discriminate|].
    intros [H|H]; [by apply not_IsHexColor_empty in H
                  | by apply not_IsColorFunctionCall_empty in H].
  - rewrite <- test_hex, <- test_css.
    destruct (test HEX_COLOR_REGEX (Str.trim value)); [tauto|].
    split; [by right | by intros [?|?]].
Qed.

End ColorFacts.

(** ** Writing and reading at a key path *)

Module PathFacts.
Import Settings Spec DeepEqualFacts.

Lemma walk_node_cons node k rest :
  isNode node = true ->
  walk (Val node) (k :: rest) = walk (read k (Val node)) rest.
Proof. by destruct node. Qed.

Lemma walk_obj_cons (o : object) k rest :
  walk (Val (VObj o)) (k :: rest) = walk (readProp k o) rest.
Proof. reflexivity. Qed.

(** A key that an object holds reads the value it holds. *)
Lemma readProp_own k (o : object) v : getProp k o = Some v -> readProp k o = Val v.
Proof. unfold readProp. by intros ->. Qed.

(** Below anything that is not of type "object" the lookup finds
    nothing. *)
Lemma walk_leaf r Q :
  jstype_eqb (typeofR r) TObject = false ->
  walk r Q = match Q with [] => r | _ => Undefined end.
Proof.
  intros Hr. destruct Q as [|q Q]; [done|]. simpl.
  rewrite Hr. simpl. by rewrite orb_true_r.
Qed.

Lemma Settled_leaf key rest V r after :
  jstype_eqb (typeofR r) TObject = false ->
  Settled key rest V r after <-> after = Val (nest (key :: rest) V).
Proof. by destruct r as [[]| | | |]. Qed.

Lemma Settled_Val key rest V before after :
  Settled key rest V before after -> exists top, after = Val top.
Proof.
  destruct before as [[]| | | |]; simpl; eauto; by intros (n' & -> & _); eauto.
Qed.

Lemma walk_nest Q rest V :
  walk (Val (nest (Q ++ rest) V)) Q = Val (nest rest V).
Proof.
  induction Q as [|q Q IH]; [done|].
  cbn [app nest]. rewrite walk_obj_cons.
  unfold readProp. simpl. by rewrite String.eqb_refl.
Qed.

Lemma Kept_isNode k node node' : Kept k node node' -> isNode node' = true.
Proof. by destruct node, node'. Qed.

(** The final assignment of the loop, and the one that puts a node
    stepped into in its place. *)
Lemma store_spec k v node :
  Storable k node ->
  exists node',
    store k v node = Done node' /\
    read k (Val node') = Val v /\
    Kept k node node'.
Proof.
  destruct node as [ | | | | items | o ]; try done; simpl.
  - intros (i & Hi & Hle). rewrite Hi.
    destruct (Nat.ltb_spec i (length items)) as [Hlt|Hge].
    + eexists. split; [done|]. split.
      * simpl. unfold readItem. rewrite Hi.
        by rewrite list_lookup_insert_eq.
      * intros j Hj. apply list_lookup_insert_ne. congruence.
    + assert (i = length items) as -> by lia. rewrite Nat.eqb_refl.
      eexists. split; [done|]. split.
      * simpl. unfold readItem. rewrite Hi.
        by rewrite lookup_app_r, Nat.sub_diag.
      * intros j Hj. assert (j <> length items) by congruence.
        destruct (Nat.lt_ge_cases j (length items)).
        -- by apply lookup_app_l.
        -- rewrite !lookup_ge_None_2; [done| lia |].
           rewrite length_app. simpl. lia.
  - intros Hproto.
    assert (String.eqb k "__proto__" && negb (hasKey k o) = false) as ->.
    { destruct (String.eqb_spec k "__proto__") as [Hk|]; [|done].
      by rewrite (Hproto Hk). }
    eexists. split; [done|]. split.
    + simpl. apply readProp_own, getProp_setProp_eq.
    + intros k' Hne. apply getProp_setProp_ne. congruence.
Qed.

(** What a storable key reads: a value of the document, a function of a
    prototype, or nothing; never a prototype. *)
Lemma read_storable k node :
  Storable k node ->
  match read k (Val node) with
  | ObjectPrototype | ArrayPrototype => False
  | _ => True
  end.
Proof.
  destruct node as [ | | | | items | o ]; try done; simpl.
  - intros (i & Hi & _). unfold readItem. rewrite Hi.
    by destruct (items !! i).
  - intros Hproto. unfold readProp, fromObjectPrototype.
    destruct (getProp k o) eqn:Hget; [done|].
    destruct (String.eqb_spec k "__proto__") as [Hk|].
    + specialize (Hproto Hk). apply hasKey_true in Hproto.
      apply getProp_None in Hget. done.
    + by destruct (existsb _ _).
Qed.

(** The node the loop steps into on a clear path: the member that is
    there when it is an object or an array, a fresh object otherwise;
    the rest of the path is clear below it. *)
Lemma stepInto_clear node k k' rest :
  PathClear node (k :: k' :: rest) ->
  exists child,
    stepInto k node = Done child /\
    isNode child = true /\
    PathClear child (k' :: rest) /\
    (read k (Val node) = Val child \/
     child = VObj [] /\
     jstype_eqb (typeofR (read k (Val node))) TObject = false).
Proof.
  intros [Hstore Hclear]. pose proof (read_storable k node Hstore) as Hread.
  unfold stepInto, hasProperty.
  destruct (read k (Val node)) as [[ | b | n | s | items | o ]| | | |];
    try done; simpl;
    eexists; (split; [reflexivity|]); (split; [reflexivity|]);
    (split; [exact Hclear|]); auto.
Qed.

Lemma setNestedValue_cons node k k' rest v :
  isNode node = true ->
  setNestedValue node (k :: k' :: rest) v =
  bind (stepInto k node) (fun child =>
  bind (setNestedValue child (k' :: rest) v) (fun child' =>
  store k child' node)).
Proof. by destruct node. Qed.

Lemma setKey_nil {A} k (v : A) : setKey k v [] = [(k, v)].
Proof. unfold setKey. simpl. by destruct (arrayIndex k). Qed.

(** On a fresh object the write builds the chain of objects that the
    path names. *)
Lemma setNestedValue_fresh keyPath v :
  keyPath <> [] -> PathClear (VObj []) keyPath ->
  setNestedValue (VObj []) keyPath v = Done (nest keyPath v).
Proof.
  induction keyPath as [|k rest IH]; intros Hne Hclear; [done|].
  assert (Hk : String.eqb k "__proto__" = false).
  { destruct Hclear as [Hstore _]. simpl in Hstore.
    destruct (String.eqb_spec k "__proto__") as [Hk|]; [|done].
    by specialize (Hstore Hk). }
  assert (Hstore : forall w, store k w (VObj []) = Done (VObj [(k, w)])).
  { intros w. simpl. rewrite Hk. simpl. unfold setProp.
    by rewrite setKey_nil. }
  destruct rest as [|k' rest]; [apply Hstore|].
  rewrite setNestedValue_cons by done.
  destruct (stepInto_clear _ _ _ _ Hclear)
    as (child & Hstep & _ & Hchild & [Hread|[-> _]]).
  { exfalso. simpl in Hread. unfold readProp, fromObjectPrototype in Hread.
    cbn [getProp] in Hread. rewrite Hk in Hread.
    by destruct (existsb (String.eqb k) objectPrototypeNames). }
  rewrite Hstep. cbn [bind]. rewrite IH by done. cbn [bind].
  apply Hstore.
Qed.

(** The write along a clear path. *)
Lemma setNestedValue_walk keyPath :
  forall node v,
    keyPath <> [] -> isNode node = true -> PathClear node keyPath ->
    exists node',
      setNestedValue node keyPath v = Done node' /\
      walk (Val node') keyPath = Val v /\
      (forall Q key rest,
          keyPath = Q ++ key :: rest ->
          Settled key rest v (walk (Val node) Q) (walk (Val node') Q)).
Proof.
  induction keyPath as [|k rest IH]; intros node v Hne Hnode Hclear; [done|].
  destruct rest as [|k' rest].
  - destruct Hclear as [Hstore _].
    destruct (store_spec k v node Hstore) as (node' & Hset & Hread & Hkept).
    exists node'. split; [exact Hset|]. split.
    + rewrite walk_node_cons by (by apply (Kept_isNode k node)). by rewrite Hread.
    + intros Q key r Heq.
      destruct Q as [|q [|q' Q]]; simplify_eq/=.
      destruct node; try done; eauto.
  - destruct (stepInto_clear node k k' rest Hclear)
      as (child & Hstep & Hchildnode & Hchild & Hcase).
    destruct (IH child v ltac:(done) Hchildnode Hchild)
      as (child' & Hset & Hget & Hmid).
    destruct Hclear as [Hstore _].
    destruct (store_spec k child' node Hstore) as (node' & Hput & Hread & Hkept).
    pose proof (Kept_isNode k node node' Hkept) as Hnode'.
    exists node'. split; [|split].
    + rewrite setNestedValue_cons by done.
      rewrite Hstep. cbn [bind]. rewrite Hset. cbn [bind]. exact Hput.
    + rewrite walk_node_cons by done. by rewrite Hread.
    + intros Q key r Heq. destruct Q as [|q Q].
      * simpl in Heq. injection Heq as <- _. simpl.
        destruct node; try done; eauto.
      * simpl in Heq. injection Heq as <- Heq.
        rewrite !walk_node_cons by done. rewrite Hread.
        destruct Hcase as [Hexisting|[-> Hleaf]].
        -- rewrite Hexisting. by apply Hmid.
        -- rewrite (walk_leaf _ Q Hleaf).
           assert (Hfresh : child' = nest (k' :: rest) v).
           { rewrite setNestedValue_fresh in Hset by done. congruence. }
           rewrite Hfresh, Heq, walk_nest.
           destruct Q; [by apply Settled_leaf | done].
Qed.

(** C2, as stated, fails.  With the empty key path the value is stored
    under the key "undefined", and reading the empty path gives back the
    whole document.  Where `null` is in the way the store throws instead
    of creating an object node.  And `__proto__`, where the object does
    not hold it as a key of its own, takes no boolean: the assignment
    changes nothing, and what is read back is the prototype. *)
Lemma setNestedValue_not_total_roundtrip :
  (setNestedValue (VObj []) [] (VBool true)
     = Done (VObj [("undefined", VBool true)]) /\
   getDefaultSettingValue (Some [("undefined", VBool true)]) []
     = Val (VObj [("undefined", VBool true)]) /\
   deepEqual (VBool true)
     (getDefaultSettingValue (Some [("undefined", VBool true)]) []) = false) /\
  setNestedValue (VObj [("a", VNull)]) ["a"; "b"] (VBool true) = TypeError /\
  (setNestedValue (VObj []) ["__proto__"] (VBool true) = Done (VObj []) /\
   getDefaultSettingValue (Some []) ["__proto__"] = ObjectPrototype /\
   deepEqual (VBool true)
     (getDefaultSettingValue (Some []) ["__proto__"]) = false).
Proof. by vm_compute. Qed.

(** C2, amended: for every document, every non-empty key path and every
    value V (boolean, string, number, array or object), provided that no
    intermediate segment of the path already holds `null`, that
    `__proto__` is a segment only where the object it is looked up in
    holds that key, and that a segment looked up in an array is the
    index of an element or the first free index: writing V at the path
    returns normally, and reading the path in the document that results
    gives V itself, which compares deeply equal to V.  Every object and
    every array that the path passes through, the document itself among
    them, is kept: it has the values it had under every key but the one
    the path takes.  Where the path found anything else in its way, or
    nothing, a fresh chain of objects is created that holds the rest of
    the path and V and nothing else. *)
Theorem setNestedValue_roundtrip (obj : object) (P : list string) (V : value) :
  P <> [] -> PathClear (VObj obj) P ->
  exists obj',
    setNestedValue (VObj obj) P V = Done (VObj obj') /\
    getDefaultSettingValue (Some obj') P = Val V /\
    (wf V -> deepEqual V (getDefaultSettingValue (Some obj') P) = true) /\
    (forall Q key rest,
        P = Q ++ key :: rest ->
        Settled key rest V (getDefaultSettingValue (Some obj) Q)
                           (getDefaultSettingValue (Some obj') Q)).
Proof.
  intros Hne Hclear.
  destruct (setNestedValue_walk P (VObj obj) V Hne eq_refl Hclear)
    as (node' & Hset & Hget & Hmid).
  assert (Hobj : exists obj', node' = VObj obj').
  { destruct P as [|k rest]; [done|].
    specialize (Hmid [] k rest eq_refl). simpl in Hmid.
    destruct Hmid as (n' & [= <-] & Hkept). destruct node'; try done. eauto. }
  destruct Hobj as [obj' ->].
  exists obj'. unfold getDefaultSettingValue. rewrite Hget.
  split; [done|]. split; [done|]. split; [|done].
  apply deepEqual_refl.
Qed.

Lemma setNestedValue_roundtrip_witness :
  let obj := [("theme", VObj [("name", VStr "plain"); ("fonts", VArr [VStr "Inter"])]);
              ("locale", VStr "en")] in
  let P := ["theme"; "fonts"; "1"; "weight"] in
  let V := VArr [VNum 1; VBool false] in
  P <> [] /\ PathClear (VObj obj) P /\
  exists obj',
    setNestedValue (VObj obj) P V = Done (VObj obj') /\
    getDefaultSettingValue (Some obj') P = Val V /\
    (wf V -> deepEqual V (getDefaultSettingValue (Some obj') P) = true) /\
    (forall Q key rest,
        P = Q ++ key :: rest ->
        Settled key rest V (getDefaultSettingValue (Some obj) Q)
                           (getDefaultSettingValue (Some obj') Q)).
Proof.
  intros obj P V.
  assert (Hclear : PathClear (VObj obj) P).
  { unfold obj, P. cbn. repeat split; try done. exists 1%nat. split; [done|].
    simpl. lia. }
  split; [discriminate|]. split; [exact Hclear|].
  apply (setNestedValue_roundtrip obj P V); [discriminate | exact Hclear].
Defined.

End PathFacts.

(** ** The zone grid *)

Module ZoneFacts.
Import Layout Spec Sample.

Lemma Zone_eqb_eq a b : Zone_eqb a b = true <-> a = b.
Proof. destruct a, b; simpl; split; (done || discriminate). Qed.

Lemma Zone_eqb_refl a : Zone_eqb a a = true.
Proof. by apply Zone_eqb_eq. Qed.

Lemma zoneOfName_name z : zoneOfName (zoneName z) = Some z.
Proof. by destruct z. Qed.

Lemma zoneOfName_Some s z : zoneOfName s = Some z -> s = zoneName z.
Proof.
  unfold zoneOfName. intros H. apply find_some in H as [_ H].
  apply String.eqb_eq in H. done.
Qed.

Lemma zoneOfName_inZones s z : zoneOfName s = Some z -> inZones s = true.
Proof. unfold inZones. by intros ->. Qed.

Lemma elem_of_pushZone z c zones z' c' :
  c' ∈ pushZone z c zones z' <-> c' ∈ zones z' \/ (z' = z /\ c' = c).
Proof.
  unfold pushZone, setZone. destruct (Zone_eqb z z') eqn:E.
  - apply Zone_eqb_eq in E as <-. rewrite elem_of_app, list_elem_of_singleton.
    split; [intros [?| ->]; auto | intros [?|[_ ->]]; auto].
  - split; [auto|]. intros [?|[-> _]]; [done|].
    by rewrite Zone_eqb_refl in E.
Qed.

Lemma insertByPriority_Permutation c l : insertByPriority c l ≡ₚ c :: l.
Proof.
  induction l as [|d rest IH]; simpl; [done|].
  destruct (ZoneComponent.priority c <? ZoneComponent.priority d); [done|].
  rewrite IH. apply Permutation_swap.
Qed.

Lemma sortByPriority_Permutation l : sortByPriority l ≡ₚ l.
Proof.
  unfold sortByPriority.
  assert (H : forall acc, fold_left (fun sorted c => insertByPriority c sorted) l acc
                          ≡ₚ acc ++ l).
  { induction l as [|c rest IH]; intros acc; simpl.
    - by rewrite app_nil_r.
    - rewrite IH, insertByPriority_Permutation.
      by rewrite (Permutation_middle acc rest c). }
  by rewrite H.
Qed.

Lemma elem_of_sortByPriority c l : c ∈ sortByPriority l <-> c ∈ l.
Proof. by rewrite sortByPriority_Permutation. Qed.

Lemma length_sortByPriority l : length (sortByPriority l) = length l.
Proof. by rewrite sortByPriority_Permutation. Qed.

Lemma collectZones_spec plugins :
  forall zones0 zones,
    collectZones plugins zones0 = Done zones ->
    forall z c, c ∈ zones z <-> c ∈ zones0 z \/ Contributes plugins z c.
Proof.
  induction plugins as [|plugin rest IH]; intros zones0 zones Hrun z c.
  - simpl in Hrun. injection Hrun as <-. split; [auto|].
    intros [?|(p & l & Hin & _)]; [done|]. by apply elem_of_nil in Hin.
  - assert (Hskip : forall zs, collectZones rest zones0 = Done zs ->
              (forall l, EnrichedPlugin.layout plugin = Some l ->
                         EnrichedPlugin.enabled plugin = true ->
                         zoneOfName (PluginLayout.position l) = None) ->
              c ∈ zs z <-> c ∈ zones0 z \/ Contributes (plugin :: rest) z c).
    { intros zs Hzs Hno. rewrite (IH _ _ Hzs). unfold Contributes. split.
      - intros [?|(p & l & Hin & ?)]; [by left|].
        right. exists p, l. split; [by right | done].
      - intros [?|(p & l & Hin & Hen & Hl & Hpos & Hc)]; [by left|].
        apply elem_of_cons in Hin as [->|Hin].
        + specialize (Hno l Hl Hen). rewrite Hpos, zoneOfName_name in Hno. done.
        + right. by exists p, l. }
    simpl in Hrun.
    destruct (EnrichedPlugin.layout plugin) as [l|] eqn:Hl;
      [|apply (Hskip _ Hrun); intros; discriminate].
    destruct (EnrichedPlugin.enabled plugin) eqn:Hen; simpl in Hrun;
      [|apply (Hskip _ Hrun); intros; discriminate].
    destruct (zoneOfName (PluginLayout.position l)) as [z0|] eqn:Hz.
    + rewrite (zoneOfName_inZones _ _ Hz) in Hrun. simpl in Hrun.
      rewrite (IH _ _ Hrun), elem_of_pushZone. unfold Contributes.
      apply zoneOfName_Some in Hz. split.
      * intros [[?|[-> ->]]|(p & l' & Hin & ?)].
        -- by left.
        -- right. exists plugin, l. split; [left | done].
        -- right. exists p, l'. split; [by right | done].
      * intros [?|(p & l' & Hin & Hen' & Hl' & Hpos & Hc)]; [by left; left|].
        apply elem_of_cons in Hin as [->|Hin].
        -- left. right. assert (l' = l) as -> by congruence.
           split; [|done]. rewrite Hz in Hpos. by destruct z, z0.
        -- right. by exists p, l'.
    + destruct (inZones (PluginLayout.position l)); simpl in Hrun; [done|].
      apply (Hskip _ Hrun). intros l' Hl' _. congruence.
Qed.

Lemma getZoneComponents_spec plugins zones :
  getZoneComponents plugins = Done zones ->
  forall z c, c ∈ zones z <-> Contributes plugins z c.
Proof.
  unfold getZoneComponents. intros Hrun z c.
  destruct (collectZones plugins emptyZones) as [zs| |] eqn:Hzs; try done.
  simpl in Hrun. injection Hrun as <-.
  rewrite elem_of_sortByPriority, (collectZones_spec _ _ _ Hzs).
  unfold emptyZones. split; [|auto]. intros [H|H]; [|done].
  by apply elem_of_nil in H.
Qed.

Lemma withPosition_name zone comp :
  ZoneComponent.name (ZoneComponent.withPosition zone comp) = ZoneComponent.name comp.
Proof. reflexivity. Qed.

Lemma hasName_true x c : hasName x c = true <-> ZoneComponent.name c = x.
Proof. apply String.eqb_eq. Qed.

Lemma Pulled_name (base : zoneMap) zone x c :
  Pulled base zone x c -> ZoneComponent.name c = x.
Proof. intros (z & comp & _ & Hn & ->). by rewrite withPosition_name. Qed.

Lemma Pulled_position (base : zoneMap) zone x c :
  Pulled base zone x c -> ZoneComponent.position c = zoneName zone.
Proof. by intros (z & comp & _ & _ & ->). Qed.

(** One step of the loop over `ZONES` inside [pullInto]. *)
Lemma pullStep_spec (base : zoneMap) (zone : Zone) x srcZone acc :
  let acc' := pullStep base zone x acc srcZone in
  (forall c, c ∈ acc -> c ∈ acc') /\
  (forall c, c ∈ acc' -> c ∈ acc \/ Pulled base zone x c).
Proof.
  unfold pullStep.
  destruct (find (hasName x) (base srcZone)) as [comp|] eqn:Hfind; [|auto].
  destruct (negb (existsb (hasName x) acc)); [|auto]. split.
  - intros c Hc. apply elem_of_app. by left.
  - intros c Hc. apply elem_of_app in Hc as [?|Hc]; [by left|].
    apply list_elem_of_singleton in Hc as ->. right.
    apply find_some in Hfind as [Hin Hname]. apply hasName_true in Hname.
    exists srcZone, comp. split; [by apply list_elem_of_In | done].
Qed.

Lemma pullSteps_spec (base : zoneMap) (zone : Zone) x srcZones :
  forall acc,
    let acc' := fold_left (pullStep base zone x) srcZones acc in
    (forall c, c ∈ acc -> c ∈ acc') /\
    (forall c, c ∈ acc' -> c ∈ acc \/ Pulled base zone x c).
Proof.
  induction srcZones as [|z rest IH]; intros acc; simpl; [auto|].
  destruct (IH (pullStep base zone x acc z)) as [Hsub Hsup].
  destruct (pullStep_spec base zone x z acc) as [H1sub H1sup]. split.
  - intros c Hc. auto.
  - intros c Hc. apply Hsup in Hc as [Hc|Hc]; auto.
Qed.

Lemma pullInto_sub (base : zoneMap) (zone : Zone) x acc c :
  c ∈ acc -> c ∈ pullInto base zone x acc.
Proof. apply (pullSteps_spec base zone x ZONES acc). Qed.

Lemma pullInto_sup (base : zoneMap) (zone : Zone) x acc c :
  c ∈ pullInto base zone x acc -> c ∈ acc \/ Pulled base zone x c.
Proof. apply (pullSteps_spec base zone x ZONES acc). Qed.

(** A component that the header shows for [x] is in the target zone once
    [pullInto] has run. *)
Lemma pullInto_present (base : zoneMap) (zone : Zone) x acc comp :
  comp ∈ base Header -> ZoneComponent.name comp = x ->
  exists c, c ∈ pullInto base zone x acc /\ ZoneComponent.name c = x.
Proof.
  intros Hin Hname. unfold pullInto, ZONES. cbn [fold_left].
  assert (H1 : exists c, c ∈ pullStep base zone x acc Header /\
                         ZoneComponent.name c = x).
  { unfold pullStep.
    destruct (find (hasName x) (base Header)) as [found|] eqn:Hfind.
    - apply find_some in Hfind as [_ Hfound]. apply hasName_true in Hfound.
      destruct (existsb (hasName x) acc) eqn:Hex; simpl.
      + apply existsb_exists in Hex as (c & Hc & Hcn).
        exists c. split; [by apply list_elem_of_In | by apply hasName_true].
      + exists (ZoneComponent.withPosition (zoneName zone) found). split; [|done].
        apply elem_of_app. right. by apply list_elem_of_singleton.
    - exfalso. apply list_elem_of_In in Hin.
      apply (find_none _ _ Hfind) in Hin. apply hasName_true in Hname.
      congruence. }
  destruct H1 as (c & Hc & Hcn). exists c. split; [|done].
  by apply (pullSteps_spec base zone x
              [Left; BeforeBody; AfterBody; Right; Footer]).
Qed.

Lemma applyPosition_sup (base : zoneMap) (zone : Zone) acc k v c :
  c ∈ applyPosition base zone acc (k, v) -> c ∈ acc \/ Pulled base zone k c.
Proof.
  unfold applyPosition. destruct v as [ | | | p | | ]; auto.
  destruct (String.eqb p (zoneName zone)); simpl.
  - apply pullInto_sup.
  - intros Hc. apply list_elem_of_filter in Hc as [_ Hc]. by left.
Qed.

Lemma applyPosition_keeps (base : zoneMap) (zone : Zone) acc k v c :
  ZoneComponent.name c <> k -> c ∈ acc -> c ∈ applyPosition base zone acc (k, v).
Proof.
  intros Hne Hc. unfold applyPosition. destruct v as [ | | | p | | ]; auto.
  destruct (String.eqb p (zoneName zone)); simpl.
  - by apply pullInto_sub.
  - apply list_elem_of_filter. split; [|done].
    apply Is_true_true, negb_true_iff. apply not_true_is_false.
    by rewrite hasName_true.
Qed.

(** What the loop over the position entries can leave in a zone: what
    was there, or a component pulled in under the key of an entry. *)
Lemma fold_applyPosition_sup (base : zoneMap) (zone : Zone) ps :
  forall acc c,
    c ∈ fold_left (applyPosition base zone) ps acc ->
    c ∈ acc \/ exists k, k ∈ keys ps /\ Pulled base zone k c.
Proof.
  induction ps as [|[k v] rest IH]; intros acc c; simpl; [auto|].
  intros Hc. apply IH in Hc as [Hc|(k' & Hk' & Hc)].
  - apply applyPosition_sup in Hc as [Hc|Hc]; [by left|].
    right. exists k. split; [left | done].
  - right. exists k'. split; [by right | done].
Qed.

Lemma fold_applyPosition_absent (base : zoneMap) (zone : Zone) x ps :
  forall acc,
    x ∉ keys ps ->
    (forall c, c ∈ acc -> ZoneComponent.name c <> x) ->
    forall c, c ∈ fold_left (applyPosition base zone) ps acc ->
              ZoneComponent.name c <> x.
Proof.
  intros acc Hx Hacc c Hc.
  apply fold_applyPosition_sup in Hc as [Hc|(k & Hk & Hc)]; [by apply Hacc|].
  apply Pulled_name in Hc. congruence.
Qed.

Lemma fold_applyPosition_present (base : zoneMap) (zone : Zone) x ps :
  forall acc,
    x ∉ keys ps ->
    (exists c, c ∈ acc /\ ZoneComponent.name c = x) ->
    exists c, c ∈ fold_left (applyPosition base zone) ps acc /\
              ZoneComponent.name c = x.
Proof.
  induction ps as [|[k v] rest IH]; intros acc Hx Hacc; simpl; [done|].
  simpl in Hx. apply not_elem_of_cons in Hx as [Hxk Hx].
  apply IH; [done|]. destruct Hacc as (c & Hc & Hcn). exists c. split; [|done].
  apply applyPosition_keeps; [congruence | done].
Qed.

Lemma keys_split (ps : object) x v :
  NoDup (keys ps) -> getProp x ps = Some v ->
  exists before after,
    ps = before ++ ((x, v) :: after) /\ (x ∉ keys before) /\ (x ∉ keys after).
Proof.
  intros Hnd Hget. apply getProp_Some_elem in Hget.
  apply list_elem_of_split in Hget as (before & after & ->).
  exists before, after. split; [done|].
  unfold keys in *. rewrite map_app in Hnd. simpl in Hnd.
  apply NoDup_app in Hnd as (_ & Hdisj & Hnd2).
  apply NoDup_cons in Hnd2 as [Hafter _]. split; [|done].
  intros Hin. apply (Hdisj x Hin). left.
Qed.

(** C7: a page-type override that sends pluginX to the footer.  Let
    pluginX be an enabled plugin whose layout position is "header", in a
    plugin list for which the grid can be built, and let the override of
    a page type other than "default" map pluginX's name to "footer".
    Then under that page type no component of the header carries
    pluginX's name and the footer holds a component with that name,
    relabelled "footer" (the component of pluginX itself when no other
    plugin shares its name); under the "default" page type pluginX's
    component is in the header. *)
Theorem override_moves_header_plugin_to_footer
    (plugins : list EnrichedPlugin.t) (layoutConfig : LayoutConfig)
    (pageType : string) (o : PageTypeOverride) (ps : object)
    (pluginX : EnrichedPlugin.t) (l : PluginLayout.t) (base : zoneMap) :
  getZoneComponents plugins = Done base ->
  pluginX ∈ plugins ->
  EnrichedPlugin.enabled pluginX = true ->
  EnrichedPlugin.layout pluginX = Some l ->
  PluginLayout.position l = "header" ->
  pageType <> "default" ->
  overrideFor layoutConfig pageType = Some o ->
  positions o = Some ps ->
  NoDup (keys ps) ->
  getProp (EnrichedPlugin.name pluginX) ps = Some (VStr "footer") ->
  (exists zones,
      zoneComponents plugins layoutConfig pageType = Done zones /\
      (forall c, c ∈ zones Header ->
                 ZoneComponent.name c <> EnrichedPlugin.name pluginX) /\
      (exists c, c ∈ zones Footer /\
                 ZoneComponent.name c = EnrichedPlugin.name pluginX /\
                 ZoneComponent.position c = "footer" /\
                 ((forall q, q ∈ plugins ->
                             EnrichedPlugin.name q = EnrichedPlugin.name pluginX ->
                             q = pluginX) ->
                  c = ZoneComponent.withPosition "footer" (componentOf pluginX l)))) /\
  (exists zones,
      zoneComponents plugins layoutConfig "default" = Done zones /\
      componentOf pluginX l ∈ zones Header).
Proof.
  intros Hbase Hin Hen Hl Hpos Hpt Hov Hps Hnd Hget.
  set (x := EnrichedPlugin.name pluginX) in *.
  assert (HinHeader : componentOf pluginX l ∈ base Header).
  { apply (getZoneComponents_spec _ _ Hbase). by exists pluginX, l. }
  destruct (keys_split ps x _ Hnd Hget) as (before & after & Hsplit & Hb & Ha).
  split.
  - exists (overrideZone base o). split.
    { unfold zoneComponents. rewrite Hbase. simpl.
      destruct (String.eqb_spec pageType "default"); [done|]. by rewrite Hov. }
    split.
    + intros c Hc. unfold overrideZone in Hc.
      rewrite elem_of_sortByPriority, Hps, Hsplit, fold_left_app in Hc.
      simpl in Hc. revert c Hc. apply fold_applyPosition_absent; [done|].
      intros c Hc. apply list_elem_of_filter in Hc as [Hc _].
      apply Is_true_true, negb_true_iff in Hc.
      intros Hname. apply hasName_true in Hname. congruence.
    + assert (Hfooter : forall c, c ∈ overrideZone base o Footer ->
                ZoneComponent.name c = x ->
                ZoneComponent.position c = "footer" /\
                ((forall q, q ∈ plugins -> EnrichedPlugin.name q = x -> q = pluginX) ->
                 c = ZoneComponent.withPosition "footer" (componentOf pluginX l))).
      { intros c Hc Hname. unfold overrideZone in Hc.
        rewrite elem_of_sortByPriority, Hps in Hc.
        apply fold_applyPosition_sup in Hc as [Hc|(k & _ & Hc)].
        - apply list_elem_of_filter in Hc as [_ Hc].
          apply (getZoneComponents_spec _ _ Hbase) in Hc
            as (q & lq & Hq & _ & Hlq & Hposq & ->).
          split; [exact Hposq|]. intros Huniq.
          assert (q = pluginX) as -> by (by apply Huniq).
          assert (lq = l) as -> by congruence.
          rewrite Hpos in Hposq. discriminate.
        - split; [by apply Pulled_position in Hc|]. intros Huniq.
          pose proof (Pulled_name _ _ _ _ Hc) as Hk.
          destruct Hc as (srcZone & comp & Hcomp & Hcn & ->).
          apply (getZoneComponents_spec _ _ Hbase) in Hcomp
            as (q & lq & Hq & _ & Hlq & _ & ->).
          rewrite withPosition_name in Hname.
          assert (q = pluginX) as -> by (by apply Huniq).
          assert (lq = l) as -> by congruence. done. }
      assert (Hex : exists c, c ∈ overrideZone base o Footer /\
                              ZoneComponent.name c = x).
      { unfold overrideZone. setoid_rewrite elem_of_sortByPriority.
        rewrite Hps, Hsplit, fold_left_app. simpl.
        apply fold_applyPosition_present; [done|].
        by apply (pullInto_present base Footer x _ (componentOf pluginX l)). }
      destruct Hex as (c & Hc & Hname). exists c.
      destruct (Hfooter c Hc Hname) as [Hp Hu]. done.
  - exists base. split; [|done]. unfold zoneComponents. by rewrite Hbase.
Qed.

Lemma override_moves_header_plugin_to_footer_witness :
  getZoneComponents samplePlugins = Done sampleGrid /\
  searchPlugin ∈ samplePlugins /\
  EnrichedPlugin.enabled searchPlugin = true /\
  EnrichedPlugin.layout searchPlugin = Some searchLayout /\
  PluginLayout.position searchLayout = "header" /\
  "list" <> "default" /\
  overrideFor sampleLayoutConfig "list" = Some listOverride /\
  positions listOverride = Some [("search", VStr "footer")] /\
  NoDup (keys [("search", VStr "footer")]) /\
  getProp (EnrichedPlugin.name searchPlugin) [("search", VStr "footer")]
    = Some (VStr "footer") /\
  (exists zones,
      zoneComponents samplePlugins sampleLayoutConfig "list" = Done zones /\
      (forall c, c ∈ zones Header ->
                 ZoneComponent.name c <> EnrichedPlugin.name searchPlugin) /\
      (exists c, c ∈ zones Footer /\
                 ZoneComponent.name c = EnrichedPlugin.name searchPlugin /\
                 ZoneComponent.position c = "footer" /\
                 ((forall q, q ∈ samplePlugins ->
                             EnrichedPlugin.name q = EnrichedPlugin.name searchPlugin ->
                             q = searchPlugin) ->
                  c = ZoneComponent.withPosition "footer"
                        (componentOf searchPlugin searchLayout)))) /\
  (exists zones,
      zoneComponents samplePlugins sampleLayoutConfig "default" = Done zones /\
      componentOf searchPlugin searchLayout ∈ zones Header).
Proof.
  assert (Hnd : NoDup (keys [("search", VStr "footer")])).
  { apply NoDup_singleton. }
  assert (Hin : searchPlugin ∈ samplePlugins) by left.
  repeat (split; [first [reflexivity | discriminate | exact Hnd | exact Hin]|]).
  apply (override_moves_header_plugin_to_footer samplePlugins sampleLayoutConfig
           "list" listOverride [("search", VStr "footer")]
           searchPlugin searchLayout sampleGrid);
    first [reflexivity | discriminate | exact Hnd | exact Hin].
Defined.

Lemma insertByPriority_sorted c l :
  StronglySorted (fun a b => ZoneComponent.priority a <= ZoneComponent.priority b) l ->
  StronglySorted (fun a b => ZoneComponent.priority a <= ZoneComponent.priority b)
    (insertByPriority c l).
Proof.
  induction 1 as [|d rest Hrest IH Hd]; simpl; [by repeat constructor|].
  destruct (Z.ltb_spec (ZoneComponent.priority c) (ZoneComponent.priority d)).
  - constructor; [by constructor|]. constructor; [lia|].
    eapply Forall_impl; [exact Hd|]. simpl. intros; lia.
  - constructor; [done|].
    rewrite insertByPriority_Permutation. by constructor.
Qed.

Lemma sortByPriority_sorted l :
  StronglySorted (fun a b => ZoneComponent.priority a <= ZoneComponent.priority b)
    (sortByPriority l).
Proof.
  unfold sortByPriority.
  assert (H : forall acc,
            StronglySorted (fun a b => ZoneComponent.priority a
                                        <= ZoneComponent.priority b) acc ->
            StronglySorted (fun a b => ZoneComponent.priority a
                                        <= ZoneComponent.priority b)
              (fold_left (fun sorted c => insertByPriority c sorted) l acc)).
  { induction l as [|c rest IH]; intros acc Hacc; simpl; [done|].
    apply IH. by apply insertByPriority_sorted. }
  apply H. constructor.
Qed.

Lemma collectZones_total plugins :
  (forall plugin l,
      plugin ∈ plugins ->
      EnrichedPlugin.enabled plugin = true ->
      EnrichedPlugin.layout plugin = Some l ->
      PluginLayout.position l ∉ objectPrototypeNames) ->
  forall zones0, exists zones, collectZones plugins zones0 = Done zones.
Proof.
  induction plugins as [|plugin rest IH]; intros Hok zones0; simpl; [eauto|].
  assert (Hrest : forall zs, exists zones, collectZones rest zs = Done zones).
  { apply IH. intros p l Hin. apply Hok. by right. }
  destruct (EnrichedPlugin.layout plugin) as [l|] eqn:Hl; [|apply Hrest].
  destruct (EnrichedPlugin.enabled plugin) eqn:Hen; simpl; [|apply Hrest].
  destruct (inZones (PluginLayout.position l)) eqn:Hex; simpl; [|apply Hrest].
  destruct (zoneOfName (PluginLayout.position l)) as [z|] eqn:Hz; [apply Hrest|].
  exfalso. unfold inZones in Hex. rewrite Hz in Hex.
  apply existsb_exists in Hex as (n & Hn & Heq).
  apply String.eqb_eq in Heq. subst n.
  apply (Hok plugin l); [left | done | done | by apply list_elem_of_In].
Qed.

(** The default grid.  For a plugin list in which no enabled plugin
    carries an inherited property name as its layout position, the grid
    is built; the components of a zone are exactly those of the enabled
    plugins whose layout entry names that zone (so an entry with any
    other position is in no zone), and each zone is in ascending order
    of priority. *)
Theorem getZoneComponents_grid (plugins : list EnrichedPlugin.t) :
  (forall plugin l,
      plugin ∈ plugins ->
      EnrichedPlugin.enabled plugin = true ->
      EnrichedPlugin.layout plugin = Some l ->
      PluginLayout.position l ∉ objectPrototypeNames) ->
  exists zones,
    getZoneComponents plugins = Done zones /\
    (forall z c, c ∈ zones z <-> Contributes plugins z c) /\
    (forall z, StronglySorted
                 (fun a b => ZoneComponent.priority a <= ZoneComponent.priority b)
                 (zones z)).
Proof.
  intros Hok.
  destruct (collectZones_total plugins Hok emptyZones) as (zs & Hzs).
  exists (fun zone => sortByPriority (zs zone)).
  assert (Hrun : getZoneComponents plugins
                 = Done (fun zone => sortByPriority (zs zone))).
  { unfold getZoneComponents. by rewrite Hzs. }
  split; [exact Hrun|]. split.
  - by apply getZoneComponents_spec.
  - intros z. apply sortByPriority_sorted.
Qed.

Lemma samplePlugins_positions plugin l :
  plugin ∈ samplePlugins ->
  EnrichedPlugin.enabled plugin = true ->
  EnrichedPlugin.layout plugin = Some l ->
  PluginLayout.position l ∉ objectPrototypeNames.
Proof.
  intros Hin _ Hl.
  assert (Hpos : PluginLayout.position l = "header"
                 \/ PluginLayout.position l = "right").
  { apply elem_of_cons in Hin as [->|Hin]; [left; by injection Hl as <-|].
    apply list_elem_of_singleton in Hin as ->. right. by injection Hl as <-. }
  intros Hmem. apply list_elem_of_In in Hmem.
  destruct Hpos as [Hp|Hp]; rewrite Hp in Hmem; simpl in Hmem;
    repeat (destruct Hmem as [Hmem|Hmem]; [discriminate|]); done.
Defined.

Lemma getZoneComponents_grid_witness :
  exists zones,
    getZoneComponents samplePlugins = Done zones /\
    (forall z c, c ∈ zones z <-> Contributes samplePlugins z c) /\
    (forall z, StronglySorted
                 (fun a b => ZoneComponent.priority a <= ZoneComponent.priority b)
                 (zones z)).
Proof.
  apply (getZoneComponents_grid samplePlugins). exact samplePlugins_positions.
Defined.

(** C9: the guard `position in zones` lets the names inherited from
    `Object.prototype` through.  For an enabled plugin whose layout
    position is "constructor" the guard holds, `zones["constructor"]` is
    not one of the six arrays, and `getZoneComponents` throws instead of
    leaving the entry out. *)
Theorem getZoneComponents_throws_on_inherited_position :
  EnrichedPlugin.enabled constructorPlugin = true /\
  (PluginLayout.position <$> EnrichedPlugin.layout constructorPlugin)
    = Some "constructor" /\
  zoneOfName "constructor" = None /\
  inZones "constructor" = true /\
  getZoneComponents [constructorPlugin] = TypeError.
Proof. by vm_compute. Qed.

End ZoneFacts.

(** ** Commits: the shared steps *)

Module CommitFacts.
Import Config ConfigFacts PathFacts Sample App.

Lemma layout_exitView_components s :
  LayoutPanel.currentComponents (LayoutPanel.exitView s)
  = LayoutPanel.currentComponents s.
Proof. reflexivity. Qed.

Lemma layout_settle_frame prev comps s :
  let s' := LayoutPanel.settle prev comps s in
  LayoutPanel.plugins s' = LayoutPanel.plugins s /\
  LayoutPanel.layout s' = LayoutPanel.layout s /\
  LayoutPanel.view s' = LayoutPanel.view s /\
  LayoutPanel.drillMode s' = LayoutPanel.drillMode s /\
  LayoutPanel.focusColumn s' = LayoutPanel.focusColumn s /\
  LayoutPanel.focusCenterRow s' = LayoutPanel.focusCenterRow s /\
  LayoutPanel.activePageType s' = LayoutPanel.activePageType s /\
  LayoutPanel.notices s' = LayoutPanel.notices s.
Proof.
  unfold LayoutPanel.settle, LayoutPanel.effects, LayoutPanel.clampEffect.
  destruct (LayoutPanel.resetEffectFires prev s); simpl;
    repeat match goal with |- context [if ?b then _ else _] => destruct b end;
    simpl; repeat split.
Qed.

Lemma getGlobalConfig_updated d key v json :
  readPluginsJson d = Some json ->
  getGlobalConfig (updateGlobalConfig d key v).1
  = Some (spreadSet (getProp "configuration" json) key v).
Proof.
  intros Hjson. unfold updateGlobalConfig, getGlobalConfig. rewrite Hjson. simpl.
  rewrite withoutSchema_other by discriminate.
  by rewrite getProp_setProp_eq.
Qed.

Lemma getProp_spreadSet a key v : getProp key (spreadSet a key v) = Some v.
Proof.
  unfold spreadSet. destruct a as [[ | | | | | c]|]; simpl;
    rewrite ?String.eqb_refl; try done. apply getProp_setProp_eq.
Qed.

End CommitFacts.

(** ** Restoring a setting to its default *)

Module RestoreFacts.
Import Config Settings SettingsPanel Spec Sample App PathFacts.

Lemma clampEffect_in_range s :
  0 <= highlightedIndex s < Z.of_nat (length (visibleEntries s)) ->
  clampEffect s = s.
Proof.
  intros H. unfold clampEffect.
  destruct (Z.geb_spec (highlightedIndex s) (Z.of_nat (length (visibleEntries s))));
    [lia | done].
Qed.

(** Shift+D where the lookup of the default finds nothing, or finds
    what compares equal to the field: one notice and nothing else. *)
Lemma restoreDefault_noop
    (JSON_parse : string -> option value) (s : state) (entry : FlatEntry) :
  view s = ViewList ->
  at_ (visibleEntries s) (highlightedIndex s) = Some entry ->
  match getDefaultSettingValue (defaultConfig s) (keyPath entry) with
  | Undefined => True
  | found => deepEqual (entryValue entry) found = true
  end ->
  exists s' notice,
    step JSON_parse (Key "d" true) s = Done s' /\
    files s' = files s /\
    config s' = config s /\
    view s' = ViewList /\
    highlightedIndex s' = highlightedIndex s /\
    notices s' = notices s ++ [notice] /\
    notice =
      match getDefaultSettingValue (defaultConfig s) (keyPath entry) with
      | Undefined =>
          {| message := "No default available for "
                        +:+ Str.join "." (keyPath entry);
             noticeType := Error |}
      | _ =>
          {| message := Str.join "." (keyPath entry) +:+ " is already default";
             noticeType := Info |}
      end.
Proof.
  intros Hview Hat Hdefault.
  pose proof (at_Some_range _ _ _ Hat) as Hrange.
  unfold step, handle. rewrite Hview. unfold onKeyList.
  destruct (Z.eqb_spec (Z.of_nat (length (visibleEntries s))) 0) as [Hz|_];
    [lia|].
  simpl. unfold restoreDefault. rewrite Hat.
  destruct (getDefaultSettingValue (defaultConfig s) (keyPath entry))
    as [defaultValue| | | |]; rewrite ?Hdefault; cbn [bind];
    rewrite SettingsFrame.effects_same_entry by done;
    rewrite clampEffect_in_range by exact Hrange;
    eexists _, _; (split; [reflexivity|]); simpl; by rewrite Hview.
Qed.

(** The lookup of the default and the document. *)
Lemma walk_lookupPath keyPath :
  forall v dv, lookupPath v keyPath = Some dv -> walk (Val v) keyPath = Val dv.
Proof.
  induction keyPath as [|k rest IH]; intros v dv; simpl.
  - by intros [= ->].
  - destruct v as [ | | | | items | o ]; try done; simpl.
    + unfold readItem. destruct (arrayIndex k) as [i|]; [|done]. simpl.
      destruct (items !! i) as [child|]; [|done]. simpl. apply IH.
    + unfold readProp. destruct (getProp k o) as [child|]; [|done]. simpl.
      apply IH.
Qed.

Lemma walk_Undefined keyPath : walk Undefined keyPath = Undefined.
Proof. by destruct keyPath. Qed.

Lemma inheritedName_false k :
  inheritedName k = false ->
  existsb (String.eqb k) objectPrototypeNames = false /\
  existsb (String.eqb k) arrayPrototypeNames = false /\
  String.eqb k "length" = false /\
  String.eqb k "__proto__" = false.
Proof.
  unfold inheritedName. rewrite !orb_false_iff. intros [[Ho Ha] Hl].
  repeat split; try done.
  destruct (String.eqb_spec k "__proto__") as [->|]; [|done].
  by vm_compute in Ho.
Qed.

Lemma walk_lookupPath_None keyPath :
  forall v,
    Forall (fun k => inheritedName k = false) keyPath ->
    lookupPath v keyPath = None -> walk (Val v) keyPath = Undefined.
Proof.
  induction keyPath as [|k rest IH]; intros v Hnames; [done|].
  apply Forall_cons in Hnames as [Hk Hnames].
  destruct (inheritedName_false k Hk) as (Ho & Ha & Hl & Hp).
  destruct v as [ | | | | items | o ]; try (intros _; by destruct rest);
    intros Hlook; simpl in Hlook; rewrite walk_node_cons by done; cbn [read].
  - unfold readItem. destruct (arrayIndex k) as [i|]; simpl in Hlook.
    + destruct (items !! i) as [child|]; simpl in Hlook; [by apply IH|].
      apply walk_Undefined.
    + rewrite Hl, Ha. unfold fromObjectPrototype. rewrite Hp, Ho.
      apply walk_Undefined.
  - unfold readProp. destruct (getProp k o) as [child|]; simpl in Hlook;
      [by apply IH|].
    unfold fromObjectPrototype. rewrite Hp, Ho. apply walk_Undefined.
Qed.

(** C4, on the code: a setting named `constructor`, for which the
    default document holds nothing.  The lookup of the default reads the
    member that every object inherits under that name, a function, so
    the restore request is not answered with "No default available":
    the function does not compare equal to the field, and the handler
    goes on to write it as the field's default. *)
Lemma restore_of_inherited_name_is_not_reported :
  let s := mount constructorProject in
  view s = ViewList /\
  at_ (visibleEntries s) (highlightedIndex s) = Some constructorEntry /\
  (defaultConfig s ≫= fun d => lookupPath (VObj d) (keyPath constructorEntry))
    = None /\
  getDefaultSettingValue (defaultConfig s) (keyPath constructorEntry)
    = Builtin /\
  deepEqual (entryValue constructorEntry) Builtin = false /\
  step (fun _ => None) (Key "d" true) s = OffModel.
Proof. by vm_compute. Qed.

End RestoreFacts.

(** ** The cursors stay within their lists *)

Module CursorFacts.
Import Config Settings App.

(** *** Settings panel *)

Section SettingsCursor.
Import SettingsPanel.

Variable JSON_parse : string -> option value.

Lemma settings_clampEffect_spec s :
  let len := Z.of_nat (length (visibleEntries s)) in
  visibleEntries (clampEffect s) = visibleEntries s /\
  highlightedIndex (clampEffect s)
  = if len <=? highlightedIndex s then Z.max 0 (len - 1) else highlightedIndex s.
Proof.
  unfold clampEffect. simpl.
  destruct (Z.geb_spec (highlightedIndex s) (Z.of_nat (length (visibleEntries s))));
    destruct (Z.leb_spec (Z.of_nat (length (visibleEntries s))) (highlightedIndex s));
    simpl; (done || lia).
Qed.

Lemma settings_clampEffect_bounds s :
  0 <= highlightedIndex s ->
  0 <= highlightedIndex (clampEffect s)
    <= Z.max 0 (Z.of_nat (length (visibleEntries (clampEffect s))) - 1).
Proof.
  intros H. destruct (settings_clampEffect_spec s) as [-> ->].
  destruct (Z.leb_spec (Z.of_nat (length (visibleEntries s))) (highlightedIndex s));
    lia.
Qed.

Lemma applyValue_cursors keyPath v exitAfterSave s s' :
  applyValue keyPath v exitAfterSave s = Done s' ->
  highlightedIndex s' = highlightedIndex s /\
  arrayItems s' = arrayItems s /\
  highlightedArrayIndex s' = highlightedArrayIndex s.
Proof.
  unfold applyValue. destruct (config s) as [cfg|]; [|by intros [= <-]].
  intros H. apply bind_Done in H as (s1 & H1 & H2).
  assert (Hs1 : highlightedIndex s1 = highlightedIndex s /\
                arrayItems s1 = arrayItems s /\
                highlightedArrayIndex s1 = highlightedArrayIndex s).
  { destruct keyPath as [|k [|k' rest]].
    - apply bind_Done in H1 as (full & _ & H1).
      destruct (read _ (Val full)); try done; by injection H1 as <-.
    - by injection H1 as <-.
    - apply bind_Done in H1 as (full & _ & H1).
      destruct (read _ (Val full)); try done; by injection H1 as <-. }
  injection H2 as <-. by destruct exitAfterSave.
Qed.

Lemma applyValue_index keyPath v exitAfterSave s s' :
  applyValue keyPath v exitAfterSave s = Done s' ->
  highlightedIndex s' = highlightedIndex s.
Proof. intros H. by apply applyValue_cursors in H as (? & _). Qed.

Lemma swapItems_Done i j items items' :
  swapItems i j items = Done items' ->
  length items' = length items /\
  0 <= i < Z.of_nat (length items) /\ 0 <= j < Z.of_nat (length items).
Proof.
  unfold swapItems.
  destruct (at_ items i) as [a|] eqn:Hi; [|done].
  destruct (at_ items j) as [b|] eqn:Hj; [|done].
  intros [= <-]. rewrite !length_insert.
  apply at_Some_range in Hi. apply at_Some_range in Hj. done.
Qed.

Lemma assignItem_Done index item items items' :
  assignItem index item items = Done items' ->
  (length items <= length items')%nat.
Proof.
  unfold assignItem.
  destruct ((0 <=? index) && (index <? Z.of_nat (length items))).
  - intros [= <-]. by rewrite length_insert.
  - destruct (index =? Z.of_nat (length items)); [|done].
    intros [= <-]. rewrite length_app. simpl. lia.
Qed.

(** The cursor and the items of the array editor after a key. *)
Lemma onKeyArray_cursors name shift s s' :
  onKeyArray name shift s = Done s' ->
  highlightedIndex s' = highlightedIndex s /\
  (0 <= highlightedArrayIndex s
     <= Z.max 0 (Z.of_nat (length (arrayItems s)) - 1) ->
   0 <= highlightedArrayIndex s'
     <= Z.max 0 (Z.of_nat (length (arrayItems s')) - 1)).
Proof.
  unfold onKeyArray. destruct (editingEntry s) as [entry|]; [|by intros [= <-]].
  destruct (addingArrayItem s || _).
  { destruct (String.eqb name "escape"); by intros [= <-]. }
  destruct (String.eqb name "escape"); [by intros [= <-]|].
  destruct (String.eqb name "up" && _ && negb shift) eqn:Hup.
  { intros [= <-]. simpl. split; [done|]. intros Hb.
    apply andb_prop in Hup as [Hup _]. apply andb_prop in Hup as [_ Hc].
    apply Z.ltb_lt in Hc.
    destruct (Z.ltb_spec 0 (highlightedArrayIndex s)); lia. }
  destruct (String.eqb name "down" && _ && negb shift) eqn:Hdown.
  { intros [= <-]. simpl. split; [done|]. intros Hb.
    apply andb_prop in Hdown as [Hdown _]. apply andb_prop in Hdown as [_ Hc].
    apply Z.ltb_lt in Hc.
    destruct (Z.ltb_spec (highlightedArrayIndex s)
                (Z.of_nat (length (arrayItems s)) - 1)); lia. }
  destruct (String.eqb name "n"); [by intros [= <-]|].
  destruct (String.eqb name "return" && _); [by intros [= <-]|].
  destruct (String.eqb name "x" && _).
  { intros H. apply applyValue_cursors in H as (-> & -> & ->). simpl.
    split; [done|]. lia. }
  destruct (String.eqb name "up" && shift && _) eqn:Hsu.
  { intros H. apply bind_Done in H as (nextItems & Hswap & H).
    apply swapItems_Done in Hswap as (Hlen & Hi & Hj).
    apply applyValue_cursors in H as (-> & -> & ->). simpl.
    split; [done|]. rewrite Hlen. lia. }
  destruct (String.eqb name "down" && shift && _) eqn:Hsd; [|by intros [= <-]].
  intros H. apply bind_Done in H as (nextItems & Hswap & H).
  apply swapItems_Done in Hswap as (Hlen & Hi & Hj).
  apply applyValue_cursors in H as (-> & -> & ->). simpl.
  split; [done|]. rewrite Hlen. lia.
Qed.

Lemma submitArrayItem_cursors text s s' :
  submitArrayItem text s = Done s' ->
  highlightedIndex s' = highlightedIndex s /\
  (0 <= highlightedArrayIndex s
     <= Z.max 0 (Z.of_nat (length (arrayItems s)) - 1) ->
   0 <= highlightedArrayIndex s'
     <= Z.max 0 (Z.of_nat (length (arrayItems s')) - 1)).
Proof.
  unfold submitArrayItem.
  destruct (editingEntry s) as [entry|]; [|by intros [= <-]].
  destruct (String.eqb (Str.trim text) ""); [by intros [= <-]|].
  destruct (editingArrayItemIndex s) as [index|].
  - intros H. apply bind_Done in H as (nextItems & Hassign & H).
    apply assignItem_Done in Hassign.
    apply bind_Done in H as (s1 & H & [= <-]).
    apply applyValue_cursors in H as (Hi & Hitems & Hhai). simpl in *.
    rewrite Hi, Hitems, Hhai. split; [done|]. lia.
  - intros H. apply bind_Done in H as (s1 & H & [= <-]).
    apply applyValue_cursors in H as (Hi & Hitems & Hhai). simpl in *.
    rewrite Hi, Hitems, Hhai. split; [done|]. lia.
Qed.

Lemma enterEdit_cursors entry s :
  highlightedIndex (enterEdit entry s) = highlightedIndex s /\
  (0 <= highlightedArrayIndex s
     <= Z.max 0 (Z.of_nat (length (arrayItems s)) - 1) ->
   0 <= highlightedArrayIndex (enterEdit entry s)
     <= Z.max 0 (Z.of_nat (length (arrayItems (enterEdit entry s))) - 1)).
Proof.
  unfold enterEdit.
  destruct (type (getFieldSchema (keyPath entry))); simpl; split; (done || lia).
Qed.

Lemma restoreDefault_cursors s s' :
  restoreDefault s = Done s' ->
  highlightedIndex s' = highlightedIndex s /\
  arrayItems s' = arrayItems s /\
  highlightedArrayIndex s' = highlightedArrayIndex s.
Proof.
  unfold restoreDefault.
  destruct (at_ (visibleEntries s) (highlightedIndex s)) as [entry|];
    [|by intros [= <-]].
  destruct (getDefaultSettingValue (defaultConfig s) (keyPath entry))
    as [defaultValue| | | |];
    try (by intros [= <-]);
    match goal with
    | |- context [deepEqual ?a ?b] =>
        destruct (deepEqual a b); [by intros [= <-]|]
    end; try done.
  intros H. apply bind_Done in H as (s1 & H & [= <-]).
  by apply applyValue_cursors in H.
Qed.





(** What one handler does to the two cursors: the cursor of the tree
    stays at or above 0, and the cursor of the array editor stays
    inside the items. *)
Lemma handle_cursors e s s' :
  handle JSON_parse e s = Done s' ->
  (0 <= highlightedIndex s -> 0 <= highlightedIndex s') /\
  (0 <= highlightedArrayIndex s
     <= Z.max 0 (Z.of_nat (length (arrayItems s)) - 1) ->
   0 <= highlightedArrayIndex s'
     <= Z.max 0 (Z.of_nat (length (arrayItems s')) - 1)).
Proof.
  intros Hstep.
  assert (Hsame : forall r, r = Done s' ->
            (forall t, r = Done t ->
               highlightedIndex t = highlightedIndex s /\
               arrayItems t = arrayItems s /\
               highlightedArrayIndex t = highlightedArrayIndex s) ->
            (0 <= highlightedIndex s -> 0 <= highlightedIndex s') /\
            (0 <= highlightedArrayIndex s
               <= Z.max 0 (Z.of_nat (length (arrayItems s)) - 1) ->
             0 <= highlightedArrayIndex s'
               <= Z.max 0 (Z.of_nat (length (arrayItems s')) - 1))).
  { intros r -> H. by destruct (H s' eq_refl) as (-> & -> & ->). }
  assert (Hweak : forall t,
            highlightedIndex t = highlightedIndex s /\
            (0 <= highlightedArrayIndex s
               <= Z.max 0 (Z.of_nat (length (arrayItems s)) - 1) ->
             0 <= highlightedArrayIndex t
               <= Z.max 0 (Z.of_nat (length (arrayItems t)) - 1)) ->
            (0 <= highlightedIndex s -> 0 <= highlightedIndex t) /\
            (0 <= highlightedArrayIndex s
               <= Z.max 0 (Z.of_nat (length (arrayItems s)) - 1) ->
             0 <= highlightedArrayIndex t
               <= Z.max 0 (Z.of_nat (length (arrayItems t)) - 1))).
  { intros t [-> H]. done. }
  assert (Hescape : forall name,
            (if String.eqb name "escape" then Done (exitEdit s) else Done s)
              = Done s' ->
            (0 <= highlightedIndex s -> 0 <= highlightedIndex s') /\
            (0 <= highlightedArrayIndex s
               <= Z.max 0 (Z.of_nat (length (arrayItems s)) - 1) ->
             0 <= highlightedArrayIndex s'
               <= Z.max 0 (Z.of_nat (length (arrayItems s')) - 1))).
  { intros name H. by destruct (String.eqb name "escape"); injection H as <-. }
  unfold handle in Hstep.
  destruct e as [name shift | text | text | text | v].
  - destruct (view s).
    + unfold onKeyList in Hstep.
      destruct (Z.eqb_spec (Z.of_nat (length (visibleEntries s))) 0) as [|Hcount];
        [by injection Hstep as <-|].
      destruct (String.eqb name "up").
      { injection Hstep as <-. simpl. split; [|done].
        destruct (Z.ltb_spec 0 (highlightedIndex s)); lia. }
      destruct (String.eqb name "down").
      { injection Hstep as <-. simpl. split; [|done].
        destruct (Z.ltb_spec (highlightedIndex s)
                    (Z.of_nat (length (visibleEntries s)) - 1)); lia. }
      destruct (String.eqb name "return").
      { destruct (at_ (visibleEntries s) (highlightedIndex s)) as [entry|];
          [|by injection Hstep as <-].
        destruct (isObject entry); injection Hstep as <-; [done|].
        apply Hweak, enterEdit_cursors. }
      destruct (String.eqb name "d" && shift); [|by injection Hstep as <-].
      apply (Hsame _ Hstep). intros t. apply restoreDefault_cursors.
    + by apply (Hescape name).
    + destruct (editingEntry s); [by apply (Hescape name)|].
      by injection Hstep as <-.
    + destruct (editingEntry s); [by apply (Hescape name)|].
      by injection Hstep as <-.
    + by apply Hweak, (onKeyArray_cursors name shift).
    + by apply (Hescape name).
  - destruct (view s); try by injection Hstep as <-.
    apply (Hsame _ Hstep). intros t. unfold submitString.
    destruct (editingEntry s); [apply applyValue_cursors | by intros [= <-]].
  - destruct (view s); try by injection Hstep as <-.
    apply (Hsame _ Hstep). intros t. unfold submitColor.
    destruct (editingEntry s) as [entry|]; [|by intros [= <-]].
    destruct (negb (isValidColorValue (Str.trim text))); [by intros [= <-]|].
    intros Happ. by apply applyValue_cursors in Happ.
  - destruct (view s); try by injection Hstep as <-.
    by apply Hweak, (submitArrayItem_cursors text).
  - destruct (view s); try by injection Hstep as <-.
    all: apply (Hsame _ Hstep); intros t;
      destruct (editingEntry s); [apply applyValue_cursors | by intros [= <-]].
Qed.

Lemma effects_array_bounds prev s :
  0 <= highlightedArrayIndex s
    <= Z.max 0 (Z.of_nat (length (arrayItems s)) - 1) ->
  0 <= highlightedArrayIndex (effects prev s)
    <= Z.max 0 (Z.of_nat (length (arrayItems (effects prev s))) - 1).
Proof.
  intros H. unfold effects.
  destruct (SettingsFrame.clampEffect_frame (editingEffect prev s))
    as (_ & _ & _ & _ & _ & _ & -> & ->).
  unfold editingEffect. destruct (editingEntry s) as [entry|]; [|done].
  destruct (editingEffectRuns prev s); [|done].
  destruct (type (getFieldSchema (keyPath entry))); simpl; (done || lia).
Qed.

Lemma effects_bounds prev s :
  0 <= highlightedIndex s ->
  0 <= highlightedIndex (effects prev s)
    <= Z.max 0 (Z.of_nat (length (visibleEntries (effects prev s))) - 1).
Proof.
  intros H. unfold effects.
  apply settings_clampEffect_bounds.
  by destruct (SettingsFrame.editingEffect_frame prev s)
    as (_ & _ & _ & _ & _ & _ & _ & ->).
Qed.

Lemma settings_reachable_bounds d s :
  reachable JSON_parse d s ->
  0 <= highlightedIndex s
    <= Z.max 0 (Z.of_nat (length (visibleEntries s)) - 1) /\
  0 <= highlightedArrayIndex s
    <= Z.max 0 (Z.of_nat (length (arrayItems s)) - 1).
Proof.
  induction 1 as [|s e s' _ [IH1 IH2] Hstep].
  - split; [by apply effects_bounds | by apply effects_array_bounds].
  - unfold step in Hstep.
    destruct (handle JSON_parse e s) as [s1| |] eqn:Hhandle; simpl in Hstep;
      try done.
    injection Hstep as <-.
    destruct (handle_cursors _ _ _ Hhandle) as [H1 H2].
    split; [apply effects_bounds, H1; lia | apply effects_array_bounds, H2, IH2].
Qed.

End SettingsCursor.

(** *** Layout panel *)

Section LayoutCursor.
Import Layout LayoutPanel.

Lemma layout_clampEffect_spec comps s :
  let len := Z.of_nat (length comps) in
  selectedComponent (clampEffect comps s)
  = if len <=? selectedComponent s then Z.max 0 (len - 1)
    else selectedComponent s.
Proof.
  unfold clampEffect. simpl.
  destruct (Z.ltb_spec (Z.max 0 (Z.of_nat (length comps) - 1)) (selectedComponent s));
    destruct (Z.leb_spec (Z.of_nat (length comps)) (selectedComponent s));
    simpl; lia.
Qed.




Lemma settle_bounds prev comps s :
  0 <= selectedComponent s ->
  0 <= selectedComponent (settle prev comps s)
    <= Z.max 0 (Z.of_nat (length comps) - 1).
Proof.
  intros Hs. unfold settle. rewrite layout_clampEffect_spec.
  assert (H1 : 0 <= selectedComponent (effects prev comps s)).
  { unfold effects. destruct (resetEffectFires prev s); [simpl; lia|].
    rewrite layout_clampEffect_spec.
    destruct (Z.leb_spec (Z.of_nat (length comps)) (selectedComponent s)); lia. }
  destruct (Z.leb_spec (Z.of_nat (length comps))
              (selectedComponent (effects prev comps s))); lia.
Qed.

(** A settled state is a fixed point of the effects: a further render
    changes nothing. *)
Lemma settle_stable prev comps s :
  0 <= selectedComponent s ->
  clampEffect comps (settle prev comps s) = settle prev comps s.
Proof.
  intros Hs. pose proof (settle_bounds prev comps s Hs) as Hb.
  unfold clampEffect at 1.
  destruct (Z.ltb_spec (Z.max 0 (Z.of_nat (length comps) - 1))
              (selectedComponent (settle prev comps s))); [lia | done].
Qed.

Lemma settle_spec prev comps s :
  let len := Z.of_nat (length comps) in
  selectedComponent (settle prev comps s)
  = if resetEffectFires prev s then 0
    else if len <=? selectedComponent s then Z.max 0 (len - 1)
    else selectedComponent s.
Proof.
  unfold settle, effects. simpl.
  destruct (resetEffectFires prev s); rewrite !layout_clampEffect_spec; simpl.
  - destruct (Z.leb_spec (Z.of_nat (length comps)) 0); lia.
  - destruct (Z.leb_spec (Z.of_nat (length comps)) (selectedComponent s)).
    + destruct (Z.leb_spec (Z.of_nat (length comps))
                  (Z.max 0 (Z.of_nat (length comps) - 1))); lia.
    + destruct (Z.leb_spec (Z.of_nat (length comps)) (selectedComponent s)); lia.
Qed.












End LayoutCursor.



End CursorFacts.

(** ** A session in the Settings panel *)

Module ScenarioFacts.
Import Config Settings SettingsPanel Sample App.

(** A session on the `enableSPA` switch, run on a project whose
    configuration is the shipped default.  Moving the cursor to
    `enableSPA` and pressing Enter opens the boolean editor; committing
    `false` writes it, and the value no longer compares equal to its
    default; Shift+D writes the default `true` back, after which the
    value compares equal to its default again, and the notices of the
    session are "Set enableSPA", "Set enableSPA" and "Restored enableSPA
    to default". *)
Theorem enableSPA_toggle_and_restore (JSON_parse : string -> option value) :
  exists s1 s2 s3 s4,
    step JSON_parse (Key "down" false) (effects None (mount defaultProject))
      = Done s1 /\
    step JSON_parse (Key "return" false) s1 = Done s2 /\
    view s2 = EditBoolean /\
    step JSON_parse (Commit (VBool false)) s2 = Done s3 /\
    config s3 ≫= getProp "enableSPA" = Some (VBool false) /\
    deepEqual (VBool false)
      (getDefaultSettingValue (defaultConfig s3) ["enableSPA"]) = false /\
    step JSON_parse (Key "d" true) s3 = Done s4 /\
    config s4 ≫= getProp "enableSPA" = Some (VBool true) /\
    deepEqual (VBool true)
      (getDefaultSettingValue (defaultConfig s4) ["enableSPA"]) = true /\
    map message (notices s4)
      = ["Set enableSPA"; "Set enableSPA"; "Restored enableSPA to default"] /\
    view s4 = ViewList.
Proof.
  eexists _, _, _, _.
  split; [by vm_compute|].
  split; [by vm_compute|].
  split; [by vm_compute|].
  split; [by vm_compute|].
  repeat (split; [by vm_compute|]). by vm_compute.
Qed.

Lemma run_reachable JSON_parse d es s s' :
  reachable JSON_parse d s -> run JSON_parse es s = Done s' ->
  reachable JSON_parse d s'.
Proof.
  revert s. induction es as [|e rest IH]; intros s Hs Hrun.
  - by injection Hrun as <-.
  - simpl in Hrun. apply bind_Done in Hrun as (s1 & Hstep & Hrun).
    apply (IH s1); [|done]. by apply (reach_step _ _ s e).
Qed.

(** A session in the array editor, on the same project.  Seven times
    down and Enter open the editor on `ignorePatterns` with its three
    items and the cursor on the first; up wraps the cursor to the last
    item; `x` deletes that item, after which two items are left, in the
    editor and in the configuration, the cursor is on the new last item
    and the editor is still open. *)
Theorem ignorePatterns_delete_last (JSON_parse : string -> option value) :
  exists s1 s2,
    run JSON_parse
      (replicate 7 (Key "down" false) ++ [Key "return" false; Key "up" false])
      (effects None (mount defaultProject)) = Done s1 /\
    reachable JSON_parse defaultProject s1 /\
    view s1 = EditArray /\
    arrayItems s1 = ["private"; "templates"; ".obsidian"] /\
    highlightedArrayIndex s1 = 2 /\
    step JSON_parse (Key "x" false) s1 = Done s2 /\
    arrayItems s2 = ["private"; "templates"] /\
    highlightedArrayIndex s2 = 1 /\
    config s2 ≫= getProp "ignorePatterns"
      = Some (VArr [VStr "private"; VStr "templates"]) /\
    view s2 = EditArray.
Proof.
  eexists _, _.
  split; [by vm_compute|].
  split.
  { apply (run_reachable JSON_parse defaultProject
             (replicate 7 (Key "down" false)
                ++ [Key "return" false; Key "up" false])
             (effects None (mount defaultProject)));
      [apply reach_mount | by vm_compute]. }
  split; [by vm_compute|].
  split; [by vm_compute|].
  split; [by vm_compute|].
  split; [by vm_compute|].
  split; [by vm_compute|].
  split; [by vm_compute|].
  split; by vm_compute.
Qed.

End ScenarioFacts.

(** ** The configuration document: plugin list and layout section *)

Module ConfigOpsFacts.
Import Config ConfigOps ConfigFacts PathFacts Examples.

(** After any write the configuration is read from
    `quartz.config.yaml`, whichever file it was read from before: the
    document read back is the one written, less `$schema`; a
    configuration now exists; the legacy `quartz.plugins.json` is left
    as it was; and the default document reads as before. *)
Theorem write_then_read (d : fs) (data : object) :
  let d' := writePluginsJson d data in
  resolveConfigPath d' = CONFIG_YAML_PATH /\
  readPluginsJson d' = Some (withoutSchema data) /\
  configExists d' = true /\
  legacyPluginsJson d' = legacyPluginsJson d /\
  readDefaultPluginsJson d' = readDefaultPluginsJson d.
Proof.
  simpl. repeat split.
  unfold readDefaultPluginsJson, resolveDefaultConfigPath, existsSync. simpl.
  by destruct (defaultConfigYaml d), (legacyDefaultPluginsJson d).
Qed.

Lemma getProp_app k (a b : object) :
  getProp k (a ++ b)
  = match getProp k a with Some v => Some v | None => getProp k b end.
Proof.
  induction a as [|[k' w] r IH]; simpl; [done|].
  by destruct (String.eqb k' k).
Qed.

Lemma getProp_assign k (o u : object) :
  getProp k (assign o u)
  = match getProp k (reverse u) with
    | Some v => Some v
    | None => getProp k o
    end.
Proof.
  unfold assign. revert o. induction u as [|[k' v'] u IH]; intros o; [done|].
  simpl. rewrite IH, reverse_cons, getProp_app. simpl.
  destruct (getProp k (reverse u)); [done|].
  destruct (String.eqb_spec k' k) as [->|Hne].
  - apply getProp_setProp_eq.
  - by apply getProp_setProp_ne.
Qed.

Lemma getProp_assign_in k v (o u : object) :
  NoDup (keys u) -> (k, v) ∈ u -> getProp k (assign o u) = Some v.
Proof.
  intros Hnd Hin. rewrite getProp_assign.
  rewrite (getProp_elem k v (reverse u)); [done| |].
  - unfold keys. by rewrite fmap_reverse, reverse_Permutation.
  - by apply elem_of_reverse.
Qed.

Lemma getProp_assign_notin k (o u : object) :
  k ∉ keys u -> getProp k (assign o u) = getProp k o.
Proof.
  intros Hk. rewrite getProp_assign.
  assert (getProp k (reverse u) = None) as ->; [|done].
  apply getProp_None. unfold keys. rewrite fmap_reverse.
  by rewrite elem_of_reverse.
Qed.

Lemma at_insert_eq {A} (l : list A) i x :
  0 <= i < Z.of_nat (length l) -> at_ (<[Z.to_nat i := x]> l) i = Some x.
Proof.
  intros Hi. unfold at_. destruct (Z.ltb_spec i 0); [lia|].
  apply list_lookup_insert_eq. lia.
Qed.

Lemma at_insert_ne {A} (l : list A) i j x :
  0 <= i -> i <> j -> at_ (<[Z.to_nat i := x]> l) j = at_ l j.
Proof.
  intros Hi Hne. unfold at_. destruct (Z.ltb_spec j 0); [done|].
  apply list_lookup_insert_ne. lia.
Qed.

Lemma written_plugins d json l :
  readPluginsJson (writePluginsJson d (setProp "plugins" (VArr l) json))
    ≫= getProp "plugins" = Some (VArr l).
Proof.
  rewrite readPluginsJson_written. simpl.
  rewrite withoutSchema_other by discriminate. apply getProp_setProp_eq.
Qed.

Lemma written_other d json key v top :
  top <> key -> top <> "$schema" ->
  readPluginsJson (writePluginsJson d (setProp key v json)) ≫= getProp top
  = getProp top json.
Proof.
  intros Hk Hs. rewrite readPluginsJson_written. simpl.
  rewrite withoutSchema_other by done. by apply getProp_setProp_ne.
Qed.

(** `updateGlobalConfig`: with a readable document whose
    `configuration` is an object, the key is set to the value, every
    other setting and every other top-level section keeps its value,
    and `true` is returned; with no readable document nothing is
    written and `false` is returned. *)
Theorem updateGlobalConfig_merges (d : fs) (key : string) (v : value) :
  (readPluginsJson d = None -> updateGlobalConfig d key v = (d, false)) /\
  (forall json c,
      readPluginsJson d = Some json ->
      getProp "configuration" json = Some (VObj c) ->
      let d' := (updateGlobalConfig d key v).1 in
      (updateGlobalConfig d key v).2 = true /\
      (exists c',
          getGlobalConfig d' = Some c' /\
          getProp key c' = Some v /\
          (forall k, k <> key -> getProp k c' = getProp k c)) /\
      (forall top, top <> "configuration" -> top <> "$schema" ->
                   readPluginsJson d' ≫= getProp top = getProp top json)).
Proof.
  split.
  - intros Hnone. unfold updateGlobalConfig. by rewrite Hnone.
  - intros json c Hjson Hc. simpl. unfold updateGlobalConfig.
    rewrite Hjson, Hc. simpl. split; [done|]. split.
    + exists (setProp key v c). unfold getGlobalConfig.
      rewrite readPluginsJson_written. simpl.
      rewrite withoutSchema_other by discriminate.
      rewrite getProp_setProp_eq.
      split; [done|]. split; [apply getProp_setProp_eq|].
      intros k Hk. by apply getProp_setProp_ne.
    + intros top Ht Hs. rewrite withoutSchema_other by done.
      by apply getProp_setProp_ne.
Qed.

(** `updateLayoutConfig` and `getLayoutConfig`: the layout section read
    back is the one saved, and the settings, the plugin list and every
    other top-level section keep their values; with no readable
    document nothing is written, `false` is returned and no layout is
    read. *)
Theorem updateLayoutConfig_roundtrip (d : fs) (layout : object) :
  (readPluginsJson d = None ->
   updateLayoutConfig d layout = (d, false) /\ getLayoutConfig d = None) /\
  (forall json,
      readPluginsJson d = Some json ->
      let d' := (updateLayoutConfig d layout).1 in
      (updateLayoutConfig d layout).2 = true /\
      getLayoutConfig d' = Some (VObj layout) /\
      getGlobalConfig d' = getGlobalConfig d /\
      (forall top, top <> "layout" -> top <> "$schema" ->
                   readPluginsJson d' ≫= getProp top = getProp top json)).
Proof.
  split.
  - intros Hnone. unfold updateLayoutConfig, getLayoutConfig. by rewrite Hnone.
  - intros json Hjson. simpl. unfold updateLayoutConfig. rewrite Hjson. simpl.
    split; [done|]. split.
    { unfold getLayoutConfig. rewrite readPluginsJson_written. simpl.
      rewrite withoutSchema_other by discriminate.
      by rewrite getProp_setProp_eq. }
    split.
    { unfold getGlobalConfig, configurationOf.
      rewrite readPluginsJson_written, Hjson.
      rewrite withoutSchema_other by discriminate.
      by rewrite getProp_setProp_ne by discriminate. }
    intros top Ht Hs. rewrite withoutSchema_other by done.
    by apply getProp_setProp_ne.
Qed.

(** `updatePluginEntry` at an index that holds an entry: the keys of
    the update are set in that entry, its other keys keep their
    values, every other entry and every other top-level section is as
    before, and `true` is returned. *)
Theorem updatePluginEntry_updates_one_entry
    (d : fs) (json : object) (l : list value) (index : Z) (o updates : object) :
  readPluginsJson d = Some json ->
  getProp "plugins" json = Some (VArr l) ->
  at_ l index = Some (VObj o) ->
  NoDup (keys updates) ->
  exists d' l' o',
    updatePluginEntry d index updates = Done (d', true) /\
    readPluginsJson d' ≫= getProp "plugins" = Some (VArr l') /\
    length l' = length l /\
    at_ l' index = Some (VObj o') /\
    (forall k v, (k, v) ∈ updates -> getProp k o' = Some v) /\
    (forall k, k ∉ keys updates -> getProp k o' = getProp k o) /\
    (forall j, j <> index -> at_ l' j = at_ l j) /\
    (forall top, top <> "plugins" -> top <> "$schema" ->
                 readPluginsJson d' ≫= getProp top = getProp top json).
Proof.
  intros Hjson Hplugins Hat Hnd.
  pose proof (at_Some_range _ _ _ Hat) as Hrange.
  eexists _, (<[Z.to_nat index := VObj (assign o updates)]> l), _.
  split.
  { unfold updatePluginEntry, pluginsOf. rewrite Hjson, Hplugins. simpl.
    rewrite Hat. simpl. reflexivity. }
  split; [apply written_plugins|].
  split; [apply length_insert|].
  split; [by apply at_insert_eq|].
  split; [intros k v Hin; by apply getProp_assign_in|].
  split; [intros k Hk; by apply getProp_assign_notin|].
  split; [intros j Hj; apply at_insert_ne; lia|].
  intros top Ht Hs. by apply written_other.
Qed.

Lemma updatePluginEntry_updates_one_entry_witness :
  exists d' l' o',
    updatePluginEntry pluginProject 1 [("enabled", VBool false)]
      = Done (d', true) /\
    readPluginsJson d' ≫= getProp "plugins" = Some (VArr l') /\
    length l' = length pluginEntries /\
    at_ l' 1 = Some (VObj o') /\
    (forall k v, (k, v) ∈ [("enabled", VBool false)] -> getProp k o' = Some v) /\
    (forall k, k ∉ keys [("enabled", VBool false)] ->
               getProp k o' = getProp k searchEntry) /\
    (forall j, j <> 1 -> at_ l' j = at_ pluginEntries j) /\
    (forall top, top <> "plugins" -> top <> "$schema" ->
                 readPluginsJson d' ≫= getProp top = getProp top pluginDocument).
Proof.
  apply (updatePluginEntry_updates_one_entry pluginProject pluginDocument
           pluginEntries 1 searchEntry [("enabled", VBool false)]);
    try reflexivity.
  apply NoDup_singleton.
Defined.

(** `updatePluginEntry` and `removePluginEntry` outside the list: with
    no readable document, no plugin list, an index below 0 or at or
    beyond the length of the list, or a falsy entry at the index,
    nothing is written and `false` is returned. *)
Theorem plugin_entry_bounds (d : fs) (index : Z) (updates : object) :
  match readPluginsJson d with
  | None => True
  | Some json =>
      match getProp "plugins" json with
      | None => True
      | Some (VArr l) =>
          match at_ l index with
          | None => True
          | Some entry => truthy entry = false
          end
      | Some _ => False
      end
  end ->
  updatePluginEntry d index updates = Done (d, false) /\
  removePluginEntry d index = Done (d, false).
Proof.
  unfold updatePluginEntry, removePluginEntry, pluginsOf.
  destruct (readPluginsJson d) as [json|]; [|done].
  destruct (getProp "plugins" json) as [[ | | | |l| ]|]; try done.
  simpl. destruct (at_ l index) as [entry|]; [|done].
  by intros ->.
Qed.

Lemma plugin_entry_bounds_witness :
  updatePluginEntry pluginProject 3 [("enabled", VBool false)]
    = Done (pluginProject, false) /\
  removePluginEntry pluginProject 3 = Done (pluginProject, false).
Proof.
  apply (plugin_entry_bounds pluginProject 3 [("enabled", VBool false)]).
  exact I.
Defined.

(** `removePluginEntry` at an index that holds an entry: that entry is
    taken out, the entries before it stay where they are, the entries
    after it move up by one, every other top-level section is as
    before, and `true` is returned. *)
Theorem removePluginEntry_removes_one_entry
    (d : fs) (json : object) (l : list value) (index : Z) (entry : value) :
  readPluginsJson d = Some json ->
  getProp "plugins" json = Some (VArr l) ->
  at_ l index = Some entry ->
  truthy entry = true ->
  exists d' l',
    removePluginEntry d index = Done (d', true) /\
    readPluginsJson d' ≫= getProp "plugins" = Some (VArr l') /\
    Z.of_nat (length l') = Z.of_nat (length l) - 1 /\
    (forall j, j < index -> at_ l' j = at_ l j) /\
    (forall j, index <= j -> at_ l' j = at_ l (j + 1)) /\
    (forall top, top <> "plugins" -> top <> "$schema" ->
                 readPluginsJson d' ≫= getProp top = getProp top json).
Proof.
  intros Hjson Hplugins Hat Htruthy.
  pose proof (at_Some_range _ _ _ Hat) as Hrange.
  eexists _, (delete (Z.to_nat index) l).
  split.
  { unfold removePluginEntry, pluginsOf. rewrite Hjson, Hplugins. simpl.
    rewrite Hat, Htruthy. simpl. reflexivity. }
  split; [apply written_plugins|].
  split.
  { rewrite length_delete; [lia|]. apply lookup_lt_is_Some. lia. }
  split.
  { intros j Hj. unfold at_. destruct (Z.ltb_spec j 0); [done|].
    apply list_lookup_delete_lt. lia. }
  split.
  { intros j Hj. unfold at_.
    destruct (Z.ltb_spec j 0); [lia|]. destruct (Z.ltb_spec (j + 1) 0); [lia|].
    rewrite list_lookup_delete_ge by lia. f_equal. lia. }
  intros top Ht Hs. by apply written_other.
Qed.

Lemma removePluginEntry_removes_one_entry_witness :
  exists d' l',
    removePluginEntry pluginProject 0 = Done (d', true) /\
    readPluginsJson d' ≫= getProp "plugins" = Some (VArr l') /\
    Z.of_nat (length l') = Z.of_nat (length pluginEntries) - 1 /\
    (forall j, j < 0 -> at_ l' j = at_ pluginEntries j) /\
    (forall j, 0 <= j -> at_ l' j = at_ pluginEntries (j + 1)) /\
    (forall top, top <> "plugins" -> top <> "$schema" ->
                 readPluginsJson d' ≫= getProp top = getProp top pluginDocument).
Proof.
  apply (removePluginEntry_removes_one_entry pluginProject pluginDocument
           pluginEntries 0 (VObj explorerEntry)); reflexivity.
Defined.

(** `addPluginEntry`: the entry goes to the end of the plugin list,
    with the entries that were there before it in their places (a
    document without a plugin list gets one holding the entry alone),
    every other top-level section is as before, and `true` is
    returned. *)
Theorem addPluginEntry_appends
    (d : fs) (json : object) (l : list value) (entry : object) :
  readPluginsJson d = Some json ->
  (getProp "plugins" json = Some (VArr l) \/
   (l = [] /\ match getProp "plugins" json with
              | Some v => truthy v = false
              | None => True
              end)) ->
  exists d',
    addPluginEntry d entry = Done (d', true) /\
    readPluginsJson d' ≫= getProp "plugins" = Some (VArr (l ++ [VObj entry])) /\
    (forall top, top <> "plugins" -> top <> "$schema" ->
                 readPluginsJson d' ≫= getProp top = getProp top json).
Proof.
  intros Hjson Hplugins.
  assert (Hrun : addPluginEntry d entry
                 = Done (writePluginsJson d
                           (setProp "plugins" (VArr (l ++ [VObj entry])) json),
                         true)).
  { unfold addPluginEntry. rewrite Hjson.
    destruct Hplugins as [->|[-> Hfalsy]]; [done|].
    destruct (getProp "plugins" json) as [v|]; [|done].
    by rewrite Hfalsy. }
  eexists. split; [exact Hrun|].
  split; [apply written_plugins|].
  intros top Ht Hs. by apply written_other.
Qed.

Lemma addPluginEntry_appends_witness :
  exists d',
    addPluginEntry pluginProject [("source", VStr "github:quartz-community/toc")]
      = Done (d', true) /\
    readPluginsJson d' ≫= getProp "plugins"
      = Some (VArr (pluginEntries
                      ++ [VObj [("source", VStr "github:quartz-community/toc")]])) /\
    (forall top, top <> "plugins" -> top <> "$schema" ->
                 readPluginsJson d' ≫= getProp top = getProp top pluginDocument).
Proof.
  apply (addPluginEntry_appends pluginProject pluginDocument pluginEntries).
  - reflexivity.
  - left. reflexivity.
Defined.

Lemma moveItem_in_range (l : list value) (fromIndex toIndex : Z) moved :
  at_ l fromIndex = Some moved ->
  0 <= toIndex ->
  let i := Z.to_nat fromIndex in
  let j := Z.to_nat (Z.min toIndex (Z.of_nat (length l) - 1)) in
  moveItem fromIndex toIndex l
  = Done (take j (delete i l) ++ moved :: drop j (delete i l)).
Proof.
  intros Hat Hto. pose proof (at_Some_range _ _ _ Hat) as Hrange.
  unfold at_ in Hat. destruct (Z.ltb_spec fromIndex 0); [lia|].
  simpl. unfold moveItem, spliceStart.
  destruct (Z.ltb_spec fromIndex 0); [lia|].
  rewrite Z.min_l by lia. rewrite Hat.
  destruct (Z.ltb_spec toIndex 0); [lia|].
  rewrite length_delete by (apply lookup_lt_is_Some; lia).
  replace (Z.of_nat (length l - 1)) with (Z.of_nat (length l) - 1) by lia.
  done.
Qed.

(** `reorderPlugin(from, to)` with `from` inside the list and `to` at
    or above 0: the entry at `from` ends at `to` (at the last place
    when `to` is beyond it), the other entries keep their order, no
    entry is lost or added, every other top-level section is as
    before, and `true` is returned.  Moving an entry to its own place
    changes nothing. *)
Theorem reorderPlugin_moves_one_entry
    (d : fs) (json : object) (l : list value) (fromIndex toIndex : Z)
    (moved : value) :
  readPluginsJson d = Some json ->
  getProp "plugins" json = Some (VArr l) ->
  at_ l fromIndex = Some moved ->
  0 <= toIndex ->
  let target := Z.min toIndex (Z.of_nat (length l) - 1) in
  exists d' l',
    reorderPlugin d fromIndex toIndex = Done (d', true) /\
    readPluginsJson d' ≫= getProp "plugins" = Some (VArr l') /\
    at_ l' target = Some moved /\
    delete (Z.to_nat target) l' = delete (Z.to_nat fromIndex) l /\
    l' ≡ₚ l /\
    (toIndex = fromIndex -> l' = l) /\
    (forall top, top <> "plugins" -> top <> "$schema" ->
                 readPluginsJson d' ≫= getProp top = getProp top json).
Proof.
  intros Hjson Hplugins Hat Hto target.
  pose proof (at_Some_range _ _ _ Hat) as Hrange.
  pose proof (moveItem_in_range l fromIndex toIndex moved Hat Hto) as Hmove.
  simpl in Hmove. fold target in Hmove.
  set (i := Z.to_nat fromIndex) in *. set (j := Z.to_nat target) in *.
  set (rest := delete i l) in *.
  assert (Hi : l !! i = Some moved).
  { unfold at_ in Hat. by destruct (Z.ltb_spec fromIndex 0); [lia|]. }
  assert (Hlen : length rest = (length l - 1)%nat).
  { apply length_delete. by rewrite Hi. }
  assert (Hj : (j <= length rest)%nat) by (unfold j, target; lia).
  assert (Htake : length (take j rest) = j) by (rewrite length_take; lia).
  eexists _, (take j rest ++ moved :: drop j rest).
  split.
  { unfold reorderPlugin, pluginsOf. rewrite Hjson, Hplugins. simpl.
    rewrite Hmove. simpl. reflexivity. }
  split; [apply written_plugins|].
  split.
  { unfold at_. destruct (Z.ltb_spec target 0); [unfold target in *; lia|].
    fold j. by apply list_lookup_middle. }
  split.
  { rewrite delete_take_drop.
    rewrite take_app_length' by done.
    replace (S j) with (length (take j rest) + 1)%nat by lia.
    rewrite drop_app_add. simpl. rewrite drop_0. apply take_drop. }
  split.
  { rewrite <- Permutation_middle, take_drop.
    unfold rest. rewrite delete_take_drop.
    rewrite <- (take_drop_middle l i moved Hi) at 3.
    by rewrite <- Permutation_middle. }
  split.
  { intros ->. assert (j = i) as -> by (unfold j, i, target; lia).
    unfold rest. rewrite delete_take_drop.
    rewrite take_app_length' by (rewrite length_take; lia).
    rewrite drop_app_length' by (rewrite length_take; lia).
    by apply take_drop_middle. }
  intros top Ht Hs. by apply written_other.
Qed.

Lemma reorderPlugin_moves_one_entry_witness :
  exists d' l',
    reorderPlugin pluginProject 0 2 = Done (d', true) /\
    readPluginsJson d' ≫= getProp "plugins" = Some (VArr l') /\
    at_ l' (Z.min 2 (Z.of_nat (length pluginEntries) - 1))
      = Some (VObj explorerEntry) /\
    delete (Z.to_nat (Z.min 2 (Z.of_nat (length pluginEntries) - 1))) l'
      = delete (Z.to_nat 0) pluginEntries /\
    l' ≡ₚ pluginEntries /\
    (2 = 0 -> l' = pluginEntries) /\
    (forall top, top <> "plugins" -> top <> "$schema" ->
                 readPluginsJson d' ≫= getProp top = getProp top pluginDocument).
Proof.
  apply (reorderPlugin_moves_one_entry pluginProject pluginDocument
           pluginEntries 0 2 (VObj explorerEntry)); (reflexivity || lia).
Defined.

End ConfigOpsFacts.

(** ** The application shell and the first run *)

Module AppShellFacts.
Import Config SetupWizard ConfigFacts App AppShell.

Lemma withoutSchema_idem data :
  withoutSchema (withoutSchema data) = withoutSchema data.
Proof.
  unfold withoutSchema. induction data as [|[k v] rest IH]; [done|].
  rewrite filter_cons. simpl.
  destruct (negb (String.eqb k "$schema")) eqn:Hk; simpl; [|exact IH].
  rewrite filter_cons. simpl. rewrite Hk. simpl. by rewrite IH.
Qed.

(** Whichever of the offered choices is taken in the setup wizard, the
    wizard completes and a configuration exists afterwards: the
    document read back has no `$schema` key; for "empty" it is the
    baseline document, for "default" the default document less its
    `$schema`; and the default document itself reads as before.  With
    no option selected nothing happens. *)
Theorem wizard_completes (d : fs) (c : choiceItem) :
  c ∈ choices d ->
  onSelect d None = (d, false) /\
  exists d' doc,
    onSelect d (Some (key c)) = (d', true) /\
    configExists d' = true /\
    readPluginsJson d' = Some doc /\
    getProp "$schema" doc = None /\
    match key c with
    | ChoiceEmpty => doc = minimal
    | ChoiceDefault =>
        exists defaultData,
          readDefaultPluginsJson d = Some defaultData /\
          doc = withoutSchema defaultData
    end /\
    readDefaultPluginsJson d' = readDefaultPluginsJson d.
Proof.
  intros Hc. split; [done|].
  assert (Hdefault : forall x, readDefaultPluginsJson (writePluginsJson d x)
                               = readDefaultPluginsJson d).
  { intros x.
    unfold readDefaultPluginsJson, resolveDefaultConfigPath, existsSync. simpl.
    by destruct (defaultConfigYaml d), (legacyDefaultPluginsJson d). }
  unfold choices in Hc.
  destruct (readDefaultPluginsJson d) as [defaultData|] eqn:Hdef.
  - apply elem_of_cons in Hc as [->|Hc].
    + simpl. unfold createConfigFromDefault. rewrite Hdef. simpl.
      eexists _, _. split; [reflexivity|]. split; [done|].
      split; [reflexivity|]. split; [apply withoutSchema_schema|].
      split; [exists defaultData; by rewrite withoutSchema_idem|].
      by rewrite Hdefault.
    + apply list_elem_of_singleton in Hc as ->. simpl.
      eexists _, _. split; [reflexivity|]. split; [done|].
      split; [reflexivity|]. split; [done|]. split; [done|].
      by rewrite Hdefault.
  - apply list_elem_of_singleton in Hc as ->. simpl.
    eexists _, _. split; [reflexivity|]. split; [done|].
    split; [reflexivity|]. split; [done|]. split; [done|].
    by rewrite Hdefault.
Qed.

Lemma wizard_completes_witness :
  onSelect Sample.emptyProject None = (Sample.emptyProject, false) /\
  exists d' doc,
    onSelect Sample.emptyProject (Some ChoiceEmpty) = (d', true) /\
    configExists d' = true /\
    readPluginsJson d' = Some doc /\
    getProp "$schema" doc = None /\
    doc = minimal /\
    readDefaultPluginsJson d' = readDefaultPluginsJson Sample.emptyProject.
Proof.
  apply (wizard_completes Sample.emptyProject
           {| key := ChoiceEmpty;
              label := "Start with empty configuration";
              description := "Create a minimal config with no plugins" |}).
  apply list_elem_of_singleton. reflexivity.
Defined.

Lemma onKeyTab_idle name shift s :
  hasConfig s = false \/ panelFocused s = true -> onKeyTab name shift s = s.
Proof.
  unfold onKeyTab. intros [->| ->]; [done|]. by rewrite orb_true_r.
Qed.

Lemma onKeyQuit_idle name s :
  hasConfig s = false \/ panelFocused s = true -> onKeyQuit name s = s.
Proof.
  unfold onKeyQuit. intros [->| ->]; [by rewrite orb_true_r|done].
Qed.

(** While a panel holds the focus, or while there is no configuration,
    no key reaches the shell: the tab stays, and `q` does not leave the
    program.  Otherwise Tab and Shift+Tab walk the three tabs round in
    opposite directions: each undoes the other, and three of either
    come back to the tab they started from. *)
Theorem tab_keys (s : state) :
  exited s = false ->
  (hasConfig s = false \/ panelFocused s = true ->
   forall name shift, step (Key name shift) s = s) /\
  (hasConfig s = true -> panelFocused s = false ->
   exited (step (Key "q" false) s) = true /\
   step (Key "tab" true) (step (Key "tab" false) s) = s /\
   step (Key "tab" false) (step (Key "tab" true) s) = s /\
   step (Key "tab" false)
     (step (Key "tab" false) (step (Key "tab" false) s)) = s /\
   step (Key "tab" true)
     (step (Key "tab" true) (step (Key "tab" true) s)) = s /\
   activeTab (step (Key "tab" false) s) <> activeTab s).
Proof.
  intros Hex. split.
  - intros Hidle name shift. unfold step. rewrite Hex.
    rewrite (onKeyQuit_idle name s Hidle), Hex.
    by apply onKeyTab_idle.
  - intros Hcfg Hfocus.
    destruct s as [hc tab note pf tm ex]. simpl in *. subst.
    by destruct tab.
Qed.

Lemma tab_keys_witness :
  (hasConfig (mount Examples.pluginProject) = false \/
   panelFocused (mount Examples.pluginProject) = true ->
   forall name shift,
     step (Key name shift) (mount Examples.pluginProject)
     = mount Examples.pluginProject) /\
  (hasConfig (mount Examples.pluginProject) = true ->
   panelFocused (mount Examples.pluginProject) = false ->
   exited (step (Key "q" false) (mount Examples.pluginProject)) = true /\
   step (Key "tab" true) (step (Key "tab" false) (mount Examples.pluginProject))
     = mount Examples.pluginProject /\
   step (Key "tab" false) (step (Key "tab" true) (mount Examples.pluginProject))
     = mount Examples.pluginProject /\
   step (Key "tab" false)
     (step (Key "tab" false)
        (step (Key "tab" false) (mount Examples.pluginProject)))
     = mount Examples.pluginProject /\
   step (Key "tab" true)
     (step (Key "tab" true)
        (step (Key "tab" true) (mount Examples.pluginProject)))
     = mount Examples.pluginProject /\
   activeTab (step (Key "tab" false) (mount Examples.pluginProject))
     <> activeTab (mount Examples.pluginProject)).
Proof.
  apply (tab_keys (mount Examples.pluginProject)). reflexivity.
Defined.

(** A notification on screen always has a timer pending that will clear
    it: in every state the shell can reach, a notification is shown
    only while at least one of the timers started by `notify` has not
    fired yet.  (The timer that clears it need not be its own: each
    timer clears whatever notification is shown when it fires.) *)
Theorem notification_has_timer (d : fs) (s : state) :
  reachable d s ->
  (is_Some (notification s) -> (0 < timers s)%nat) /\
  forall msg t,
    hasConfig s = true -> exited s = false ->
    notification (step TimerFires (step (PanelNotify msg t) s)) = None.
Proof.
  intros Hreach. split.
  - induction Hreach as [|s e _ IH]; [by intros [? ?]|].
    unfold step. destruct (exited s); [done|].
    destruct e as [name shift| |msg t|f|]; simpl.
    + destruct (exited (onKeyQuit name s)) eqn:Hq.
      * unfold onKeyQuit in *.
        destruct (panelFocused s || negb (hasConfig s)); [done|].
        by destruct (negb (String.eqb name "q")).
      * unfold onKeyTab.
        destruct (negb (hasConfig s) || panelFocused s); [done|].
        destruct (negb (String.eqb name "tab")); [done|].
        by destruct (at_ TABS _).
    + destruct (hasConfig s); [done|]. simpl. lia.
    + destruct (hasConfig s); [|done]. simpl. lia.
    + by destruct (hasConfig s).
    + destruct (timers s) eqn:Ht; [by rewrite Ht|]. simpl. by intros [? ?].
  - intros msg t Hcfg Hex. unfold step. rewrite Hex, Hcfg. simpl.
    by rewrite Hex.
Qed.

Lemma notification_has_timer_witness :
  let s := step (PanelNotify "Saved" Success) (mount Examples.pluginProject) in
  (is_Some (notification s) -> (0 < timers s)%nat) /\
  forall msg t,
    hasConfig s = true -> exited s = false ->
    notification (step TimerFires (step (PanelNotify msg t) s)) = None.
Proof.
  intros s. apply (notification_has_timer Examples.pluginProject s).
  apply reach_step. apply reach_mount.
Defined.

End AppShellFacts.

(** ** The Settings panel: the document in memory and the edit session *)

Module SettingsSessionFacts.
Import Config Settings App SettingsPanel PanelSpec.

Lemma updateGlobalConfig_default d key v :
  readDefaultPluginsJson (updateGlobalConfig d key v).1
  = readDefaultPluginsJson d.
Proof.
  unfold updateGlobalConfig. destruct (readPluginsJson d); [|done]. simpl.
  unfold readDefaultPluginsJson, resolveDefaultConfigPath, existsSync. simpl.
  by destruct (defaultConfigYaml d), (legacyDefaultPluginsJson d).
Qed.

(** A handler either leaves the files and the configuration in memory
    alone, or ends with `updateField`, which reads the configuration
    back from the file it wrote. *)
Lemma applyValue_store keyPath v exitAfterSave s s' :
  applyValue keyPath v exitAfterSave s = Done s' ->
  defaultConfig s' = defaultConfig s /\
  readDefaultPluginsJson (files s') = readDefaultPluginsJson (files s) /\
  ((files s' = files s /\ config s' = config s) \/
   config s' = getGlobalConfig (files s')).
Proof.
  unfold applyValue. destruct (config s) as [cfg|] eqn:Hcfg;
    [|intros [= <-]; split; [done|]; split; [done|]; by left].
  intros H. apply bind_Done in H as (s1 & H1 & H2).
  assert (Hs1 : defaultConfig s1 = defaultConfig s /\
                readDefaultPluginsJson (files s1)
                  = readDefaultPluginsJson (files s) /\
                ((files s1 = files s /\ config s1 = config s) \/
                 config s1 = getGlobalConfig (files s1))).
  { assert (Hupd : forall key top,
              defaultConfig (updateField key top s) = defaultConfig s /\
              readDefaultPluginsJson (files (updateField key top s))
                = readDefaultPluginsJson (files s) /\
              ((files (updateField key top s) = files s /\
                config (updateField key top s) = config s) \/
               config (updateField key top s)
                 = getGlobalConfig (files (updateField key top s)))).
    { intros key top. split; [done|].
      split; [apply updateGlobalConfig_default | by right]. }
    assert (Hnested : forall kp,
              bind (setNestedValue (VObj cfg) kp v)
                (fun fullConfig =>
                   match read (hd "undefined" kp) (Val fullConfig) with
                   | Val top => Done (updateField (hd "undefined" kp) top s)
                   | _ => OffModel
                   end) = Done s1 ->
              defaultConfig s1 = defaultConfig s /\
              readDefaultPluginsJson (files s1)
                = readDefaultPluginsJson (files s) /\
              ((files s1 = files s /\ config s1 = config s) \/
               config s1 = getGlobalConfig (files s1))).
    { intros kp H. apply bind_Done in H as (full & _ & H).
      destruct (read _ (Val full)); try done. injection H as <-. apply Hupd. }
    destruct keyPath as [|k [|k' rest]].
    - by apply (Hnested []).
    - injection H1 as <-. apply Hupd.
    - by apply (Hnested (k :: k' :: rest)). }
  injection H2 as <-. rewrite Hcfg in Hs1. by destruct exitAfterSave.
Qed.

Lemma restoreDefault_store s s' :
  restoreDefault s = Done s' ->
  defaultConfig s' = defaultConfig s /\
  readDefaultPluginsJson (files s') = readDefaultPluginsJson (files s) /\
  ((files s' = files s /\ config s' = config s) \/
   config s' = getGlobalConfig (files s')).
Proof.
  unfold restoreDefault.
  destruct (at_ (visibleEntries s) (highlightedIndex s)) as [entry|];
    [|intros [= <-]; split; [done|]; split; [done|]; by left].
  destruct (getDefaultSettingValue (defaultConfig s) (keyPath entry))
    as [defaultValue| | | |];
    try (intros [= <-]; split; [done|]; split; [done|]; by left);
    match goal with
    | |- context [deepEqual ?a ?b] =>
        destruct (deepEqual a b);
        [intros [= <-]; split; [done|]; split; [done|]; by left|]
    end; try done.
  intros H. apply bind_Done in H as (s1 & H & [= <-]).
  by apply applyValue_store in H.
Qed.

Section Session.

Variable JSON_parse : string -> option value.

Lemma handle_store e s s' :
  handle JSON_parse e s = Done s' ->
  defaultConfig s' = defaultConfig s /\
  readDefaultPluginsJson (files s') = readDefaultPluginsJson (files s) /\
  ((files s' = files s /\ config s' = config s) \/
   config s' = getGlobalConfig (files s')).
Proof.
  assert (Hsame : forall t : state,
            defaultConfig t = defaultConfig s -> files t = files s ->
            config t = config s ->
            defaultConfig t = defaultConfig s /\
            readDefaultPluginsJson (files t) = readDefaultPluginsJson (files s) /\
            ((files t = files s /\ config t = config s) \/
             config t = getGlobalConfig (files t))).
  { intros t H1 H2 H3. split; [done|]. rewrite H2. split; [done|]. by left. }
  assert (Hescape : forall name,
            (if String.eqb name "escape" then Done (exitEdit s) else Done s)
              = Done s' ->
            defaultConfig s' = defaultConfig s /\
            readDefaultPluginsJson (files s') = readDefaultPluginsJson (files s) /\
            ((files s' = files s /\ config s' = config s) \/
             config s' = getGlobalConfig (files s'))).
  { intros name H.
    destruct (String.eqb name "escape"); injection H as <-; by apply Hsame. }
  unfold handle. destruct e as [name shift | text | text | text | v].
  - destruct (view s).
    + unfold onKeyList.
      destruct (Z.of_nat (length (visibleEntries s)) =? 0);
        [intros [= <-]; by apply Hsame|].
      destruct (String.eqb name "up"); [intros [= <-]; by apply Hsame|].
      destruct (String.eqb name "down"); [intros [= <-]; by apply Hsame|].
      destruct (String.eqb name "return").
      { destruct (at_ (visibleEntries s) (highlightedIndex s)) as [entry|];
          [|intros [= <-]; by apply Hsame].
        destruct (isObject entry); intros [= <-]; [by apply Hsame|].
        unfold enterEdit.
        destruct (type (getFieldSchema (keyPath entry))); by apply Hsame. }
      destruct (String.eqb name "d" && shift);
        [apply restoreDefault_store | intros [= <-]; by apply Hsame].
    + apply Hescape.
    + destruct (editingEntry s); [apply Hescape | intros [= <-]; by apply Hsame].
    + destruct (editingEntry s); [apply Hescape | intros [= <-]; by apply Hsame].
    + unfold onKeyArray.
      destruct (editingEntry s) as [entry|]; [|intros [= <-]; by apply Hsame].
      destruct (addingArrayItem s || _).
      { destruct (String.eqb name "escape"); intros [= <-]; by apply Hsame. }
      destruct (String.eqb name "escape"); [intros [= <-]; by apply Hsame|].
      destruct (String.eqb name "up" && _ && negb shift);
        [intros [= <-]; by apply Hsame|].
      destruct (String.eqb name "down" && _ && negb shift);
        [intros [= <-]; by apply Hsame|].
      destruct (String.eqb name "n"); [intros [= <-]; by apply Hsame|].
      destruct (String.eqb name "return" && _); [intros [= <-]; by apply Hsame|].
      destruct (String.eqb name "x" && _).
      { intros H. by apply applyValue_store in H. }
      destruct (String.eqb name "up" && shift && _).
      { intros H. apply bind_Done in H as (nextItems & _ & H).
        by apply applyValue_store in H. }
      destruct (String.eqb name "down" && shift && _);
        [|intros [= <-]; by apply Hsame].
      intros H. apply bind_Done in H as (nextItems & _ & H).
      by apply applyValue_store in H.
    + apply Hescape.
  - destruct (view s); try (intros [= <-]; by apply Hsame).
    unfold submitString.
    destruct (editingEntry s); [apply applyValue_store|].
    intros [= <-]; by apply Hsame.
  - destruct (view s); try (intros [= <-]; by apply Hsame).
    unfold submitColor.
    destruct (editingEntry s) as [entry|]; [|intros [= <-]; by apply Hsame].
    destruct (negb (isValidColorValue (Str.trim text)));
      [intros [= <-]; by apply Hsame|].
    intros H. by apply applyValue_store in H.
  - destruct (view s); try (intros [= <-]; by apply Hsame).
    unfold submitArrayItem.
    destruct (editingEntry s) as [entry|]; [|intros [= <-]; by apply Hsame].
    destruct (String.eqb (Str.trim text) ""); [intros [= <-]; by apply Hsame|].
    destruct (editingArrayItemIndex s) as [index|].
    + intros H. apply bind_Done in H as (nextItems & _ & H).
      apply bind_Done in H as (s1 & H & [= <-]).
      by apply applyValue_store in H.
    + intros H. apply bind_Done in H as (s1 & H & [= <-]).
      by apply applyValue_store in H.
  - destruct (view s); try (intros [= <-]; by apply Hsame).
    all: destruct (editingEntry s);
      [apply applyValue_store | intros [= <-]; by apply Hsame].
Qed.

Lemma effects_store prev s :
  files (effects prev s) = files s /\
  config (effects prev s) = config s /\
  defaultConfig (effects prev s) = defaultConfig s.
Proof.
  unfold effects, clampEffect, editingEffect.
  destruct (editingEntry s) as [entry|].
  - destruct (editingEffectRuns prev s).
    + destruct (type (getFieldSchema (keyPath entry)));
        by match goal with |- context [if ?b then _ else _] => destruct b end.
    + by match goal with |- context [if ?b then _ else _] => destruct b end.
  - by match goal with |- context [if ?b then _ else _] => destruct b end.
Qed.

Lemma reachable_synced (d : fs) (s : state) :
  reachable JSON_parse d s ->
  config s = getGlobalConfig (files s) /\
  defaultConfig s = configurationOf (readDefaultPluginsJson d) /\
  readDefaultPluginsJson (files s) = readDefaultPluginsJson d.
Proof.
  induction 1 as [|s e s' _ (IH1 & IH2 & IH3) Hstep].
  - destruct (effects_store None (mount d)) as (-> & -> & ->). done.
  - unfold step in Hstep. apply bind_Done in Hstep as (s1 & Hhandle & [= <-]).
    destruct (effects_store (Some s) s1) as (-> & -> & ->).
    apply handle_store in Hhandle as (Hd & Hr & Hc).
    rewrite Hd, Hr. split; [|done].
    destruct Hc as [[-> ->]|Hc]; done.
Qed.









End Session.

End SettingsSessionFacts.

(** ** The Settings panel: the flattened tree *)

Module SettingsEntriesFacts.
Import Config Settings Spec App SettingsPanel PathFacts DeepEqualFacts.
Import CommitFacts SettingsFrame RestoreFacts PanelSpec.

Lemma flattenValue_nil prefix depth : flattenValue (VObj []) prefix depth = [].
Proof. reflexivity. Qed.

Lemma flattenValue_cons key value rest prefix depth :
  flattenValue (VObj ((key, value) :: rest)) prefix depth
  = (if isPlainObject value
     then {| keyPath := prefix ++ [key]; displayKey := key;
             entryValue := value; depth := depth; isObject := true |}
          :: flattenValue value (prefix ++ [key]) (S depth)
     else [ {| keyPath := prefix ++ [key]; displayKey := key;
               entryValue := value; depth := depth; isObject := false |} ])
    ++ flattenValue (VObj rest) prefix depth.
Proof. reflexivity. Qed.

Lemma wf_member (props : object) k x :
  wf (VObj props) -> (k, x) ∈ props -> wf x.
Proof.
  intros Hwf Hin. apply wf_obj in Hwf as [_ Hall].
  rewrite Forall_forall in Hall. by apply (Hall (k, x)).
Qed.

Lemma Storable_own (obj : object) k v :
  getProp k obj = Some v -> Storable k (VObj obj).
Proof.
  intros Hget _. apply hasKey_true, getProp_is_Some. eauto.
Qed.

Lemma PathClear_cons (obj child : object) k rest :
  rest <> [] -> getProp k obj = Some (VObj child) ->
  PathClear (VObj child) rest -> PathClear (VObj obj) (k :: rest).
Proof.
  intros Hne Hget Hclear. destruct rest as [|k' rest]; [done|].
  split; [by apply (Storable_own obj k (VObj child))|].
  cbn [read]. by rewrite (readProp_own _ _ _ Hget).
Qed.

(** Where an entry of the flattened tree sits in the tree. *)
Lemma flattenValue_spec v :
  forall prefix depth0 e,
    wf v ->
    e ∈ flattenValue v prefix depth0 ->
    exists obj path,
      v = VObj obj /\ path <> [] /\
      keyPath e = prefix ++ path /\
      walk (Val v) path = Val (entryValue e) /\
      PathClear (VObj obj) path /\
      depth e = (depth0 + length path - 1)%nat /\
      last path = Some (displayKey e) /\
      isObject e = isPlainObject (entryValue e) /\
      wf (entryValue e).
Proof.
  induction v as [ | | | | |props IH] using value_ind;
    intros prefix depth0 e Hwf Hin; try by apply elem_of_nil in Hin.
  exists props.
  assert (Hsub : forall l,
            (forall kv, kv ∈ l -> kv ∈ props) ->
            e ∈ flattenValue (VObj l) prefix depth0 ->
            exists path,
              path <> [] /\
              keyPath e = prefix ++ path /\
              walk (Val (VObj props)) path = Val (entryValue e) /\
              PathClear (VObj props) path /\
              depth e = (depth0 + length path - 1)%nat /\
              last path = Some (displayKey e) /\
              isObject e = isPlainObject (entryValue e) /\
              wf (entryValue e)).
  { induction l as [|[key value] rest IHl]; intros Hl He;
      [by apply elem_of_nil in He|].
    rewrite flattenValue_cons in He.
    assert (Hkv : (key, value) ∈ props) by (apply Hl; left).
    assert (Hget : getProp key props = Some value).
    { apply getProp_elem; [|done]. by apply wf_obj in Hwf as [? _]. }
    assert (Hwv : wf value) by (by apply (wf_member props key)).
    apply elem_of_app in He as [He|He].
    - destruct (isPlainObject value) eqn:Hplain.
      + apply elem_of_cons in He as [->|He].
        * exists [key]. simpl. rewrite (readProp_own _ _ _ Hget), Hplain.
          repeat split; try (done || lia).
          by apply (Storable_own props key value).
        * rewrite Forall_forall in IH.
          destruct (IH (key, value) Hkv (prefix ++ [key]) (S depth0) e Hwv He)
            as (child & path & Hv & Hne & Hkp & Hwalk & Hclear & Hd & Hlast
                & Hobj & Hwe).
          simpl in Hv, Hwalk. exists (key :: path).
          split; [done|]. split; [by rewrite Hkp, <- app_assoc|].
          split; [by rewrite walk_obj_cons, (readProp_own _ _ _ Hget)|].
          split; [rewrite Hv in Hget; by apply (PathClear_cons _ child)|].
          split; [simpl; lia|].
          split; [|done].
          destruct path; [done|]. by rewrite last_cons_cons.
      + apply list_elem_of_singleton in He as ->.
        exists [key]. simpl. rewrite (readProp_own _ _ _ Hget), Hplain.
        repeat split; try (done || lia).
        by apply (Storable_own props key value).
    - apply IHl; [|done]. intros kv Hk. apply Hl. by right. }
  destruct (Hsub props (fun kv H => H) Hin) as (path & H).
  exists path. split; [done|]. exact H.
Qed.

(** Every entry of the flattened tree is found again under its key
    path: in a configuration that holds each key once, the lookup that
    the panel uses for defaults, given an entry's key path, returns that
    entry's value; the path is not empty, its last key is the key
    displayed, the depth is its length less one, and the entry counts
    as an object exactly when its value is a plain object.  So in a
    configuration compared with itself every entry is at its default. *)
Theorem flattenConfig_lookup (cfg : object) (e : FlatEntry) :
  wf (VObj cfg) ->
  e ∈ flattenConfig cfg ->
  keyPath e <> [] /\
  getDefaultSettingValue (Some cfg) (keyPath e) = Val (entryValue e) /\
  depth e = (length (keyPath e) - 1)%nat /\
  last (keyPath e) = Some (displayKey e) /\
  isObject e = isPlainObject (entryValue e) /\
  deepEqual (entryValue e) (getDefaultSettingValue (Some cfg) (keyPath e))
    = true.
Proof.
  intros Hwf He.
  destruct (flattenValue_spec (VObj cfg) [] 0%nat e Hwf He)
    as (obj & path & _ & Hne & Hkp & Hwalk & _ & Hd & Hlast & Hobj & Hwe).
  simpl in Hkp. rewrite Hkp. unfold getDefaultSettingValue. rewrite Hwalk.
  repeat split; try done.
  by apply deepEqual_refl.
Qed.

Lemma wf_baselineConfiguration : wf (VObj baselineConfiguration).
Proof.
  cbn. repeat split; try (apply (bool_decide_unpack _); exact I).
Defined.

Lemma flattenConfig_lookup_witness :
  let e := {| keyPath := ["theme"; "typography"; "body"]; displayKey := "body";
              entryValue := VStr "Source Sans Pro"; depth := 2%nat;
              isObject := false |} in
  keyPath e <> [] /\
  getDefaultSettingValue (Some baselineConfiguration) (keyPath e)
    = Val (entryValue e) /\
  depth e = (length (keyPath e) - 1)%nat /\
  last (keyPath e) = Some (displayKey e) /\
  isObject e = isPlainObject (entryValue e) /\
  deepEqual (entryValue e)
    (getDefaultSettingValue (Some baselineConfiguration) (keyPath e)) = true.
Proof.
  apply (flattenConfig_lookup baselineConfiguration
           {| keyPath := ["theme"; "typography"; "body"]; displayKey := "body";
              entryValue := VStr "Source Sans Pro"; depth := 2%nat;
              isObject := false |}).
  - exact wf_baselineConfiguration.
  - unfold flattenConfig, baselineConfiguration. simpl.
    repeat first [apply list_elem_of_here | apply list_elem_of_further].
Defined.

(** ** Commits *)

(** What `applyValue` writes: on a panel whose configuration is the one
    in the file, and for a key path whose intermediate segments hold
    neither `null` nor an array, the value is found under the key path
    afterwards, in memory and in the file. *)
Lemma applyValue_writes (s : state) (cfg json : object) keyPath v exitAfterSave :
  config s = Some cfg ->
  readPluginsJson (files s) = Some json ->
  getProp "configuration" json = Some (VObj cfg) ->
  keyPath <> [] -> PathClear (VObj cfg) keyPath ->
  exists s1,
    applyValue keyPath v exitAfterSave s
      = Done (if exitAfterSave
              then exitEdit (notify ("Set " +:+ Str.join "." keyPath) Success s1)
              else notify ("Set " +:+ Str.join "." keyPath) Success s1) /\
    getDefaultSettingValue (config s1) keyPath = Val v /\
    config s1 = getGlobalConfig (files s1) /\
    defaultConfig s1 = defaultConfig s /\
    view s1 = view s /\ editingEntry s1 = editingEntry s /\
    notices s1 = notices s /\ collapsed s1 = collapsed s /\
    arrayItems s1 = arrayItems s /\
    highlightedArrayIndex s1 = highlightedArrayIndex s /\
    addingArrayItem s1 = addingArrayItem s /\
    editingArrayItemIndex s1 = editingArrayItemIndex s /\
    colorError s1 = colorError s /\ focused s1 = focused s.
Proof.
  intros Hcfg Hjson Hconf Hne Hclear.
  assert (Hupd : forall key top,
            config (updateField key top s) = Some (setProp key top cfg)).
  { intros key top. unfold updateField. simpl.
    rewrite (getGlobalConfig_updated _ _ _ _ Hjson). by rewrite Hconf. }
  unfold applyValue. rewrite Hcfg.
  destruct keyPath as [|k [|k' rest]]; [done| |].
  - exists (updateField k v s). split; [done|]. split.
    { rewrite Hupd. unfold getDefaultSettingValue.
      rewrite walk_obj_cons, (readProp_own _ _ _ (getProp_setProp_eq k v cfg)).
      reflexivity. }
    done.
  - destruct (setNestedValue_walk (k :: k' :: rest) (VObj cfg) v Hne eq_refl
                Hclear) as (node' & Hset & Hwalk & Hmid).
    assert (Hobj : exists obj', node' = VObj obj').
    { specialize (Hmid [] k (k' :: rest) eq_refl). simpl in Hmid.
      destruct Hmid as (n' & [= <-] & Hkept). destruct node'; try done. eauto. }
    destruct Hobj as [obj' ->].
    rewrite Hset. cbn [bind hd].
    rewrite walk_obj_cons in Hwalk.
    cbn [read].
    destruct (Settled_Val _ _ _ _ _ (Hmid [k] k' rest eq_refl)) as [top Htop].
    change (walk (Val (VObj obj')) [k]) with (readProp k obj') in Htop.
    rewrite Htop.
    exists (updateField k top s). split; [done|]. split.
    { rewrite Hupd. unfold getDefaultSettingValue.
      rewrite walk_obj_cons,
        (readProp_own _ _ _ (getProp_setProp_eq k top cfg)).
      by rewrite Htop in Hwalk. }
    done.
Qed.

Lemma effects_rest prev s :
  defaultConfig (effects prev s) = defaultConfig s /\
  colorError (effects prev s) = colorError s /\
  focused (effects prev s) = focused s /\
  addingArrayItem (effects prev s) = addingArrayItem s /\
  editingArrayItemIndex (effects prev s) = editingArrayItemIndex s.
Proof.
  unfold effects, clampEffect, editingEffect.
  destruct (editingEntry s) as [entry|].
  - destruct (editingEffectRuns prev s).
    + destruct (type (getFieldSchema (keyPath entry)));
        by match goal with |- context [if ?b then _ else _] => destruct b end.
    + by match goal with |- context [if ?b then _ else _] => destruct b end.
  - by match goal with |- context [if ?b then _ else _] => destruct b end.
Qed.

Lemma synced_document (s : state) (cfg : object) :
  config s = getGlobalConfig (files s) -> config s = Some cfg ->
  exists json,
    readPluginsJson (files s) = Some json /\
    getProp "configuration" json = Some (VObj cfg).
Proof.
  intros Hsync Hcfg. rewrite Hsync in Hcfg.
  unfold getGlobalConfig, configurationOf in Hcfg.
  destruct (readPluginsJson (files s)) as [json|]; [|done].
  exists json. split; [done|].
  destruct (getProp "configuration" json) as [[ | | | | |c]|]; try done.
  by injection Hcfg as ->.
Qed.

Lemma visible_entry_in_tree (s : state) (cfg : object) i entry :
  config s = Some cfg ->
  at_ (visibleEntries s) i = Some entry -> entry ∈ flattenConfig cfg.
Proof.
  intros Hcfg Hat. unfold at_ in Hat. destruct (i <? 0); [done|].
  apply list_elem_of_lookup_2 in Hat.
  unfold visibleEntries, allEntries in Hat. rewrite Hcfg in Hat.
  by apply list_elem_of_filter in Hat as [_ ?].
Qed.

Section Commits.

Variable JSON_parse : string -> option value.

Lemma lookupPath_wf keyPath :
  forall v dv, wf v -> lookupPath v keyPath = Some dv -> wf dv.
Proof.
  induction keyPath as [|k rest IH]; intros v dv Hwf; simpl.
  - by intros [= <-].
  - destruct v as [ | | | | items | o ]; try done.
    + destruct (arrayIndex k) as [i|]; [|done]. simpl.
      destruct (items !! i) as [child|] eqn:Hi; [|done]. simpl.
      apply IH. by apply (wf_lookup items i).
    + destruct (getProp k o) as [child|] eqn:Hk; [|done]. simpl.
      apply IH. apply (wf_elem o k); [done|]. by apply getProp_Some_elem.
Qed.

(** Shift+D on a field, for a configuration and a default document that
    hold each key once.  Where the default document holds nothing at
    the field's key path, and no segment of the path is a name that
    objects or arrays inherit, nothing is written and the one notice is
    the error "No default available for ...".  Where it holds a value
    that is structurally equal to the field's, nothing is written and
    the one notice is the informational "... is already default".
    Where it holds a value that is not, and no object of the field's
    value has the key `__proto__`, then in a state the panel can reach
    the default is written under the key path, in memory and in the
    file, the field then compares equal to its default, and the notices
    "Set ..." and "Restored ... to default" are produced.  The panel
    shows the list throughout. *)
Theorem restore_default
    (d : fs) (s : state) (cfg : object) (entry : FlatEntry) :
  view s = ViewList ->
  config s = Some cfg ->
  wf (VObj cfg) ->
  (forall dcfg, defaultConfig s = Some dcfg -> wf (VObj dcfg)) ->
  at_ (visibleEntries s) (highlightedIndex s) = Some entry ->
  match defaultAt s (keyPath entry) with
  | None =>
      Forall (fun k => inheritedName k = false) (keyPath entry) ->
      exists s',
        step JSON_parse (Key "d" true) s = Done s' /\
        NoWrite s s'
          {| message := "No default available for "
                        +:+ Str.join "." (keyPath entry);
             noticeType := Error |}
  | Some dv =>
      (DeepEq (entryValue entry) dv ->
       exists s',
         step JSON_parse (Key "d" true) s = Done s' /\
         NoWrite s s'
           {| message := Str.join "." (keyPath entry) +:+ " is already default";
              noticeType := Info |}) /\
      (~ DeepEq (entryValue entry) dv ->
       plainKeys (entryValue entry) ->
       reachable JSON_parse d s ->
       exists s',
         step JSON_parse (Key "d" true) s = Done s' /\
         getDefaultSettingValue (config s') (keyPath entry) = Val dv /\
         config s' = getGlobalConfig (files s') /\
         deepEqual dv (getDefaultSettingValue (defaultConfig s') (keyPath entry))
           = true /\
         notices s'
           = notices s
             ++ [ {| message := "Set " +:+ Str.join "." (keyPath entry);
                     noticeType := Success |};
                  {| message := "Restored " +:+ Str.join "." (keyPath entry)
                                +:+ " to default";
                     noticeType := Success |} ] /\
         view s' = ViewList)
  end.
Proof.
  intros Hview Hcfg Hwf Hwfd Hat.
  pose proof (visible_entry_in_tree s cfg _ entry Hcfg Hat) as Hin.
  destruct (flattenValue_spec (VObj cfg) [] 0%nat entry Hwf Hin)
    as (obj & path & [= <-] & Hne & Hkp & _ & Hclear & _ & _ & _ & Hwe).
  simpl in Hkp. rewrite <- Hkp in Hne, Hclear.
  assert (Hnoop : forall notice,
            match getDefaultSettingValue (defaultConfig s) (keyPath entry) with
            | Undefined =>
                notice = {| message := "No default available for "
                                       +:+ Str.join "." (keyPath entry);
                            noticeType := Error |}
            | found =>
                deepEqual (entryValue entry) found = true /\
                notice = {| message := Str.join "." (keyPath entry)
                                       +:+ " is already default";
                            noticeType := Info |}
            end ->
            exists s', step JSON_parse (Key "d" true) s = Done s' /\
                       NoWrite s s' notice).
  { intros notice Hcase.
    destruct (restoreDefault_noop JSON_parse s entry Hview Hat)
      as (s' & n & Hstep & Hf & Hc & Hv & Hh & Hn & Hnotice).
    { destruct (getDefaultSettingValue (defaultConfig s) (keyPath entry));
        tauto. }
    exists s'. split; [done|]. unfold NoWrite. rewrite Hn, Hnotice.
    repeat split; try done. do 2 f_equal.
    destruct (getDefaultSettingValue (defaultConfig s) (keyPath entry));
      by (destruct Hcase || rewrite Hcase). }
  unfold defaultAt, getDefaultSettingValue in *.
  destruct (defaultConfig s) as [dcfg|] eqn:Hdcfg; simpl;
    [|intros _; by apply Hnoop].
  specialize (Hwfd dcfg eq_refl).
  destruct (lookupPath (VObj dcfg) (keyPath entry)) as [dv|] eqn:Hlook.
  - pose proof (walk_lookupPath _ _ _ Hlook) as Hwalk.
    pose proof (lookupPath_wf _ _ _ Hwfd Hlook) as Hwdv.
    split.
    + intros Heq. apply Hnoop. rewrite Hwalk. split; [|done].
      by apply deepEqual_complete.
    + intros Hdiff Hplain Hreach.
      assert (Hfalse : deepEqual (entryValue entry) (Val dv) = false).
      { destruct (deepEqual (entryValue entry) (Val dv)) eqn:E; [|done].
        exfalso. apply Hdiff. by apply deepEqual_sound. }
      destruct (SettingsSessionFacts.reachable_synced JSON_parse d s Hreach)
        as (Hsync & _ & _).
      destruct (synced_document s cfg Hsync Hcfg) as (json & Hjson & Hconf).
      destruct (applyValue_writes s cfg json (keyPath entry) dv true
                  Hcfg Hjson Hconf Hne Hclear)
        as (s1 & Happly & Hget & Hsync1 & Hdef1 & _ & _ & Hn1 & _).
      pose proof (at_Some_range _ _ _ Hat) as Hrange.
      eexists. split.
      { unfold step, handle. rewrite Hview. unfold onKeyList.
        destruct (Z.eqb_spec (Z.of_nat (length (visibleEntries s))) 0) as [Hz|_];
          [lia|].
        simpl. unfold restoreDefault, getDefaultSettingValue.
        rewrite Hat, Hdcfg, Hwalk, Hfalse, Happly.
        reflexivity. }
      match goal with |- context [effects ?p ?t] =>
        destruct (effects_frame p t) as (Hf & Hc & Hv & _ & _ & Hn & _);
        destruct (effects_rest p t) as (Hd & _)
      end.
      rewrite Hc, Hf, Hd, Hn, Hv. simpl. rewrite Hdef1, Hdcfg, Hwalk, Hn1.
      split; [done|]. split; [done|].
      split; [by apply deepEqual_refl|].
      split; [by rewrite <- app_assoc|]. done.
  - intros Hnames. apply Hnoop.
    by rewrite (walk_lookupPath_None _ _ Hnames Hlook).
Qed.

(** The free-form editor stores what `parseJsonOrString` makes of the
    text: the parsed JSON value when the text parses (so that `42`
    stores a number and `true` a boolean, whatever the field held
    before), the text itself as a string otherwise.  The value is found
    under the field's key path afterwards, in memory and in the file,
    the notice "Set ..." is produced and the editor closes. *)
Theorem free_form_commit_stores_parsed_value
    (s : state) (cfg json : object) (entry : FlatEntry) (text : string) :
  view s = EditString ->
  editingEntry s = Some entry ->
  config s = Some cfg ->
  readPluginsJson (files s) = Some json ->
  getProp "configuration" json = Some (VObj cfg) ->
  keyPath entry <> [] ->
  PathClear (VObj cfg) (keyPath entry) ->
  exists s',
    step JSON_parse (SubmitString text) s = Done s' /\
    getDefaultSettingValue (config s') (keyPath entry)
      = Val (match JSON_parse text with
              | Some v => v
              | None => VStr text
              end) /\
    config s' = getGlobalConfig (files s') /\
    notices s'
      = notices s ++ [ {| message := "Set " +:+ Str.join "." (keyPath entry);
                          noticeType := Success |} ] /\
    view s' = ViewList /\ editingEntry s' = None /\ focused s' = false.
Proof.
  intros Hview Hentry Hcfg Hjson Hconf Hne Hclear.
  destruct (applyValue_writes s cfg json (keyPath entry)
              (parseJsonOrString JSON_parse text) true
              Hcfg Hjson Hconf Hne Hclear)
    as (s1 & Happly & Hget & Hsync1 & _ & _ & _ & Hn1 & _).
  eexists. split.
  { unfold step, handle. rewrite Hview. unfold submitString.
    rewrite Hentry, Happly. reflexivity. }
  match goal with |- context [effects ?p ?t] =>
    destruct (effects_frame p t) as (Hf & Hc & Hv & He & _ & Hn & _);
    destruct (effects_rest p t) as (_ & _ & Hfo & _)
  end.
  rewrite Hc, Hf, Hn, Hv, He, Hfo. simpl. rewrite Hn1.
  by unfold parseJsonOrString in Hget.
Qed.

(** The colour editor never writes an invalid colour.  When the trimmed
    text is not a valid colour, nothing is written: the files, the
    configuration and the notices stay as they are, the editor stays
    open on the same entry, and the error line is set.  When it is
    valid, the trimmed text is stored as a string under the field's key
    path, the error is cleared and the editor closes. *)
Theorem color_commit
    (s : state) (cfg json : object) (entry : FlatEntry) (text : string) :
  view s = EditColor ->
  editingEntry s = Some entry ->
  config s = Some cfg ->
  readPluginsJson (files s) = Some json ->
  getProp "configuration" json = Some (VObj cfg) ->
  keyPath entry <> [] ->
  PathClear (VObj cfg) (keyPath entry) ->
  exists s',
    step JSON_parse (SubmitColor text) s = Done s' /\
    if isValidColorValue (Str.trim text)
    then
      getDefaultSettingValue (config s') (keyPath entry)
        = Val (VStr (Str.trim text)) /\
      config s' = getGlobalConfig (files s') /\
      colorError s' = None /\
      view s' = ViewList /\ editingEntry s' = None
    else
      files s' = files s /\ config s' = config s /\
      notices s' = notices s /\
      view s' = EditColor /\ editingEntry s' = Some entry /\
      colorError s'
        = Some "Invalid color. Use #RGB, #RRGGBB, #RRGGBBAA, or a CSS color function like rgba(...)".
Proof.
  intros Hview Hentry Hcfg Hjson Hconf Hne Hclear.
  destruct (isValidColorValue (Str.trim text)) eqn:Hvalid.
  - destruct (applyValue_writes (setColorError None s) cfg json (keyPath entry)
                (VStr (Str.trim text)) true Hcfg Hjson Hconf Hne Hclear)
      as (s1 & Happly & Hget & Hsync1 & _).
    eexists. split.
    { unfold step, handle. rewrite Hview. unfold submitColor.
      rewrite Hentry, Hvalid. simpl. rewrite Happly. reflexivity. }
    match goal with |- context [effects ?p ?t] =>
      destruct (effects_frame p t) as (Hf & Hc & Hv & He & _ & Hn & _);
      destruct (effects_rest p t) as (_ & Hce & _)
    end.
    rewrite Hc, Hf, Hv, He, Hce. simpl. done.
  - eexists. split.
    { unfold step, handle. rewrite Hview. unfold submitColor.
      rewrite Hentry, Hvalid. simpl. reflexivity. }
    match goal with |- context [effects ?p ?t] =>
      destruct (effects_frame p t) as (Hf & Hc & Hv & He & _ & Hn & _);
      destruct (effects_rest p t) as (_ & Hce & _)
    end.
    rewrite Hc, Hf, Hv, He, Hce, Hn. simpl. done.
Qed.

(** Escape in the array editor unwinds one level.  While the item input
    is open (a new item is being added or an item is being edited),
    Escape closes that input and the array editor stays open on the
    same entry, and no other key does anything; with the item input
    closed, Escape closes the array editor and the panel shows the
    list.  Neither writes anything. *)
Theorem escape_unwinds_one_level (s : state) (entry : FlatEntry) :
  view s = EditArray ->
  editingEntry s = Some entry ->
  exists s',
    step JSON_parse (Key "escape" false) s = Done s' /\
    files s' = files s /\ config s' = config s /\
    arrayItems s' = arrayItems s /\ notices s' = notices s /\
    addingArrayItem s' = false /\ editingArrayItemIndex s' = None /\
    if addingArrayItem s || bool_decide (is_Some (editingArrayItemIndex s))
    then
      view s' = EditArray /\ editingEntry s' = Some entry /\
      focused s' = focused s /\
      forall name shift,
        name <> "escape" -> handle JSON_parse (Key name shift) s = Done s
    else
      view s' = ViewList /\ editingEntry s' = None /\ focused s' = false.
Proof.
  intros Hview Hentry.
  destruct (addingArrayItem s || bool_decide (is_Some (editingArrayItemIndex s)))
    eqn:Hinput.
  - eexists. split.
    { unfold step, handle. rewrite Hview. unfold onKeyArray.
      rewrite Hentry, Hinput. simpl. reflexivity. }
    match goal with |- context [effects ?p ?t] =>
      destruct (effects_frame p t) as (Hf & Hc & Hv & He & _ & Hn & Ha);
      destruct (effects_rest p t) as (_ & _ & Hfo & Had & Hid)
    end.
    rewrite Hc, Hf, Hv, He, Hn, Ha, Hfo, Had, Hid. simpl.
    repeat split; try done.
    intros name shift Hname. unfold handle. rewrite Hview. unfold onKeyArray.
    rewrite Hentry, Hinput. by destruct (String.eqb_spec name "escape").
  - apply orb_false_iff in Hinput as [Hadd Hidx].
    apply bool_decide_eq_false in Hidx.
    assert (Hnone : editingArrayItemIndex s = None).
    { destruct (editingArrayItemIndex s); [|done]. exfalso. by apply Hidx. }
    eexists. split.
    { unfold step, handle. rewrite Hview. unfold onKeyArray.
      rewrite Hentry, Hadd, Hnone. simpl. reflexivity. }
    match goal with |- context [effects ?p ?t] =>
      destruct (effects_frame p t) as (Hf & Hc & Hv & He & _ & Hn & Ha);
      destruct (effects_rest p t) as (_ & _ & Hfo & Had & Hid)
    end.
    rewrite Hc, Hf, Hv, He, Hn, Ha, Hfo, Had, Hid. simpl. done.
Qed.

(** The item input of the array editor, with no item being edited.  A
    text that is empty once trimmed adds nothing: the input closes and
    the files, the configuration, the items and the notices stay as
    they are.  Any other text is appended, trimmed, as the last item;
    the cursor moves to it; the whole list is stored as strings under
    the field's key path; the notice "Set ..." is produced; and the
    array editor stays open with the input closed. *)
Theorem array_item_append
    (s : state) (cfg json : object) (entry : FlatEntry) (text : string) :
  view s = EditArray ->
  editingEntry s = Some entry ->
  editingArrayItemIndex s = None ->
  config s = Some cfg ->
  readPluginsJson (files s) = Some json ->
  getProp "configuration" json = Some (VObj cfg) ->
  keyPath entry <> [] ->
  PathClear (VObj cfg) (keyPath entry) ->
  exists s',
    step JSON_parse (SubmitArrayItem text) s = Done s' /\
    view s' = EditArray /\ editingEntry s' = Some entry /\
    addingArrayItem s' = false /\ editingArrayItemIndex s' = None /\
    if String.eqb (Str.trim text) ""
    then
      files s' = files s /\ config s' = config s /\
      arrayItems s' = arrayItems s /\ notices s' = notices s
    else
      arrayItems s' = arrayItems s ++ [Str.trim text] /\
      highlightedArrayIndex s' = Z.of_nat (length (arrayItems s)) /\
      getDefaultSettingValue (config s') (keyPath entry)
        = Val (VArr (map VStr (arrayItems s ++ [Str.trim text]))) /\
      config s' = getGlobalConfig (files s') /\
      notices s'
        = notices s ++ [ {| message := "Set " +:+ Str.join "." (keyPath entry);
                            noticeType := Success |} ].
Proof.
  intros Hview Hentry Hidx Hcfg Hjson Hconf Hne Hclear.
  destruct (String.eqb (Str.trim text) "") eqn:Hempty.
  - eexists. split.
    { unfold step, handle. rewrite Hview. unfold submitArrayItem.
      rewrite Hentry, Hempty. simpl. reflexivity. }
    match goal with |- context [effects ?p ?t] =>
      destruct (effects_frame p t) as (Hf & Hc & Hv & He & _ & Hn & Ha);
      destruct (effects_rest p t) as (_ & _ & _ & Had & Hid)
    end.
    rewrite Hc, Hf, Hv, He, Hn, Ha, Had, Hid. simpl. done.
  - set (nextItems := arrayItems s ++ [Str.trim text]).
    set (s0 := setHighlightedArrayIndex
                 (Z.max 0 (Z.of_nat (length nextItems) - 1))
                 (setArrayItems nextItems s)).
    destruct (applyValue_writes s0 cfg json (keyPath entry)
                (itemsValue nextItems) false Hcfg Hjson Hconf Hne Hclear)
      as (s1 & Happly & Hget & Hsync1 & _ & Hv1 & He1 & Hn1 & _ & Ha1 & Hh1
          & _ & Hi1 & _).
    eexists. split.
    { unfold step, handle. rewrite Hview. unfold submitArrayItem.
      rewrite Hentry, Hempty, Hidx. fold nextItems. fold s0.
      rewrite Happly. simpl. reflexivity. }
    match goal with |- context [effects ?p ?t] =>
      destruct (effects_frame p t) as (Hf & Hc & Hv & He & _ & Hn & Ha);
      destruct (effects_rest p t) as (_ & _ & _ & Had & Hid);
      assert (Hh : highlightedArrayIndex (effects p t) = highlightedArrayIndex t)
        by (rewrite effects_same_entry by (simpl; by rewrite He1);
            apply clampEffect_frame)
    end.
    rewrite Hc, Hf, Hv, He, Hn, Ha, Had, Hid, Hh. simpl.
    rewrite Hv1, He1, Hn1, Ha1, Hh1, Hi1. simpl.
    repeat split; try done.
    unfold nextItems. rewrite length_app. simpl. lia.
Qed.

Lemma top_level_entry_visible (s : state) (cfg : object) :
  config s = Some cfg -> cfg <> [] -> visibleEntries s <> [].
Proof.
  intros Hcfg Hne. unfold visibleEntries, allEntries. rewrite Hcfg.
  destruct cfg as [|[key value] rest]; [done|].
  unfold flattenConfig. rewrite flattenValue_cons.
  destruct (isPlainObject value); simpl; rewrite filter_cons; simpl; done.
Qed.

(** The cursor always sits on an entry.  No top-level entry is ever
    hidden by collapsing, so a configuration with at least one key
    always shows at least one entry; and in every state the panel can
    reach, the highlighted index names one of the visible entries, which
    is an entry of the flattened configuration. *)
Theorem cursor_on_entry (d : fs) (s : state) (cfg : object) :
  reachable JSON_parse d s ->
  config s = Some cfg ->
  cfg <> [] ->
  exists entry,
    at_ (visibleEntries s) (highlightedIndex s) = Some entry /\
    entry ∈ flattenConfig cfg.
Proof.
  intros Hreach Hcfg Hne.
  destruct (CursorFacts.settings_reachable_bounds JSON_parse d s Hreach)
    as [Hb _].
  pose proof (top_level_entry_visible s cfg Hcfg Hne) as Hvis.
  assert (Hlen : (0 < length (visibleEntries s))%nat).
  { destruct (visibleEntries s); [done | simpl; lia]. }
  destruct (lookup_lt_is_Some_2 (visibleEntries s)
              (Z.to_nat (highlightedIndex s))) as [entry Hentry]; [lia|].
  assert (Hat : at_ (visibleEntries s) (highlightedIndex s) = Some entry).
  { unfold at_. by destruct (Z.ltb_spec (highlightedIndex s) 0); [lia|]. }
  exists entry. split; [done|].
  by apply (visible_entry_in_tree s cfg (highlightedIndex s) entry).
Qed.

End Commits.

(** *** Instances *)

Section Instances.
Import Examples Sample ScenarioFacts.

Lemma fresh_reachable : reachable sampleParse defaultProject fresh.
Proof. apply reach_mount. Defined.

Lemma stateAfter_reachable es :
  reachable sampleParse defaultProject (stateAfter es fresh).
Proof.
  unfold stateAfter.
  destruct (run sampleParse es fresh) as [s'| |] eqn:Hrun;
    try apply fresh_reachable.
  exact (run_reachable sampleParse defaultProject es fresh s'
           fresh_reachable Hrun).
Defined.

Lemma wf_spaOffConfiguration : wf (VObj spaOffConfiguration).
Proof.
  cbn. repeat split; try (apply (bool_decide_unpack _); exact I).
Defined.

Lemma restore_default_witness :
  view spaOff = ViewList /\
  config spaOff = Some spaOffConfiguration /\
  wf (VObj spaOffConfiguration) /\
  at_ (visibleEntries spaOff) (highlightedIndex spaOff) = Some spaEntry /\
  defaultAt spaOff (keyPath spaEntry) = Some (VBool true) /\
  ~ DeepEq (entryValue spaEntry) (VBool true) /\
  plainKeys (entryValue spaEntry) /\
  exists s',
    step sampleParse (Key "d" true) spaOff = Done s' /\
    getDefaultSettingValue (config s') ["enableSPA"] = Val (VBool true) /\
    config s' = getGlobalConfig (files s') /\
    deepEqual (VBool true)
      (getDefaultSettingValue (defaultConfig s') ["enableSPA"]) = true /\
    notices s'
      = notices spaOff
        ++ [ {| message := "Set " +:+ Str.join "." ["enableSPA"];
                noticeType := Success |};
             {| message := "Restored " +:+ Str.join "." ["enableSPA"]
                           +:+ " to default";
                noticeType := Success |} ] /\
    view s' = ViewList.
Proof.
  assert (Hdiff : ~ DeepEq (entryValue spaEntry) (VBool true))
    by (inversion 1).
  split; [reflexivity|]. split; [reflexivity|].
  split; [exact wf_spaOffConfiguration|].
  split; [reflexivity|]. split; [reflexivity|].
  split; [exact Hdiff|]. split; [exact I|].
  assert (Hdefault : defaultAt spaOff (keyPath spaEntry) = Some (VBool true))
    by reflexivity.
  assert (Hwfd : forall dcfg, defaultConfig spaOff = Some dcfg -> wf (VObj dcfg)).
  { assert (Hd : defaultConfig spaOff = Some baselineConfiguration)
      by reflexivity.
    intros dcfg H. rewrite Hd in H. injection H as <-.
    exact wf_baselineConfiguration. }
  pose proof (restore_default sampleParse defaultProject spaOff
                spaOffConfiguration spaEntry eq_refl eq_refl
                wf_spaOffConfiguration Hwfd eq_refl) as H.
  rewrite Hdefault in H.
  exact (proj2 H Hdiff I (stateAfter_reachable _)).
Defined.

Lemma cursor_on_entry_witness :
  exists entry,
    at_ (visibleEntries spaOff) (highlightedIndex spaOff) = Some entry /\
    entry ∈ flattenConfig spaOffConfiguration.
Proof.
  apply (cursor_on_entry sampleParse defaultProject spaOff spaOffConfiguration).
  - apply stateAfter_reachable.
  - reflexivity.
  - discriminate.
Defined.

Lemma free_form_commit_stores_parsed_value_witness :
  exists s',
    step sampleParse (SubmitString "42") titleEditing = Done s' /\
    getDefaultSettingValue (config s') ["pageTitle"] = Val (VNum 42) /\
    config s' = getGlobalConfig (files s') /\
    notices s'
      = notices titleEditing
        ++ [ {| message := "Set " +:+ Str.join "." ["pageTitle"];
                noticeType := Success |} ] /\
    view s' = ViewList /\ editingEntry s' = None /\ focused s' = false.
Proof.
  apply (free_form_commit_stores_parsed_value sampleParse titleEditing
           baselineConfiguration minimal titleEntry "42");
    (reflexivity || discriminate || exact I
     || (cbn; repeat split; discriminate)).
Defined.

Lemma color_commit_witness :
  exists s',
    step sampleParse (SubmitColor "oklch(70% 0.1 200)") lightEditing = Done s' /\
    files s' = files lightEditing /\ config s' = config lightEditing /\
    notices s' = notices lightEditing /\
    view s' = EditColor /\ editingEntry s' = Some lightEntry /\
    colorError s'
      = Some "Invalid color. Use #RGB, #RRGGBB, #RRGGBBAA, or a CSS color function like rgba(...)".
Proof.
  apply (color_commit sampleParse lightEditing baselineConfiguration minimal
           lightEntry "oklch(70% 0.1 200)");
    (reflexivity || discriminate || exact I
     || (cbn; repeat split; discriminate)).
Defined.

Lemma escape_unwinds_one_level_witness :
  exists s',
    step sampleParse (Key "escape" false) ignoreAdding = Done s' /\
    files s' = files ignoreAdding /\ config s' = config ignoreAdding /\
    arrayItems s' = arrayItems ignoreAdding /\
    notices s' = notices ignoreAdding /\
    addingArrayItem s' = false /\ editingArrayItemIndex s' = None /\
    view s' = EditArray /\ editingEntry s' = Some ignoreEntry /\
    focused s' = focused ignoreAdding /\
    forall name shift,
      name <> "escape" ->
      handle sampleParse (Key name shift) ignoreAdding = Done ignoreAdding.
Proof.
  apply (escape_unwinds_one_level sampleParse ignoreAdding ignoreEntry);
    reflexivity.
Defined.

Lemma array_item_append_witness :
  exists s',
    step sampleParse (SubmitArrayItem " drafts ") ignoreAdding = Done s' /\
    view s' = EditArray /\ editingEntry s' = Some ignoreEntry /\
    addingArrayItem s' = false /\ editingArrayItemIndex s' = None /\
    arrayItems s' = arrayItems ignoreAdding ++ [Str.trim " drafts "] /\
    highlightedArrayIndex s' = Z.of_nat (length (arrayItems ignoreAdding)) /\
    getDefaultSettingValue (config s') ["ignorePatterns"]
      = Val (VArr (map VStr (arrayItems ignoreAdding ++ [Str.trim " drafts "]))) /\
    config s' = getGlobalConfig (files s') /\
    notices s'
      = notices ignoreAdding
        ++ [ {| message := "Set " +:+ Str.join "." ["ignorePatterns"];
                noticeType := Success |} ].
Proof.
  apply (array_item_append sampleParse ignoreAdding baselineConfiguration
           minimal ignoreEntry " drafts ");
    (reflexivity || discriminate || exact I
     || (cbn; repeat split; discriminate)).
Defined.



End Instances.

End SettingsEntriesFacts.

(** ** Committing a text that is not a number *)

Module NumericCommitFacts.
Import Config ConfigFacts PathFacts Sample App Settings Spec.
Import CommitFacts SettingsEntriesFacts.

(** C1, as stated, fails: committing "not-a-number" in the priority
    editor leaves the priority as it was, but the editor closes (the view
    is back to the zone grid) and no error is shown. *)
Lemma priority_editor_closes_on_invalid_number :
  LayoutPanel.view priorityEditing = LayoutPanel.EditPriority /\
  Str.parseInt "not-a-number" = Str.NaN /\
  exists s',
    LayoutPanel.step (LayoutPanel.SubmitPriority "not-a-number") priorityEditing
      = Done s' /\
    LayoutPanel.view s' = LayoutPanel.Zones /\
    LayoutPanel.notices s' = [] /\
    LayoutPanel.plugins s' = LayoutPanel.plugins priorityEditing.
Proof.
  split; [reflexivity|]. split; [reflexivity|].
  eexists. split; [reflexivity|]. by vm_compute.
Qed.

(** C1, amended.  In the priority editor of the Layout panel, a text
    for which `parseInt(text, 10)` is `NaN` changes no plugin entry and
    produces no notice; the editor closes and the panel is back at the
    zone grid.  The free-form editor of the Settings panel, which is the
    editor a numeric setting opens in, has no numeric check: whichever
    entry of the configuration is being edited, at the top level or
    inside an object, and whatever it held, a text that is not JSON is
    written as a string under the key path of the entry, in memory and
    in the file, the notice "Set ..." is produced and the editor
    closes. *)
Theorem invalid_number_commit :
  (forall (text : string) (ls : LayoutPanel.state)
          (comps : list Layout.ZoneComponent.t) (comp : Layout.ZoneComponent.t),
      Str.parseInt text = Str.NaN ->
      LayoutPanel.view ls = LayoutPanel.EditPriority ->
      LayoutPanel.currentComponents ls = Done comps ->
      at_ comps (LayoutPanel.selectedComponent ls) = Some comp ->
      exists ls',
        LayoutPanel.step (LayoutPanel.SubmitPriority text) ls = Done ls' /\
        LayoutPanel.plugins ls' = LayoutPanel.plugins ls /\
        LayoutPanel.notices ls' = LayoutPanel.notices ls /\
        LayoutPanel.view ls' = LayoutPanel.Zones /\
        LayoutPanel.drillMode ls' = false) /\
  (forall (JSON_parse : string -> option value) (text : string)
          (ss : SettingsPanel.state) (entry : FlatEntry) (json cfg : object),
      JSON_parse text = None ->
      SettingsPanel.view ss = EditString ->
      SettingsPanel.editingEntry ss = Some entry ->
      SettingsPanel.config ss = Some cfg ->
      readPluginsJson (SettingsPanel.files ss) = Some json ->
      getProp "configuration" json = Some (VObj cfg) ->
      wf (VObj cfg) ->
      entry ∈ flattenConfig cfg ->
      exists ss',
        SettingsPanel.step JSON_parse (SettingsPanel.SubmitString text) ss
          = Done ss' /\
        getDefaultSettingValue (SettingsPanel.config ss') (keyPath entry)
          = Val (VStr text) /\
        getDefaultSettingValue (getGlobalConfig (SettingsPanel.files ss'))
          (keyPath entry) = Val (VStr text) /\
        SettingsPanel.notices ss'
          = SettingsPanel.notices ss
            ++ [ {| message := "Set " +:+ Str.join "." (keyPath entry);
                    noticeType := Success |} ] /\
        SettingsPanel.colorError ss' = None /\
        SettingsPanel.view ss' = ViewList /\
        SettingsPanel.editingEntry ss' = None).
Proof.
  split.
  - intros text ls comps comp Hint Hview Hcomps Hsel.
    unfold LayoutPanel.step. rewrite Hcomps. cbn [bind].
    unfold LayoutPanel.handle. rewrite Hview, Hsel.
    unfold LayoutPanel.submitPriority. rewrite Hint. cbn [bind].
    rewrite layout_exitView_components, Hcomps. cbn [bind].
    eexists. split; [reflexivity|].
    destruct (layout_settle_frame (Some ls) comps (LayoutPanel.exitView ls))
      as (Hp & _ & Hv & Hd & _ & _ & _ & Hn).
    rewrite Hp, Hn, Hv, Hd. done.
  - intros JSON_parse text ss entry json cfg Hjson Hsview Hentry Hcfg Hfile
      Hconf Hwf Hin.
    destruct (flattenValue_spec (VObj cfg) [] 0%nat entry Hwf Hin)
      as (obj & path & [= <-] & Hne & Hkp & _ & Hclear & _).
    simpl in Hkp. rewrite <- Hkp in Hne, Hclear.
    destruct (applyValue_writes ss cfg json (keyPath entry) (VStr text) true
                Hcfg Hfile Hconf Hne Hclear)
      as (s1 & Happly & Hget & Hsync1 & _ & _ & _ & Hn1 & _).
    eexists. split.
    { unfold SettingsPanel.step, SettingsPanel.handle. rewrite Hsview.
      unfold SettingsPanel.submitString. rewrite Hentry.
      unfold SettingsPanel.parseJsonOrString. rewrite Hjson, Happly.
      reflexivity. }
    match goal with |- context [SettingsPanel.effects ?p ?t] =>
      destruct (SettingsFrame.effects_frame p t)
        as (Hf & Hc & Hv & He & _ & Hn & _);
      destruct (effects_rest p t) as (_ & Hce & _)
    end.
    rewrite Hc, Hf, Hn, Hv, He, Hce. simpl. rewrite Hn1, <- Hsync1.
    done.
Qed.

Lemma wf_nestedNumeric :
  wf (VObj [ ("pageTitle", VStr "Notes");
             ("feed", VObj [("maxItems", VNum 5)]) ]).
Proof.
  cbn. repeat split; try (apply (bool_decide_unpack _); exact I).
Defined.

Lemma invalid_number_commit_witness :
  (Str.parseInt "not-a-number" = Str.NaN /\
   exists ls',
     LayoutPanel.step (LayoutPanel.SubmitPriority "not-a-number") priorityEditing
       = Done ls' /\
     LayoutPanel.plugins ls' = LayoutPanel.plugins priorityEditing /\
     LayoutPanel.notices ls' = LayoutPanel.notices priorityEditing /\
     LayoutPanel.view ls' = LayoutPanel.Zones /\
     LayoutPanel.drillMode ls' = false) /\
  (Str.parseInt "12abc" = Str.Int 12 /\
   feedMaxItemsEntry ∈ flattenConfig
     [ ("pageTitle", VStr "Notes"); ("feed", VObj [("maxItems", VNum 5)]) ] /\
   exists ss',
     SettingsPanel.step (fun _ => None) (SettingsPanel.SubmitString "12abc")
       feedMaxItemsEditing = Done ss' /\
     getDefaultSettingValue (SettingsPanel.config ss') ["feed"; "maxItems"]
       = Val (VStr "12abc") /\
     getDefaultSettingValue (getGlobalConfig (SettingsPanel.files ss'))
       ["feed"; "maxItems"] = Val (VStr "12abc") /\
     SettingsPanel.notices ss'
       = SettingsPanel.notices feedMaxItemsEditing
         ++ [ {| message := "Set " +:+ Str.join "." ["feed"; "maxItems"];
                 noticeType := Success |} ] /\
     SettingsPanel.colorError ss' = None /\
     SettingsPanel.view ss' = ViewList /\
     SettingsPanel.editingEntry ss' = None).
Proof.
  assert (Hin : feedMaxItemsEntry ∈ flattenConfig
            [ ("pageTitle", VStr "Notes");
              ("feed", VObj [("maxItems", VNum 5)]) ]).
  { unfold flattenConfig. simpl.
    repeat first [apply list_elem_of_here | apply list_elem_of_further]. }
  split.
  - split; [reflexivity|].
    apply (proj1 invalid_number_commit "not-a-number" priorityEditing
             [Layout.componentOf (LayoutPanel.withIndex 0 searchPlugin)
                searchLayout]
             (Layout.componentOf (LayoutPanel.withIndex 0 searchPlugin)
                searchLayout)); reflexivity.
  - split; [reflexivity|]. split; [exact Hin|].
    apply (proj2 invalid_number_commit (fun _ => None) "12abc"
             feedMaxItemsEditing feedMaxItemsEntry
             [ ("configuration",
                VObj [ ("pageTitle", VStr "Notes");
                       ("feed", VObj [("maxItems", VNum 5)]) ]);
               ("plugins", VArr []) ]
             [ ("pageTitle", VStr "Notes");
               ("feed", VObj [("maxItems", VNum 5)]) ]);
      try reflexivity; [exact wf_nestedNumeric | exact Hin].
Defined.

End NumericCommitFacts.

(** ** The Layout panel: what its operations do to the plugin list *)

Module LayoutOpsFacts.
Import Layout LayoutPanel Spec PanelSpec ZoneFacts App.

Lemma getEnrichedPlugins_lookup entries i :
  getEnrichedPlugins entries !! i = withIndex (Z.of_nat i) <$> entries !! i.
Proof. unfold getEnrichedPlugins. by rewrite list_lookup_imap. Qed.

Lemma getEnrichedPlugins_Indexed entries : Indexed (getEnrichedPlugins entries).
Proof.
  intros i p. rewrite getEnrichedPlugins_lookup.
  destruct (entries !! i); [|done]. by intros [= <-].
Qed.

Ltac break_match :=
  match goal with
  | |- context [match ?x with _ => _ end] => destruct x eqn:?
  end.

Ltac break_match_in H :=
  match type of H with
  | context [match ?x with _ => _ end] => destruct x eqn:?
  end.

Lemma layout_handle_coherent e comps s s' :
  handle e comps s = Done s' -> LayoutCoherent s -> LayoutCoherent s'.
Proof.
  intros H (Hidx & Hcol & Hrow & Hz & Hnz).
  unfold handle, onKeyZones, submitPriority, moveZoneSelect, displaySelect,
    submitCondition, confirmRemove, restoreDefaults, swapWith, cyclePageType,
    withPluginLayout, updateLayout, updateLayoutFrom, saveLayout, bind in H.
  repeat break_match_in H; try discriminate; injection H as <-;
    unfold LayoutCoherent; simpl;
    (split; [first [exact Hidx | apply getEnrichedPlugins_Indexed]|]);
    (split; [lia|]); (split; [lia|]);
    (split; [first [done | intros; congruence | auto]|]);
    first [done | intros; congruence | auto].
Qed.

Lemma layout_settle_coherent prev comps s :
  LayoutCoherent s -> LayoutCoherent (settle prev comps s).
Proof.
  intros H. unfold settle, effects, clampEffect.
  destruct (resetEffectFires prev s); simpl;
    repeat match goal with
           | |- context [if ?b then _ else _] => destruct b; simpl
           end; exact H.
Qed.

Lemma coherent_active_zone s : LayoutCoherent s -> is_Some (getActiveZone s).
Proof.
  intros (_ & Hcol & Hrow & _). unfold getActiveZone.
  destruct (focusColumn s =? 0); [by eexists|].
  destruct (focusColumn s =? 2); [by eexists|].
  unfold at_. destruct (Z.ltb_spec (focusCenterRow s) 0); [lia|].
  apply lookup_lt_is_Some. simpl. lia.
Qed.

Lemma reachable_coherent s : reachable s -> LayoutCoherent s.
Proof.
  induction 1 as [p l comps Hcomps | s e comps s' _ IH Hcomps Hok Hstep].
  - apply layout_settle_coherent. unfold LayoutCoherent. simpl.
    split; [apply getEnrichedPlugins_Indexed|]. repeat split; (lia || done).
  - unfold step in Hstep. rewrite Hcomps in Hstep. simpl in Hstep.
    apply bind_Done in Hstep as (s1 & Hhandle & Hstep).
    apply bind_Done in Hstep as (comps' & _ & [= <-]).
    by apply layout_settle_coherent, (layout_handle_coherent e comps s).
Qed.


(** *** The selected component and its plugin *)

Lemma findIndexFrom_Indexed k (l : list EnrichedPlugin.t) i p :
  (forall j q, l !! j = Some q -> EnrichedPlugin.index q = k + Z.of_nat j) ->
  l !! i = Some p ->
  findIndexFrom k (EnrichedPlugin.index p) l = k + Z.of_nat i.
Proof.
  revert k i. induction l as [|q rest IH]; intros k i Hidx Hi; [done|].
  simpl. destruct i as [|i].
  - injection Hi as ->. rewrite Z.eqb_refl. lia.
  - simpl in Hi.
    pose proof (Hidx (S i) p Hi) as Hp.
    rewrite (Hidx 0%nat q eq_refl).
    destruct (Z.eqb_spec (k + Z.of_nat 0) (EnrichedPlugin.index p)); [lia|].
    rewrite (IH (k + 1) i); [lia| |done].
    intros j r Hj. rewrite (Hidx (S j) r Hj). lia.
Qed.

Lemma findPluginArrayIndex_Indexed s i p :
  Indexed (plugins s) -> plugins s !! i = Some p ->
  findPluginArrayIndex s (EnrichedPlugin.index p) = Z.of_nat i.
Proof.
  intros Hidx Hi. unfold findPluginArrayIndex.
  rewrite (findIndexFrom_Indexed 0 _ i p); [lia| |done].
  intros j q Hj. rewrite (Hidx j q Hj). lia.
Qed.

Lemma withIndex_same p : withIndex (EnrichedPlugin.index p) p = p.
Proof. by destruct p. Qed.

Lemma getEnrichedPlugins_Indexed_id l : Indexed l -> getEnrichedPlugins l = l.
Proof.
  intros Hidx. apply list_eq. intros i. rewrite getEnrichedPlugins_lookup.
  destruct (l !! i) as [p|] eqn:Hi; [|done]. simpl.
  by rewrite <- (Hidx i p Hi), withIndex_same.
Qed.

Lemma Indexed_insert l i p q :
  Indexed l -> l !! i = Some p ->
  EnrichedPlugin.index q = EnrichedPlugin.index p ->
  Indexed (<[i := q]> l).
Proof.
  intros Hidx Hi Hq j r Hj.
  destruct (decide (i = j)) as [<-|Hne].
  - rewrite list_lookup_insert_eq in Hj by (by eapply lookup_lt_Some).
    injection Hj as <-. rewrite Hq. by apply Hidx.
  - rewrite list_lookup_insert_ne in Hj by done. by apply Hidx.
Qed.

(** `updateLayout` on an indexed list replaces the layout of the plugin
    at that place and touches nothing else. *)
Lemma updateLayoutFrom_spec closure s i p q nl :
  Indexed (plugins s) ->
  closure !! i = Some q -> EnrichedPlugin.index q = Z.of_nat i ->
  plugins s !! i = Some p ->
  updateLayoutFrom closure (Z.of_nat i) nl s
  = setPlugins (<[i := withLayout nl p]> (plugins s)) s.
Proof.
  intros Hidx Hq Hqi Hp. unfold updateLayoutFrom, at_.
  destruct (Z.ltb_spec (Z.of_nat i) 0); [lia|].
  rewrite Nat2Z.id, Hq, Hqi. f_equal.
  unfold updatePluginEntry. destruct (Z.ltb_spec (Z.of_nat i) 0); [lia|].
  rewrite Nat2Z.id.
  assert (Halter : alter (withLayout nl) i (plugins s)
                   = <[i := withLayout nl p]> (plugins s)).
  { apply list_eq. intros j. destruct (decide (i = j)) as [<-|Hne].
    - rewrite list_lookup_alter_eq, Hp. simpl.
      by rewrite list_lookup_insert_eq by (by eapply lookup_lt_Some).
    - by rewrite list_lookup_alter_ne, list_lookup_insert_ne by done. }
  rewrite Halter. apply getEnrichedPlugins_Indexed_id.
  by apply (Indexed_insert _ _ p).
Qed.

Lemma updateLayout_spec s i p nl :
  Indexed (plugins s) -> plugins s !! i = Some p ->
  updateLayout (Z.of_nat i) nl s
  = setPlugins (<[i := withLayout nl p]> (plugins s)) s.
Proof.
  intros Hidx Hp. unfold updateLayout.
  apply (updateLayoutFrom_spec _ _ _ p p); try done. by apply Hidx.
Qed.

Lemma overrideZone_source (base : zoneMap) o zone c :
  c ∈ overrideZone base o zone ->
  exists z0 c0,
    c0 ∈ base z0 /\
    ZoneComponent.pluginIndex c = ZoneComponent.pluginIndex c0 /\
    ZoneComponent.priority c = ZoneComponent.priority c0.
Proof.
  unfold overrideZone. rewrite elem_of_sortByPriority.
  destruct (positions o) as [ps|].
  - intros Hc. apply fold_applyPosition_sup in Hc
      as [Hc|(k & _ & srcZone & comp & Hcomp & _ & ->)].
    + apply list_elem_of_filter in Hc as [_ Hc]. by exists zone, c.
    + by exists srcZone, comp.
  - intros Hc. apply list_elem_of_filter in Hc as [_ Hc]. by exists zone, c.
Qed.

(** Every component the panel shows belongs to an enabled plugin of the
    list that has a layout entry, and `pluginIndex` is that plugin's
    place. *)
Lemma component_plugin s comps c :
  Indexed (plugins s) ->
  currentComponents s = Done comps ->
  c ∈ comps ->
  exists i p l,
    plugins s !! i = Some p /\
    EnrichedPlugin.enabled p = true /\
    EnrichedPlugin.layout p = Some l /\
    ZoneComponent.pluginIndex c = Z.of_nat i /\
    ZoneComponent.priority c = PluginLayout.priority l /\
    findPluginArrayIndex s (ZoneComponent.pluginIndex c) = Z.of_nat i.
Proof.
  intros Hidx Hcomps Hc. unfold currentComponents in Hcomps.
  apply bind_Done in Hcomps as (zones & Hzones & Hcomps).
  destruct (getActiveZone s) as [zone|]; [|done]. injection Hcomps as <-.
  unfold zoneComponents in Hzones.
  apply bind_Done in Hzones as (base & Hbase & Hzones).
  assert (Hsrc : exists z0 c0,
            c0 ∈ base z0 /\
            ZoneComponent.pluginIndex c = ZoneComponent.pluginIndex c0 /\
            ZoneComponent.priority c = ZoneComponent.priority c0).
  { destruct (String.eqb (activePageType s) "default");
      [injection Hzones as <-; by exists zone, c|].
    destruct (overrideFor _ _) as [o|]; injection Hzones as <-;
      [by apply (overrideZone_source base o zone) | by exists zone, c]. }
  destruct Hsrc as (z0 & c0 & Hc0 & Hpi & Hpr).
  apply (getZoneComponents_spec _ _ Hbase) in Hc0
    as (p & l & Hp & Hen & Hl & _ & ->).
  apply list_elem_of_lookup in Hp as [i Hi].
  exists i, p, l. simpl in Hpi, Hpr.
  pose proof (findPluginArrayIndex_Indexed s i p Hidx Hi) as Hfind.
  rewrite Hpi, Hpr, Hfind. by rewrite (Hidx i p Hi).
Qed.

(** *** The grid after a layout entry has been replaced *)

Lemma zoneName_not_inherited z : zoneName z ∉ objectPrototypeNames.
Proof.
  intros Hin. apply list_elem_of_In in Hin.
  destruct z; simpl in Hin;
    repeat (destruct Hin as [Hin|Hin]; [discriminate|]); done.
Qed.

Lemma zoneName_inj z z' : zoneName z = zoneName z' -> z = z'.
Proof. by destruct z, z'. Qed.

Lemma collectZones_Done_positions plugins :
  forall zones0 zones,
    collectZones plugins zones0 = Done zones ->
    forall p l,
      p ∈ plugins -> EnrichedPlugin.enabled p = true ->
      EnrichedPlugin.layout p = Some l ->
      PluginLayout.position l ∉ objectPrototypeNames.
Proof.
  induction plugins as [|q rest IH]; intros zones0 zones Hrun p l Hin Hen Hl;
    [by apply elem_of_nil in Hin|].
  simpl in Hrun. apply elem_of_cons in Hin as [->|Hin].
  - rewrite Hl, Hen in Hrun. simpl in Hrun.
    destruct (inZones (PluginLayout.position l)) eqn:Hz; simpl in Hrun.
    + destruct (zoneOfName (PluginLayout.position l)) as [z|] eqn:Hzn; [|done].
      apply zoneOfName_Some in Hzn. rewrite Hzn. apply zoneName_not_inherited.
    + unfold inZones in Hz.
      destruct (zoneOfName (PluginLayout.position l)); [done|].
      intros Hmem. apply list_elem_of_In in Hmem.
      apply Bool.not_true_iff_false in Hz. apply Hz.
      apply existsb_exists. exists (PluginLayout.position l).
      split; [done | apply String.eqb_refl].
  - destruct (EnrichedPlugin.layout q) as [lq|]; [|by eapply IH].
    destruct (negb (EnrichedPlugin.enabled q)); [by eapply IH|].
    destruct (negb (inZones (PluginLayout.position lq))); [by eapply IH|].
    destruct (zoneOfName (PluginLayout.position lq)); [by eapply IH | done].
Qed.

Lemma getZoneComponents_Done_positions plugins zones :
  getZoneComponents plugins = Done zones ->
  forall p l,
    p ∈ plugins -> EnrichedPlugin.enabled p = true ->
    EnrichedPlugin.layout p = Some l ->
    PluginLayout.position l ∉ objectPrototypeNames.
Proof.
  unfold getZoneComponents. intros Hrun.
  apply bind_Done in Hrun as (zs & Hzs & _).
  by apply (collectZones_Done_positions plugins emptyZones zs).
Qed.

(** Replacing the layout entry of the plugin at place [i] moves that
    plugin's component and no other: in the default grid afterwards
    every component of another plugin is in the zone it was in, and the
    plugin at [i] has a component exactly when it is enabled and the new
    entry names a zone, in that zone. *)
Lemma grid_after_update plugins base i p nl :
  Indexed plugins ->
  getZoneComponents plugins = Done base ->
  plugins !! i = Some p ->
  match nl with
  | Some l' => PluginLayout.position l' ∉ objectPrototypeNames
  | None => True
  end ->
  exists zones',
    getZoneComponents (<[i := withLayout nl p]> plugins) = Done zones' /\
    forall z c,
      c ∈ zones' z <->
      (ZoneComponent.pluginIndex c <> Z.of_nat i /\ c ∈ base z) \/
      (EnrichedPlugin.enabled p = true /\
       exists l', nl = Some l' /\ PluginLayout.position l' = zoneName z /\
                  c = componentOf (withLayout nl p) l').
Proof.
  intros Hidx Hbase Hp Hnl.
  set (plugins' := <[i := withLayout nl p]> plugins).
  assert (Hi : (i < length plugins)%nat) by (by eapply lookup_lt_Some).
  assert (Hidx' : Indexed plugins').
  { by apply (Indexed_insert _ _ p). }
  assert (Hp' : plugins' !! i = Some (withLayout nl p)).
  { by apply list_lookup_insert_eq. }
  destruct (collectZones_total plugins') with (zones0 := emptyZones)
    as (zs & Hzs).
  { intros q lq Hq Hen Hlq.
    apply list_elem_of_lookup in Hq as [j Hj].
    destruct (decide (i = j)) as [<-|Hne].
    - rewrite Hp' in Hj. injection Hj as <-. simpl in Hlq. subst nl. exact Hnl.
    - unfold plugins' in Hj. rewrite list_lookup_insert_ne in Hj by done.
      apply (getZoneComponents_Done_positions _ _ Hbase q lq); try done.
      by apply list_elem_of_lookup_2 in Hj. }
  assert (Hrun : getZoneComponents plugins'
                 = Done (fun zone => sortByPriority (zs zone))).
  { unfold getZoneComponents. by rewrite Hzs. }
  eexists. split; [exact Hrun|]. intros z c.
  rewrite (getZoneComponents_spec _ _ Hrun). split.
  - intros (q & lq & Hq & Hen & Hlq & Hpos & ->).
    apply list_elem_of_lookup in Hq as [j Hj].
    destruct (decide (i = j)) as [<-|Hne].
    + right. rewrite Hp' in Hj. injection Hj as <-. simpl in Hen, Hlq.
      split; [done|]. by exists lq.
    + left. unfold plugins' in Hj. rewrite list_lookup_insert_ne in Hj by done.
      split.
      * simpl. rewrite (Hidx j q Hj). lia.
      * apply (getZoneComponents_spec _ _ Hbase). exists q, lq.
        split; [by apply list_elem_of_lookup_2 in Hj|]. done.
  - intros [[Hne Hc]|(Hen & l' & -> & Hpos & ->)].
    + apply (getZoneComponents_spec _ _ Hbase) in Hc
        as (q & lq & Hq & Hen & Hlq & Hpos & ->).
      apply list_elem_of_lookup in Hq as [j Hj]. simpl in Hne.
      rewrite (Hidx j q Hj) in Hne.
      exists q, lq. split; [|done].
      apply list_elem_of_lookup. exists j. unfold plugins'.
      rewrite list_lookup_insert_ne by lia. done.
    + exists (withLayout (Some l') p), l'.
      split; [by apply list_elem_of_lookup_2 in Hp'|]. done.
Qed.

(** *** The sub-editors *)

Lemma selected_plugin s comps comp :
  Indexed (plugins s) ->
  currentComponents s = Done comps ->
  at_ comps (selectedComponent s) = Some comp ->
  exists i p l,
    plugins s !! i = Some p /\
    EnrichedPlugin.enabled p = true /\
    EnrichedPlugin.layout p = Some l /\
    ZoneComponent.pluginIndex comp = Z.of_nat i /\
    forall k, withPluginLayout comp s k = k (Z.of_nat i) l.
Proof.
  intros Hidx Hcomps Hat.
  assert (Hin : comp ∈ comps).
  { unfold at_ in Hat. destruct (selectedComponent s <? 0); [done|].
    by apply list_elem_of_lookup_2 in Hat. }
  destruct (component_plugin s comps comp Hidx Hcomps Hin)
    as (i & p & l & Hp & Hen & Hl & Hpi & _ & Hfind).
  exists i, p, l. repeat split; try done.
  intros k. unfold withPluginLayout. rewrite Hfind.
  destruct (Z.leb_spec 0 (Z.of_nat i)); [|lia].
  unfold at_. destruct (Z.ltb_spec (Z.of_nat i) 0); [lia|].
  by rewrite Nat2Z.id, Hp, Hl.
Qed.

(** Each sub-editor of the Layout panel rewrites one field of the
    layout entry of the selected component's plugin and nothing else:
    the move list its position, the priority input its priority, the
    display list its display mode, the condition input its condition
    (removed when the text is empty once trimmed).  Every other plugin
    and every other field of the entry stay as they are, one notice
    says what was set, and the panel is back on the zone grid, out of
    the drilled-in list, with the focus released.  The priority stored
    is the number `parseInt` reads from the text, where that is an
    integer a double holds exactly; a text in which `parseInt` reads no
    number changes nothing and produces no notice, and the panel goes
    back to the zone grid all the same; a longer run of digits is
    rounded by `parseInt`, which is outside the model. *)
Theorem sub_editors_change_one_field
    (s : state) (comps : list ZoneComponent.t) (comp : ZoneComponent.t) :
  Indexed (plugins s) ->
  currentComponents s = Done comps ->
  at_ comps (selectedComponent s) = Some comp ->
  exists i p l,
    plugins s !! i = Some p /\
    EnrichedPlugin.layout p = Some l /\
    ZoneComponent.pluginIndex comp = Z.of_nat i /\
    let back (s' : state) :=
      view s' = Zones /\ drillMode s' = false /\ focused s' = false in
    let changed (nl : PluginLayout.t) (msg : string) (o : outcome state) :=
      exists s',
        o = Done s' /\
        plugins s' = <[i := withLayout (Some nl) p]> (plugins s) /\
        notices s'
          = notices s ++ [ {| message := msg; noticeType := Success |} ] /\
        back s' in
    (view s = MoveZone ->
     forall zone,
       changed (withPosition (zoneName zone) l)
         ("Moved " +:+ ZoneComponent.displayName comp +:+ " to "
          +:+ zoneName zone)
         (handle (MoveZoneSelect zone) comps s)) /\
    (view s = EditPriority ->
     forall text,
       match Str.parseInt text with
       | Str.Int n =>
           changed (withPriority n l) ("Priority set to " +:+ Str.stringOfZ n)
             (handle (SubmitPriority text) comps s)
       | Str.NaN =>
           exists s',
             handle (SubmitPriority text) comps s = Done s' /\
             plugins s' = plugins s /\ notices s' = notices s /\ back s'
       | Str.Rounded => handle (SubmitPriority text) comps s = OffModel
       end) /\
    (view s = EditDisplay ->
     forall mode,
       changed (withDisplay mode l) ("Display set to " +:+ mode)
         (handle (DisplaySelect mode) comps s)) /\
    (view s = EditCondition ->
     forall text,
       changed
         (withCondition
            (if String.eqb (Str.trim text) "" then None
             else Some (Str.trim text)) l)
         (if String.eqb (Str.trim text) "" then "Condition removed"
          else "Condition set to " +:+ Str.trim text)
         (handle (SubmitCondition text) comps s)).
Proof.
  intros Hidx Hcomps Hat.
  assert (Hin : comp ∈ comps).
  { unfold at_ in Hat. destruct (selectedComponent s <? 0); [done|].
    by apply list_elem_of_lookup_2 in Hat. }
  destruct (component_plugin s comps comp Hidx Hcomps Hin)
    as (i' & p' & l' & Hp' & _ & Hl' & Hpi' & _ & Hfind).
  destruct (selected_plugin s comps comp Hidx Hcomps Hat)
    as (i & p & l & Hp & Hen & Hl & Hpi & Hwith).
  assert (i' = i) as -> by lia.
  exists i, p, l. split; [done|]. split; [done|]. split; [done|]. simpl.
  split; [|split; [|split]].
  - intros Hview zone. unfold handle. rewrite Hview, Hat.
    unfold moveZoneSelect. rewrite Hwith.
    rewrite (updateLayout_spec s i p _ Hidx Hp). by eexists.
  - intros Hview text. unfold handle. rewrite Hview, Hat.
    unfold submitPriority. destruct (Str.parseInt text) as [|n|].
    + by eexists.
    + rewrite Hwith. rewrite (updateLayout_spec s i p _ Hidx Hp). by eexists.
    + rewrite Hfind. destruct (Z.leb_spec 0 (Z.of_nat i)); [|lia].
      unfold at_. destruct (Z.ltb_spec (Z.of_nat i) 0); [lia|].
      by rewrite Nat2Z.id, Hp; simpl; rewrite Hl.
  - intros Hview mode. unfold handle. rewrite Hview, Hat.
    unfold displaySelect. rewrite Hwith.
    rewrite (updateLayout_spec s i p _ Hidx Hp). by eexists.
  - intros Hview text. unfold handle. rewrite Hview, Hat.
    unfold submitCondition. rewrite Hwith.
    destruct (String.eqb (Str.trim text) "");
      rewrite (updateLayout_spec s i p _ Hidx Hp); by eexists.
Qed.

Lemma currentComponents_grid s comps :
  currentComponents s = Done comps ->
  exists base, getZoneComponents (plugins s) = Done base.
Proof.
  unfold currentComponents, zoneComponents. intros H.
  apply bind_Done in H as (zones & H & _).
  apply bind_Done in H as (base & H & _). by exists base.
Qed.

Lemma currentComponents_Done s zones :
  getZoneComponents (plugins s) = Done zones ->
  is_Some (getActiveZone s) ->
  exists comps, currentComponents s = Done comps.
Proof.
  intros Hzones [zone Hzone]. unfold currentComponents, zoneComponents.
  rewrite Hzones, Hzone. simpl.
  destruct (String.eqb (activePageType s) "default"); simpl; [by eexists|].
  destruct (overrideFor _ _); simpl; by eexists.
Qed.

(** Moving a component to another zone.  In a state the panel can
    reach, with the move list open on the selected component, choosing
    a zone succeeds; in the default grid afterwards the plugin's
    component is in the chosen zone and in no other, every component of
    another plugin is in the zone it was in, the notice
    "Moved ... to ..." is produced, the cursor is at 0 and the panel is
    back on the zone grid. *)
Theorem move_zone_moves_one_component
    (s : state) (comps : list ZoneComponent.t) (comp : ZoneComponent.t)
    (zone : Zone) :
  reachable s ->
  view s = MoveZone ->
  currentComponents s = Done comps ->
  at_ comps (selectedComponent s) = Some comp ->
  exists s' base zones' c,
    step (MoveZoneSelect zone) s = Done s' /\
    getZoneComponents (plugins s) = Done base /\
    getZoneComponents (plugins s') = Done zones' /\
    c ∈ zones' zone /\
    ZoneComponent.pluginIndex c = ZoneComponent.pluginIndex comp /\
    ZoneComponent.position c = zoneName zone /\
    (forall z c', c' ∈ zones' z ->
                  ZoneComponent.pluginIndex c' = ZoneComponent.pluginIndex comp ->
                  z = zone) /\
    (forall z c', ZoneComponent.pluginIndex c' <> ZoneComponent.pluginIndex comp ->
                  (c' ∈ zones' z <-> c' ∈ base z)) /\
    notices s'
      = notices s
        ++ [ {| message := "Moved " +:+ ZoneComponent.displayName comp +:+ " to "
                           +:+ zoneName zone;
                noticeType := Success |} ] /\
    selectedComponent s' = 0 /\ view s' = Zones.
Proof.
  intros Hreach Hview Hcomps Hat.
  pose proof (reachable_coherent s Hreach) as Hcoh.
  pose proof Hcoh as (Hidx & _).
  destruct (selected_plugin s comps comp Hidx Hcomps Hat)
    as (i & p & l & Hp & Hen & Hl & Hpi & Hwith).
  destruct (currentComponents_grid s comps Hcomps) as (base & Hbase).
  destruct (grid_after_update (plugins s) base i p
              (Some (withPosition (zoneName zone) l)) Hidx Hbase Hp)
    as (zones' & Hzones' & Hspec); [apply zoneName_not_inherited|].
  set (s1 := exitView
               (setSelectedComponent 0
                  (notify ("Moved " +:+ ZoneComponent.displayName comp
                           +:+ " to " +:+ zoneName zone) Success
                     (setPlugins
                        (<[i := withLayout
                                  (Some (withPosition (zoneName zone) l)) p]>
                           (plugins s)) s)))).
  assert (Hs1 : handle (MoveZoneSelect zone) comps s = Done s1).
  { unfold s1, handle. rewrite Hview, Hat. unfold moveZoneSelect.
    rewrite Hwith. by rewrite (updateLayout_spec s i p _ Hidx Hp). }
  assert (Hactive : is_Some (getActiveZone s1)).
  { apply coherent_active_zone.
    by apply (layout_handle_coherent _ _ _ _ Hs1). }
  destruct (currentComponents_Done s1 zones') as (comps1 & Hcomps1);
    [done | done |].
  exists (settle (Some s) comps1 s1), base, zones',
    (componentOf (withLayout (Some (withPosition (zoneName zone) l)) p)
       (withPosition (zoneName zone) l)).
  split.
  { unfold step. rewrite Hcomps. cbn [bind]. rewrite Hs1. cbn [bind].
    by rewrite Hcomps1. }
  destruct (CommitFacts.layout_settle_frame (Some s) comps1 s1)
    as (Hpl & _ & Hv & _ & _ & _ & _ & Hn).
  rewrite Hpl, Hv, Hn.
  split; [done|]. split; [done|].
  split; [apply Hspec; right; split; [done|]; by eexists|].
  split; [simpl; by rewrite (Hidx i p Hp) |].
  split; [done|].
  split.
  { intros z c' Hc' Hidxc. apply Hspec in Hc' as [[Hne _]|(_ & l' & [= <-] & Hpos & _)].
    - rewrite Hidxc, Hpi in Hne. done.
    - simpl in Hpos. by apply zoneName_inj. }
  split.
  { intros z c' Hne. rewrite Hspec. rewrite Hpi in Hne. split.
    - intros [[_ Hc']|(_ & l' & [= <-] & _ & ->)]; [done|].
      simpl in Hne. rewrite (Hidx i p Hp) in Hne. done.
    - intros Hc'. by left. }
  split; [done|].
  split; [|done].
  rewrite CursorFacts.settle_spec. simpl.
  destruct (resetEffectFires _ _); [done|].
  by destruct (Z.leb_spec (Z.of_nat (length comps1)) 0); [lia|].
Qed.

(** Removing a component from the layout.  In a state the panel can
    reach, with the removal prompt open on the selected component,
    confirming succeeds; the plugin stays in the list, in its place,
    with its layout entry gone and nothing else changed; in the default
    grid afterwards no zone holds a component of that plugin and every
    other component is in the zone it was in; the notice
    "Removed ... from layout" is produced and the panel is back on the
    zone grid. *)
Theorem remove_from_layout_keeps_plugin
    (s : state) (comps : list ZoneComponent.t) (comp : ZoneComponent.t) :
  reachable s ->
  view s = ConfirmRemoveLayout ->
  currentComponents s = Done comps ->
  at_ comps (selectedComponent s) = Some comp ->
  exists s' i p base zones',
    step ConfirmYes s = Done s' /\
    plugins s !! i = Some p /\
    ZoneComponent.pluginIndex comp = Z.of_nat i /\
    plugins s' = <[i := withLayout None p]> (plugins s) /\
    getZoneComponents (plugins s) = Done base /\
    getZoneComponents (plugins s') = Done zones' /\
    (forall z c, c ∈ zones' z <->
                 c ∈ base z /\ ZoneComponent.pluginIndex c <> Z.of_nat i) /\
    notices s'
      = notices s
        ++ [ {| message := "Removed " +:+ ZoneComponent.displayName comp
                           +:+ " from layout";
                noticeType := Success |} ] /\
    view s' = Zones.
Proof.
  intros Hreach Hview Hcomps Hat.
  pose proof (reachable_coherent s Hreach) as Hcoh.
  pose proof Hcoh as (Hidx & _).
  assert (Hin : comp ∈ comps).
  { unfold at_ in Hat. destruct (selectedComponent s <? 0); [done|].
    by apply list_elem_of_lookup_2 in Hat. }
  destruct (component_plugin s comps comp Hidx Hcomps Hin)
    as (i & p & l & Hp & Hen & Hl & Hpi & _ & Hfind).
  destruct (currentComponents_grid s comps Hcomps) as (base & Hbase).
  destruct (grid_after_update (plugins s) base i p None Hidx Hbase Hp)
    as (zones' & Hzones' & Hspec); [done|].
  set (s1 := exitView
               (notify ("Removed " +:+ ZoneComponent.displayName comp
                        +:+ " from layout") Success
                  (setSelectedComponent (Z.max 0 (selectedComponent s - 1))
                     (setPlugins (<[i := withLayout None p]> (plugins s)) s)))).
  assert (Hs1 : handle ConfirmYes comps s = Done s1).
  { unfold s1, handle. rewrite Hview, Hat. unfold confirmRemove.
    rewrite Hfind. destruct (Z.leb_spec 0 (Z.of_nat i)); [|lia].
    by rewrite (updateLayout_spec s i p _ Hidx Hp). }
  assert (Hactive : is_Some (getActiveZone s1)).
  { apply coherent_active_zone.
    by apply (layout_handle_coherent _ _ _ _ Hs1). }
  destruct (currentComponents_Done s1 zones') as (comps1 & Hcomps1);
    [done | done |].
  exists (settle (Some s) comps1 s1), i, p, base, zones'.
  split.
  { unfold step. rewrite Hcomps. cbn [bind]. rewrite Hs1. cbn [bind].
    by rewrite Hcomps1. }
  destruct (CommitFacts.layout_settle_frame (Some s) comps1 s1)
    as (Hpl & _ & Hv & _ & _ & _ & _ & Hn).
  rewrite Hpl, Hv, Hn.
  split; [done|]. split; [done|]. split; [done|].
  split; [done|]. split; [done|].
  split.
  { intros z c. rewrite Hspec. split.
    - intros [[Hne Hc]|(_ & l' & Hnone & _)]; [done | discriminate].
    - intros [Hc Hne]. by left. }
  split; done.
Qed.

(** Shift+D on a component of the drilled-in zone replaces the whole
    layout entry of its plugin: the new entry has the display mode
    "all" and no condition, no group and no group options, whatever the
    old entry held; every other plugin stays as it is, and the panel
    stays in the drilled-in zone with the cursor where it was.  Where
    the manifest of the plugin has no `components` (or a falsy one),
    the entry keeps the position the component is shown in, takes the
    priority 50, and the notice is "Reset ... display settings".  Where
    `components` has a first value that is truthy, the position is that
    value's `defaultPosition`, or "left" where there is none or it is
    empty, and the
    priority its `defaultPriority`, or 50 where there is none or it is
    0, and the notice is "Restored ... to defaults"; this is so
    wherever the two are a string and a number or are missing, and
    wherever a value of another type is falsy.  Where
    `components` has no first value, or a falsy one, the plugin list is
    left as it is and the one notice is the error
    "No component defaults found in manifest". *)
Theorem restore_defaults_resets_entry
    (s : state) (comps : list ZoneComponent.t) (comp : ZoneComponent.t) :
  Indexed (plugins s) ->
  view s = Zones ->
  drillMode s = true ->
  currentComponents s = Done comps ->
  at_ comps (selectedComponent s) = Some comp ->
  exists i p,
    plugins s !! i = Some p /\
    ZoneComponent.pluginIndex comp = Z.of_nat i /\
    let stays (s' : state) :=
      view s' = Zones /\ drillMode s' = true /\
      selectedComponent s' = selectedComponent s /\
      layout s' = layout s in
    let reset (position : string) (priority : Z) (msg : string) :=
      exists s',
        handle (Key "d" true) comps s = Done s' /\
        plugins s'
          = <[i := withLayout
                     (Some {| PluginLayout.position := position;
                              PluginLayout.priority := priority;
                              PluginLayout.display := Some "all";
                              PluginLayout.condition := None;
                              PluginLayout.group := None;
                              PluginLayout.groupOptions := None |}) p]>
              (plugins s) /\
        notices s'
          = notices s ++ [ {| message := msg; noticeType := Success |} ] /\
        stays s' in
    match whenTruthy (EnrichedPlugin.manifest p ≫= getProp "components") with
    | None =>
        reset (ZoneComponent.position comp) 50
          ("Reset " +:+ ZoneComponent.displayName comp +:+ " display settings")
    | Some components =>
        match whenTruthy (firstValue components) with
        | None =>
            exists s',
              handle (Key "d" true) comps s = Done s' /\
              plugins s' = plugins s /\
              notices s'
                = notices s
                  ++ [ {| message := "No component defaults found in manifest";
                          noticeType := Error |} ] /\
              stays s'
        | Some compEntry =>
            let restored position priority :=
              reset position priority
                ("Restored " +:+ ZoneComponent.displayName comp
                 +:+ " to defaults") in
            (forall position priority,
                (readEntry "defaultPosition" compEntry = Undefined /\
                 position = "left" \/
                 exists t, readEntry "defaultPosition" compEntry = Val (VStr t) /\
                           position = if String.eqb t "" then "left" else t) ->
                (readEntry "defaultPriority" compEntry = Undefined /\
                 priority = 50 \/
                 exists n, readEntry "defaultPriority" compEntry = Val (VNum n) /\
                           priority = if n =? 0 then 50 else n) ->
                restored position priority) /\
            (forall position priority,
                stringOr "left" (readEntry "defaultPosition" compEntry)
                  = Done position ->
                numberOr 50 (readEntry "defaultPriority" compEntry)
                  = Done priority ->
                restored position priority /\
                (position = "left" \/
                 readEntry "defaultPosition" compEntry = Val (VStr position)) /\
                (priority = 50 \/
                 readEntry "defaultPriority" compEntry = Val (VNum priority)))
        end
    end.
Proof.
  intros Hidx Hview Hdrill Hcomps Hat.
  assert (Hin : comp ∈ comps).
  { unfold at_ in Hat. destruct (selectedComponent s <? 0); [done|].
    by apply list_elem_of_lookup_2 in Hat. }
  destruct (component_plugin s comps comp Hidx Hcomps Hin)
    as (i & p & l & Hp & Hen & Hl & Hpi & _ & Hfind).
  exists i, p. split; [done|]. split; [done|].
  assert (Hat' : at_ (plugins s) (Z.of_nat i) = Some p).
  { unfold at_. destruct (Z.ltb_spec (Z.of_nat i) 0); [lia|].
    by rewrite Nat2Z.id. }
  assert (Hrun : handle (Key "d" true) comps s = restoreDefaults comp s).
  { unfold handle. rewrite Hview. unfold onKeyZones. by rewrite Hdrill, Hat. }
  cbv zeta. rewrite Hrun. unfold restoreDefaults. rewrite Hfind.
  destruct (Z.leb_spec 0 (Z.of_nat i)); [|lia]. rewrite Hat'.
  destruct (whenTruthy (EnrichedPlugin.manifest p ≫= getProp "components"))
    as [components|].
  - destruct (whenTruthy (firstValue components)) as [compEntry|].
    + split.
      { intros position priority Hposition Hpriority.
        assert (Hpos : stringOr "left" (readEntry "defaultPosition" compEntry)
                       = Done position).
        { destruct Hposition as [[-> ->]|(t & -> & ->)]; reflexivity. }
        assert (Hpri : numberOr 50 (readEntry "defaultPriority" compEntry)
                       = Done priority).
        { destruct Hpriority as [[-> ->]|(n & -> & ->)]; reflexivity. }
        rewrite Hpos, Hpri. cbn [bind].
        rewrite (updateLayout_spec s i p _ Hidx Hp). by eexists. }
      intros position priority Hposition Hpriority.
      rewrite Hposition, Hpriority. cbn [bind].
      rewrite (updateLayout_spec s i p _ Hidx Hp).
      split; [by eexists|]. split.
      * unfold stringOr in Hposition.
        destruct (readEntry "defaultPosition" compEntry)
          as [[ | b | n | t | items | o ]| | | |]; simpl in Hposition;
          try discriminate; try (injection Hposition as <-; by left).
        -- destruct b; [discriminate | injection Hposition as <-; by left].
        -- destruct (n =? 0); [injection Hposition as <-; by left | discriminate].
        -- destruct (String.eqb t ""); injection Hposition as <-;
             [by left | by right].
      * unfold numberOr in Hpriority.
        destruct (readEntry "defaultPriority" compEntry)
          as [[ | b | n | t | items | o ]| | | |]; simpl in Hpriority;
          try discriminate; try (injection Hpriority as <-; by left).
        -- destruct b; [discriminate | injection Hpriority as <-; by left].
        -- destruct (n =? 0); injection Hpriority as <-; [by left | by right].
        -- destruct (String.eqb t "");
             [injection Hpriority as <-; by left | discriminate].
    + by eexists.
  - rewrite (updateLayout_spec s i p _ Hidx Hp). by eexists.
Qed.

(** Shift+Up in a drilled-in zone trades the priorities of the selected
    component's plugin and of the plugin of the component above it, and
    nothing else: every other plugin and every other field of the two
    layout entries stay as they are, the cursor moves up by one and the
    notice "Moved up" is produced.  When the two priorities are equal
    the plugin list does not change at all, so the order in the zone
    stays as it was while the cursor still moves. *)
Theorem shift_up_trades_priorities
    (s : state) (comps : list ZoneComponent.t) (comp above : ZoneComponent.t) :
  Indexed (plugins s) ->
  view s = Zones ->
  drillMode s = true ->
  currentComponents s = Done comps ->
  at_ comps (selectedComponent s) = Some comp ->
  0 < selectedComponent s ->
  at_ comps (selectedComponent s - 1) = Some above ->
  ZoneComponent.pluginIndex comp <> ZoneComponent.pluginIndex above ->
  exists i j p q l m,
    plugins s !! i = Some p /\ EnrichedPlugin.layout p = Some l /\
    ZoneComponent.pluginIndex comp = Z.of_nat i /\
    ZoneComponent.priority comp = PluginLayout.priority l /\
    plugins s !! j = Some q /\ EnrichedPlugin.layout q = Some m /\
    ZoneComponent.pluginIndex above = Z.of_nat j /\
    ZoneComponent.priority above = PluginLayout.priority m /\
    exists s',
      handle (Key "up" true) comps s = Done s' /\
      plugins s'
        = <[j := withLayout (Some (withPriority (PluginLayout.priority l) m)) q]>
            (<[i := withLayout (Some (withPriority (PluginLayout.priority m) l)) p]>
               (plugins s)) /\
      selectedComponent s' = selectedComponent s - 1 /\
      notices s' = notices s ++ [ {| message := "Moved up"; noticeType := Success |} ] /\
      (PluginLayout.priority l = PluginLayout.priority m -> plugins s' = plugins s).
Proof.
  intros Hidx Hview Hdrill Hcomps Hat Hsel Habove Hne.
  assert (Hin : forall c k, at_ comps k = Some c -> c ∈ comps).
  { intros c k H. unfold at_ in H. destruct (k <? 0); [done|].
    by apply list_elem_of_lookup_2 in H. }
  destruct (component_plugin s comps comp Hidx Hcomps (Hin _ _ Hat))
    as (i & p & l & Hp & _ & Hl & Hpi & Hpr & Hfind).
  destruct (component_plugin s comps above Hidx Hcomps (Hin _ _ Habove))
    as (j & q & m & Hq & _ & Hm & Hqj & Hqr & Hfindj).
  assert (Hij : i <> j) by (intros ->; congruence).
  exists i, j, p, q, l, m. repeat (split; [done|]).
  assert (Hati : at_ (plugins s) (Z.of_nat i) = Some p).
  { unfold at_. destruct (Z.ltb_spec (Z.of_nat i) 0); [lia|].
    by rewrite Nat2Z.id. }
  assert (Hatj : at_ (plugins s) (Z.of_nat j) = Some q).
  { unfold at_. destruct (Z.ltb_spec (Z.of_nat j) 0); [lia|].
    by rewrite Nat2Z.id. }
  assert (Hrun : handle (Key "up" true) comps s
                 = Done (swapWith (-1) comp above s)).
  { unfold handle. rewrite Hview. unfold onKeyZones. rewrite Hdrill, Hat.
    cbn [negb String.eqb Ascii.eqb Bool.eqb andb].
    destruct (Z.ltb_spec 0 (selectedComponent s)); [|lia].
    by rewrite Habove. }
  eexists. split; [exact Hrun|].
  unfold swapWith. rewrite Hfind, Hfindj.
  destruct (Z.leb_spec 0 (Z.of_nat i)); [|lia].
  destruct (Z.leb_spec 0 (Z.of_nat j)); [|lia].
  cbn [andb]. rewrite Hati, Hatj. cbn [mbind option_bind]. rewrite Hl, Hm.
  rewrite (updateLayout_spec s i p _ Hidx Hp).
  set (s1 := setPlugins _ s).
  assert (Hidx1 : Indexed (plugins s1)) by (by apply (Indexed_insert _ _ p)).
  assert (Hq1 : plugins s1 !! j = Some q).
  { unfold s1. simpl. by rewrite list_lookup_insert_ne. }
  rewrite (updateLayoutFrom_spec (plugins s) s1 j q q _ Hidx1 Hq (Hidx j q Hq) Hq1).
  simpl. rewrite Hpr, Hqr.
  split; [done|]. split; [lia|]. split; [done|].
  intros Heq. rewrite Heq.
  assert (Hsame : forall (r : EnrichedPlugin.t) (lr : PluginLayout.t),
            EnrichedPlugin.layout r = Some lr ->
            withLayout (Some (withPriority (PluginLayout.priority lr) lr)) r = r).
  { intros [] [] [= ->]. reflexivity. }
  rewrite <- Heq at 2. rewrite (Hsame p l Hl), (Hsame q m Hm).
  by rewrite (list_insert_id _ i p), (list_insert_id _ j q).
Qed.

(** *** Page types *)

Lemma pageTypes_fold keyList :
  forall types,
    NoDup types ->
    let result :=
      fold_left
        (fun types key =>
           if existsb (String.eqb key) types then types else types ++ [key])
        keyList types in
    NoDup result /\
    (exists more, result = types ++ more) /\
    (forall k, k ∈ result <-> k ∈ types \/ k ∈ keyList).
Proof.
  induction keyList as [|key rest IH]; intros types Hnd; simpl.
  - split; [done|]. split; [exists []; by rewrite app_nil_r|].
    intros k. rewrite elem_of_nil. tauto.
  - destruct (existsb (String.eqb key) types) eqn:Hex.
    + destruct (IH types Hnd) as (H1 & H2 & H3).
      split; [done|]. split; [done|]. intros k. rewrite H3, elem_of_cons.
      apply existsb_exists in Hex as (x & Hx & Heq).
      apply String.eqb_eq in Heq as ->. apply list_elem_of_In in Hx.
      split; [tauto|]. intros [?|[->|?]]; auto.
    + assert (Hnotin : key ∉ types).
      { intros Hin. apply Bool.not_true_iff_false in Hex. apply Hex.
        apply existsb_exists. exists key.
        split; [by apply list_elem_of_In | apply String.eqb_refl]. }
      destruct (IH (types ++ [key])) as (H1 & (more & H2) & H3).
      { apply NoDup_app. split; [done|]. split; [|apply NoDup_singleton].
        intros x Hx Hx'. apply list_elem_of_singleton in Hx' as ->. done. }
      split; [done|]. split; [exists (key :: more); by rewrite H2, <- app_assoc|].
      intros k. rewrite H3, elem_of_app, list_elem_of_singleton, elem_of_cons.
      tauto.
Qed.

Lemma indexOfFrom_NoDup k (l : list string) i x :
  NoDup l -> l !! i = Some x -> indexOfFrom k x l = k + Z.of_nat i.
Proof.
  revert k i. induction l as [|y rest IH]; intros k i Hnd Hi; [done|].
  apply NoDup_cons in Hnd as [Hy Hnd]. simpl. destruct i as [|i].
  - injection Hi as ->. rewrite String.eqb_refl. lia.
  - simpl in Hi. destruct (String.eqb_spec y x) as [->|_].
    + exfalso. apply Hy. by apply list_elem_of_lookup_2 in Hi.
    + rewrite (IH (k + 1) i Hnd Hi). lia.
Qed.

Lemma indexOfFrom_absent k (l : list string) x :
  x ∉ l -> indexOfFrom k x l = -1.
Proof.
  revert k. induction l as [|y rest IH]; intros k Hx; [done|].
  apply not_elem_of_cons in Hx as [Hne Hx]. simpl.
  destruct (String.eqb_spec y x); [congruence|]. by apply IH.
Qed.

(** The page types the panel walks through are "default" followed by
    the keys of `byPageType`, each once.  With more than one page type,
    `]` selects the page type that follows the active one in that list
    and `[` the one before it, going round at the ends, so that each
    key undoes the other; nothing else changes.  With "default" as the
    only page type both keys do nothing.  From a page type that is no
    longer in the list, `]` selects "default". *)
Theorem page_type_keys (s : state) (comps : list ZoneComponent.t) :
  view s = Zones ->
  drillMode s = false ->
  let types := pageTypes (layoutConfig s) in
  let n := Z.of_nat (length types) in
  NoDup types /\
  (exists more, types = "default" :: more) /\
  (forall k, k ∈ types <->
             k = "default" \/
             exists keyed, byPageType (layoutConfig s) = Some keyed /\
                           k ∈ keyed.*1) /\
  (forall i,
      types !! i = Some (activePageType s) -> 1 < n ->
      exists next prev,
        types !! Z.to_nat ((Z.of_nat i + 1) mod n) = Some next /\
        types !! Z.to_nat ((Z.of_nat i + (n - 1)) mod n) = Some prev /\
        handle (Key "]" false) comps s = Done (setActivePageType next s) /\
        handle (Key "[" false) comps s = Done (setActivePageType prev s) /\
        handle (Key "[" false) comps (setActivePageType next s) = Done s /\
        handle (Key "]" false) comps (setActivePageType prev s) = Done s) /\
  (n <= 1 ->
   handle (Key "]" false) comps s = Done s /\
   handle (Key "[" false) comps s = Done s) /\
  (activePageType s ∉ types -> 1 < n ->
   handle (Key "]" false) comps s = Done (setActivePageType "default" s)).
Proof.
  intros Hview Hdrill types n.
  assert (Hspec : NoDup types /\
                  (exists more, types = "default" :: more) /\
                  (forall k, k ∈ types <->
                             k = "default" \/
                             exists keyed,
                               byPageType (layoutConfig s) = Some keyed /\
                               k ∈ keyed.*1)).
  { unfold types, pageTypes.
    destruct (byPageType (layoutConfig s)) as [keyed|].
    - destruct (pageTypes_fold (map fst keyed) ["default"])
        as (H1 & (more & H2) & H3); [apply NoDup_singleton|].
      cbv zeta in H1, H2, H3. split; [done|]. split; [by exists more|].
      intros k. rewrite H3, list_elem_of_singleton. split.
      + intros [?|?]; [by left|]. right. by exists keyed.
      + intros [?|(? & [= <-] & ?)]; [by left | by right].
    - split; [apply NoDup_singleton|]. split; [by exists []|].
      intros k. rewrite list_elem_of_singleton. split; [by left|].
      intros [?|(? & ? & _)]; done. }
  destruct Hspec as (Hnd & Hhead & Hmem).
  split; [done|]. split; [done|]. split; [done|].
  assert (Hkey : forall name delta t,
            view t = Zones -> drillMode t = false ->
            layout t = layout s ->
            (name = "]" /\ delta = 1 \/ name = "[" /\ delta = n - 1) ->
            handle (Key name false) comps t
            = Done (if 1 <? n then cyclePageType delta t else t)).
  { intros name delta t Hv Hd Hl Hname. unfold handle. rewrite Hv.
    unfold onKeyZones. rewrite Hd.
    assert (Hlen : Z.of_nat (length (pageTypes (layoutConfig t))) = n).
    { unfold n, types, layoutConfig. by rewrite Hl. }
    rewrite Hlen.
    destruct Hname as [[-> ->]|[-> ->]];
      cbn [negb String.eqb Ascii.eqb Bool.eqb andb orb];
      by destruct (1 <? n). }
  assert (Hcycle : forall delta t i x,
            layout t = layout s -> 0 <= delta ->
            types !! i = Some x -> activePageType t = x ->
            exists y, types !! Z.to_nat ((Z.of_nat i + delta) mod n) = Some y /\
                      cyclePageType delta t = setActivePageType y t).
  { intros delta t i x Hl Hdelta Hi Hx.
    assert (Hn : 0 < n).
    { unfold n. apply lookup_lt_Some in Hi. lia. }
    assert (Hrange : 0 <= (Z.of_nat i + delta) mod n < n)
      by (apply Z.mod_pos_bound; lia).
    destruct (lookup_lt_is_Some_2 types
                (Z.to_nat ((Z.of_nat i + delta) mod n))) as [y Hy];
      [unfold n in *; lia|].
    exists y. split; [done|]. unfold cyclePageType.
    assert (Htypes : pageTypes (layoutConfig t) = types).
    { unfold types, layoutConfig. by rewrite Hl. }
    rewrite Htypes, Hx. fold n.
    rewrite (indexOfFrom_NoDup 0 types i x Hnd Hi). rewrite Z.add_0_l.
    unfold at_. destruct (Z.ltb_spec ((Z.of_nat i + delta) mod n) 0); [lia|].
    by rewrite Hy. }
  split; [|split].
  - intros i Hi Hmany.
    assert (Hi' : Z.of_nat i < n).
    { unfold n. apply lookup_lt_Some in Hi. lia. }
    assert (Hlt : (1 <? n) = true) by (by apply Z.ltb_lt).
    destruct (Hcycle 1 s i _ eq_refl ltac:(lia) Hi eq_refl) as (y & Hy & Hnext).
    destruct (Hcycle (n - 1) s i _ eq_refl ltac:(lia) Hi eq_refl)
      as (w & Hw & Hprev).
    exists y, w. split; [done|]. split; [done|].
    split; [by rewrite (Hkey "]" 1 s Hview Hdrill eq_refl), Hlt, Hnext by auto|].
    split; [by rewrite (Hkey "[" (n - 1) s Hview Hdrill eq_refl), Hlt, Hprev
              by auto|].
    split.
    + rewrite (Hkey "[" (n - 1) (setActivePageType y s)) by auto.
      rewrite Hlt.
      destruct (Hcycle (n - 1) (setActivePageType y s) _ y eq_refl
                  ltac:(lia) Hy eq_refl) as (z & Hz & ->).
      assert (Hzi : Z.to_nat ((Z.of_nat (Z.to_nat ((Z.of_nat i + 1) mod n))
                               + (n - 1)) mod n) = i).
      { rewrite Z2Nat.id by (apply Z.mod_pos_bound; lia).
        destruct (Z.eq_dec (Z.of_nat i + 1) n) as [Heq|Hneq].
        - rewrite Heq, Z.mod_same by lia.
          rewrite Z.mod_small by lia. lia.
        - rewrite (Z.mod_small (Z.of_nat i + 1)) by lia.
          replace (Z.of_nat i + 1 + (n - 1)) with (Z.of_nat i + 1 * n) by lia.
          rewrite Z.mod_add by lia. rewrite Z.mod_small by lia. lia. }
      rewrite Hzi in Hz. rewrite Hi in Hz. injection Hz as <-.
      by destruct s.
    + rewrite (Hkey "]" 1 (setActivePageType w s)) by auto.
      rewrite Hlt.
      destruct (Hcycle 1 (setActivePageType w s) _ w eq_refl
                  ltac:(lia) Hw eq_refl) as (z & Hz & ->).
      assert (Hzi : Z.to_nat ((Z.of_nat (Z.to_nat ((Z.of_nat i + (n - 1)) mod n))
                               + 1) mod n) = i).
      { rewrite Z2Nat.id by (apply Z.mod_pos_bound; lia).
        destruct (Z.eq_dec (Z.of_nat i) 0) as [Heq|Hneq].
        - rewrite Heq. rewrite Z.add_0_l.
          rewrite (Z.mod_small (n - 1)) by lia.
          replace (n - 1 + 1) with n by lia. rewrite Z.mod_same by lia. lia.
        - replace (Z.of_nat i + (n - 1)) with (Z.of_nat i - 1 + 1 * n) by lia.
          rewrite Z.mod_add by lia.
          rewrite (Z.mod_small (Z.of_nat i - 1)) by lia.
          replace (Z.of_nat i - 1 + 1) with (Z.of_nat i) by lia.
          rewrite Z.mod_small by lia. lia. }
      rewrite Hzi in Hz. rewrite Hi in Hz. injection Hz as <-.
      by destruct s.
  - intros Hone.
    rewrite (Hkey "]" 1 s Hview Hdrill eq_refl) by auto.
    rewrite (Hkey "[" (n - 1) s Hview Hdrill eq_refl) by auto.
    by destruct (Z.ltb_spec 1 n); [lia|].
  - intros Hstale Hmany.
    rewrite (Hkey "]" 1 s Hview Hdrill eq_refl) by auto.
    destruct (Z.ltb_spec 1 n); [|lia].
    unfold cyclePageType. fold types. fold n.
    rewrite (indexOfFrom_absent 0 types _ Hstale).
    replace (-1 + 1) with 0 by lia. rewrite Z.mod_0_l by lia.
    destruct Hhead as (more & Hmore). rewrite Hmore. done.
Qed.

(** ** Instances *)

Lemma headerDrilled_reachable : reachable Examples.headerDrilled.
Proof.
  assert (H0 : reachable Examples.headerGrid).
  { exact (reach_mount Sample.headerPlugins None _ eq_refl). }
  assert (H1 : reachable (setDrillMode true Examples.headerGrid)).
  { eapply (reach_step _ (Key "return" false) _ _ H0); [reflexivity|done|].
    by vm_compute. }
  eapply (reach_step _ (SelectChange 2) _ _ H1); [reflexivity| |].
  - by vm_compute.
  - by vm_compute.
Qed.

Lemma headerEditing_reachable v :
  v = MoveZone \/ v = ConfirmRemoveLayout ->
  reachable (Examples.headerEditing v).
Proof.
  intros [->| ->].
  - eapply (reach_step _ (Key "m" false) _ _ headerDrilled_reachable);
      [reflexivity|done|]. by vm_compute.
  - eapply (reach_step _ (Key "x" false) _ _ headerDrilled_reachable);
      [reflexivity|done|]. by vm_compute.
Qed.


Lemma sub_editors_change_one_field_witness :
  let comps := Examples.headerComponents in
  let comp := Examples.breadcrumbsComponent in
  let back (s' : state) :=
    view s' = Zones /\ drillMode s' = false /\ focused s' = false in
  let edited (v : View) (e : event)
      (field : PluginLayout.t -> PluginLayout.t) (msg : string) :=
    exists i p l s',
      plugins (Examples.headerEditing v) !! i = Some p /\
      EnrichedPlugin.layout p = Some l /\
      ZoneComponent.pluginIndex comp = Z.of_nat i /\
      handle e comps (Examples.headerEditing v) = Done s' /\
      plugins s'
        = <[i := withLayout (Some (field l)) p]>
            (plugins (Examples.headerEditing v)) /\
      notices s'
        = notices (Examples.headerEditing v)
          ++ [ {| message := msg; noticeType := Success |} ] /\
      back s' in
  edited MoveZone (MoveZoneSelect Footer) (withPosition "footer")
    "Moved Breadcrumbs to footer" /\
  edited EditPriority (SubmitPriority "7") (withPriority 7)
    "Priority set to 7" /\
  (exists s',
      handle (SubmitPriority "soon") comps (Examples.headerEditing EditPriority)
        = Done s' /\
      plugins s' = plugins (Examples.headerEditing EditPriority) /\
      notices s' = notices (Examples.headerEditing EditPriority) /\
      back s') /\
  handle (SubmitPriority "9007199254740993") comps
    (Examples.headerEditing EditPriority) = OffModel /\
  edited EditDisplay (DisplaySelect "mobile-only") (withDisplay "mobile-only")
    "Display set to mobile-only" /\
  edited EditCondition (SubmitCondition "  ") (withCondition None)
    "Condition removed".
Proof.
  intros comps comp back edited.
  pose proof (fun v =>
                sub_editors_change_one_field (Examples.headerEditing v)
                  comps comp (getEnrichedPlugins_Indexed _) eq_refl eq_refl)
    as Hthm.
  assert (H7 : Str.parseInt "7" = Str.Int 7) by reflexivity.
  assert (Hsoon : Str.parseInt "soon" = Str.NaN) by reflexivity.
  assert (Hlong : Str.parseInt "9007199254740993" = Str.Rounded) by reflexivity.
  split; [|split; [|split; [|split; [|split]]]].
  - destruct (Hthm MoveZone) as (i & p & l & Hp & Hl & Hi & Hmove & _).
    destruct (Hmove eq_refl Footer) as (s' & Hs' & H).
    exists i, p, l, s'. exact (conj Hp (conj Hl (conj Hi (conj Hs' H)))).
  - destruct (Hthm EditPriority) as (i & p & l & Hp & Hl & Hi & _ & Hprio & _).
    pose proof (Hprio eq_refl "7") as H. rewrite H7 in H.
    destruct H as (s' & Hs' & H).
    exists i, p, l, s'. exact (conj Hp (conj Hl (conj Hi (conj Hs' H)))).
  - destruct (Hthm EditPriority) as (i & p & l & Hp & Hl & Hi & _ & Hprio & _).
    pose proof (Hprio eq_refl "soon") as H. rewrite Hsoon in H. exact H.
  - destruct (Hthm EditPriority) as (i & p & l & Hp & Hl & Hi & _ & Hprio & _).
    pose proof (Hprio eq_refl "9007199254740993") as H. rewrite Hlong in H.
    exact H.
  - destruct (Hthm EditDisplay) as (i & p & l & Hp & Hl & Hi & _ & _ & Hdisp & _).
    destruct (Hdisp eq_refl "mobile-only") as (s' & Hs' & H).
    exists i, p, l, s'. exact (conj Hp (conj Hl (conj Hi (conj Hs' H)))).
  - destruct (Hthm EditCondition)
      as (i & p & l & Hp & Hl & Hi & _ & _ & _ & Hcond).
    destruct (Hcond eq_refl "  ") as (s' & Hs' & H).
    exists i, p, l, s'. exact (conj Hp (conj Hl (conj Hi (conj Hs' H)))).
Defined.

Lemma move_zone_moves_one_component_witness :
  let s := Examples.headerEditing MoveZone in
  let comps := Examples.headerComponents in
  let comp := Examples.breadcrumbsComponent in
  let zone := Footer in
  exists s' base zones' c,
    step (MoveZoneSelect zone) s = Done s' /\
    getZoneComponents (plugins s) = Done base /\
    getZoneComponents (plugins s') = Done zones' /\
    c ∈ zones' zone /\
    ZoneComponent.pluginIndex c = ZoneComponent.pluginIndex comp /\
    ZoneComponent.position c = zoneName zone /\
    (forall z c', c' ∈ zones' z ->
                  ZoneComponent.pluginIndex c' = ZoneComponent.pluginIndex comp ->
                  z = zone) /\
    (forall z c', ZoneComponent.pluginIndex c' <> ZoneComponent.pluginIndex comp ->
                  (c' ∈ zones' z <-> c' ∈ base z)) /\
    notices s'
      = notices s
        ++ [ {| message := "Moved " +:+ ZoneComponent.displayName comp +:+ " to "
                           +:+ zoneName zone;
                noticeType := Success |} ] /\
    selectedComponent s' = 0 /\ view s' = Zones.
Proof.
  intros s comps comp zone. apply (move_zone_moves_one_component s comps comp zone).
  - exact (headerEditing_reachable MoveZone (or_introl eq_refl)).
  - reflexivity.
  - reflexivity.
  - reflexivity.
Defined.

Lemma remove_from_layout_keeps_plugin_witness :
  let s := Examples.headerEditing ConfirmRemoveLayout in
  let comps := Examples.headerComponents in
  let comp := Examples.breadcrumbsComponent in
  exists s' i p base zones',
    step ConfirmYes s = Done s' /\
    plugins s !! i = Some p /\
    ZoneComponent.pluginIndex comp = Z.of_nat i /\
    plugins s' = <[i := withLayout None p]> (plugins s) /\
    getZoneComponents (plugins s) = Done base /\
    getZoneComponents (plugins s') = Done zones' /\
    (forall z c, c ∈ zones' z <->
                 c ∈ base z /\ ZoneComponent.pluginIndex c <> Z.of_nat i) /\
    notices s'
      = notices s
        ++ [ {| message := "Removed " +:+ ZoneComponent.displayName comp
                           +:+ " from layout";
                noticeType := Success |} ] /\
    view s' = Zones.
Proof.
  intros s comps comp. apply (remove_from_layout_keeps_plugin s comps comp).
  - exact (headerEditing_reachable ConfirmRemoveLayout (or_intror eq_refl)).
  - reflexivity.
  - reflexivity.
  - reflexivity.
Defined.

Lemma restore_defaults_resets_entry_witness :
  (exists s',
      handle (Key "d" true) [Examples.explorerComponent] Examples.explorerDrilled
        = Done s' /\
      (EnrichedPlugin.layout <$> plugins s' !! 0%nat)
        = Some (Some {| PluginLayout.position := "right";
                        PluginLayout.priority := 40;
                        PluginLayout.display := Some "all";
                        PluginLayout.condition := None;
                        PluginLayout.group := None;
                        PluginLayout.groupOptions := None |}) /\
      notices s'
        = [ {| message := "Restored Explorer to defaults";
               noticeType := Success |} ] /\
      view s' = Zones /\ drillMode s' = true) /\
  (exists s',
      handle (Key "d" true) Examples.headerComponents Examples.headerDrilled
        = Done s' /\
      (EnrichedPlugin.layout <$> plugins s' !! 2%nat)
        = Some (Some {| PluginLayout.position := "header";
                        PluginLayout.priority := 50;
                        PluginLayout.display := Some "all";
                        PluginLayout.condition := None;
                        PluginLayout.group := None;
                        PluginLayout.groupOptions := None |}) /\
      notices s'
        = [ {| message := "Reset Breadcrumbs display settings";
               noticeType := Success |} ] /\
      view s' = Zones /\ drillMode s' = true).
Proof.
  split.
  - destruct (restore_defaults_resets_entry Examples.explorerDrilled
                [Examples.explorerComponent] Examples.explorerComponent
                (getEnrichedPlugins_Indexed _) eq_refl eq_refl eq_refl eq_refl)
      as (i & p & Hp & Hi & H).
    assert (i = 0%nat) as -> by (simpl in Hi; lia).
    injection Hp as <-.
    destruct (proj1 H "right" 40
                (or_intror (ex_intro _ "right" (conj eq_refl eq_refl)))
                (or_intror (ex_intro _ 40 (conj eq_refl eq_refl))))
      as (s' & Hs' & Hpl & Hn & Hv & Hd & _).
    exists s'. split; [exact Hs'|]. rewrite Hpl, Hn. by repeat split.
  - destruct (restore_defaults_resets_entry Examples.headerDrilled
                Examples.headerComponents Examples.breadcrumbsComponent
                (getEnrichedPlugins_Indexed _) eq_refl eq_refl eq_refl eq_refl)
      as (i & p & Hp & Hi & H).
    assert (i = 2%nat) as -> by (simpl in Hi; lia).
    injection Hp as <-.
    destruct H as (s' & Hs' & Hpl & Hn & Hv & Hd & _).
    exists s'. split; [exact Hs'|]. rewrite Hpl, Hn. by repeat split.
Defined.

Lemma shift_up_trades_priorities_witness :
  let s := Examples.headerDrilled in
  let comps := Examples.headerComponents in
  let comp := Examples.breadcrumbsComponent in
  let above := Examples.darkmodeComponent in
  exists i j p q l m,
    plugins s !! i = Some p /\ EnrichedPlugin.layout p = Some l /\
    ZoneComponent.pluginIndex comp = Z.of_nat i /\
    ZoneComponent.priority comp = PluginLayout.priority l /\
    plugins s !! j = Some q /\ EnrichedPlugin.layout q = Some m /\
    ZoneComponent.pluginIndex above = Z.of_nat j /\
    ZoneComponent.priority above = PluginLayout.priority m /\
    exists s',
      handle (Key "up" true) comps s = Done s' /\
      plugins s'
        = <[j := withLayout (Some (withPriority (PluginLayout.priority l) m)) q]>
            (<[i := withLayout (Some (withPriority (PluginLayout.priority m) l)) p]>
               (plugins s)) /\
      selectedComponent s' = selectedComponent s - 1 /\
      notices s' = notices s ++ [ {| message := "Moved up"; noticeType := Success |} ] /\
      (PluginLayout.priority l = PluginLayout.priority m -> plugins s' = plugins s).
Proof.
  intros s comps comp above.
  apply (shift_up_trades_priorities s comps comp above).
  - apply getEnrichedPlugins_Indexed.
  - reflexivity.
  - reflexivity.
  - reflexivity.
  - reflexivity.
  - reflexivity.
  - reflexivity.
  - discriminate.
Defined.

Lemma page_type_keys_witness :
  let s := Examples.blogGrid in
  let comps := Examples.headerComponents in
  pageTypes (layoutConfig s) = ["default"; "blog"] /\
  activePageType s = "default" /\
  handle (Key "]" false) comps s = Done (setActivePageType "blog" s) /\
  handle (Key "[" false) comps s = Done (setActivePageType "blog" s) /\
  handle (Key "[" false) comps (setActivePageType "blog" s) = Done s /\
  handle (Key "]" false) comps (setActivePageType "blog" s) = Done s.
Proof.
  intros s comps. split; [reflexivity|]. split; [reflexivity|].
  destruct (page_type_keys s comps eq_refl eq_refl)
    as (_ & _ & _ & Hmove & _).
  destruct (Hmove 0%nat eq_refl ltac:(simpl; lia))
    as (next & prev & Hnext & Hprev & H).
  injection Hnext as <-. injection Hprev as <-. exact H.
Defined.

End LayoutOpsFacts.
(** ** The sub-views of the Layout panel *)

Module SubviewFacts.
Import Layout LayoutKeys App PanelSpec.

(** *** The groups view *)

Section Groups.
Import GroupsView.

Lemma selectedGroup_entry layout s name cfg :
  NoDup (keys (groupsOf layout)) ->
  selectedGroup layout s = Some (name, cfg) ->
  getProp name (groupsOf layout) = Some cfg /\
  name ∈ keys (groupsOf layout) /\
  exists first rest, groupsOf layout = first :: rest.
Proof.
  intros Hnd Hsel. apply at_lookup in Hsel as [Hsel _].
  split; [rewrite getProp_getKey; by apply (getKey_lookup _ _ _ _ Hnd Hsel)|].
  split.
  - apply list_elem_of_fmap. exists (name, cfg).
    split; [done|]. by apply list_elem_of_lookup_2 in Hsel.
  - destruct (groupsOf layout) as [|first rest]; [done|]. by exists first, rest.
Qed.

(** Editing a group saves the gap and nothing else.  From the list of
    groups, Enter on a group opens the field input on `direction`;
    submitting a direction saves nothing and calls nothing back, it only
    moves the input on to `gap`; submitting the gap saves a layout in
    which the group has the new gap and every other property it had,
    the direction it had before among them, whatever was typed for the
    direction.  The other groups and the page type overrides are as
    they were, and the panel is back on the zone grid with the notice
    "Groups updated". *)
Theorem group_edit_saves_gap_only
    (p : LayoutPanel.state) (comps : list ZoneComponent.t) (s : state)
    (name : string) (cfg : object) (direction gap : string) :
  LayoutPanel.view p = LayoutPanel.Groups ->
  NoDup (keys (groupsOf (LayoutPanel.layout p))) ->
  mode s = ModeList ->
  selectedGroup (LayoutPanel.layout p) s = Some (name, VObj cfg) ->
  exists s1 s2 p' g',
    LayoutViews.groupsStep SelectEnter comps (p, s) = Done (p, s1) /\
    LayoutViews.groupsStep (SubmitField direction) comps (p, s1)
      = Done (p, s2) /\
    LayoutViews.groupsStep (SubmitField gap) comps (p, s2) = Done (p', s2) /\
    LayoutPanel.layout p'
      = Some {| groups := Some g';
                byPageType := LayoutPanel.layout p ≫= byPageType |} /\
    getProp name g' = Some (VObj (setProp "gap" (VStr gap) cfg)) /\
    (forall k, k <> "gap" ->
               getProp k (setProp "gap" (VStr gap) cfg) = getProp k cfg) /\
    (forall k, k <> name ->
               getProp k g' = getProp k (groupsOf (LayoutPanel.layout p))) /\
    keys g' = keys (groupsOf (LayoutPanel.layout p)) /\
    LayoutPanel.plugins p' = LayoutPanel.plugins p /\
    LayoutPanel.view p' = LayoutPanel.Zones /\
    LayoutPanel.notices p'
      = LayoutPanel.notices p
        ++ [ {| message := "Groups updated"; noticeType := Success |} ].
Proof.
  intros Hview Hnd Hmode Hsel.
  destruct (selectedGroup_entry _ _ _ _ Hnd Hsel) as (Hget & Hin & first & rest & Hgroups).
  set (layout := LayoutPanel.layout p) in *.
  exists (setEditField (Some Direction) (setMode ModeEdit s)),
         (setEditField (Some Gap)
            (setEditField (Some Direction) (setMode ModeEdit s))),
         (LayoutPanel.exitView
            (LayoutPanel.notify "Groups updated" Success
               (LayoutPanel.saveLayout
                  (withGroups layout
                     (setProp name (VObj (setProp "gap" (VStr gap) cfg))
                        (groupsOf layout))) p))),
         (setProp name (VObj (setProp "gap" (VStr gap) cfg)) (groupsOf layout)).
  split.
  { unfold LayoutViews.groupsStep, step, screen. cbn [fst snd].
    fold layout. rewrite Hmode, Hsel, Hgroups. reflexivity. }
  split.
  { unfold LayoutViews.groupsStep, step, screen. cbn [fst snd].
    fold layout.
    change (selectedGroup layout
              (setEditField (Some Direction) (setMode ModeEdit s)))
      with (selectedGroup layout s).
    rewrite Hsel. reflexivity. }
  split.
  { unfold LayoutViews.groupsStep, step, screen. cbn [fst snd].
    fold layout.
    change (selectedGroup layout
              (setEditField (Some Gap)
                 (setEditField (Some Direction) (setMode ModeEdit s))))
      with (selectedGroup layout s).
    rewrite Hsel. cbn [mode editField setEditField setMode fst snd].
    unfold submitField. rewrite Hget. cbn [bind fst snd].
    unfold LayoutViews.deliverGroups, LayoutPanel.handle. rewrite Hview.
    reflexivity. }
  simpl.
  split; [done|].
  split; [apply getProp_setProp_eq|].
  split; [intros k Hk; by apply getProp_setProp_ne|].
  split; [intros k Hk; by apply getProp_setProp_ne|].
  split; [|done].
  unfold keys. rewrite setProp_setKey. by apply keys_setKey_present.
Qed.

Lemma assignKey_spec {A} name (v : A) l :
  (forall k, k <> name -> getKey k (assignKey name v l) = getKey k l) /\
  (name <> "__proto__" \/ name ∈ l.*1 ->
   getKey name (assignKey name v l) = Some v) /\
  (name = "__proto__" -> name ∉ l.*1 -> assignKey name v l = l).
Proof.
  unfold assignKey.
  destruct (String.eqb_spec name "__proto__") as [Hproto|Hproto];
    destruct (hasKey name l) eqn:Hhas; simpl.
  - split; [intros k Hk; by apply getKey_setKey_ne|].
    split; [intros _; apply getKey_setKey_eq|].
    intros _ Hnotin. by apply hasKey_true in Hhas.
  - split; [done|]. split; [|done].
    intros [?|Hin]; [done|]. apply hasKey_true in Hin. congruence.
  - split; [intros k Hk; by apply getKey_setKey_ne|].
    split; [intros _; apply getKey_setKey_eq | done].
  - split; [intros k Hk; by apply getKey_setKey_ne|].
    split; [intros _; apply getKey_setKey_eq | done].
Qed.

(** Adding and deleting a group.  A name that is blank once trimmed
    saves nothing and goes back to the list.  Any other name saves a
    layout in which every other group and the page type overrides are
    as they were, and in which the group of that name is a row with a
    gap of 0.5rem, also when a group of that name was there before with
    other settings, and also when the name is made of digits or is the
    name of a member that objects inherit, such as `constructor`.  The
    one exception is the name `__proto__` where the groups hold no key
    of that name: the assignment gives the groups another prototype
    and no new group, and the layout saved has the groups as they
    were.  `d` on a group asks for confirmation and `y` then saves a
    layout without that group and with every other group as it was;
    `n` saves nothing and goes back to the list. *)
Theorem group_add_and_delete (layout : option LayoutConfig) (s : state) :
  (mode s = ModeAdd ->
   forall value,
     (Str.trim value = "" ->
      step layout (SubmitName value) s = Done (setMode ModeList s, None)) /\
     (Str.trim value <> "" ->
      exists g',
        step layout (SubmitName value) s
          = Done (s, Some (Save {| groups := Some g';
                                   byPageType := layout ≫= byPageType |})) /\
        (forall k, k <> Str.trim value ->
                   getProp k g' = getProp k (groupsOf layout)) /\
        (Str.trim value <> "__proto__" \/
         Str.trim value ∈ keys (groupsOf layout) ->
         getProp (Str.trim value) g'
           = Some (VObj [("direction", VStr "row"); ("gap", VStr "0.5rem")])) /\
        (Str.trim value = "__proto__" ->
         Str.trim value ∉ keys (groupsOf layout) ->
         g' = groupsOf layout))) /\
  (mode s = ModeList ->
   forall name cfg,
     selectedGroup layout s = Some (name, cfg) ->
     exists s1 g',
       step layout (Key "d") s = Done (s1, None) /\
       step layout (Key "y") s1
         = Done (s1, Some (Save {| groups := Some g';
                                   byPageType := layout ≫= byPageType |})) /\
       getProp name g' = None /\
       (forall k, k <> name -> getProp k g' = getProp k (groupsOf layout)) /\
       step layout (Key "n") s1 = Done (s, None)).
Proof.
  split.
  - intros Hmode value. unfold step, screen. rewrite Hmode.
    unfold submitName. split.
    + intros ->. reflexivity.
    + intros Hname. apply String.eqb_neq in Hname. rewrite Hname.
      eexists. split; [reflexivity|].
      destruct (assignKey_spec (Str.trim value)
                  (VObj [("direction", VStr "row"); ("gap", VStr "0.5rem")])
                  (groupsOf layout)) as (Hother & Hset & Hproto).
      split; [intros k Hk; rewrite !getProp_getKey; by apply Hother|].
      split; [intros Hcase; rewrite getProp_getKey; by apply Hset|].
      exact Hproto.
  - intros Hmode name cfg Hsel.
    exists (setMode ModeConfirmDelete s), (deleteKey name (groupsOf layout)).
    assert (Hsel' : selectedGroup layout (setMode ModeConfirmDelete s)
                    = Some (name, cfg)) by exact Hsel.
    split.
    { unfold step, screen. rewrite Hmode. unfold onKey.
      rewrite Hmode, Hsel. reflexivity. }
    split.
    { unfold step, screen. rewrite Hsel'. reflexivity. }
    split; [rewrite getProp_getKey; apply getKey_deleteKey_eq|].
    split.
    { intros k Hk. rewrite !getProp_getKey. by apply getKey_deleteKey_ne. }
    unfold step, screen. rewrite Hsel'. simpl.
    destruct s as [sel m f]. simpl in Hmode. by subst m.
Qed.

End Groups.

(** *** The page types view *)

Section PageTypes.
Import PageTypesView.

Lemma overrideFor_withByPageType layout b k :
  overrideFor (withByPageType layout b) k = getKey k b.
Proof. reflexivity. Qed.

Lemma selectedEntry_key layout s pageType o :
  NoDup (byPageTypeOf layout).*1 ->
  selectedEntry layout s = Some (pageType, o) ->
  getKey pageType (byPageTypeOf layout) = Some o /\
  pageType ∈ (byPageTypeOf layout).*1.
Proof.
  intros Hnd Hsel. apply at_lookup in Hsel as [Hsel _].
  split; [by apply (getKey_lookup _ _ _ _ Hnd Hsel)|].
  apply list_elem_of_fmap. exists (pageType, o).
  split; [done|]. by apply list_elem_of_lookup_2 in Hsel.
Qed.

Lemma screen_selected layout s pageType o :
  selectedEntry layout s = Some (pageType, o) -> pageType <> "" ->
  screen layout s
  = match mode s with
    | ModeAdd => AddScreen
    | ModeConfirmDelete => ConfirmScreen pageType
    | ModeExclude => ExcludeScreen pageType
    | ModePositions => PositionsScreen pageType
    | ModeDetail => DetailScreen pageType
    | ModeList => ListScreen
    end.
Proof.
  intros Hsel Hne. unfold screen. rewrite Hsel.
  apply String.eqb_neq in Hne. rewrite Hne. by destruct (mode s).
Qed.

Lemma pageTypes_member cfg k :
  k ∈ pageTypes cfg <->
  k = "default" \/ exists l, byPageType cfg = Some l /\ k ∈ l.*1.
Proof.
  unfold pageTypes. destruct (byPageType cfg) as [l|].
  - destruct (LayoutOpsFacts.pageTypes_fold (map fst l) ["default"])
      as (_ & _ & H); [apply NoDup_singleton|].
    cbv zeta in H. rewrite H, list_elem_of_singleton. split.
    + intros [?|?]; [by left|]. right. by exists l.
    + intros [?|(? & [= <-] & ?)]; [by left | by right].
  - rewrite list_elem_of_singleton. split; [by left|].
    intros [?|(? & ? & _)]; done.
Qed.


(** Deleting a page type.  `d` on a page type asks for confirmation;
    `y` then saves a layout without that page type and with every other
    page type and the groups as they were, moves the cursor of the view
    up by one and goes back to the list.  A zone grid that still has the
    deleted page type as its active one shows the default grid.  `n`
    saves nothing and goes back to the list. *)
Theorem page_type_delete
    (layout : option LayoutConfig) (plugins : list EnrichedPlugin.t)
    (s : state) (pageType : string) (o : PageTypeOverride) :
  mode s = ModeList ->
  selectedEntry layout s = Some (pageType, o) ->
  pageType <> "" ->
  exists s1 s2 nl,
    step layout plugins (Key "d") s = Done (s1, None) /\
    step layout plugins (Key "y") s1 = Done (s2, Some (Save nl)) /\
    overrideFor nl pageType = None /\
    (forall k, k <> pageType ->
               overrideFor nl k = getKey k (byPageTypeOf layout)) /\
    groups nl = layout ≫= groups /\
    selected s2 = Z.max 0 (selected s - 1) /\
    mode s2 = ModeList /\
    (pageType <> "default" -> pageType ∉ pageTypes nl) /\
    zoneComponents plugins nl pageType = getZoneComponents plugins /\
    step layout plugins (Key "n") s1 = Done (s, None).
Proof.
  intros Hmode Hsel Hne.
  set (s1 := setMode ModeConfirmDelete s).
  assert (Hsel1 : selectedEntry layout s1 = Some (pageType, o)) by exact Hsel.
  exists s1, (setMode ModeList (setSelected (Z.max 0 (selected s1 - 1)) s1)),
    (withByPageType layout (deleteKey pageType (byPageTypeOf layout))).
  split.
  { unfold step. rewrite (screen_selected _ _ _ _ Hsel Hne), Hmode.
    unfold onKey. rewrite Hmode, Hsel. reflexivity. }
  split.
  { unfold step. rewrite (screen_selected _ _ _ _ Hsel1 Hne). reflexivity. }
  assert (Hgone : overrideFor
                    (withByPageType layout
                       (deleteKey pageType (byPageTypeOf layout))) pageType
                  = None).
  { rewrite overrideFor_withByPageType. apply getKey_deleteKey_eq. }
  split; [exact Hgone|].
  split.
  { intros k Hk. rewrite overrideFor_withByPageType.
    by apply getKey_deleteKey_ne. }
  split; [done|]. split; [done|]. split; [done|].
  split.
  { intros Hdef Hin. apply pageTypes_member in Hin as [?|(l & [= <-] & Hin)];
      [done|].
    pose proof (getKey_deleteKey_eq pageType (byPageTypeOf layout)) as Hnone.
    by apply getKey_None in Hnone. }
  split.
  { unfold zoneComponents. rewrite Hgone.
    destruct (getZoneComponents plugins); simpl; [|done|done].
    by destruct (String.eqb pageType "default"). }
  unfold step. rewrite (screen_selected _ _ _ _ Hsel1 Hne). simpl.
  destruct s as [sel m ps]. simpl in Hmode. by subst m.
Qed.

Lemma notExcluded_excludes o c :
  notExcluded o c = negb (excludes o (ZoneComponent.name c)).
Proof. unfold notExcluded, excludes. by destruct (exclude o). Qed.

Lemma existsb_filter_ne name other (l : list string) :
  existsb (String.eqb other)
    (filter (fun item => negb (String.eqb item name)) l)
  = existsb (String.eqb other) l && negb (String.eqb other name).
Proof.
  induction l as [|x rest IH]; [done|].
  rewrite filter_cons. simpl.
  destruct (String.eqb_spec x name) as [->|Hx]; simpl; rewrite IH.
  - destruct (String.eqb other name), (existsb (String.eqb other) rest); done.
  - destruct (String.eqb_spec other x) as [->|Ho]; simpl; [|done].
    by destruct (String.eqb_spec x name).
Qed.

(** Toggling a plugin in the exclude list of a page type.  Enter on an
    enabled plugin saves a layout in which the override of that page
    type excludes the plugin exactly when it did not before, and
    excludes every other name exactly when it did before; an exclude
    list that ends up empty is removed from the override, and so is a
    `positions` record that was empty.  The overrides of the other page
    types, their order and the groups are as they were, and the view
    stays on the exclude list. *)
Theorem exclude_toggles_one_plugin
    (layout : option LayoutConfig) (plugins : list EnrichedPlugin.t)
    (s : state) (pageType : string) (o : PageTypeOverride) (index : Z)
    (p : EnrichedPlugin.t) :
  NoDup (byPageTypeOf layout).*1 ->
  mode s = ModeExclude ->
  selectedEntry layout s = Some (pageType, o) ->
  pageType <> "" ->
  at_ (filter (fun p => EnrichedPlugin.enabled p) plugins) index = Some p ->
  EnrichedPlugin.name p <> "" ->
  exists nl o',
    step layout plugins (ExcludeSelect index) s = Done (s, Some (Save nl)) /\
    overrideFor nl pageType = Some o' /\
    excludes o' (EnrichedPlugin.name p) = negb (excludes o (EnrichedPlugin.name p)) /\
    (forall other, other <> EnrichedPlugin.name p ->
                   excludes o' other = excludes o other) /\
    (forall c, notExcluded o' c
               = if String.eqb (ZoneComponent.name c) (EnrichedPlugin.name p)
                 then negb (notExcluded o c) else notExcluded o c) /\
    exclude o' <> Some [] /\
    positions o' = match positions o with Some [] => None | other => other end /\
    (forall k, k <> pageType ->
               overrideFor nl k = getKey k (byPageTypeOf layout)) /\
    (default [] (byPageType nl)).*1 = (byPageTypeOf layout).*1 /\
    groups nl = layout ≫= groups.
Proof.
  intros Hnd Hmode Hsel Hne Hat Hname.
  destruct (selectedEntry_key _ _ _ _ Hnd Hsel) as [Hkey Hin].
  assert (Hover : selectedOverride layout s = o).
  { unfold selectedOverride. by rewrite Hsel. }
  set (name := EnrichedPlugin.name p) in *.
  set (old := default [] (exclude o)).
  set (nextExclude :=
         if existsb (String.eqb name) old
         then filter (fun item => negb (String.eqb item name)) old
         else old ++ [name]).
  set (o' := normalise {| exclude := Some nextExclude;
                          positions := positions o |}).
  exists (withByPageType layout (setKey pageType o' (byPageTypeOf layout))), o'.
  assert (Hmem : forall other,
            existsb (String.eqb other) nextExclude
            = if String.eqb other name then negb (existsb (String.eqb name) old)
              else existsb (String.eqb other) old).
  { intros other. unfold nextExclude.
    destruct (existsb (String.eqb name) old) eqn:Hex.
    - rewrite existsb_filter_ne.
      destruct (String.eqb_spec other name) as [->|_]; simpl.
      + by rewrite andb_false_r.
      + by rewrite andb_true_r.
    - rewrite existsb_app. simpl. rewrite orb_false_r.
      destruct (String.eqb_spec other name) as [->|_].
      + by rewrite Hex.
      + by rewrite orb_false_r. }
  assert (Hexcl : forall other,
            excludes o' other = existsb (String.eqb other) nextExclude).
  { intros other. unfold excludes, o', normalise. simpl.
    by destruct nextExclude. }
  split.
  { unfold step. rewrite (screen_selected _ _ _ _ Hsel Hne), Hmode.
    unfold excludeSelect. rewrite Hat. fold name.
    apply String.eqb_neq in Hname. rewrite Hname, Hover.
    unfold updatePageType. rewrite Hkey. reflexivity. }
  split; [rewrite overrideFor_withByPageType; apply getKey_setKey_eq|].
  split.
  { rewrite Hexcl, Hmem, String.eqb_refl. reflexivity. }
  split.
  { intros other Hother. rewrite Hexcl, Hmem.
    apply String.eqb_neq in Hother. by rewrite Hother. }
  split.
  { intros c. rewrite !notExcluded_excludes, Hexcl, Hmem.
    unfold excludes. fold old.
    destruct (String.eqb_spec (ZoneComponent.name c) name) as [->|_]; done. }
  split.
  { unfold o', normalise. simpl. by destruct nextExclude. }
  split; [reflexivity|].
  split.
  { intros k Hk. rewrite overrideFor_withByPageType.
    by apply getKey_setKey_ne. }
  split; [|done].
  simpl. by apply keys_setKey_present.
Qed.


End PageTypes.

(** *** Instances *)

Section GroupsInstances.
Import GroupsView.

Lemma group_edit_saves_gap_only_witness :
  let p := Examples.groupsPanel in
  let comps := Examples.headerComponents in
  let s := GroupsView.mount in
  let name := "toolbar" in
  let cfg := Examples.toolbarGroup in
  let direction := "column" in
  let gap := "2rem" in
  exists s1 s2 p' g',
    LayoutViews.groupsStep SelectEnter comps (p, s) = Done (p, s1) /\
    LayoutViews.groupsStep (SubmitField direction) comps (p, s1)
      = Done (p, s2) /\
    LayoutViews.groupsStep (SubmitField gap) comps (p, s2) = Done (p', s2) /\
    LayoutPanel.layout p'
      = Some {| groups := Some g';
                byPageType := LayoutPanel.layout p ≫= byPageType |} /\
    getProp name g' = Some (VObj (setProp "gap" (VStr gap) cfg)) /\
    (forall k, k <> "gap" ->
               getProp k (setProp "gap" (VStr gap) cfg) = getProp k cfg) /\
    (forall k, k <> name ->
               getProp k g' = getProp k (groupsOf (LayoutPanel.layout p))) /\
    keys g' = keys (groupsOf (LayoutPanel.layout p)) /\
    LayoutPanel.plugins p' = LayoutPanel.plugins p /\
    LayoutPanel.view p' = LayoutPanel.Zones /\
    LayoutPanel.notices p'
      = LayoutPanel.notices p
        ++ [ {| message := "Groups updated"; noticeType := Success |} ].
Proof.
  intros p comps s name cfg direction gap.
  apply (group_edit_saves_gap_only p comps s name cfg direction gap).
  - reflexivity.
  - apply NoDup_singleton.
  - reflexivity.
  - reflexivity.
Defined.

Lemma group_add_and_delete_witness :
  let layout := Some Examples.blogLayout in
  let s := setMode ModeAdd GroupsView.mount in
  let row := VObj [("direction", VStr "row"); ("gap", VStr "0.5rem")] in
  let saved (g' : object) :=
    Done (s, Some (Save {| groups := Some g';
                           byPageType := layout ≫= byPageType |})) in
  step layout (SubmitName " 404 ") s
    = saved [("404", row); ("toolbar", VObj Examples.toolbarGroup)] /\
  step layout (SubmitName "constructor") s
    = saved [("toolbar", VObj Examples.toolbarGroup); ("constructor", row)] /\
  step layout (SubmitName "__proto__") s
    = saved [("toolbar", VObj Examples.toolbarGroup)] /\
  (exists g',
      step layout (SubmitName "sidebar") s = saved g' /\
      getProp "sidebar" g' = Some row /\
      getProp "toolbar" g' = Some (VObj Examples.toolbarGroup)).
Proof.
  intros layout s row saved.
  split; [reflexivity|]. split; [reflexivity|]. split; [reflexivity|].
  destruct (proj2 (proj1 (group_add_and_delete layout s) eq_refl "sidebar")
              ltac:(discriminate))
    as (g' & Hstep & Hother & Hset & _).
  exists g'. split; [exact Hstep|]. split.
  - apply Hset. left. discriminate.
  - rewrite Hother by discriminate. reflexivity.
Defined.

End GroupsInstances.

Section PageTypesInstances.
Import PageTypesView.


Lemma page_type_delete_witness :
  let layout := Some Examples.blogLayout in
  let plugins := LayoutPanel.getEnrichedPlugins Sample.headerPlugins in
  let s := Examples.pageTypesIn PageTypesView.ModeList in
  let pageType := "blog" in
  let o := Examples.blogOverride in
  exists s1 s2 nl,
    step layout plugins (Key "d") s = Done (s1, None) /\
    step layout plugins (Key "y") s1 = Done (s2, Some (Save nl)) /\
    overrideFor nl pageType = None /\
    (forall k, k <> pageType ->
               overrideFor nl k = getKey k (byPageTypeOf layout)) /\
    groups nl = layout ≫= groups /\
    selected s2 = Z.max 0 (selected s - 1) /\
    mode s2 = ModeList /\
    (pageType <> "default" -> pageType ∉ pageTypes nl) /\
    zoneComponents plugins nl pageType = getZoneComponents plugins /\
    step layout plugins (Key "n") s1 = Done (s, None).
Proof.
  intros layout plugins s pageType o.
  apply (page_type_delete layout plugins s pageType o).
  - reflexivity.
  - reflexivity.
  - discriminate.
Defined.

Lemma exclude_toggles_one_plugin_witness :
  let layout := Some Examples.blogLayout in
  let plugins := LayoutPanel.getEnrichedPlugins Sample.headerPlugins in
  let s := Examples.pageTypesIn PageTypesView.ModeExclude in
  let pageType := "blog" in
  let o := Examples.blogOverride in
  let index := 0 in
  let p := LayoutPanel.withIndex 0 (Sample.headerPlugin "search" "Search" 10) in
  exists nl o',
    step layout plugins (ExcludeSelect index) s = Done (s, Some (Save nl)) /\
    overrideFor nl pageType = Some o' /\
    excludes o' (EnrichedPlugin.name p) = negb (excludes o (EnrichedPlugin.name p)) /\
    (forall other, other <> EnrichedPlugin.name p ->
                   excludes o' other = excludes o other) /\
    (forall c, notExcluded o' c
               = if String.eqb (ZoneComponent.name c) (EnrichedPlugin.name p)
                 then negb (notExcluded o c) else notExcluded o c) /\
    exclude o' <> Some [] /\
    positions o' = match positions o with Some [] => None | other => other end /\
    (forall k, k <> pageType ->
               overrideFor nl k = getKey k (byPageTypeOf layout)) /\
    (default [] (byPageType nl)).*1 = (byPageTypeOf layout).*1 /\
    groups nl = layout ≫= groups.
Proof.
  intros layout plugins s pageType o index p.
  apply (exclude_toggles_one_plugin layout plugins s pageType o index p).
  - apply NoDup_singleton.
  - reflexivity.
  - reflexivity.
  - discriminate.
  - reflexivity.
  - discriminate.
Defined.


End PageTypesInstances.

End SubviewFacts.
(** ** Plugin names *)

Module PluginSourceFacts.
Import Settings PluginSource.

Lemma startsWith_app pre l : startsWith pre (pre ++ l) = true.
Proof.
  induction pre as [|p pre IH]; simpl; [by destruct l|].
  by rewrite Ascii.eqb_refl.
Qed.

Lemma startsWith_true pre l :
  startsWith pre l = true -> l = pre ++ drop (length pre) l.
Proof.
  revert l. induction pre as [|p pre IH]; intros l; simpl; [done|].
  destruct l as [|c rest]; [done|].
  destruct (Ascii.eqb_spec p c) as [->|_]; [|done]. simpl.
  intros H. f_equal. by apply IH.
Qed.

Lemma replaceFirst_unfold pat rep l :
  replaceFirst pat rep l
  = if startsWith pat l then rep ++ drop (length pat) l
    else match l with
         | [] => []
         | c :: rest => c :: replaceFirst pat rep rest
         end.
Proof. by destruct l. Qed.

Lemma replaceFirst_prefix pat rep l :
  replaceFirst pat rep (pat ++ l) = rep ++ l.
Proof.
  rewrite replaceFirst_unfold, startsWith_app. by rewrite drop_app_length.
Qed.

Lemma replaceFirst_absent pat rep l :
  (forall a b, l <> a ++ pat ++ b) -> replaceFirst pat rep l = l.
Proof.
  induction l as [|c rest IH]; intros Habsent; rewrite replaceFirst_unfold.
  - destruct (startsWith pat []) eqn:Hs; [|done].
    apply startsWith_true in Hs. exfalso. by apply (Habsent [] (drop (length pat) [])).
  - destruct (startsWith pat (c :: rest)) eqn:Hs.
    + apply startsWith_true in Hs. exfalso.
      by apply (Habsent [] (drop (length pat) (c :: rest))).
    + f_equal. apply IH. intros a b ->. by apply (Habsent (c :: a) b).
Qed.

Lemma split_cons sep c rest :
  split sep (c :: rest)
  = if Ascii.eqb c sep then [] :: split sep rest
    else match split sep rest with
         | first :: more => (c :: first) :: more
         | [] => [[c]]
         end.
Proof. reflexivity. Qed.

Lemma split_absent sep l : sep ∉ l -> split sep l = [l].
Proof.
  induction l as [|c rest IH]; [done|].
  intros [Hc Hrest]%not_elem_of_cons. rewrite split_cons.
  destruct (Ascii.eqb_spec c sep); [congruence|]. by rewrite IH.
Qed.

Lemma split_first sep a b :
  sep ∉ a -> split sep (a ++ sep :: b) = a :: split sep b.
Proof.
  induction a as [|c rest IH]; simpl.
  - intros _. by rewrite Ascii.eqb_refl.
  - intros [Hc Hrest]%not_elem_of_cons.
    destruct (Ascii.eqb_spec c sep); [congruence|]. by rewrite IH.
Qed.

Lemma split_not_nil sep l : split sep l <> [].
Proof.
  destruct l as [|c rest]; [done|]. rewrite split_cons.
  destruct (Ascii.eqb c sep); [done|]. by destruct (split sep rest).
Qed.

Lemma split_two sep a b :
  exists x y more, split sep (a ++ sep :: b) = x :: y :: more.
Proof.
  induction a as [|c rest IH].
  - simpl. rewrite Ascii.eqb_refl.
    pose proof (split_not_nil sep b). destruct (split sep b) as [|y more];
      [done|]. by exists [], y, more.
  - change ((c :: rest) ++ sep :: b) with (c :: (rest ++ sep :: b)).
    rewrite split_cons. destruct IH as (x & y & more & ->).
    destruct (Ascii.eqb c sep); by eexists _, _, _.
Qed.

Lemma last_split sep a b :
  List.last (split sep (a ++ sep :: b)) [] = List.last (split sep b) [].
Proof.
  induction a as [|c rest IH].
  - simpl. rewrite Ascii.eqb_refl.
    pose proof (split_not_nil sep b). by destruct (split sep b).
  - change ((c :: rest) ++ sep :: b) with (c :: (rest ++ sep :: b)).
    rewrite split_cons. rewrite <- IH.
    destruct (split_two sep rest b) as (x & y & more & ->).
    by destruct (Ascii.eqb c sep).
Qed.

(** *** The regular expression *)

Lemma hashOrEnd_blocked x c rest :
  "#"%char ∉ x -> c <> "#"%char -> hashOrEnd (x ++ c :: rest) = false.
Proof.
  destruct x as [|d x]; simpl.
  - intros _ Hc. by apply Ascii.eqb_neq.
  - intros [Hd _]%not_elem_of_cons _. by apply Ascii.eqb_neq.
Qed.

Lemma startsWith_git_short x c rest :
  (length x < 4)%nat -> c <> "."%char -> c <> "g"%char -> c <> "i"%char ->
  c <> "t"%char ->
  startsWith (Str.explode ".git") (x ++ c :: rest) = false.
Proof.
  intros Hlen H1 H2 H3 H4.
  apply Ascii.eqb_neq in H1, H2, H3, H4.
  rewrite Ascii.eqb_sym in H1. rewrite Ascii.eqb_sym in H2.
  rewrite Ascii.eqb_sym in H3. rewrite Ascii.eqb_sym in H4.
  destruct x as [|c1 [|c2 [|c3 [|c4 x]]]]; simpl in *; try lia;
    rewrite ?H1, ?H2, ?H3, ?H4, ?andb_false_r; done.
Qed.

Lemma afterName_blocked x rest :
  "#"%char ∉ x -> afterName (x ++ "/"%char :: rest) = false.
Proof.
  intros Hx. unfold afterName.
  rewrite (hashOrEnd_blocked x) by done. rewrite orb_false_r.
  destruct (decide (length x < 4)%nat) as [Hshort|Hlong].
  - by rewrite startsWith_git_short.
  - rewrite drop_app_le by lia.
    rewrite (hashOrEnd_blocked (drop 4 x)); [apply andb_false_r| |done].
    intros Hin. apply Hx. by apply (subseteq_drop 4 x).
Qed.

Lemma capture_blocked x rest :
  "#"%char ∉ x -> capture (x ++ "/"%char :: rest) = None.
Proof.
  induction x as [|c x IH]; simpl; [done|].
  intros [Hc Hx]%not_elem_of_cons.
  destruct (Ascii.eqb c "/"); [done|].
  rewrite afterName_blocked by done. by rewrite IH.
Qed.

Lemma matchName_skip base rest :
  "#"%char ∉ base ->
  matchName (base ++ "/"%char :: rest)
  = match capture rest with
    | Some name => Some name
    | None => matchName rest
    end.
Proof.
  induction base as [|c base IH]; [done|].
  intros [Hc Hbase]%not_elem_of_cons. simpl.
  destruct (Ascii.eqb c "/"); [|by apply IH].
  rewrite capture_blocked by done. by apply IH.
Qed.

Lemma afterName_git ending :
  hashOrEnd ending = true -> afterName (Str.explode ".git" ++ ending) = true.
Proof.
  intros H. unfold afterName. rewrite startsWith_app.
  change (drop 4 (Str.explode ".git" ++ ending)) with ending.
  by rewrite H.
Qed.

Lemma afterName_inside b ending :
  b <> [] -> "#"%char ∉ b ->
  afterName (b ++ Str.explode ".git" ++ ending) = false.
Proof.
  intros Hb Hhash. unfold afterName.
  assert (H1 : hashOrEnd (b ++ Str.explode ".git" ++ ending) = false).
  { destruct b as [|c b]; [done|]. simpl.
    apply not_elem_of_cons in Hhash as [Hc _]. by apply Ascii.eqb_neq. }
  rewrite H1, orb_false_r.
  destruct (decide (length b < 4)%nat) as [Hshort|Hlong].
  - destruct b as [|c1 [|c2 [|c3 [|c4 b]]]]; simpl in *; try lia; try done;
      repeat match goal with
             | |- context [Ascii.eqb ?a ?b] =>
                 destruct (Ascii.eqb_spec a b); subst; simpl; try done
             end.
  - rewrite drop_app_le by lia.
    destruct (drop 4 b) as [|c rest] eqn:Hdrop; simpl;
      [apply andb_false_r|].
    assert (Hc : c ∈ b).
    { apply (subseteq_drop 4 b). rewrite Hdrop. apply list_elem_of_here. }
    destruct (Ascii.eqb_spec c "#") as [->|_]; [done | apply andb_false_r].
Qed.

Lemma capture_name name ending :
  name <> [] -> "/"%char ∉ name -> "#"%char ∉ name ->
  hashOrEnd ending = true ->
  capture (name ++ Str.explode ".git" ++ ending) = Some name.
Proof.
  intros Hne Hslash Hhash Hend.
  induction name as [|c name IH]; [done|].
  apply not_elem_of_cons in Hslash as [Hc Hslash].
  apply not_elem_of_cons in Hhash as [_ Hhash].
  change ((c :: name) ++ Str.explode ".git" ++ ending)
    with (c :: (name ++ Str.explode ".git" ++ ending)).
  cbn [capture]. destruct (Ascii.eqb_spec c "/"); [done|].
  destruct name as [|d name].
  - change ([] ++ Str.explode ".git" ++ ending)
      with (Str.explode ".git" ++ ending).
    by rewrite afterName_git.
  - rewrite afterName_inside by done. by rewrite IH.
Qed.

Lemma matchName_url base name ending :
  "#"%char ∉ base ->
  name <> [] -> "/"%char ∉ name -> "#"%char ∉ name ->
  hashOrEnd ending = true ->
  matchName (base ++ "/"%char :: name ++ Str.explode ".git" ++ ending)
  = Some name.
Proof.
  intros Hbase Hne Hslash Hhash Hend.
  rewrite matchName_skip by done. by rewrite capture_name.
Qed.

(** *** The name of a plugin *)

Lemma hashOrEnd_ref ref :
  PanelSpec.isRefSuffix ref -> hashOrEnd (Str.explode ref) = true.
Proof. intros [->|(r & ->)]; reflexivity. Qed.

Lemma split_ref body ref :
  "#"%char ∉ body -> PanelSpec.isRefSuffix ref ->
  hd [] (split "#" (body ++ Str.explode ref)) = body.
Proof.
  intros Hbody [->|(r & ->)].
  - simpl. rewrite app_nil_r. by rewrite split_absent.
  - change (Str.explode ("#" +:+ r)) with ("#"%char :: Str.explode r).
    by rewrite split_first.
Qed.

(** The name `extractPluginName` gives a plugin is the repository name
    of its source.  For the shorthand `github:owner/repo`, with or
    without `#ref`, it is what follows the last slash; for a git URL
    that ends in `/repo.git`, with or without `#ref` and with or
    without `git+` in front, it is `repo`.  A URL that ends in a slash
    has no name to find, and the whole source is returned. *)
Theorem plugin_name_of_source (repo ref : string) :
  PanelSpec.lacks "/" repo -> PanelSpec.lacks "#" repo ->
  PanelSpec.isRefSuffix ref ->
  (forall path,
     PanelSpec.lacks "#" path ->
     extractPluginName ("github:" +:+ path +:+ "/" +:+ repo +:+ ref) = repo) /\
  extractPluginName ("github:" +:+ repo +:+ ref) = repo /\
  (repo <> "" ->
   forall base,
     PanelSpec.lacks "#" base ->
     extractPluginName ("git+" +:+ base +:+ "/" +:+ repo +:+ ".git" +:+ ref)
     = repo) /\
  (repo <> "" ->
   forall rest,
     PanelSpec.lacks "#" rest ->
     (forall a b, "https://" +:+ rest +:+ "/" +:+ repo +:+ ".git" +:+ ref
                  <> a +:+ "git+" +:+ b) ->
     extractPluginName ("https://" +:+ rest +:+ "/" +:+ repo +:+ ".git" +:+ ref)
     = repo) /\
  (forall rest,
     PanelSpec.lacks "#" rest ->
     (forall a b, "https://" +:+ rest +:+ "/" <> a +:+ "git+" +:+ b) ->
     extractPluginName ("https://" +:+ rest +:+ "/")
     = "https://" +:+ rest +:+ "/").
Proof.
  unfold PanelSpec.lacks. intros Hslash Hhash Href.
  assert (Habsent : forall source,
            (forall a b, source <> a +:+ "git+" +:+ b) ->
            replaceFirst (Str.explode "git+") [] (Str.explode source)
            = Str.explode source).
  { intros source Hsrc. apply replaceFirst_absent. intros a b Heq.
    apply (Hsrc (Str.implode a) (Str.implode b)).
    apply ColorFacts.explode_inj.
    by rewrite !ColorFacts.explode_app, !ColorFacts.explode_implode. }
  assert (Hrepo : Str.explode repo <> [] <-> repo <> "").
  { by rewrite ColorFacts.explode_nil. }
  split; [|split; [|split; [|split]]].
  - intros path Hpath. unfold extractPluginName.
    rewrite !ColorFacts.explode_app.
    rewrite startsWith_app, replaceFirst_prefix. simpl app at 1.
    change (Str.explode path ++ "/"%char :: Str.explode repo ++ Str.explode ref)
      with (Str.explode path ++ ("/"%char :: Str.explode repo) ++ Str.explode ref).
    rewrite app_assoc, split_ref; [| |done].
    + rewrite last_split, split_absent by done. simpl.
      apply ColorFacts.implode_explode.
    + rewrite not_elem_of_app. split; [done|]. by apply not_elem_of_cons.
  - unfold extractPluginName. rewrite !ColorFacts.explode_app.
    rewrite startsWith_app, replaceFirst_prefix. simpl app at 1.
    rewrite split_ref by done. rewrite split_absent by done. simpl.
    apply ColorFacts.implode_explode.
  - intros Hne base Hbase. unfold extractPluginName.
    rewrite !ColorFacts.explode_app.
    change (startsWith (Str.explode "github:") (Str.explode "git+" ++ _))
      with false.
    rewrite startsWith_app, replaceFirst_prefix. simpl app at 1.
    cbn [orb]. change (Str.explode "/") with ["/"%char].
    change (["/"%char] ++ ?x) with ("/"%char :: x). rewrite app_nil_l.
    rewrite matchName_url; [apply ColorFacts.implode_explode|done| |done|done|].
    + by apply Hrepo.
    + by apply hashOrEnd_ref.
  - intros Hne rest Hrest Hnogit. unfold extractPluginName.
    rewrite (Habsent _ Hnogit). rewrite !ColorFacts.explode_app.
    change (startsWith (Str.explode "github:") (Str.explode "https://" ++ _))
      with false.
    change (startsWith (Str.explode "git+") (Str.explode "https://" ++ _))
      with false.
    rewrite startsWith_app. cbn [orb].
    change (Str.explode "/") with ["/"%char].
    rewrite (app_assoc (Str.explode "https://")).
    change (["/"%char] ++ ?x) with ("/"%char :: x).
    rewrite matchName_url; [apply ColorFacts.implode_explode| |
                            by apply Hrepo|done|done|by apply hashOrEnd_ref].
    rewrite not_elem_of_app. split; [|done]. simpl.
    rewrite !not_elem_of_cons. repeat split; try done. apply not_elem_of_nil.
  - intros rest Hrest Hnogit. unfold extractPluginName.
    rewrite (Habsent _ Hnogit). rewrite !ColorFacts.explode_app.
    change (startsWith (Str.explode "github:") (Str.explode "https://" ++ _))
      with false.
    change (startsWith (Str.explode "git+") (Str.explode "https://" ++ _))
      with false.
    rewrite startsWith_app. cbn [orb].
    change (Str.explode "/") with ["/"%char].
    rewrite (app_assoc (Str.explode "https://")).
    rewrite matchName_skip; [done|].
    rewrite not_elem_of_app. split; [|done]. simpl.
    rewrite !not_elem_of_cons. repeat split; try done. apply not_elem_of_nil.
Qed.

Lemma plugin_name_of_source_witness :
  (forall path,
     PanelSpec.lacks "#" path ->
     extractPluginName ("github:" +:+ path +:+ "/" +:+ "explorer" +:+ "#v5")
     = "explorer") /\
  extractPluginName ("github:" +:+ "explorer" +:+ "#v5") = "explorer" /\
  ("explorer" <> "" ->
   forall base,
     PanelSpec.lacks "#" base ->
     extractPluginName
       ("git+" +:+ base +:+ "/" +:+ "explorer" +:+ ".git" +:+ "#v5")
     = "explorer") /\
  ("explorer" <> "" ->
   forall rest,
     PanelSpec.lacks "#" rest ->
     (forall a b, "https://" +:+ rest +:+ "/" +:+ "explorer" +:+ ".git" +:+ "#v5"
                  <> a +:+ "git+" +:+ b) ->
     extractPluginName
       ("https://" +:+ rest +:+ "/" +:+ "explorer" +:+ ".git" +:+ "#v5")
     = "explorer") /\
  (forall rest,
     PanelSpec.lacks "#" rest ->
     (forall a b, "https://" +:+ rest +:+ "/" <> a +:+ "git+" +:+ b) ->
     extractPluginName ("https://" +:+ rest +:+ "/")
     = "https://" +:+ rest +:+ "/").
Proof.
  apply (plugin_name_of_source "explorer" "#v5").
  - unfold PanelSpec.lacks. simpl. rewrite !not_elem_of_cons.
    repeat split; try done. apply not_elem_of_nil.
  - unfold PanelSpec.lacks. simpl. rewrite !not_elem_of_cons.
    repeat split; try done. apply not_elem_of_nil.
  - right. by exists "v5".
Defined.

End PluginSourceFacts.
